(** * MICO STM32F4xx UART driver: a shallow embedding of platform_uart.c

    The development follows the RTOS build of the driver (NO_MICO_RTOS
    undefined): completion signals are RTOS semaphores and transmit calls
    are serialised by [tx_mutex].

    Layout of the file:
    - data model: result codes, ring buffer, peripheral description,
      driver instance, device registers;
    - the interrupt service routines, as total-or-faulting functions on
      the world (interrupt context never blocks);
    - the environment: what the hardware does between two steps of a
      task (bytes arriving, DMA status changes, time passing);
    - the task-side operations, in a monad that threads the world and
      the schedule of environment events, and that distinguishes a
      returned value from undefined behaviour and from a task that
      stays blocked;
    - the theorems. *)

From Stdlib Require Import ZArith List Bool Lia.
From Stdlib.Strings Require Import Byte.
Import ListNotations.
Open Scope Z_scope.

(** ** Result codes and machine integers *)

(** OSStatus values used by the driver. *)
Inductive OSStatus : Type :=
| kNoErr
| kGeneralErr
| kParamErr
| kTimeoutErr.

Definition OSStatus_eqb (a b : OSStatus) : bool :=
  match a, b with
  | kNoErr, kNoErr | kGeneralErr, kGeneralErr
  | kParamErr, kParamErr | kTimeoutErr, kTimeoutErr => true
  | _, _ => false
  end.


(** uint32_t arithmetic wraps modulo 2^32. *)
Definition wrap32 (z : Z) : Z := z mod 4294967296.

(** The sentinel timeout that disables the deadline of a wait. *)
Definition MICO_NEVER_TIMEOUT : Z := 4294967295.

(** MIN(x, y), the usual two-armed macro. *)
Definition MIN (x y : Z) : Z := if x <? y then x else y.

(** ** Ring buffer *)

(** ring_buffer_t: the backing store ([None] is a NULL pointer), its
    capacity, the consumer cursor and the producer cursor. *)
Record ring_buffer_t : Type := mk_ring {
  rb_buffer : option (list byte);
  rb_size   : Z;
  rb_head   : Z;
  rb_tail   : Z
}.

Definition set_rb_tail (t : Z) (rb : ring_buffer_t) : ring_buffer_t :=
  mk_ring (rb_buffer rb) (rb_size rb) (rb_head rb) t.

Definition set_rb_head (h : Z) (rb : ring_buffer_t) : ring_buffer_t :=
  mk_ring (rb_buffer rb) (rb_size rb) h (rb_tail rb).

Definition set_rb_buffer (b : option (list byte)) (rb : ring_buffer_t)
  : ring_buffer_t :=
  mk_ring b (rb_size rb) (rb_head rb) (rb_tail rb).

(** Modelled from the spec: ring_buffer_used_space is not in the driver's
    file.  The used space is derived from the two cursors: the distance
    from the head cursor to the tail cursor, around the capacity. *)
Definition ring_buffer_used_space (rb : ring_buffer_t) : Z :=
  let head_to_end := wrap32 (rb_size rb - rb_head rb) in
  wrap32 (head_to_end + rb_tail rb) mod rb_size rb.

(** Modelled from the spec: ring_buffer_get_data is not in the driver's
    file.  It exposes the longest contiguous run of used bytes that starts
    at the head cursor: its offset in the store and its length. *)
Definition ring_buffer_get_data (rb : ring_buffer_t) : Z * Z :=
  let head_to_end := wrap32 (rb_size rb - rb_head rb) in
  (rb_head rb, MIN head_to_end (ring_buffer_used_space rb)).

(** Modelled from the spec: ring_buffer_consume is not in the driver's
    file.  It advances the head cursor by the bytes consumed, wrapping at
    the capacity. *)
Definition ring_buffer_consume (rb : ring_buffer_t) (bytes_consumed : Z)
  : ring_buffer_t :=
  set_rb_head (wrap32 (rb_head rb + bytes_consumed) mod rb_size rb) rb.

(** Cells [off, off + n) of a store, as memcpy reads them. *)
Definition read_cells (cells : list byte) (off n : Z) : list byte :=
  firstn (Z.to_nat n) (skipn (Z.to_nat off) cells).

(** One cell of a store overwritten; out of range the store is unchanged. *)
Fixpoint write_cell (cells : list byte) (i : nat) (b : byte) : list byte :=
  match cells, i with
  | [], _ => []
  | _ :: tl, O => b :: tl
  | c :: tl, S i' => c :: write_cell tl i' b
  end.

(** ** Peripheral description *)

Inductive USART_TypeDef : Type :=
| USART1 | USART2 | USART3 | UART4 | UART5 | USART6
| USART_other.

Definition platform_uart_get_port_number (uart : USART_TypeDef) : Z :=
  match uart with
  | USART1 => 0
  | USART2 => 1
  | USART3 => 2
  | UART4  => 3
  | UART5  => 4
  | USART6 => 5
  | USART_other => 255
  end.

(** IRQn_Type: the six UART vectors by name, every other vector by its
    number. *)
Inductive IRQn_Type : Type :=
| USART1_IRQn | USART2_IRQn | USART3_IRQn
| UART4_IRQn | UART5_IRQn | USART6_IRQn
| Other_IRQn (n : Z).

Definition IRQn_eqb (a b : IRQn_Type) : bool :=
  match a, b with
  | USART1_IRQn, USART1_IRQn | USART2_IRQn, USART2_IRQn
  | USART3_IRQn, USART3_IRQn | UART4_IRQn, UART4_IRQn
  | UART5_IRQn, UART5_IRQn | USART6_IRQn, USART6_IRQn => true
  | Other_IRQn n, Other_IRQn m => n =? m
  | _, _ => false
  end.

(** uart_irq_vectors[]; an index outside the table has no entry. *)
Definition uart_irq_vectors (uart_number : Z) : option IRQn_Type :=
  match uart_number with
  | 0 => Some USART1_IRQn
  | 1 => Some USART2_IRQn
  | 2 => Some USART3_IRQn
  | 3 => Some UART4_IRQn
  | 4 => Some UART5_IRQn
  | 5 => Some USART6_IRQn
  | _ => None
  end.

Definition NUMBER_OF_UART_PORTS : Z := 6.

(** The tables uart_alternate_functions[], uart_peripheral_clocks[] and
    uart_peripheral_clock_functions[] share the index range of the vector
    table; their entries only reach collaborators outside the driver, so
    an access is represented by its index. *)
Definition uart_table_index (uart_number : Z) : option Z :=
  if (0 <=? uart_number) && (uart_number <? NUMBER_OF_UART_PORTS)
  then Some uart_number else None.

Inductive DMA_TypeDef : Type := DMA1 | DMA2.

(** The four pending-flag registers a stream can report in. *)
Inductive dma_status_reg : Type :=
| DMA1_LISR | DMA1_HISR | DMA2_LISR | DMA2_HISR.

Definition dma_status_reg_eqb (a b : dma_status_reg) : bool :=
  match a, b with
  | DMA1_LISR, DMA1_LISR | DMA1_HISR, DMA1_HISR
  | DMA2_LISR, DMA2_LISR | DMA2_HISR, DMA2_HISR => true
  | _, _ => false
  end.

(** platform_dma_config_t.  A stream pointer is kept as its rank in address
    order: DMA1_Stream0..7 are 0..7 and DMA2_Stream0..7 are 8..15. *)
Record platform_dma_config_t : Type := mk_dma_config {
  controller     : DMA_TypeDef;
  stream         : Z;
  channel        : Z;
  irq_vector     : IRQn_Type;
  complete_flags : Z;
  error_flags    : Z
}.

Definition DMA1_Stream3 : Z := 3.
Definition DMA1_Stream7 : Z := 7.
Definition DMA2_Stream3 : Z := 11.

(** platform_uart_t; pins are kept as identifiers, absent CTS/RTS pins as
    [None]. *)
Record platform_uart_t : Type := mk_uart {
  port          : USART_TypeDef;
  pin_tx        : Z;
  pin_rx        : Z;
  pin_cts       : option Z;
  pin_rts       : option Z;
  tx_dma_config : platform_dma_config_t;
  rx_dma_config : platform_dma_config_t
}.

(** ** Line configuration *)

(** The enumerated fields are integers in C: a value that the driver does
    not name is representable; init rejects it for the parity and for the
    flow control. *)
Inductive platform_uart_data_width_t : Type :=
| DATA_WIDTH_8BIT | DATA_WIDTH_9BIT
| data_width_other (v : Z).

Inductive platform_uart_parity_t : Type :=
| NO_PARITY | ODD_PARITY | EVEN_PARITY
| parity_out_of_range (v : Z).

Inductive platform_uart_stop_bits_t : Type :=
| STOP_BITS_1 | STOP_BITS_2.

Inductive platform_uart_flow_control_t : Type :=
| FLOW_CONTROL_DISABLED | FLOW_CONTROL_CTS | FLOW_CONTROL_RTS
| FLOW_CONTROL_CTS_RTS
| flow_control_out_of_range (v : Z).

Record platform_uart_config_t : Type := mk_config {
  baud_rate          : Z;
  data_width         : platform_uart_data_width_t;
  parity             : platform_uart_parity_t;
  stop_bits          : platform_uart_stop_bits_t;
  flow_control       : platform_uart_flow_control_t;
  UART_WAKEUP_ENABLE : bool   (* config->flags & UART_WAKEUP_ENABLE *)
}.

(** ** Driver instance *)

(** An RTOS semaphore handle: [None] before it is created and after it is
    deleted, otherwise whether its single token is present. *)
Definition mico_semaphore_t : Type := option bool.

(** An RTOS mutex handle: [None] when it does not exist, otherwise whether
    it is held. *)
Definition mico_mutex_t : Type := option bool.

(** platform_uart_driver_t. *)
Record platform_uart_driver_t : Type := mk_driver {
  peripheral           : option platform_uart_t;
  rx_buffer            : option ring_buffer_t;
  rx_size              : Z;
  tx_size              : Z;
  last_transmit_result : OSStatus;
  last_receive_result  : OSStatus;
  tx_complete          : mico_semaphore_t;
  rx_complete          : mico_semaphore_t;
  sem_wakeup           : mico_semaphore_t;
  tx_mutex             : mico_mutex_t
}.

(** ** Device registers *)

(** The addresses the driver handles: NULL, the backing store of the ring
    buffer, a buffer owned by the caller. *)
Inductive address : Type :=
| NULL
| ring_store
| caller_buffer.

(** The registers of one DMA stream.  The bits of CR are kept by name:
    EN, CIRC, and the interrupt enables that
    DMA_ITConfig(stream, DMA_INTERRUPT_FLAGS, _) switches together.
    [NDTR_reload] is the count the controller reloads in circular mode: the
    last value written to NDTR. *)
Record DMA_Stream_TypeDef : Type := mk_stream {
  CR_EN       : bool;
  CR_CIRC     : bool;
  CR_IE       : bool;
  NDTR        : Z;
  NDTR_reload : Z;
  M0AR        : address;
  dma_dir_mem_to_periph : bool;    (* DMA_DIR of the last DMA_Init *)
  dma_channel : Z;                  (* DMA_Channel of the last DMA_Init *)
  dma_halfword : bool               (* data size of the last DMA_Init *)
}.

(** USART_InitTypeDef as init fills it. *)
Record USART_InitTypeDef : Type := mk_usart_init {
  USART_BaudRate            : Z;
  USART_WordLength_9b       : bool;
  USART_StopBits_2          : bool;
  USART_Parity              : platform_uart_parity_t;
  USART_HardwareFlowControl : platform_uart_flow_control_t
}.

(** The registers of the UART, bits by name. *)
Record USART_regs : Type := mk_usart {
  CR1_UE     : bool;     (* USART_Cmd *)
  CR1_TE     : bool;
  CR1_RE     : bool;
  CR1_RXNEIE : bool;     (* USART_ITConfig(USART_IT_RXNE) *)
  CR3_DMAT   : bool;     (* USART_DMACmd(USART_DMAReq_Tx) *)
  CR3_DMAR   : bool;     (* USART_DMACmd(USART_DMAReq_Rx) *)
  SR_TC      : bool;
  usart_init : option USART_InitTypeDef
}.

Record hardware : Type := mk_hw {
  usart      : USART_regs;
  tx_stream  : DMA_Stream_TypeDef;
  rx_stream  : DMA_Stream_TypeDef;
  dma_status : dma_status_reg -> Z;
  nvic       : IRQn_Type -> bool
}.

(** ** Calls that leave the driver *)

Inductive sem_id : Type := sem_tx_complete | sem_rx_complete | sem_wakeup_id.

(** The calls to collaborators whose effect is not part of the world, and
    the RTOS calls, in program order. *)
Inductive call : Type :=
| PowersaveDisable
| PowersaveEnable
| GpioSetAlternateFunction (pin : Z) (pull_up : bool) (table_index : Z)
| UartClockCmd (table_index : Z) (enable : bool)
| DmaClockEnable (c : DMA_TypeDef)
| InitSemaphoreHandle            (* mico_rtos_init_semaphore(driver->sem_wakeup, 1) *)
| CreateThreadWakeup
| LockMutex
| UnlockMutex
| SetSemaphore (s : sem_id)
| GetSemaphore (s : sem_id) (timeout : Z).

Record world : Type := mk_world {
  drv   : platform_uart_driver_t;
  hw    : hardware;
  trace : list call
}.

(** ** Field updates *)

Definition set_peripheral (p : option platform_uart_t) (d : platform_uart_driver_t) :=
  mk_driver p (rx_buffer d) (rx_size d) (tx_size d) (last_transmit_result d)
            (last_receive_result d) (tx_complete d) (rx_complete d)
            (sem_wakeup d) (tx_mutex d).

Definition set_rx_buffer (r : option ring_buffer_t) (d : platform_uart_driver_t) :=
  mk_driver (peripheral d) r (rx_size d) (tx_size d) (last_transmit_result d)
            (last_receive_result d) (tx_complete d) (rx_complete d)
            (sem_wakeup d) (tx_mutex d).

Definition set_rx_size (n : Z) (d : platform_uart_driver_t) :=
  mk_driver (peripheral d) (rx_buffer d) n (tx_size d) (last_transmit_result d)
            (last_receive_result d) (tx_complete d) (rx_complete d)
            (sem_wakeup d) (tx_mutex d).

Definition set_tx_size (n : Z) (d : platform_uart_driver_t) :=
  mk_driver (peripheral d) (rx_buffer d) (rx_size d) n (last_transmit_result d)
            (last_receive_result d) (tx_complete d) (rx_complete d)
            (sem_wakeup d) (tx_mutex d).

Definition set_last_transmit_result (r : OSStatus) (d : platform_uart_driver_t) :=
  mk_driver (peripheral d) (rx_buffer d) (rx_size d) (tx_size d) r
            (last_receive_result d) (tx_complete d) (rx_complete d)
            (sem_wakeup d) (tx_mutex d).

Definition set_last_receive_result (r : OSStatus) (d : platform_uart_driver_t) :=
  mk_driver (peripheral d) (rx_buffer d) (rx_size d) (tx_size d)
            (last_transmit_result d) r (tx_complete d) (rx_complete d)
            (sem_wakeup d) (tx_mutex d).

Definition set_tx_complete (s : mico_semaphore_t) (d : platform_uart_driver_t) :=
  mk_driver (peripheral d) (rx_buffer d) (rx_size d) (tx_size d)
            (last_transmit_result d) (last_receive_result d) s (rx_complete d)
            (sem_wakeup d) (tx_mutex d).

Definition set_rx_complete (s : mico_semaphore_t) (d : platform_uart_driver_t) :=
  mk_driver (peripheral d) (rx_buffer d) (rx_size d) (tx_size d)
            (last_transmit_result d) (last_receive_result d) (tx_complete d) s
            (sem_wakeup d) (tx_mutex d).

Definition set_sem_wakeup (s : mico_semaphore_t) (d : platform_uart_driver_t) :=
  mk_driver (peripheral d) (rx_buffer d) (rx_size d) (tx_size d)
            (last_transmit_result d) (last_receive_result d) (tx_complete d)
            (rx_complete d) s (tx_mutex d).

Definition set_tx_mutex (m : mico_mutex_t) (d : platform_uart_driver_t) :=
  mk_driver (peripheral d) (rx_buffer d) (rx_size d) (tx_size d)
            (last_transmit_result d) (last_receive_result d) (tx_complete d)
            (rx_complete d) (sem_wakeup d) m.

Definition set_CR_EN (b : bool) (s : DMA_Stream_TypeDef) :=
  mk_stream b (CR_CIRC s) (CR_IE s) (NDTR s) (NDTR_reload s) (M0AR s)
            (dma_dir_mem_to_periph s) (dma_channel s) (dma_halfword s).

Definition set_CR_CIRC (b : bool) (s : DMA_Stream_TypeDef) :=
  mk_stream (CR_EN s) b (CR_IE s) (NDTR s) (NDTR_reload s) (M0AR s)
            (dma_dir_mem_to_periph s) (dma_channel s) (dma_halfword s).

Definition set_CR_IE (b : bool) (s : DMA_Stream_TypeDef) :=
  mk_stream (CR_EN s) (CR_CIRC s) b (NDTR s) (NDTR_reload s) (M0AR s)
            (dma_dir_mem_to_periph s) (dma_channel s) (dma_halfword s).

(** A write to NDTR also sets the count reloaded in circular mode. *)
Definition set_NDTR (n : Z) (s : DMA_Stream_TypeDef) :=
  mk_stream (CR_EN s) (CR_CIRC s) (CR_IE s) n n (M0AR s)
            (dma_dir_mem_to_periph s) (dma_channel s) (dma_halfword s).

(** The count as the running controller decrements it. *)
Definition count_NDTR (n : Z) (s : DMA_Stream_TypeDef) :=
  mk_stream (CR_EN s) (CR_CIRC s) (CR_IE s) n (NDTR_reload s) (M0AR s)
            (dma_dir_mem_to_periph s) (dma_channel s) (dma_halfword s).

Definition set_M0AR (m : address) (s : DMA_Stream_TypeDef) :=
  mk_stream (CR_EN s) (CR_CIRC s) (CR_IE s) (NDTR s) (NDTR_reload s) m
            (dma_dir_mem_to_periph s) (dma_channel s) (dma_halfword s).

Definition set_CR1_UE (b : bool) (u : USART_regs) :=
  mk_usart b (CR1_TE u) (CR1_RE u) (CR1_RXNEIE u) (CR3_DMAT u) (CR3_DMAR u)
           (SR_TC u) (usart_init u).

Definition set_CR1_TE (b : bool) (u : USART_regs) :=
  mk_usart (CR1_UE u) b (CR1_RE u) (CR1_RXNEIE u) (CR3_DMAT u) (CR3_DMAR u)
           (SR_TC u) (usart_init u).

Definition set_CR1_RE (b : bool) (u : USART_regs) :=
  mk_usart (CR1_UE u) (CR1_TE u) b (CR1_RXNEIE u) (CR3_DMAT u) (CR3_DMAR u)
           (SR_TC u) (usart_init u).

Definition set_CR1_RXNEIE (b : bool) (u : USART_regs) :=
  mk_usart (CR1_UE u) (CR1_TE u) (CR1_RE u) b (CR3_DMAT u) (CR3_DMAR u)
           (SR_TC u) (usart_init u).

Definition set_CR3_DMAT (b : bool) (u : USART_regs) :=
  mk_usart (CR1_UE u) (CR1_TE u) (CR1_RE u) (CR1_RXNEIE u) b (CR3_DMAR u)
           (SR_TC u) (usart_init u).

Definition set_CR3_DMAR (b : bool) (u : USART_regs) :=
  mk_usart (CR1_UE u) (CR1_TE u) (CR1_RE u) (CR1_RXNEIE u) (CR3_DMAT u) b
           (SR_TC u) (usart_init u).

Definition set_SR_TC (b : bool) (u : USART_regs) :=
  mk_usart (CR1_UE u) (CR1_TE u) (CR1_RE u) (CR1_RXNEIE u) (CR3_DMAT u)
           (CR3_DMAR u) b (usart_init u).

Definition set_usart (u : USART_regs) (h : hardware) :=
  mk_hw u (tx_stream h) (rx_stream h) (dma_status h) (nvic h).

Definition set_tx_stream (s : DMA_Stream_TypeDef) (h : hardware) :=
  mk_hw (usart h) s (rx_stream h) (dma_status h) (nvic h).

Definition set_rx_stream (s : DMA_Stream_TypeDef) (h : hardware) :=
  mk_hw (usart h) (tx_stream h) s (dma_status h) (nvic h).

Definition set_dma_status (f : dma_status_reg -> Z) (h : hardware) :=
  mk_hw (usart h) (tx_stream h) (rx_stream h) f (nvic h).

Definition set_nvic (f : IRQn_Type -> bool) (h : hardware) :=
  mk_hw (usart h) (tx_stream h) (rx_stream h) (dma_status h) f.

Definition upd_drv (f : platform_uart_driver_t -> platform_uart_driver_t)
  (w : world) : world :=
  mk_world (f (drv w)) (hw w) (trace w).

Definition upd_hw (f : hardware -> hardware) (w : world) : world :=
  mk_world (drv w) (f (hw w)) (trace w).

Definition upd_usart (f : USART_regs -> USART_regs) (w : world) : world :=
  upd_hw (fun h => set_usart (f (usart h)) h) w.

Definition upd_tx_stream (f : DMA_Stream_TypeDef -> DMA_Stream_TypeDef)
  (w : world) : world :=
  upd_hw (fun h => set_tx_stream (f (tx_stream h)) h) w.

Definition upd_rx_stream (f : DMA_Stream_TypeDef -> DMA_Stream_TypeDef)
  (w : world) : world :=
  upd_hw (fun h => set_rx_stream (f (rx_stream h)) h) w.

Definition log (c : call) (w : world) : world :=
  mk_world (drv w) (hw w) (trace w ++ [c]).

(** ** Register-level helpers of the driver *)

(** A write of ones to an interrupt flag clear register clears the same
    bits of the matching status register. *)
Definition clear_status (r : dma_status_reg) (flags : Z) (h : hardware)
  : hardware :=
  set_dma_status
    (fun x => if dma_status_reg_eqb x r
              then Z.ldiff (dma_status h r) flags
              else dma_status h x) h.

(** The controller raising flags in a status register. *)
Definition raise_status (r : dma_status_reg) (flags : Z) (h : hardware)
  : hardware :=
  set_dma_status
    (fun x => if dma_status_reg_eqb x r
              then Z.lor (dma_status h r) flags
              else dma_status h x) h.

Definition clear_dma_interrupts (stream : Z) (flags : Z) (h : hardware)
  : hardware :=
  if stream <=? DMA1_Stream3 then clear_status DMA1_LISR flags h
  else if stream <=? DMA1_Stream7 then clear_status DMA1_HISR flags h
  else if stream <=? DMA2_Stream3 then clear_status DMA2_LISR flags h
  else clear_status DMA2_HISR flags h.

Definition get_dma_irq_status (stream : Z) (h : hardware) : Z :=
  if stream <=? DMA1_Stream3 then dma_status h DMA1_LISR
  else if stream <=? DMA1_Stream7 then dma_status h DMA1_HISR
  else if stream <=? DMA2_Stream3 then dma_status h DMA2_LISR
  else dma_status h DMA2_HISR.

Definition NVIC_EnableIRQ (v : IRQn_Type) (h : hardware) : hardware :=
  set_nvic (fun x => if IRQn_eqb x v then true else nvic h x) h.

Definition NVIC_DisableIRQ (v : IRQn_Type) (h : hardware) : hardware :=
  set_nvic (fun x => if IRQn_eqb x v then false else nvic h x) h.

(** ** RTOS primitives *)

Definition get_sem (s : sem_id) (d : platform_uart_driver_t) : mico_semaphore_t :=
  match s with
  | sem_tx_complete => tx_complete d
  | sem_rx_complete => rx_complete d
  | sem_wakeup_id => sem_wakeup d
  end.

Definition put_sem (s : sem_id) (v : mico_semaphore_t)
  (d : platform_uart_driver_t) : platform_uart_driver_t :=
  match s with
  | sem_tx_complete => set_tx_complete v d
  | sem_rx_complete => set_rx_complete v d
  | sem_wakeup_id => set_sem_wakeup v d
  end.

(** Modelled from the spec: mico_rtos_set_semaphore belongs to the RTOS
    layer, outside the driver's file.  A Completion Signal is a binary
    signal counted by one: signalling makes its token present, and a signal
    that finds the token present adds nothing.  A handle that was never
    created cannot be signalled. *)
Definition mico_rtos_set_semaphore (s : sem_id) (w : world) : option world :=
  match get_sem s (drv w) with
  | None => None
  | Some _ => Some (log (SetSemaphore s) (upd_drv (put_sem s (Some true)) w))
  end.

(** ** Interrupt service routines *)

(** platform_uart_irq.  The store of all ones to SR changes no status bit
    of the model: the status bits are cleared by writing zero.  A NULL
    [rx_buffer] or [peripheral] is dereferenced: no result. *)
Definition platform_uart_irq (w : world) : option world :=
  match peripheral (drv w), rx_buffer (drv w) with
  | Some _, Some rb =>
      (* Update tail *)
      let rb1 := set_rb_tail (wrap32 (rb_size rb - NDTR (rx_stream (hw w)))) rb in
      let w1 := upd_drv (set_rx_buffer (Some rb1)) w in
      (* Notify thread if sufficient data are available *)
      let notified :=
        if (0 <? rx_size (drv w1))
           && (rx_size (drv w1) <=? ring_buffer_used_space rb1)
        then option_map (upd_drv (set_rx_size 0))
                        (mico_rtos_set_semaphore sem_rx_complete w1)
        else Some w1 in
      match notified with
      | None => None
      | Some w2 =>
          match sem_wakeup (drv w2) with
          | Some _ => mico_rtos_set_semaphore sem_wakeup_id w2
          | None => Some w2
          end
      end
  | _, _ => None
  end.

Definition platform_uart_tx_dma_irq (w : world) : option world :=
  match peripheral (drv w) with
  | None => None
  | Some p =>
      let c := tx_dma_config p in
      let w1 :=
        if negb (Z.land (get_dma_irq_status (stream c) (hw w)) (complete_flags c) =? 0)
        then upd_drv (set_last_transmit_result kNoErr)
               (upd_hw (clear_dma_interrupts (stream c) (complete_flags c)) w)
        else w in
      let w2 :=
        if negb (Z.land (get_dma_irq_status (stream c) (hw w1)) (error_flags c) =? 0)
        then upd_drv (set_last_transmit_result kGeneralErr)
               (upd_hw (clear_dma_interrupts (stream c) (error_flags c)) w1)
        else w1 in
      if 0 <? tx_size (drv w2)
      then mico_rtos_set_semaphore sem_tx_complete w2
      else Some w2
  end.

Definition platform_uart_rx_dma_irq (w : world) : option world :=
  match peripheral (drv w) with
  | None => None
  | Some p =>
      let c := rx_dma_config p in
      let w1 :=
        if negb (Z.land (get_dma_irq_status (stream c) (hw w)) (complete_flags c) =? 0)
        then upd_drv (set_last_receive_result kNoErr)
               (upd_hw (clear_dma_interrupts (stream c) (complete_flags c)) w)
        else w in
      let w2 :=
        if negb (Z.land (get_dma_irq_status (stream c) (hw w1)) (error_flags c) =? 0)
        then upd_drv (set_last_receive_result kGeneralErr)
               (upd_hw (clear_dma_interrupts (stream c) (error_flags c)) w1)
        else w1 in
      if 0 <? rx_size (drv w2)
      then mico_rtos_set_semaphore sem_rx_complete w2
      else Some w2
  end.

(** ** Environment *)

(** What happens around the task while it waits.
    - [Tick]: one millisecond passes.
    - [UartRx b]: a byte arrives on the line; the receive DMA stream, if
      armed, moves it to memory, and the UART raises its receive interrupt.
    - [UartTxDone]: the transmit shift register has emptied; the UART sets
      its transmission complete status bit.
    - [DmaTxStatus f], [DmaRxStatus f]: the DMA controller raises the flags
      [f] in the status register of the transmit (receive) stream and
      requests that stream's interrupt.
    - [MutexReleased]: the task that holds the transmit mutex releases it.
    An interrupt is delivered when its vector is enabled in the interrupt
    controller and its source is enabled at the device. *)
Inductive event : Type :=
| Tick
| UartRx (b : byte)
| UartTxDone
| DmaTxStatus (flags : Z)
| DmaRxStatus (flags : Z)
| MutexReleased.

Definition raise_dma_status (stream : Z) (flags : Z) (h : hardware) : hardware :=
  if stream <=? DMA1_Stream3 then raise_status DMA1_LISR flags h
  else if stream <=? DMA1_Stream7 then raise_status DMA1_HISR flags h
  else if stream <=? DMA2_Stream3 then raise_status DMA2_LISR flags h
  else raise_status DMA2_HISR flags h.

(** The receive stream moving one byte: it is stored at the current
    position of the transfer, the count goes down by one, and at zero a
    circular transfer starts over while a one-shot transfer stops. *)
Definition dma_rx_store (b : byte) (w : world) : world :=
  let s := rx_stream (hw w) in
  if CR_EN s && CR3_DMAR (usart (hw w)) && (0 <? NDTR s) then
    let position := NDTR_reload s - NDTR s in
    let w1 :=
      match M0AR s, rx_buffer (drv w) with
      | ring_store, Some rb =>
          match rb_buffer rb with
          | Some cells =>
              upd_drv (set_rx_buffer
                (Some (set_rb_buffer
                         (Some (write_cell cells (Z.to_nat position) b)) rb))) w
          | None => w
          end
      | _, _ => w
      end in
    if NDTR s - 1 =? 0
    then if CR_CIRC s
         then upd_rx_stream (count_NDTR (NDTR_reload s)) w1
         else upd_rx_stream (fun r => set_CR_EN false (count_NDTR 0 r)) w1
    else upd_rx_stream (count_NDTR (NDTR s - 1)) w1
  else w.

Definition env_step (e : event) (w : world) : option world :=
  match e with
  | Tick => Some w
  | UartTxDone => Some (upd_usart (set_SR_TC true) w)
  | MutexReleased =>
      match tx_mutex (drv w) with
      | Some _ => Some (upd_drv (set_tx_mutex (Some false)) w)
      | None => Some w
      end
  | UartRx b =>
      if CR1_UE (usart (hw w)) && CR1_RE (usart (hw w)) then
        let w1 := dma_rx_store b w in
        match peripheral (drv w1) with
        | None => Some w1
        | Some p =>
            match uart_irq_vectors (platform_uart_get_port_number (port p)) with
            | Some v =>
                if nvic (hw w1) v && CR1_RXNEIE (usart (hw w1))
                then platform_uart_irq w1
                else Some w1
            | None => Some w1
            end
        end
      else Some w
  | DmaTxStatus f =>
      match peripheral (drv w) with
      | None => Some w
      | Some p =>
          let c := tx_dma_config p in
          let w1 := upd_hw (raise_dma_status (stream c) f) w in
          if nvic (hw w1) (irq_vector c) && CR_IE (tx_stream (hw w1))
          then platform_uart_tx_dma_irq w1
          else Some w1
      end
  | DmaRxStatus f =>
      match peripheral (drv w) with
      | None => Some w
      | Some p =>
          let c := rx_dma_config p in
          let w1 := upd_hw (raise_dma_status (stream c) f) w in
          if nvic (hw w1) (irq_vector c) && CR_IE (rx_stream (hw w1))
          then platform_uart_rx_dma_irq w1
          else Some w1
      end
  end.

(** A run of events with no task stepping in between. *)
Fixpoint env_run (evs : list event) (w : world) : option world :=
  match evs with
  | [] => Some w
  | e :: evs' =>
      match env_step e w with
      | Some w' => env_run evs' w'
      | None => None
      end
  end.

(** ** Task monad *)

(** A task-side operation runs against the schedule of the events to come
    and the world.  It returns a value with the rest of the schedule and
    the new world, or it has no defined behaviour, or it does not return:
    it is still waiting when the schedule ends, or it loops. *)
Inductive outcome (A : Type) : Type :=
| Ret (a : A) (evs : list event) (w : world)
| Undefined
| NoReturn.

Arguments Ret {A} a evs w.
Arguments Undefined {A}.
Arguments NoReturn {A}.

Definition task (A : Type) : Type := list event -> world -> outcome A.

Definition ret {A} (a : A) : task A := fun evs w => Ret a evs w.

Definition bind {A B} (m : task A) (k : A -> task B) : task B :=
  fun evs w =>
    match m evs w with
    | Ret a evs' w' => k a evs' w'
    | Undefined => Undefined
    | NoReturn => NoReturn
    end.

Declare Scope task_scope.
Delimit Scope task_scope with task.
Notation "x <- m ;; k" := (bind m (fun x => k))
  (at level 61, m at next level, right associativity) : task_scope.
Notation "m ;; k" := (bind m (fun _ => k))
  (at level 61, right associativity) : task_scope.
Open Scope task_scope.

Definition modify (f : world -> world) : task unit :=
  fun evs w => Ret tt evs (f w).

Definition read {A} (f : world -> A) : task A :=
  fun evs w => Ret (f w) evs w.

(** A dereference: the pointee, or no defined behaviour on NULL. *)
Definition deref {A} (f : world -> option A) : task A :=
  fun evs w =>
    match f w with
    | Some a => Ret a evs w
    | None => Undefined
    end.

(** Polling: the task makes no progress until the environment moves. *)
Definition await_event : task unit :=
  fun evs w =>
    match evs with
    | [] => NoReturn
    | e :: evs' =>
        match env_step e w with
        | Some w' => Ret tt evs' w'
        | None => Undefined
        end
    end.

(** ** RTOS waits *)

(** The deadline of a wait goes down with each millisecond, unless the
    wait has none. *)
Definition tick_down (e : event) (remaining : Z) : Z :=
  match e with
  | Tick => if remaining =? MICO_NEVER_TIMEOUT then remaining else remaining - 1
  | _ => remaining
  end.

(** Modelled from the spec: mico_rtos_get_semaphore belongs to the RTOS
    layer, outside the driver's file.  The caller blocks on the Completion
    Signal until it is signalled, which consumes the token and is a
    success, or until the timeout elapses, which is a timeout error; the
    sentinel timeout never elapses. *)
Fixpoint sem_wait (s : sem_id) (remaining : Z) (evs : list event) (w : world)
  {struct evs} : outcome OSStatus :=
  match get_sem s (drv w) with
  | None => Undefined
  | Some true => Ret kNoErr evs (upd_drv (put_sem s (Some false)) w)
  | Some false =>
      if remaining =? 0 then Ret kTimeoutErr evs w
      else
        match evs with
        | [] => NoReturn
        | e :: evs' =>
            match env_step e w with
            | Some w' => sem_wait s (tick_down e remaining) evs' w'
            | None => Undefined
            end
        end
  end.

Definition mico_rtos_get_semaphore (s : sem_id) (timeout_ms : Z) : task OSStatus :=
  fun evs w => sem_wait s timeout_ms evs (log (GetSemaphore s timeout_ms) w).

(** Modelled from the spec: mico_rtos_lock_mutex belongs to the RTOS layer,
    outside the driver's file.  The transmit mutex serialises callers: a
    caller that finds it held waits until the holder releases it. *)
Fixpoint lock_wait (evs : list event) (w : world) {struct evs} : outcome unit :=
  match tx_mutex (drv w) with
  | None => Undefined
  | Some false => Ret tt evs (log LockMutex (upd_drv (set_tx_mutex (Some true)) w))
  | Some true =>
      match evs with
      | [] => NoReturn
      | e :: evs' =>
          match env_step e w with
          | Some w' => lock_wait evs' w'
          | None => Undefined
          end
      end
  end.

Definition mico_rtos_lock_mutex : task unit := lock_wait.

(** Modelled from the spec: mico_rtos_unlock_mutex belongs to the RTOS
    layer, outside the driver's file.  It releases the transmit mutex. *)
Definition mico_rtos_unlock_mutex : task unit :=
  fun evs w =>
    match tx_mutex (drv w) with
    | None => Undefined
    | Some _ => Ret tt evs (log UnlockMutex (upd_drv (set_tx_mutex (Some false)) w))
    end.

(** while ( ( port->SR & USART_SR_TC ) == 0 ) { } *)
Fixpoint wait_transmission_complete (evs : list event) (w : world)
  {struct evs} : outcome unit :=
  if SR_TC (usart (hw w)) then Ret tt evs w
  else
    match evs with
    | [] => NoReturn
    | e :: evs' =>
        match env_step e w with
        | Some w' => wait_transmission_complete evs' w'
        | None => Undefined
        end
    end.

(** ** Peripheral library calls, by their effect on the bits the driver uses *)

Definition USART_reset : USART_regs :=
  mk_usart false false false false false false true None.

Definition DMA_Stream_reset : DMA_Stream_TypeDef :=
  mk_stream false false false 0 0 NULL false 0 false.

(** DMA_Init with the structure init fills: mode normal, buffer size
    0xFFFF, memory address 0. *)
Definition DMA_Init (mem_to_periph : bool) (chan : Z) (halfword : bool)
  (s : DMA_Stream_TypeDef) : DMA_Stream_TypeDef :=
  mk_stream (CR_EN s) false (CR_IE s) 65535 65535 NULL mem_to_periph chan halfword.

(** ** Task-side operations *)

Inductive driver_ptr : Type := driver_NULL | driver_instance.

Definition the_peripheral : task platform_uart_t :=
  deref (fun w => peripheral (drv w)).

(** receive_bytes: arm the receive stream on [data] for [size] bytes, in
    circular mode when the driver has a ring buffer, and wait for the RX
    Completion Signal only if [timeout] is not zero. *)
Definition receive_bytes (data : address) (size : Z) (timeout : Z) : task OSStatus :=
  p <- the_peripheral ;;
  rb <- read (fun w => rx_buffer (drv w)) ;;
  match rb with
  | Some _ =>
      modify (upd_rx_stream (set_CR_CIRC true)) ;;
      (* USART_ClearITPendingBit( port, USART_IT_RXNE ) *)
      modify (upd_usart (set_CR1_RXNEIE true))
  | None =>
      modify (upd_drv (set_rx_size size)) ;;
      modify (upd_rx_stream (set_CR_CIRC false))
  end ;;
  modify (upd_hw (clear_dma_interrupts (stream (rx_dma_config p))
            (Z.lor (complete_flags (rx_dma_config p)) (error_flags (rx_dma_config p))))) ;;
  modify (upd_rx_stream (set_NDTR size)) ;;
  modify (upd_rx_stream (set_M0AR data)) ;;
  modify (upd_rx_stream (set_CR_EN true)) ;;
  modify (upd_usart (set_CR3_DMAR true)) ;;
  if 0 <? timeout
  then mico_rtos_get_semaphore sem_rx_complete timeout
  else ret kNoErr.

Definition ring_buffer_arg_ok (optional_ring_buffer : option ring_buffer_t) : bool :=
  match optional_ring_buffer with
  | None => true
  | Some rb =>
      match rb_buffer rb with
      | Some _ => negb (rb_size rb =? 0)
      | None => false
      end
  end.

Definition flow_control_uses_cts (f : platform_uart_flow_control_t) : bool :=
  match f with
  | FLOW_CONTROL_CTS | FLOW_CONTROL_CTS_RTS => true
  | _ => false
  end.

Definition flow_control_uses_rts (f : platform_uart_flow_control_t) : bool :=
  match f with
  | FLOW_CONTROL_RTS | FLOW_CONTROL_CTS_RTS => true
  | _ => false
  end.

Definition word_length_9b (cfg : platform_uart_config_t) : bool :=
  match data_width cfg, parity cfg with
  | DATA_WIDTH_9BIT, _ => true
  | DATA_WIDTH_8BIT, NO_PARITY => false
  | DATA_WIDTH_8BIT, _ => true
  | _, _ => false
  end.

Definition dma_halfword_of (cfg : platform_uart_config_t) : bool :=
  match data_width cfg with
  | DATA_WIDTH_9BIT => true
  | _ => false
  end.

Definition init_exit (err : OSStatus) : task OSStatus :=
  modify (log PowersaveEnable) ;;
  ret err.

(** The part of platform_uart_init that follows the two switch statements:
    the UART and both DMA streams are initialised, the interrupts enabled,
    and reception is primed or the RX DMA interrupt enabled. *)
Definition init_hardware (p : platform_uart_t) (cfg : platform_uart_config_t)
  (uart_init_structure : USART_InitTypeDef)
  (optional_ring_buffer : option ring_buffer_t) : task unit :=
  let uart_number := platform_uart_get_port_number (port p) in
  (* Initialise USART peripheral *)
  modify (upd_usart (fun _ => USART_reset)) ;;
  modify (upd_usart (fun u =>
    mk_usart (CR1_UE u) (CR1_TE u) (CR1_RE u) (CR1_RXNEIE u) (CR3_DMAT u)
             (CR3_DMAR u) (SR_TC u) (Some uart_init_structure))) ;;
  (* Enable DMA peripheral clock *)
  modify (log (DmaClockEnable
                 (match controller (tx_dma_config p) with
                  | DMA1 => DMA1
                  | DMA2 => DMA2
                  end))) ;;
  (* Initialise TX DMA *)
  modify (upd_tx_stream (fun _ => DMA_Stream_reset)) ;;
  modify (upd_tx_stream (DMA_Init true (channel (tx_dma_config p)) (dma_halfword_of cfg))) ;;
  (* Initialise RX DMA *)
  modify (upd_rx_stream (fun _ => DMA_Stream_reset)) ;;
  modify (upd_rx_stream (DMA_Init false (channel (rx_dma_config p)) (dma_halfword_of cfg))) ;;
  (* Configure TX DMA interrupt *)
  modify (upd_hw (NVIC_EnableIRQ (irq_vector (tx_dma_config p)))) ;;
  modify (upd_hw (clear_dma_interrupts (stream (tx_dma_config p))
            (Z.lor (complete_flags (tx_dma_config p)) (error_flags (tx_dma_config p))))) ;;
  modify (upd_tx_stream (set_CR_IE true)) ;;
  (* Enable USART interrupt vector *)
  v <- deref (fun _ => uart_irq_vectors uart_number) ;;
  modify (upd_hw (NVIC_EnableIRQ v)) ;;
  modify (upd_usart (set_CR3_DMAT false)) ;;
  (* Enable USART *)
  modify (upd_usart (set_CR1_UE true)) ;;
  (* Enable both transmit and receive *)
  modify (upd_usart (set_CR1_TE true)) ;;
  modify (upd_usart (set_CR1_RE true)) ;;
  (* Setup ring buffer *)
  match optional_ring_buffer with
  | Some rb =>
      modify (upd_drv (set_rx_buffer (Some rb))) ;;
      modify (upd_drv (set_rx_size 0)) ;;
      _ <- receive_bytes (match rb_buffer rb with Some _ => ring_store | None => NULL end)
                         (rb_size rb) 0 ;;
      ret tt
  | None =>
      (* Not using ring buffer. Configure RX DMA interrupt *)
      modify (upd_hw (NVIC_EnableIRQ (irq_vector (rx_dma_config p)))) ;;
      modify (upd_hw (clear_dma_interrupts (stream (rx_dma_config p))
                (Z.lor (complete_flags (rx_dma_config p)) (error_flags (rx_dma_config p))))) ;;
      modify (upd_rx_stream (set_CR_IE true))
  end.

(** The part of platform_uart_init between the reset of the driver fields
    and the two switch statements: pin multiplexing, the optional wake-up
    thread, and the peripheral clock.  [af] is the index used in the
    tables of alternate functions and of clocks. *)
Definition init_pin_mapping (p : platform_uart_t) (cfg : platform_uart_config_t)
  (af : Z) : task unit :=
  (* Configure TX and RX pin_mapping *)
  modify (log (GpioSetAlternateFunction (pin_tx p) true af)) ;;
  modify (log (GpioSetAlternateFunction (pin_rx p) true af)) ;;
  match pin_cts p with
  | Some pin =>
      if flow_control_uses_cts (flow_control cfg)
      then modify (log (GpioSetAlternateFunction pin false af))
      else ret tt
  | None => ret tt
  end ;;
  match pin_rts p with
  | Some pin =>
      if flow_control_uses_rts (flow_control cfg)
      then modify (log (GpioSetAlternateFunction pin false af))
      else ret tt
  | None => ret tt
  end ;;
  (if UART_WAKEUP_ENABLE cfg
   then modify (log InitSemaphoreHandle) ;;
        modify (log CreateThreadWakeup)
   else ret tt) ;;
  (* Enable UART peripheral clock *)
  modify (log (UartClockCmd af true)).

Definition platform_uart_init (driver : driver_ptr)
  (peripheral_arg : option platform_uart_t)
  (config : option platform_uart_config_t)
  (optional_ring_buffer : option ring_buffer_t) : task OSStatus :=
  modify (log PowersaveDisable) ;;
  match driver, peripheral_arg, config with
  | driver_instance, Some p, Some cfg =>
      if ring_buffer_arg_ok optional_ring_buffer then
        let uart_number := platform_uart_get_port_number (port p) in
        modify (upd_drv (set_rx_size 0)) ;;
        modify (upd_drv (set_tx_size 0)) ;;
        modify (upd_drv (set_last_transmit_result kNoErr)) ;;
        modify (upd_drv (set_last_receive_result kNoErr)) ;;
        modify (upd_drv (set_peripheral (Some p))) ;;
        modify (upd_drv (set_tx_complete (Some false))) ;;
        modify (upd_drv (set_rx_complete (Some false))) ;;
        modify (upd_drv (set_sem_wakeup (Some false))) ;;
        modify (upd_drv (set_tx_mutex (Some false))) ;;
        af <- deref (fun _ => uart_table_index uart_number) ;;
        init_pin_mapping p cfg af ;;
        match parity cfg with
        | parity_out_of_range _ => init_exit kParamErr
        | uart_parity =>
            match flow_control cfg with
            | flow_control_out_of_range _ => init_exit kParamErr
            | uart_flow =>
                init_hardware p cfg
                  (mk_usart_init (baud_rate cfg) (word_length_9b cfg)
                     (match stop_bits cfg with
                      | STOP_BITS_1 => false
                      | STOP_BITS_2 => true
                      end)
                     uart_parity uart_flow)
                  optional_ring_buffer ;;
                init_exit kNoErr
            end
        end
      else init_exit kParamErr
  | _, _, _ => init_exit kParamErr
  end.

Definition undefined {A} : task A := fun _ _ => Undefined.

Definition platform_uart_deinit (driver : driver_ptr) : task OSStatus :=
  modify (log PowersaveDisable) ;;
  match driver with
  | driver_NULL => init_exit kParamErr
  | driver_instance =>
      p <- the_peripheral ;;
      let uart_number := platform_uart_get_port_number (port p) in
      (* Disable USART *)
      modify (upd_usart (set_CR1_UE false)) ;;
      (* Deinitialise USART *)
      modify (upd_usart (fun _ => USART_reset)) ;;
      (* Deinitialise DMA streams *)
      modify (upd_tx_stream (fun _ => DMA_Stream_reset)) ;;
      modify (upd_rx_stream (fun _ => DMA_Stream_reset)) ;;
      (* Disable TC (transfer complete) interrupt at the source *)
      modify (upd_tx_stream (set_CR_IE false)) ;;
      modify (upd_rx_stream (set_CR_IE false)) ;;
      (* Disable transmit DMA interrupt at Cortex-M3 *)
      modify (upd_hw (NVIC_DisableIRQ (irq_vector (tx_dma_config p)))) ;;
      modify (upd_usart (set_CR1_RXNEIE false)) ;;
      (* Disable UART interrupt vector on Cortex-M3 *)
      modify (upd_hw (NVIC_DisableIRQ (irq_vector (rx_dma_config p)))) ;;
      (* Disable registers clocks *)
      idx <- deref (fun _ => uart_table_index uart_number) ;;
      modify (log (UartClockCmd idx false)) ;;
      modify (upd_drv (set_rx_complete None)) ;;
      modify (upd_drv (set_tx_complete None)) ;;
      modify (upd_drv (set_tx_mutex None)) ;;
      modify (upd_drv (set_rx_size 0)) ;;
      modify (upd_drv (set_tx_size 0)) ;;
      modify (upd_drv (set_last_transmit_result kNoErr)) ;;
      modify (upd_drv (set_last_receive_result kNoErr)) ;;
      init_exit kNoErr
  end.

Definition is_NULL (a : address) : bool :=
  match a with
  | NULL => true
  | _ => false
  end.

Definition transmit_exit (err : OSStatus) : task OSStatus :=
  mico_rtos_unlock_mutex ;;
  modify (log PowersaveEnable) ;;
  ret err.

(** platform_uart_transmit_bytes.  The mutex is reached through the driver
    pointer before that pointer is tested: a NULL driver has no defined
    behaviour. *)
Definition platform_uart_transmit_bytes (driver : driver_ptr)
  (data_out : address) (size : Z) : task OSStatus :=
  modify (log PowersaveDisable) ;;
  match driver with
  | driver_NULL => undefined
  | driver_instance =>
      mico_rtos_lock_mutex ;;
      if is_NULL data_out || (size =? 0) then transmit_exit kParamErr
      else
        p <- the_peripheral ;;
        (* Clear interrupt status before enabling DMA *)
        modify (upd_hw (clear_dma_interrupts (stream (tx_dma_config p))
                  (Z.lor (complete_flags (tx_dma_config p))
                         (error_flags (tx_dma_config p))))) ;;
        (* Init DMA parameters and variables *)
        modify (upd_drv (set_last_transmit_result kGeneralErr)) ;;
        modify (upd_drv (set_tx_size size)) ;;
        modify (upd_tx_stream (set_CR_CIRC false)) ;;
        modify (upd_tx_stream (set_NDTR size)) ;;
        modify (upd_tx_stream (set_M0AR data_out)) ;;
        modify (upd_usart (set_CR3_DMAT true)) ;;
        modify (upd_usart (set_SR_TC false)) ;;
        modify (upd_tx_stream (set_CR_EN true)) ;;
        (* Wait for transmission complete *)
        _ <- mico_rtos_get_semaphore sem_tx_complete MICO_NEVER_TIMEOUT ;;
        wait_transmission_complete ;;
        (* Disable DMA and clean up *)
        modify (upd_usart (set_CR3_DMAT false)) ;;
        modify (upd_drv (set_tx_size 0)) ;;
        err <- read (fun w => last_transmit_result (drv w)) ;;
        transmit_exit err
  end.

(** ** The buffered receive *)

(** platform_uart_receive_bytes runs in a task, and the handlers preempt
    it between any two of its statements.  The interrupts that arrive at
    a point of the task: the next [k] events of the schedule are taken,
    each with its handler, before the task goes on (all of them when
    fewer are left). *)
Definition interrupts (k : nat) : task unit :=
  fun evs w =>
    match env_run (firstn k evs) w with
    | Some w' => Ret tt (skipn k evs) w'
    | None => Undefined
    end.

(** The points of one pass of the while loop of platform_uart_receive_bytes
    at which the task reads or writes what the handlers read or write,
    named after the statement that follows: the chunk size (line 458), the
    used-space test (461), the two stores (464, 465), the wait (468), the
    reset of rx_size (471), the read of the result (488) and, in pass [k]
    of the do-while, ring_buffer_get_data (497), memcpy (499) and
    ring_buffer_consume (502). *)
Inductive point : Type :=
| before_chunk_size
| before_used_space_test
| before_result_store
| before_rx_size_store
| before_wait
| before_rx_size_reset
| before_result_read
| before_get_data (k : nat)
| before_memcpy (k : nat)
| before_consume (k : nat).

(** The inner do-while of the buffered receive, from its pass [k] on:
    copy what the ring buffer exposes, at most [transfer_size] bytes,
    consume it, and repeat until [transfer_size] bytes are out.  [when]
    gives the number of interrupts at each point.  The run exposed by
    ring_buffer_get_data is the one found at line 497, the cells are read
    when memcpy runs, and ring_buffer_consume advances the head cursor,
    which the task alone writes.  A pass that copies nothing and in which
    no interrupt was due after line 497 leaves everything as it found it,
    so the loop spins until the environment moves.  [out] collects the
    bytes written through data_in, in the order of their addresses. *)
Fixpoint grab_data (fuel : nat) (when : point -> nat) (k : nat)
  (transfer_size : Z) (out : list byte) : task (list byte) :=
  match fuel with
  | O => fun _ _ => NoReturn
  | S fuel' =>
      interrupts (when (before_get_data k)) ;;
      rb <- deref (fun w => rx_buffer (drv w)) ;;
      let available_data := fst (ring_buffer_get_data rb) in
      let bytes_available := MIN (snd (ring_buffer_get_data rb)) transfer_size in
      interrupts (when (before_memcpy k)) ;;
      rb1 <- deref (fun w => rx_buffer (drv w)) ;;
      cells <- deref (fun _ => rb_buffer rb1) ;;
      let out' := out ++ read_cells cells available_data bytes_available in
      let transfer_size' := wrap32 (transfer_size - bytes_available) in
      interrupts (when (before_consume k)) ;;
      rb2 <- deref (fun w => rx_buffer (drv w)) ;;
      modify (upd_drv (set_rx_buffer (Some (ring_buffer_consume rb2 bytes_available)))) ;;
      if transfer_size' =? 0 then ret out'
      else
        (if (bytes_available =? 0)
            && (when (before_memcpy k) + when (before_consume k) =? 0)%nat
         then await_event else ret tt) ;;
        grab_data fuel' when (S k) transfer_size' out'
  end.

(** The while loop of the buffered receive, from its pass [pass] on;
    [when p] gives the number of interrupts at each point of pass [p];
    [err] and [out] are the values of err and of the bytes written so far
    when the loop test is reached. *)
Fixpoint receive_buffered (fuel : nat) (when : nat -> point -> nat)
  (pass : nat) (expected_data_size : Z) (timeout_ms : Z) (err : OSStatus)
  (out : list byte) : task (OSStatus * list byte) :=
  if expected_data_size =? 0 then ret (err, out)
  else
    match fuel with
    | O => fun _ _ => NoReturn
    | S fuel' =>
        interrupts (when pass before_chunk_size) ;;
        rb <- deref (fun w => rx_buffer (drv w)) ;;
        let transfer_size := MIN (rb_size rb / 2) expected_data_size in
        interrupts (when pass before_used_space_test) ;;
        rb0 <- deref (fun w => rx_buffer (drv w)) ;;
        (* Check if ring buffer already contains the required amount of data. *)
        waited <-
          (if ring_buffer_used_space rb0 <? transfer_size then
             interrupts (when pass before_result_store) ;;
             modify (upd_drv (set_last_receive_result kNoErr)) ;;
             interrupts (when pass before_rx_size_store) ;;
             modify (upd_drv (set_rx_size transfer_size)) ;;
             interrupts (when pass before_wait) ;;
             e <- mico_rtos_get_semaphore sem_rx_complete timeout_ms ;;
             (* Reset rx_size to prevent semaphore being set while nothing
                waits for the data *)
             interrupts (when pass before_rx_size_reset) ;;
             modify (upd_drv (set_rx_size 0)) ;;
             ret e
           else ret kNoErr) ;;
        if OSStatus_eqb waited kNoErr then
          interrupts (when pass before_result_read) ;;
          err' <- read (fun w => last_receive_result (drv w)) ;;
          let expected_data_size' := wrap32 (expected_data_size - transfer_size) in
          (* Grab data from the buffer *)
          out' <- (fun evs w =>
                     grab_data
                       (S (Z.to_nat transfer_size + length evs))
                       (when pass) 0 transfer_size out evs w) ;;
          receive_buffered fuel' when (S pass) expected_data_size'
                                       timeout_ms err' out'
        else ret (waited, out)
    end.

(** platform_uart_receive_bytes, with the interrupts [when] inside its
    buffered loop; the second component of the result is the sequence of
    bytes the call copied to data_in (none in direct mode, where the DMA
    stream writes the caller's buffer by itself). *)
Definition platform_uart_receive_bytes (when : nat -> point -> nat)
  (driver : driver_ptr) (data_in : address) (expected_data_size : Z)
  (timeout_ms : Z) : task (OSStatus * list byte) :=
  match driver with
  | driver_NULL => ret (kParamErr, [])
  | driver_instance =>
      if is_NULL data_in || (expected_data_size =? 0) then ret (kParamErr, [])
      else
        rb <- read (fun w => rx_buffer (drv w)) ;;
        match rb with
        | Some _ =>
            receive_buffered (Z.to_nat expected_data_size) when 0
              expected_data_size timeout_ms kNoErr []
        | None =>
            err <- receive_bytes data_in expected_data_size timeout_ms ;;
            ret (err, [])
        end
  end.

(** No interrupt at any point: the task is preempted only while it is
    blocked in a wait or spins on an empty ring buffer. *)
Definition uninterrupted : nat -> point -> nat := fun _ _ => 0%nat.

(** platform_uart_get_length_in_buffer: the ring buffer is reached through
    driver->rx_buffer with no test. *)
Definition platform_uart_get_length_in_buffer (driver : driver_ptr) : task Z :=
  match driver with
  | driver_NULL => undefined
  | driver_instance =>
      rb <- deref (fun w => rx_buffer (drv w)) ;;
      ret (ring_buffer_used_space rb)
  end.

(** ** A concrete board: USART1 with its two DMA2 streams *)

Definition driver_unused : platform_uart_driver_t :=
  mk_driver None None 0 0 kNoErr kNoErr None None None None.

Definition hardware_at_reset : hardware :=
  mk_hw USART_reset DMA_Stream_reset DMA_Stream_reset
        (fun _ => 0) (fun _ => false).

Definition world_at_reset : world :=
  mk_world driver_unused hardware_at_reset [].

(** Transmit on DMA2 stream 7, receive on DMA2 stream 2. *)
Definition board_uart : platform_uart_t :=
  mk_uart USART1 9 10 None None
    (mk_dma_config DMA2 15 4 (Other_IRQn 70) 134217728 46137344)
    (mk_dma_config DMA2 10 4 (Other_IRQn 58) 2097152 851968).

Definition board_config : platform_uart_config_t :=
  mk_config 115200 DATA_WIDTH_8BIT NO_PARITY STOP_BITS_1
            FLOW_CONTROL_DISABLED false.

Definition empty_ring (capacity : nat) : ring_buffer_t :=
  mk_ring (Some (repeat Byte.x00 capacity)) (Z.of_nat capacity) 0 0.

(** The world once init has returned, in direct and in buffered mode. *)
Definition world_of (o : outcome OSStatus) : world :=
  match o with
  | Ret _ _ w => w
  | _ => world_at_reset
  end.

Definition board_direct : world :=
  world_of (platform_uart_init driver_instance (Some board_uart)
              (Some board_config) None [] world_at_reset).

Definition board_buffered (capacity : nat) : world :=
  world_of (platform_uart_init driver_instance (Some board_uart)
              (Some board_config) (Some (empty_ring capacity)) [] world_at_reset).

(** ** Vocabulary of the statements *)

(** The world when platform_uart_transmit_bytes reaches its first wait:
    the transmit stream is armed for [size] bytes at [data_out]. *)
Definition transmit_armed (p : platform_uart_t) (data_out : address) (size : Z)
  (w : world) : world :=
  upd_tx_stream (set_CR_EN true)
    (upd_usart (set_SR_TC false)
      (upd_usart (set_CR3_DMAT true)
        (upd_tx_stream (set_M0AR data_out)
          (upd_tx_stream (set_NDTR size)
            (upd_tx_stream (set_CR_CIRC false)
              (upd_drv (set_tx_size size)
                (upd_drv (set_last_transmit_result kGeneralErr)
                  (upd_hw (clear_dma_interrupts (stream (tx_dma_config p))
                             (Z.lor (complete_flags (tx_dma_config p))
                                    (error_flags (tx_dma_config p)))) w)))))))).

(** The world when platform_uart_transmit_bytes returns, from the world at
    the end of its busy wait. *)
Definition transmit_cleaned_up (w : world) : world :=
  log PowersaveEnable
    (log UnlockMutex
      (upd_drv (set_tx_mutex (Some false))
        (upd_drv (set_tx_size 0)
          (upd_usart (set_CR3_DMAT false) w)))).

(** The trace only grows. *)
Definition trace_grows (w w' : world) : Prop :=
  exists tr, trace w' = trace w ++ tr.

(** Worlds used as concrete instances: the board in direct mode with a
    3-byte transmit outstanding, its result at the general error that
    platform_uart_transmit_bytes stores when it arms the transfer, and the
    transfer-complete flag of the transmit stream pending; the board with
    an 8-byte ring buffer, a waiter for 3 bytes, and 3 bytes moved by the
    receive stream. *)
Definition world_tx_complete_pending : world :=
  upd_drv (set_tx_size 3)
    (upd_drv (set_last_transmit_result kGeneralErr)
      (upd_hw (raise_dma_status 15 134217728) board_direct)).

Definition world_rx_threshold_reached : world :=
  upd_rx_stream (count_NDTR 5)
    (upd_drv (set_rx_size 3) (board_buffered 8)).

(** The arguments init accepts: one of the six ports, and parity and flow
    control inside their enumerations. *)
Definition init_arguments_valid (p : platform_uart_t)
  (cfg : platform_uart_config_t) : bool :=
  match port p with
  | USART_other => false
  | _ => true
  end
  && match parity cfg with
     | parity_out_of_range _ => false
     | _ => true
     end
  && match flow_control cfg with
     | flow_control_out_of_range _ => false
     | _ => true
     end.

(** The interrupt vector of the port of a peripheral. *)
Definition uart_vector (p : platform_uart_t) : IRQn_Type :=
  match uart_irq_vectors (platform_uart_get_port_number (port p)) with
  | Some v => v
  | None => Other_IRQn 255
  end.

(** The part of the trace written since an earlier world. *)
Definition trace_since (w w' : world) : list call :=
  skipn (length (trace w)) (trace w').

Definition is_GetSemaphore (c : call) : bool :=
  match c with
  | GetSemaphore _ _ => true
  | _ => false
  end.

(** The driver fields as init leaves them before it touches the hardware. *)
Definition init_driver_fields (p : platform_uart_t) (d : platform_uart_driver_t)
  : platform_uart_driver_t :=
  mk_driver (Some p) (rx_buffer d) 0 0 kNoErr kNoErr
            (Some false) (Some false) (Some false) (Some false).

(** uart_init_structure as init fills it from the configuration. *)
Definition uart_init_structure_of (cfg : platform_uart_config_t)
  : USART_InitTypeDef :=
  mk_usart_init (baud_rate cfg) (word_length_9b cfg)
    (match stop_bits cfg with
     | STOP_BITS_1 => false
     | STOP_BITS_2 => true
     end)
    (parity cfg) (flow_control cfg).

(** The world in which receive_bytes leaves the receive stream armed on
    [data] for [size] bytes: circular with the per-byte interrupt when the
    driver holds a ring buffer, one-shot with rx_size set otherwise. *)
Definition receive_armed (p : platform_uart_t) (data : address) (size : Z)
  (w : world) : world :=
  upd_usart (set_CR3_DMAR true)
    (upd_rx_stream (set_CR_EN true)
      (upd_rx_stream (set_M0AR data)
        (upd_rx_stream (set_NDTR size)
          (upd_hw (clear_dma_interrupts (stream (rx_dma_config p))
                     (Z.lor (complete_flags (rx_dma_config p))
                            (error_flags (rx_dma_config p))))
            (match rx_buffer (drv w) with
             | Some _ =>
                 upd_usart (set_CR1_RXNEIE true)
                   (upd_rx_stream (set_CR_CIRC true) w)
             | None =>
                 upd_rx_stream (set_CR_CIRC false)
                   (upd_drv (set_rx_size size) w)
             end))))).

(** Two hardware states that differ at most in the DMA status registers. *)
Definition same_devices (h h' : hardware) : Prop :=
  usart h' = usart h /\ tx_stream h' = tx_stream h /\
  rx_stream h' = rx_stream h /\ nvic h' = nvic h.

(** Interrupt handlers record success or a general error, never a
    timeout. *)
Definition receive_result_sound (w : world) : Prop :=
  last_receive_result (drv w) <> kTimeoutErr.

(** *** The byte stream of the buffered receive *)

(** Cell [i] of a store. *)
Definition cell (cells : list byte) (i : Z) : byte :=
  nth (Z.to_nat i) cells Byte.x00.

(** The used bytes of a ring buffer, oldest first: the cells from the head
    cursor on, around the capacity, as many as the used space. *)
Definition ring_contents (rb : ring_buffer_t) : list byte :=
  match rb_buffer rb with
  | Some cells =>
      map (fun k => cell cells ((rb_head rb + Z.of_nat k) mod rb_size rb))
          (seq 0 (Z.to_nat (ring_buffer_used_space rb)))
  | None => []
  end.

(** A ring buffer the driver can stream into: a store of the declared
    capacity, at least two cells (half the capacity is then a positive
    chunk), small enough for uint32_t cursor arithmetic, cursors in
    range. *)
Definition ring_well_formed (rb : ring_buffer_t) : Prop :=
  (exists cells,
      rb_buffer rb = Some cells /\ Z.of_nat (length cells) = rb_size rb) /\
  2 <= rb_size rb < 2147483648 /\
  0 <= rb_head rb < rb_size rb /\
  0 <= rb_tail rb < rb_size rb.

(** The driver in buffered mode with reception running, as init leaves it
    and as every receive call and every event keep it: the receive stream
    is enabled in circular mode over the store, its remaining count is the
    distance from the tail cursor to the end of the store, and the
    per-byte interrupt of the UART is enabled and delivered. *)
Definition rx_streaming (w : world) : Prop :=
  exists p rb v,
    peripheral (drv w) = Some p /\
    rx_buffer (drv w) = Some rb /\
    ring_well_formed rb /\
    uart_irq_vectors (platform_uart_get_port_number (port p)) = Some v /\
    nvic (hw w) v = true /\
    CR1_UE (usart (hw w)) = true /\
    CR1_RE (usart (hw w)) = true /\
    CR1_RXNEIE (usart (hw w)) = true /\
    CR3_DMAR (usart (hw w)) = true /\
    CR_EN (rx_stream (hw w)) = true /\
    CR_CIRC (rx_stream (hw w)) = true /\
    M0AR (rx_stream (hw w)) = ring_store /\
    NDTR_reload (rx_stream (hw w)) = rb_size rb /\
    NDTR (rx_stream (hw w)) = rb_size rb - rb_tail rb.

(** The bytes that the events of a schedule put on the line. *)
Fixpoint bytes_arriving (evs : list event) : list byte :=
  match evs with
  | [] => []
  | UartRx b :: evs' => b :: bytes_arriving evs'
  | _ :: evs' => bytes_arriving evs'
  end.

(** The bytes a reader has ahead of it: those in the ring buffer, then
    those still to arrive. *)
Definition bytes_ahead (evs : list event) (w : world) : list byte :=
  match rx_buffer (drv w) with
  | Some rb => ring_contents rb
  | None => []
  end ++ bytes_arriving evs.

(** Two worlds with the same receive path: the same driver binding and
    ring buffer, the same waiter threshold, and the same settings of the
    UART, of the receive stream and of the interrupt controller. *)
Definition rx_path_same (w w' : world) : Prop :=
  peripheral (drv w') = peripheral (drv w) /\
  rx_buffer (drv w') = rx_buffer (drv w) /\
  rx_size (drv w') = rx_size (drv w) /\
  nvic (hw w') = nvic (hw w) /\
  rx_stream (hw w') = rx_stream (hw w) /\
  CR1_UE (usart (hw w')) = CR1_UE (usart (hw w)) /\
  CR1_RE (usart (hw w')) = CR1_RE (usart (hw w)) /\
  CR1_RXNEIE (usart (hw w')) = CR1_RXNEIE (usart (hw w)) /\
  CR3_DMAR (usart (hw w')) = CR3_DMAR (usart (hw w)).

Definition is_UartRx (e : event) : bool :=
  match e with
  | UartRx _ => true
  | _ => false
  end.

(** The capacity of the ring buffer the driver holds. *)
Definition rx_capacity (w : world) : Z :=
  match rx_buffer (drv w) with
  | Some rb => rb_size rb
  | None => 0
  end.

(** A schedule for the concrete instances: six bytes arrive, with a
    millisecond between the second and the third. *)
Definition six_bytes : list event :=
  [UartRx Byte.x41; UartRx Byte.x42; Tick; UartRx Byte.x43; UartRx Byte.x44;
   UartRx Byte.x45; UartRx Byte.x46].

(** ** Vocabulary of the further properties *)

(** The pending-flag register in which a stream reports: the choice both
    clear_dma_interrupts and get_dma_irq_status make by comparing the
    stream pointer with DMA1_Stream3, DMA1_Stream7 and DMA2_Stream3. *)
Definition dma_status_register (stream : Z) : dma_status_reg :=
  if stream <=? DMA1_Stream3 then DMA1_LISR
  else if stream <=? DMA1_Stream7 then DMA1_HISR
  else if stream <=? DMA2_Stream3 then DMA2_LISR
  else DMA2_HISR.

(** The world of an outcome that returned; the world at reset stands for
    the other outcomes. *)
Definition final_world {A} (o : outcome A) : world :=
  match o with
  | Ret _ _ w => w
  | _ => world_at_reset
  end.

Definition is_DmaTxStatus (e : event) : bool :=
  match e with
  | DmaTxStatus _ => true
  | _ => false
  end.

(** The world once a run of events has been taken. *)
Definition world_after (evs : list event) (w : world) : world :=
  match env_run evs w with
  | Some w' => w'
  | None => w
  end.

Definition is_powersave (c : call) : bool :=
  match c with
  | PowersaveDisable | PowersaveEnable => true
  | _ => false
  end.

(** The trace grows by calls that are not power-save calls. *)
Definition no_powersave_added (w w' : world) : Prop :=
  exists tr,
    trace w' = trace w ++ tr /\
    forallb (fun c => negb (is_powersave c)) tr = true.

(** A call made between one power-save disable and one power-save enable,
    with no power-save call in between. *)
Definition powersave_bracketed (w w' : world) : Prop :=
  exists mid,
    trace w' = trace w ++ [PowersaveDisable] ++ mid ++ [PowersaveEnable] /\
    forallb (fun c => negb (is_powersave c)) mid = true.

Definition is_Tick (e : event) : bool :=
  match e with
  | Tick => true
  | _ => false
  end.

(** The milliseconds that pass in a schedule. *)
Definition ticks (evs : list event) : Z :=
  Z.of_nat (length (filter is_Tick evs)).

(** A schedule in which only bytes arrive and time passes. *)
Definition line_only (evs : list event) : bool :=
  forallb (fun e => is_UartRx e || is_Tick e) evs.

(** What a transmit call reports for the flags [flags] that the
    controller raises on the armed transfer.  The TX DMA handler tests the
    transfer-complete flags first and clears them before it reads the
    register again for the error flags: a general error when an error flag
    outside the transfer-complete mask is raised, success when none is and
    a transfer-complete flag is raised, and the general error stored when
    the transfer was armed when neither is. *)
Definition transmit_result_of (c : platform_dma_config_t) (flags : Z) : OSStatus :=
  if negb (Z.land (Z.ldiff flags (complete_flags c)) (error_flags c) =? 0)
  then kGeneralErr
  else if negb (Z.land flags (complete_flags c) =? 0) then kNoErr
  else kGeneralErr.

(** ** Sequences of receive calls, and the stream they read *)




(** Reception is running and the ring buffer is large enough for the bytes
    it holds together with those the schedule still brings: no byte is
    overwritten before it is read, whenever the reader comes. *)
Definition rx_fits (evs : list event) (w : world) : Prop :=
  rx_streaming w /\
  Z.of_nat (length (bytes_ahead evs w)) < rx_capacity w.

(** The head cursor of the ring buffer the driver holds. *)
Definition rx_head (w : world) : Z :=
  match rx_buffer (drv w) with
  | Some rb => rb_head rb
  | None => 0
  end.

(** The used space of the ring buffer the driver holds. *)
Definition rx_used (w : world) : Z :=
  match rx_buffer (drv w) with
  | Some rb => ring_buffer_used_space rb
  | None => 0
  end.

(** What the environment and the stores of the task outside the ring
    buffer leave of the stream between two moments: the bytes ahead of the
    reader are the same, the head cursor has not moved, and the ring
    buffer holds at least what it held. *)
Definition stream_advances (evs : list event) (w : world)
  (evs' : list event) (w' : world) : Prop :=
  rx_fits evs' w' /\
  rx_capacity w' = rx_capacity w /\
  bytes_ahead evs' w' = bytes_ahead evs w /\
  rx_head w' = rx_head w /\
  rx_used w <= rx_used w'.

(** The receive path at rest on a line on which only bytes arrive and
    time passes: reception runs, the ring buffer is large enough, no
    waiter is announced and no token of the RX Completion Signal is
    left. *)
Definition rx_at_rest (evs : list event) (w : world) : Prop :=
  rx_fits evs w /\
  line_only evs = true /\
  rx_complete (drv w) = Some false /\
  rx_size (drv w) = 0.

(** Interrupts in one place only: [k] events arrive in the first pass
    between the test of the used space and the store of rx_size. *)
Definition between_test_and_store (k : nat) : nat -> point -> nat :=
  fun pass q =>
    match pass, q with
    | O, before_rx_size_store => k
    | _, _ => 0%nat
    end.

(** One event arrives at every point of every pass, except between the
    test of the used space and the store of rx_size. *)
Definition outside_the_window : nat -> point -> nat :=
  fun _ q =>
    match q with
    | before_result_store | before_rx_size_store => 0%nat
    | _ => 1%nat
    end.


(** A schedule for the concrete instances: four bytes arrive, twelve
    milliseconds pass, two more bytes arrive. *)
Definition four_bytes_then_long_silence : list event :=
  [UartRx Byte.x41; UartRx Byte.x42; UartRx Byte.x43; UartRx Byte.x44]
  ++ repeat Tick 12 ++ [UartRx Byte.x45; UartRx Byte.x46].

(** * Proofs *)

(** ** The task monad and the trace *)

Lemma bind_Ret_inv {A B} (m : task A) (k : A -> task B) evs w b evs' w' :
  bind m k evs w = Ret b evs' w' ->
  exists a evs1 w1, m evs w = Ret a evs1 w1 /\ k a evs1 w1 = Ret b evs' w'.
Proof.
  unfold bind. destruct (m evs w) as [a evs1 w1| |]; try discriminate.
  intro H. exists a, evs1, w1. split; [reflexivity | exact H].
Qed.


Lemma trace_grows_refl w : trace_grows w w.
Proof. exists []. symmetry. apply app_nil_r. Qed.

Lemma trace_grows_trans w1 w2 w3 :
  trace_grows w1 w2 -> trace_grows w2 w3 -> trace_grows w1 w3.
Proof.
  intros [t1 H1] [t2 H2]. exists (t1 ++ t2). rewrite H2, H1. symmetry. apply app_assoc.
Qed.

Lemma trace_grows_same w w' : trace w' = trace w -> trace_grows w w'.
Proof. intro H. exists []. rewrite H. symmetry. apply app_nil_r. Qed.

Lemma set_semaphore_trace s w w' :
  mico_rtos_set_semaphore s w = Some w' -> trace w' = trace w ++ [SetSemaphore s].
Proof.
  unfold mico_rtos_set_semaphore. destruct (get_sem s (drv w)); try discriminate.
  intro H. inversion H. reflexivity.
Qed.

Lemma set_semaphore_grows s w w' :
  mico_rtos_set_semaphore s w = Some w' -> trace_grows w w'.
Proof. intro H. eexists. apply (set_semaphore_trace _ _ _ H). Qed.

Lemma platform_uart_irq_grows w w' :
  platform_uart_irq w = Some w' -> trace_grows w w'.
Proof.
  unfold platform_uart_irq.
  destruct (peripheral (drv w)); try discriminate.
  destruct (rx_buffer (drv w)) as [rb|]; try discriminate.
  set (w1 := upd_drv _ w).
  assert (H1 : trace_grows w w1) by (apply trace_grows_same; reflexivity).
  destruct (_ && _).
  - destruct (mico_rtos_set_semaphore sem_rx_complete w1) as [w2|] eqn:E; try discriminate.
    simpl. apply set_semaphore_grows in E.
    assert (H2 : trace_grows w (upd_drv (set_rx_size 0) w2)).
    { apply (trace_grows_trans _ _ _ H1). apply (trace_grows_trans _ _ _ E).
      apply trace_grows_same. reflexivity. }
    destruct (sem_wakeup _).
    + intro H. apply set_semaphore_grows in H. apply (trace_grows_trans _ _ _ H2 H).
    + intro H. inversion H. subst. exact H2.
  - destruct (sem_wakeup _).
    + intro H. apply set_semaphore_grows in H. apply (trace_grows_trans _ _ _ H1 H).
    + intro H. inversion H. subst. exact H1.
Qed.

Ltac isr_trace_cases :=
  cbv zeta;
  repeat match goal with
         | |- context [if ?c then _ else _] => destruct c
         end;
  let H := fresh "H" in
  intro H;
  first [ apply set_semaphore_trace in H; unfold trace_grows; rewrite H;
          eexists; reflexivity
        | inversion H; apply trace_grows_same; reflexivity ].

Lemma platform_uart_tx_dma_irq_grows w w' :
  platform_uart_tx_dma_irq w = Some w' -> trace_grows w w'.
Proof.
  unfold platform_uart_tx_dma_irq.
  destruct (peripheral (drv w)) as [p|]; try discriminate.
  isr_trace_cases.
Qed.

Lemma platform_uart_rx_dma_irq_grows w w' :
  platform_uart_rx_dma_irq w = Some w' -> trace_grows w w'.
Proof.
  unfold platform_uart_rx_dma_irq.
  destruct (peripheral (drv w)) as [p|]; try discriminate.
  isr_trace_cases.
Qed.

Lemma dma_rx_store_trace b w : trace (dma_rx_store b w) = trace w.
Proof.
  unfold dma_rx_store.
  destruct (_ && _); [|reflexivity].
  set (w1 := match M0AR _ with NULL => _ | _ => _ end).
  assert (H : trace w1 = trace w).
  { subst w1. destruct (M0AR _); try reflexivity.
    destruct (rx_buffer _) as [rb|]; try reflexivity.
    destruct (rb_buffer rb); reflexivity. }
  destruct (_ =? 0); [destruct (CR_CIRC _)|]; simpl; exact H.
Qed.

Lemma env_step_grows e w w' : env_step e w = Some w' -> trace_grows w w'.
Proof.
  destruct e; simpl.
  - intro H. inversion H. apply trace_grows_refl.
  - destruct (_ && _).
    + pose proof (dma_rx_store_trace b w) as Ht.
      set (w1 := dma_rx_store b w) in *.
      assert (H1 : trace_grows w w1) by (apply trace_grows_same; exact Ht).
      destruct (peripheral (drv w1)) as [p|].
      * destruct (uart_irq_vectors _) as [v|].
        -- destruct (_ && _).
           ++ intro H. apply platform_uart_irq_grows in H. apply (trace_grows_trans _ _ _ H1 H).
           ++ intro H. inversion H. subst. exact H1.
        -- intro H. inversion H. subst. exact H1.
      * intro H. inversion H. subst. exact H1.
    + intro H. inversion H. apply trace_grows_refl.
  - intro H. inversion H. apply trace_grows_same. reflexivity.
  - destruct (peripheral (drv w)) as [p|].
    + destruct (_ && _).
      * intro H. apply platform_uart_tx_dma_irq_grows in H.
        refine (trace_grows_trans _ _ _ _ H). apply trace_grows_same. reflexivity.
      * intro H. inversion H. apply trace_grows_same. reflexivity.
    + intro H. inversion H. apply trace_grows_refl.
  - destruct (peripheral (drv w)) as [p|].
    + destruct (_ && _).
      * intro H. apply platform_uart_rx_dma_irq_grows in H.
        refine (trace_grows_trans _ _ _ _ H). apply trace_grows_same. reflexivity.
      * intro H. inversion H. apply trace_grows_same. reflexivity.
    + intro H. inversion H. apply trace_grows_refl.
  - destruct (tx_mutex (drv w)); intro H; inversion H;
      apply trace_grows_same; reflexivity.
Qed.

Lemma sem_wait_grows s evs : forall t w r evs' w',
  sem_wait s t evs w = Ret r evs' w' -> trace_grows w w'.
Proof.
  induction evs as [|e evs IH]; intros t w r evs' w'; simpl.
  - destruct (get_sem s (drv w)) as [[|]|]; try discriminate.
    + intro H. inversion H. apply trace_grows_same. reflexivity.
    + destruct (t =? 0); try discriminate.
      intro H. inversion H. apply trace_grows_refl.
  - destruct (get_sem s (drv w)) as [[|]|]; try discriminate.
    + intro H. inversion H. apply trace_grows_same. reflexivity.
    + destruct (t =? 0).
      * intro H. inversion H. apply trace_grows_refl.
      * destruct (env_step e w) as [w1|] eqn:E; try discriminate.
        intro H. apply IH in H. apply env_step_grows in E.
        apply (trace_grows_trans _ _ _ E H).
Qed.

Lemma wait_transmission_complete_grows evs : forall w evs' w',
  wait_transmission_complete evs w = Ret tt evs' w' -> trace_grows w w'.
Proof.
  induction evs as [|e evs IH]; intros w evs' w'; simpl.
  - destruct (SR_TC _); try discriminate.
    intro H. inversion H. apply trace_grows_refl.
  - destruct (SR_TC _).
    + intro H. inversion H. apply trace_grows_refl.
    + destruct (env_step e w) as [w1|] eqn:E; try discriminate.
      intro H. apply IH in H. apply env_step_grows in E.
      apply (trace_grows_trans _ _ _ E H).
Qed.

Lemma wait_transmission_complete_TC evs : forall w evs' w',
  wait_transmission_complete evs w = Ret tt evs' w' ->
  SR_TC (usart (hw w')) = true.
Proof.
  induction evs as [|e evs IH]; intros w evs' w'; simpl.
  - destruct (SR_TC _) eqn:E; try discriminate.
    intro H. inversion H. subst. exact E.
  - destruct (SR_TC _) eqn:E.
    + intro H. inversion H. subst. exact E.
    + destruct (env_step e w) as [w1|]; try discriminate. apply IH.
Qed.

Lemma lock_wait_Ret_inv evs : forall w evs' w',
  lock_wait evs w = Ret tt evs' w' ->
  tx_mutex (drv w') = Some true /\
  exists w0, trace_grows w w0 /\ trace w' = trace w0 ++ [LockMutex].
Proof.
  induction evs as [|e evs IH]; intros w evs' w'; simpl.
  - destruct (tx_mutex (drv w)) as [[|]|]; try discriminate.
    intro H. inversion H. subst. simpl. split; [reflexivity|].
    exists w. split; [apply trace_grows_refl | reflexivity].
  - destruct (tx_mutex (drv w)) as [[|]|]; try discriminate.
    + destruct (env_step e w) as [w1|] eqn:E; try discriminate.
      intro H. apply IH in H as (Hm & w0 & Hg & Ht).
      split; [exact Hm|]. exists w0. split; [|exact Ht].
      apply env_step_grows in E. apply (trace_grows_trans _ _ _ E Hg).
    + intro H. inversion H. subst. simpl. split; [reflexivity|].
      exists w. split; [apply trace_grows_refl | reflexivity].
Qed.

Lemma transmit_exit_Ret_inv err evs w r evs' w' :
  transmit_exit err evs w = Ret r evs' w' ->
  r = err /\ evs' = evs /\ (exists m, tx_mutex (drv w) = Some m) /\
  w' = log PowersaveEnable (log UnlockMutex (upd_drv (set_tx_mutex (Some false)) w)).
Proof.
  unfold transmit_exit, bind, mico_rtos_unlock_mutex, modify, ret.
  destruct (tx_mutex (drv w)) as [m|]; try discriminate.
  intro H. inversion H. repeat split. exists m. reflexivity.
Qed.

(** platform_uart_transmit_bytes on valid arguments, stage by stage. *)
Lemma transmit_stages data_out size evs w r evs' w' :
  is_NULL data_out || (size =? 0) = false ->
  platform_uart_transmit_bytes driver_instance data_out size evs w = Ret r evs' w' <->
  exists evs0 w0 p st evs1 w1 w2,
    lock_wait evs (log PowersaveDisable w) = Ret tt evs0 w0 /\
    peripheral (drv w0) = Some p /\
    sem_wait sem_tx_complete MICO_NEVER_TIMEOUT evs0
      (log (GetSemaphore sem_tx_complete MICO_NEVER_TIMEOUT)
           (transmit_armed p data_out size w0)) = Ret st evs1 w1 /\
    wait_transmission_complete evs1 w1 = Ret tt evs' w2 /\
    (exists m, tx_mutex (drv w2) = Some m) /\
    w' = transmit_cleaned_up w2 /\
    r = last_transmit_result (drv w2).
Proof.
  intro Hok. unfold platform_uart_transmit_bytes.
  unfold bind at 1, modify at 1. unfold bind at 1, mico_rtos_lock_mutex.
  rewrite Hok. split.
  - destruct (lock_wait evs (log PowersaveDisable w)) as [[] evs0 w0| |] eqn:EL;
      try discriminate.
    unfold bind at 1, the_peripheral, deref.
    destruct (peripheral (drv w0)) as [p|] eqn:EP; try discriminate.
    unfold bind, modify, mico_rtos_get_semaphore.
    fold (transmit_armed p data_out size w0).
    destruct (sem_wait _ _ _ _) as [st evs1 w1| |] eqn:ES; try discriminate.
    destruct (wait_transmission_complete evs1 w1) as [[] evs2 w2| |] eqn:EW;
      try discriminate.
    unfold read. intro H.
    apply transmit_exit_Ret_inv in H as (-> & -> & [m EM] & ->).
    exists evs0, w0, p, st, evs1, w1, w2. repeat split; eauto.
  - intros (evs0 & w0 & p & st & evs1 & w1 & w2 & EL & EP & ES & EW & [m EM] & -> & ->).
    rewrite EL. unfold bind at 1, the_peripheral, deref. rewrite EP.
    unfold bind, modify, mico_rtos_get_semaphore.
    fold (transmit_armed p data_out size w0).
    rewrite ES, EW. unfold read, transmit_exit, bind, mico_rtos_unlock_mutex, ret.
    simpl. rewrite EM. reflexivity.
Qed.

(** ** Argument validation of receive, and the length query *)

(** C9: a receive call with NULL data or a zero size returns a parameter
    error, and neither the world (driver instance and device registers)
    nor the schedule has moved: the test is the first action of the
    operation. *)
Theorem receive_rejects_bad_arguments :
  forall when driver data_in expected_data_size timeout_ms evs w,
    data_in = NULL \/ expected_data_size = 0 ->
    platform_uart_receive_bytes when driver data_in expected_data_size
      timeout_ms evs w
    = Ret (kParamErr, []) evs w.
Proof.
  intros when driver data_in n t evs w H.
  unfold platform_uart_receive_bytes.
  destruct driver; [reflexivity|].
  destruct H as [-> | ->]; [reflexivity|].
  rewrite orb_true_r. reflexivity.
Qed.

Lemma receive_rejects_bad_arguments_witness :
  (NULL = NULL \/ 40 = 0) /\
  platform_uart_receive_bytes uninterrupted driver_instance NULL 40 100
    [UartRx Byte.x41] (board_buffered 64)
  = Ret (kParamErr, []) [UartRx Byte.x41] (board_buffered 64).
Proof.
  split; [left; reflexivity|].
  apply receive_rejects_bad_arguments. left. reflexivity.
Defined.

(** C10: the length query reaches the ring buffer through
    driver->rx_buffer without a test.  It has a result exactly when the
    driver holds a ring buffer, and the result is then the used space; with
    a NULL rx_buffer, as in direct mode, the behaviour is undefined, and no
    error code is ever returned in its place. *)
Theorem get_length_in_buffer_requires_ring_buffer :
  forall evs w,
    platform_uart_get_length_in_buffer driver_instance evs w
    = match rx_buffer (drv w) with
      | Some rb => Ret (ring_buffer_used_space rb) evs w
      | None => Undefined
      end
    /\ (platform_uart_get_length_in_buffer driver_instance evs w = Undefined
        <-> rx_buffer (drv w) = None)
    /\ platform_uart_get_length_in_buffer driver_instance evs board_direct
       = Undefined
    /\ platform_uart_get_length_in_buffer driver_instance evs (board_buffered 64)
       = Ret 0 evs (board_buffered 64).
Proof.
  intros evs w.
  assert (E : platform_uart_get_length_in_buffer driver_instance evs w
              = match rx_buffer (drv w) with
                | Some rb => Ret (ring_buffer_used_space rb) evs w
                | None => Undefined
                end).
  { unfold platform_uart_get_length_in_buffer, bind, deref, ret.
    destruct (rx_buffer (drv w)); reflexivity. }
  split; [exact E|]. split; [|split; vm_compute; reflexivity].
  rewrite E. destruct (rx_buffer (drv w)); split; intro H;
    try reflexivity; discriminate.
Qed.

(** ** Interrupt handlers *)

Lemma status_after_clear stream flags h :
  get_dma_irq_status stream (clear_dma_interrupts stream flags h)
  = Z.ldiff (get_dma_irq_status stream h) flags.
Proof.
  unfold get_dma_irq_status, clear_dma_interrupts.
  destruct (stream <=? DMA1_Stream3); [reflexivity|].
  destruct (stream <=? DMA1_Stream7); [reflexivity|].
  destruct (stream <=? DMA2_Stream3); reflexivity.
Qed.

Lemma land_ldiff_disjoint s c e :
  Z.land c e = 0 -> Z.land (Z.ldiff s c) e = Z.land s e.
Proof.
  intro H. apply Z.bits_inj'. intros n Hn.
  rewrite !Z.land_spec, Z.ldiff_spec.
  assert (Hb : Z.testbit (Z.land c e) n = false) by (rewrite H; apply Z.bits_0).
  rewrite Z.land_spec in Hb.
  destruct (Z.testbit s n), (Z.testbit c n), (Z.testbit e n);
    simpl in *; congruence.
Qed.

(** C5: the UART byte interrupt handler.  The tail cursor becomes the
    capacity minus the remaining count of the receive stream; exactly when
    rx_size > 0 and the used space, with the new tail, has reached rx_size,
    the RX Completion Signal is signalled and rx_size is cleared; and a
    handler that finds rx_size at zero never signals it, so no second
    signal follows the first. *)
Theorem uart_irq_updates_tail_and_notifies :
  forall w p rb,
    peripheral (drv w) = Some p ->
    rx_buffer (drv w) = Some rb ->
    rx_complete (drv w) <> None ->
    let rb' := set_rb_tail (wrap32 (rb_size rb - NDTR (rx_stream (hw w)))) rb in
    let enough := (0 <? rx_size (drv w))
                  && (rx_size (drv w) <=? ring_buffer_used_space rb') in
    let wake := match sem_wakeup (drv w) with
                | Some _ => [SetSemaphore sem_wakeup_id]
                | None => []
                end in
    exists w',
      platform_uart_irq w = Some w' /\
      rx_buffer (drv w') = Some rb' /\
      (if enough
       then rx_complete (drv w') = Some true /\
            rx_size (drv w') = 0 /\
            trace w' = trace w ++ [SetSemaphore sem_rx_complete] ++ wake
       else rx_complete (drv w') = rx_complete (drv w) /\
            rx_size (drv w') = rx_size (drv w) /\
            trace w' = trace w ++ wake) /\
      (rx_size (drv w') = 0 ->
       forall w'', platform_uart_irq w' = Some w'' ->
         rx_complete (drv w'') = rx_complete (drv w') /\
         rx_size (drv w'') = 0 /\
         ~ In (SetSemaphore sem_rx_complete)
              (skipn (length (trace w')) (trace w''))).
Proof.
  intros w p rb Hp Hrb Hsem rb' enough wake.
  assert (Hquiet : forall v, rx_size (drv v) = 0 ->
            forall v', platform_uart_irq v = Some v' ->
              rx_complete (drv v') = rx_complete (drv v) /\
              rx_size (drv v') = 0 /\
              ~ In (SetSemaphore sem_rx_complete)
                   (skipn (length (trace v)) (trace v'))).
  { intros v Hz v'. unfold platform_uart_irq.
    destruct (peripheral (drv v)); try discriminate.
    destruct (rx_buffer (drv v)); try discriminate.
    cbv zeta. simpl. rewrite Hz. simpl.
    unfold mico_rtos_set_semaphore. simpl.
    destruct (sem_wakeup (drv v)); intro H; inversion H; subst; simpl;
      (split; [reflexivity|]); (split; [exact Hz|]).
    - rewrite skipn_app, skipn_all, Nat.sub_diag. simpl.
      intros [F|[]]. discriminate.
    - rewrite skipn_all. intros []. }
  assert (Hmain : exists w',
            platform_uart_irq w = Some w' /\
            rx_buffer (drv w') = Some rb' /\
            (if enough
             then rx_complete (drv w') = Some true /\
                  rx_size (drv w') = 0 /\
                  trace w' = trace w ++ [SetSemaphore sem_rx_complete] ++ wake
             else rx_complete (drv w') = rx_complete (drv w) /\
                  rx_size (drv w') = rx_size (drv w) /\
                  trace w' = trace w ++ wake)).
  { unfold platform_uart_irq. rewrite Hp, Hrb. cbv zeta. fold rb'.
    simpl rx_size. fold enough. subst wake.
    destruct enough eqn:Een.
    - unfold mico_rtos_set_semaphore at 1. simpl.
      destruct (rx_complete (drv w)) as [tok|]; [|contradiction]. simpl.
      unfold mico_rtos_set_semaphore. simpl.
      destruct (sem_wakeup (drv w)) as [wk|]; simpl;
        eexists; (split; [reflexivity|]); (split; [reflexivity|]);
        (split; [reflexivity|]); (split; [reflexivity|]); simpl;
        rewrite <- ?app_assoc; reflexivity.
    - unfold mico_rtos_set_semaphore. simpl.
      destruct (sem_wakeup (drv w)) as [wk|]; simpl;
        eexists; (split; [reflexivity|]); (split; [reflexivity|]);
        (split; [reflexivity|]); (split; [reflexivity|]); simpl;
        rewrite ?app_nil_r; reflexivity. }
  destruct Hmain as (w' & H1 & H2 & H3).
  exists w'. split; [exact H1|]. split; [exact H2|]. split; [exact H3|].
  intros Hz w'' H. apply (Hquiet w' Hz w'' H).
Qed.

Lemma uart_irq_updates_tail_and_notifies_witness :
  exists w',
    platform_uart_irq world_rx_threshold_reached = Some w' /\
    option_map rb_tail (rx_buffer (drv w')) = Some 3 /\
    rx_complete (drv w') = Some true /\
    rx_size (drv w') = 0.
Proof.
  assert (Hp : peripheral (drv world_rx_threshold_reached) = Some board_uart)
    by (vm_compute; reflexivity).
  assert (Hb : rx_buffer (drv world_rx_threshold_reached) = Some (empty_ring 8))
    by (vm_compute; reflexivity).
  assert (Hs : rx_complete (drv world_rx_threshold_reached) <> None)
    by (vm_compute; discriminate).
  destruct (uart_irq_updates_tail_and_notifies
              world_rx_threshold_reached board_uart (empty_ring 8) Hp Hb Hs)
    as (w' & H1 & H2 & H3 & _).
  vm_compute in H3. destruct H3 as (H3 & H4 & _).
  exists w'. split; [exact H1|]. split; [rewrite H2; vm_compute; reflexivity|].
  split; assumption.
Defined.

(** ** Transmit *)

Lemma sem_wait_never s evs : forall w st evs' w',
  sem_wait s MICO_NEVER_TIMEOUT evs w = Ret st evs' w' ->
  st = kNoErr /\ get_sem s (drv w') = Some false.
Proof.
  induction evs as [|e evs IH]; intros w st evs' w'; simpl.
  - destruct (get_sem s (drv w)) as [[|]|]; try discriminate.
    intro H. inversion H. subst. split; [reflexivity|].
    destruct s; reflexivity.
  - destruct (get_sem s (drv w)) as [[|]|]; try discriminate.
    + intro H. inversion H. subst. split; [reflexivity|].
      destruct s; reflexivity.
    + destruct (env_step e w) as [w1|]; try discriminate.
      replace (tick_down e MICO_NEVER_TIMEOUT) with MICO_NEVER_TIMEOUT
        by (destruct e; reflexivity).
      apply IH.
Qed.

Lemma is_NULL_false a : a <> NULL -> is_NULL a = false.
Proof. destruct a; [contradiction | reflexivity | reflexivity]. Qed.

Lemma valid_transmit_arguments data_out size :
  data_out <> NULL -> size <> 0 -> is_NULL data_out || (size =? 0) = false.
Proof.
  intros Hd Hs. rewrite (is_NULL_false _ Hd). simpl. apply Z.eqb_neq. exact Hs.
Qed.

(** Every return of platform_uart_transmit_bytes has taken the mutex and
    released it last. *)
Lemma transmit_releases_mutex data_out size evs w r evs' w' :
  platform_uart_transmit_bytes driver_instance data_out size evs w = Ret r evs' w' ->
  tx_mutex (drv w') = Some false /\
  exists tr1 tr2,
    trace w' = tr1 ++ [LockMutex] ++ tr2 ++ [UnlockMutex; PowersaveEnable].
Proof.
  destruct (is_NULL data_out || (size =? 0)) eqn:Hchk.
  - unfold platform_uart_transmit_bytes. intro H.
    apply bind_Ret_inv in H as (a & e1 & w1 & H1 & H2).
    apply bind_Ret_inv in H2 as ([] & e2 & w2 & H2 & H3).
    rewrite Hchk in H3. apply transmit_exit_Ret_inv in H3 as (_ & _ & _ & ->).
    apply lock_wait_Ret_inv in H2 as (_ & w0 & _ & Htr).
    split; [reflexivity|]. exists (trace w0), []. simpl.
    rewrite Htr, <- !app_assoc. reflexivity.
  - intro H. apply (transmit_stages _ _ _ _ _ _ _ Hchk) in H
      as (evs0 & w0 & p & st & evs1 & w1 & w2 & EL & EP & ES & EW & _ & -> & _).
    split; [reflexivity|].
    apply lock_wait_Ret_inv in EL as (_ & w00 & _ & Htr).
    apply sem_wait_grows in ES as [t1 Ht1].
    apply wait_transmission_complete_grows in EW as [t2 Ht2].
    exists (trace w00), ([GetSemaphore sem_tx_complete MICO_NEVER_TIMEOUT] ++ t1 ++ t2).
    simpl. rewrite Ht2, Ht1. simpl. rewrite Htr, <- !app_assoc. reflexivity.
Qed.

(** C1: transmit with NULL data or a zero size.  The mutex is taken before
    the arguments are tested: with the mutex free the call returns a
    parameter error having locked and unlocked it and changed nothing else;
    whenever such a call returns, it returns a parameter error and its last
    three actions are the lock, the unlock and the powersave release; and
    while the mutex is held and nothing happens the call does not return.
    On every return of transmit, whatever the arguments, the mutex has been
    taken and then released. *)
Theorem transmit_parameter_error_holds_mutex :
  forall data_out size evs w,
    (forall r evs' w',
       platform_uart_transmit_bytes driver_instance data_out size evs w
       = Ret r evs' w' ->
       tx_mutex (drv w') = Some false /\
       exists tr1 tr2,
         trace w' = tr1 ++ [LockMutex] ++ tr2 ++ [UnlockMutex; PowersaveEnable])
    /\ (data_out = NULL \/ size = 0 ->
        (tx_mutex (drv w) = Some false ->
         platform_uart_transmit_bytes driver_instance data_out size evs w
         = Ret kParamErr evs
             (mk_world (drv w) (hw w)
                (trace w ++ [PowersaveDisable; LockMutex; UnlockMutex;
                             PowersaveEnable])))
        /\ (forall r evs' w',
              platform_uart_transmit_bytes driver_instance data_out size evs w
              = Ret r evs' w' ->
              r = kParamErr /\
              exists tr, trace w' = tr ++ [LockMutex; UnlockMutex; PowersaveEnable])
        /\ (tx_mutex (drv w) = Some true ->
            platform_uart_transmit_bytes driver_instance data_out size [] w
            = NoReturn)).
Proof.
  intros data_out size evs w. split.
  { intros r evs' w'. apply transmit_releases_mutex. }
  intro Hbad.
  assert (Hchk : is_NULL data_out || (size =? 0) = true).
  { destruct Hbad as [-> | ->]; [reflexivity | apply orb_true_r]. }
  unfold platform_uart_transmit_bytes.
  split; [|split].
  - intro Hm. unfold bind at 1. unfold modify at 1.
    unfold bind at 1. unfold mico_rtos_lock_mutex.
    destruct evs; simpl; rewrite Hm, Hchk; cbn;
      unfold ret, log, upd_drv; simpl; rewrite <- !app_assoc; simpl;
      destruct w as [d h tr]; destruct d; simpl in *; subst; reflexivity.
  - intros r evs' w' H.
    apply bind_Ret_inv in H as (a & e1 & w1 & H1 & H2).
    apply bind_Ret_inv in H2 as ([] & e2 & w2 & H2 & H3).
    rewrite Hchk in H3. apply transmit_exit_Ret_inv in H3 as (-> & _ & _ & ->).
    split; [reflexivity|].
    apply lock_wait_Ret_inv in H2 as (_ & w0 & _ & Htr).
    exists (trace w0). simpl. rewrite Htr, <- !app_assoc. reflexivity.
  - intros Hm. unfold bind, modify, mico_rtos_lock_mutex. simpl.
    rewrite Hm. reflexivity.
Qed.

Lemma transmit_parameter_error_holds_mutex_witness :
  platform_uart_transmit_bytes driver_instance NULL 3 [UartTxDone] board_direct
  = Ret kParamErr [UartTxDone]
      (mk_world (drv board_direct) (hw board_direct)
         (trace board_direct ++ [PowersaveDisable; LockMutex; UnlockMutex;
                                 PowersaveEnable])).
Proof.
  apply (proj2 (transmit_parameter_error_holds_mutex NULL 3 [UartTxDone] board_direct)).
  - left. reflexivity.
  - vm_compute. reflexivity.
Defined.

(** C6: a transmit call with valid arguments returns exactly when, in this
    order, it obtains the mutex, is woken on the TX Completion Signal (the
    wait has no timeout and consumes the token), and then sees the
    transmission complete status bit set at the end of its busy wait.  It
    then returns the transmit result recorded at that moment and leaves
    tx_size at zero.  A 3-byte transmit during which the transfer-complete
    interrupt of the transmit stream fires and the line drains returns
    success with tx_size at zero. *)
Theorem transmit_waits_then_reports :
  forall data_out size evs w r evs' w',
    data_out <> NULL -> size <> 0 ->
    (platform_uart_transmit_bytes driver_instance data_out size evs w
     = Ret r evs' w'
     <->
     exists evs0 w0 p st evs1 w1 w2,
       lock_wait evs (log PowersaveDisable w) = Ret tt evs0 w0 /\
       peripheral (drv w0) = Some p /\
       sem_wait sem_tx_complete MICO_NEVER_TIMEOUT evs0
         (log (GetSemaphore sem_tx_complete MICO_NEVER_TIMEOUT)
              (transmit_armed p data_out size w0)) = Ret st evs1 w1 /\
       st = kNoErr /\ tx_complete (drv w1) = Some false /\
       wait_transmission_complete evs1 w1 = Ret tt evs' w2 /\
       (exists m, tx_mutex (drv w2) = Some m) /\
       w' = transmit_cleaned_up w2 /\
       r = last_transmit_result (drv w2))
    /\ (platform_uart_transmit_bytes driver_instance data_out size evs w
        = Ret r evs' w' ->
        r = last_transmit_result (drv w') /\
        tx_size (drv w') = 0 /\
        SR_TC (usart (hw w')) = true)
    /\ (exists w3,
          platform_uart_transmit_bytes driver_instance caller_buffer 3
            [DmaTxStatus 134217728; UartTxDone] board_direct
          = Ret kNoErr [] w3 /\
          tx_size (drv w3) = 0).
Proof.
  intros data_out size evs w r evs' w' Hd Hs.
  pose proof (valid_transmit_arguments _ _ Hd Hs) as Hok.
  split; [|split].
  - rewrite (transmit_stages _ _ _ _ _ _ _ Hok). split.
    + intros (evs0 & w0 & p & st & evs1 & w1 & w2 & EL & EP & ES & EW & EM & E1 & E2).
      destruct (sem_wait_never _ _ _ _ _ _ ES) as [Hst Htok].
      exists evs0, w0, p, st, evs1, w1, w2. repeat split; assumption.
    + intros (evs0 & w0 & p & st & evs1 & w1 & w2
              & EL & EP & ES & _ & _ & EW & EM & E1 & E2).
      exists evs0, w0, p, st, evs1, w1, w2. repeat split; assumption.
  - intro H. apply (transmit_stages _ _ _ _ _ _ _ Hok) in H
      as (evs0 & w0 & p & st & evs1 & w1 & w2 & _ & _ & _ & EW & _ & -> & ->).
    apply wait_transmission_complete_TC in EW.
    split; [reflexivity|]. split; [reflexivity|]. exact EW.
  - eexists. split; vm_compute; reflexivity.
Qed.

Lemma transmit_waits_then_reports_witness :
  (caller_buffer <> NULL /\ 3 <> 0) /\
  tx_size (drv (world_of
     (platform_uart_transmit_bytes driver_instance caller_buffer 3
        [DmaTxStatus 134217728; UartTxDone] board_direct))) = 0.
Proof.
  split; [split; [discriminate | lia]|].
  refine (proj1 (proj2 (proj1 (proj2
    (transmit_waits_then_reports caller_buffer 3
       [DmaTxStatus 134217728; UartTxDone] board_direct kNoErr []
       (world_of (platform_uart_transmit_bytes driver_instance caller_buffer 3
                    [DmaTxStatus 134217728; UartTxDone] board_direct))
       _ _)) _))).
  - discriminate.
  - lia.
  - vm_compute. reflexivity.
Defined.

(** ** Initialisation and deinitialisation *)

Lemma trace_since_app w w' tr :
  trace w' = trace w ++ tr -> trace_since w w' = tr.
Proof.
  intro H. unfold trace_since. rewrite H, skipn_app, skipn_all, Nat.sub_diag.
  reflexivity.
Qed.

Lemma clear_dma_interrupts_frame stream flags h :
  usart (clear_dma_interrupts stream flags h) = usart h /\
  tx_stream (clear_dma_interrupts stream flags h) = tx_stream h /\
  rx_stream (clear_dma_interrupts stream flags h) = rx_stream h /\
  nvic (clear_dma_interrupts stream flags h) = nvic h.
Proof.
  unfold clear_dma_interrupts.
  destruct (stream <=? DMA1_Stream3); [repeat split|].
  destruct (stream <=? DMA1_Stream7); [repeat split|].
  destruct (stream <=? DMA2_Stream3); repeat split.
Qed.

Lemma clear_dma_interrupts_usart stream flags h :
  usart (clear_dma_interrupts stream flags h) = usart h.
Proof. apply clear_dma_interrupts_frame. Qed.

Lemma clear_dma_interrupts_tx_stream stream flags h :
  tx_stream (clear_dma_interrupts stream flags h) = tx_stream h.
Proof. apply clear_dma_interrupts_frame. Qed.

Lemma clear_dma_interrupts_rx_stream stream flags h :
  rx_stream (clear_dma_interrupts stream flags h) = rx_stream h.
Proof. apply clear_dma_interrupts_frame. Qed.

Lemma clear_dma_interrupts_nvic stream flags h :
  nvic (clear_dma_interrupts stream flags h) = nvic h.
Proof. apply clear_dma_interrupts_frame. Qed.

Ltac through_clear :=
  repeat (simpl;
          rewrite ?clear_dma_interrupts_usart, ?clear_dma_interrupts_tx_stream,
                  ?clear_dma_interrupts_rx_stream, ?clear_dma_interrupts_nvic).

Lemma valid_port_vector p cfg :
  init_arguments_valid p cfg = true ->
  uart_irq_vectors (platform_uart_get_port_number (port p)) = Some (uart_vector p) /\
  uart_table_index (platform_uart_get_port_number (port p))
  = Some (platform_uart_get_port_number (port p)).
Proof.
  unfold init_arguments_valid, uart_vector.
  destruct (port p); try discriminate; intros _; split; reflexivity.
Qed.

(** The pin mapping block only writes to the trace, and awaits nothing. *)
Lemma init_pin_mapping_quiet p cfg af evs w :
  exists tr,
    init_pin_mapping p cfg af evs w
    = Ret tt evs (mk_world (drv w) (hw w) (trace w ++ tr)) /\
    existsb is_GetSemaphore tr = false.
Proof.
  unfold init_pin_mapping.
  destruct (pin_cts p), (pin_rts p), (UART_WAKEUP_ENABLE cfg),
    (flow_control cfg);
    cbv [bind modify ret log]; simpl; rewrite <- ?app_assoc; simpl;
    eexists; split; reflexivity.
Qed.

Lemma bind_modify {B} f (k : unit -> task B) evs w :
  bind (modify f) k evs w = k tt evs (f w).
Proof. reflexivity. Qed.

Lemma bind_read {A B} (f : world -> A) (k : A -> task B) evs w :
  bind (read f) k evs w = k (f w) evs w.
Proof. reflexivity. Qed.

Lemma bind_ret {A B} (a : A) (k : A -> task B) evs w :
  bind (ret a) k evs w = k a evs w.
Proof. reflexivity. Qed.

Lemma bind_deref {A B} (f : world -> option A) (k : A -> task B) evs w a :
  f w = Some a -> bind (deref f) k evs w = k a evs w.
Proof. intro H. unfold bind, deref. rewrite H. reflexivity. Qed.

Lemma bind_Ret_eq {A B} (m : task A) (k : A -> task B) evs w a evs1 w1 :
  m evs w = Ret a evs1 w1 -> bind m k evs w = k a evs1 w1.
Proof. intro H. unfold bind. rewrite H. reflexivity. Qed.

Ltac run_modify := repeat (rewrite bind_modify; cbv beta).

(** platform_uart_init on valid arguments up to its hardware part. *)
Lemma init_reaches_hardware p cfg ring evs w :
  init_arguments_valid p cfg = true ->
  ring_buffer_arg_ok ring = true ->
  exists tr,
    existsb is_GetSemaphore tr = false /\
    platform_uart_init driver_instance (Some p) (Some cfg) ring evs w
    = (init_hardware p cfg (uart_init_structure_of cfg) ring ;;
       init_exit kNoErr) evs
        (mk_world (init_driver_fields p (drv w)) (hw w)
                  (trace w ++ PowersaveDisable :: tr)).
Proof.
  intros Hv Hr. unfold platform_uart_init. rewrite Hr.
  destruct (valid_port_vector _ _ Hv) as [_ Hidx].
  run_modify. cbv zeta.
  run_modify.
  rewrite (bind_deref _ _ _ _ _ Hidx).
  match goal with
  | |- context [bind (init_pin_mapping p cfg ?af) ?k ?e ?v] =>
      destruct (init_pin_mapping_quiet p cfg af e v) as (tr & Hq & Htr);
      rewrite (bind_Ret_eq _ k _ _ _ _ _ Hq)
  end.
  exists tr. split; [exact Htr|].
  match goal with
  | |- ?k ?W = _ =>
      replace W with (mk_world (init_driver_fields p (drv w)) (hw w)
                               (trace w ++ PowersaveDisable :: tr))
        by (unfold log, upd_drv, init_driver_fields; simpl;
            rewrite <- app_assoc; reflexivity)
  end.
  unfold init_arguments_valid in Hv.
  unfold uart_init_structure_of.
  destruct (parity cfg), (flow_control cfg);
    try (rewrite ?andb_false_r in Hv; simpl in Hv; discriminate);
    reflexivity.
Qed.

(** receive_bytes with a zero timeout arms the stream and returns at once. *)
Lemma receive_bytes_no_wait p data size evs w :
  peripheral (drv w) = Some p ->
  receive_bytes data size 0 evs w = Ret kNoErr evs (receive_armed p data size w).
Proof.
  intro Hp. unfold receive_bytes, the_peripheral.
  rewrite (bind_deref _ _ _ _ _ Hp). rewrite bind_read.
  unfold receive_armed.
  destruct (rx_buffer (drv w)); unfold bind, modify, ret; reflexivity.
Qed.

(** The hardware part of init, with a ring buffer. *)
Lemma init_hardware_buffered p cfg s rb cells v evs w :
  uart_irq_vectors (platform_uart_get_port_number (port p)) = Some v ->
  peripheral (drv w) = Some p ->
  rb_buffer rb = Some cells ->
  exists w',
    init_hardware p cfg s (Some rb) evs w = Ret tt evs w' /\
    drv w' = set_rx_size 0 (set_rx_buffer (Some rb) (drv w)) /\
    usart (hw w') = mk_usart true true true true false true true (Some s) /\
    tx_stream (hw w')
    = mk_stream false false true 65535 65535 NULL true
                (channel (tx_dma_config p)) (dma_halfword_of cfg) /\
    rx_stream (hw w')
    = mk_stream true true false (rb_size rb) (rb_size rb) ring_store false
                (channel (rx_dma_config p)) (dma_halfword_of cfg) /\
    (forall x, nvic (hw w') x
               = IRQn_eqb x v || IRQn_eqb x (irq_vector (tx_dma_config p))
                 || nvic (hw w) x) /\
    trace w' = trace w ++ [DmaClockEnable (controller (tx_dma_config p))].
Proof.
  intros Hv Hp Hc. unfold init_hardware. cbv zeta.
  run_modify. rewrite (bind_deref _ _ _ _ _ Hv). run_modify.
  rewrite Hc.
  match goal with
  | |- context [bind (receive_bytes ?d ?n 0) ?k ?e ?u] =>
      rewrite (bind_Ret_eq _ k _ _ _ _ _ (receive_bytes_no_wait p d n e u Hp))
  end.
  eexists. split; [reflexivity|].
  unfold receive_armed.
  split; [reflexivity|].
  split; [through_clear; reflexivity|].
  split; [through_clear; reflexivity|].
  split; [through_clear; reflexivity|].
  split.
  - intro x. through_clear.
    destruct (IRQn_eqb x v), (IRQn_eqb x (irq_vector (tx_dma_config p)));
      reflexivity.
  - simpl. destruct (controller (tx_dma_config p)); reflexivity.
Qed.

(** The hardware part of init, without a ring buffer. *)
Lemma init_hardware_direct p cfg s v evs w :
  uart_irq_vectors (platform_uart_get_port_number (port p)) = Some v ->
  exists w',
    init_hardware p cfg s None evs w = Ret tt evs w' /\
    drv w' = drv w /\
    usart (hw w') = mk_usart true true true false false false true (Some s) /\
    tx_stream (hw w')
    = mk_stream false false true 65535 65535 NULL true
                (channel (tx_dma_config p)) (dma_halfword_of cfg) /\
    rx_stream (hw w')
    = mk_stream false false true 65535 65535 NULL false
                (channel (rx_dma_config p)) (dma_halfword_of cfg) /\
    (forall x, nvic (hw w') x
               = IRQn_eqb x (irq_vector (rx_dma_config p)) || IRQn_eqb x v
                 || IRQn_eqb x (irq_vector (tx_dma_config p))
                 || nvic (hw w) x) /\
    trace w' = trace w ++ [DmaClockEnable (controller (tx_dma_config p))].
Proof.
  intros Hv. unfold init_hardware. cbv zeta.
  run_modify. rewrite (bind_deref _ _ _ _ _ Hv). run_modify.
  eexists. split; [reflexivity|].
  split; [reflexivity|].
  split; [through_clear; reflexivity|].
  split; [through_clear; reflexivity|].
  split; [through_clear; reflexivity|].
  split.
  - intro x. through_clear.
    destruct (IRQn_eqb x (irq_vector (rx_dma_config p))), (IRQn_eqb x v),
      (IRQn_eqb x (irq_vector (tx_dma_config p))); reflexivity.
  - simpl. destruct (controller (tx_dma_config p)); reflexivity.
Qed.

Lemma existsb_is_GetSemaphore_app a b :
  existsb is_GetSemaphore a = false ->
  existsb is_GetSemaphore b = false ->
  existsb is_GetSemaphore (a ++ b) = false.
Proof. intros Ha Hb. rewrite existsb_app, Ha, Hb. reflexivity. Qed.

(** C7: init with valid arguments.  Given a ring buffer, it returns with
    the receive stream enabled in circular mode over the whole backing
    store (count and reload equal to the capacity), the receive DMA request
    and the per-byte receive interrupt of the UART enabled, and it has not
    waited: the schedule is untouched and no semaphore was awaited.  Given
    no ring buffer, it returns with the receive stream disabled, the
    interrupts of the receive stream enabled at the stream and at the
    interrupt controller, and the per-byte interrupt left disabled.  The
    receive primitive with a zero timeout arms the stream and returns
    success without consuming any event. *)
Theorem init_primes_reception :
  forall p cfg evs w,
    init_arguments_valid p cfg = true ->
    (forall rb,
       ring_buffer_arg_ok (Some rb) = true ->
       exists w',
         platform_uart_init driver_instance (Some p) (Some cfg) (Some rb) evs w
         = Ret kNoErr evs w' /\
         rx_buffer (drv w') = Some rb /\
         rx_stream (hw w')
         = mk_stream true true false (rb_size rb) (rb_size rb) ring_store
                     false (channel (rx_dma_config p)) (dma_halfword_of cfg) /\
         CR3_DMAR (usart (hw w')) = true /\
         CR1_RXNEIE (usart (hw w')) = true /\
         nvic (hw w') (uart_vector p) = true /\
         existsb is_GetSemaphore (trace_since w w') = false)
    /\ (exists w',
          platform_uart_init driver_instance (Some p) (Some cfg) None evs w
          = Ret kNoErr evs w' /\
          rx_buffer (drv w') = rx_buffer (drv w) /\
          CR_EN (rx_stream (hw w')) = false /\
          CR_IE (rx_stream (hw w')) = true /\
          nvic (hw w') (irq_vector (rx_dma_config p)) = true /\
          CR1_RXNEIE (usart (hw w')) = false /\
          CR3_DMAR (usart (hw w')) = false /\
          existsb is_GetSemaphore (trace_since w w') = false)
    /\ (forall data size evs1 w1,
          peripheral (drv w1) = Some p ->
          receive_bytes data size 0 evs1 w1
          = Ret kNoErr evs1 (receive_armed p data size w1)).
Proof.
  intros p cfg evs w Hv.
  destruct (valid_port_vector _ _ Hv) as [Hvec _].
  split; [|split].
  - intros rb Hrb.
    destruct (init_reaches_hardware p cfg (Some rb) evs w Hv Hrb) as (tr & Htr & Hi).
    unfold ring_buffer_arg_ok in Hrb.
    destruct (rb_buffer rb) as [cells|] eqn:Hc; [|discriminate].
    destruct (init_hardware_buffered p cfg (uart_init_structure_of cfg) rb cells
                (uart_vector p) evs
                (mk_world (init_driver_fields p (drv w)) (hw w)
                          (trace w ++ PowersaveDisable :: tr))
                Hvec eq_refl Hc)
      as (w1 & H1 & Hd & Hu & _ & Hrx & Hn & Ht).
    rewrite (bind_Ret_eq _ _ _ _ _ _ _ H1) in Hi.
    exists (log PowersaveEnable w1).
    split; [exact Hi|].
    split; [simpl; rewrite Hd; reflexivity|].
    split; [exact Hrx|].
    split; [simpl; rewrite Hu; reflexivity|].
    split; [simpl; rewrite Hu; reflexivity|].
    split.
    + simpl. rewrite Hn.
      replace (IRQn_eqb (uart_vector p) (uart_vector p)) with true; [reflexivity|].
      destruct (uart_vector p); simpl; rewrite ?Z.eqb_refl; reflexivity.
    + erewrite trace_since_app.
      2:{ simpl. rewrite Ht. simpl. rewrite <- !app_assoc. reflexivity. }
      simpl. apply existsb_is_GetSemaphore_app; [exact Htr | reflexivity].
  - destruct (init_reaches_hardware p cfg None evs w Hv eq_refl) as (tr & Htr & Hi).
    destruct (init_hardware_direct p cfg (uart_init_structure_of cfg)
                (uart_vector p) evs
                (mk_world (init_driver_fields p (drv w)) (hw w)
                          (trace w ++ PowersaveDisable :: tr))
                Hvec)
      as (w1 & H1 & Hd & Hu & _ & Hrx & Hn & Ht).
    rewrite (bind_Ret_eq _ _ _ _ _ _ _ H1) in Hi.
    exists (log PowersaveEnable w1).
    split; [exact Hi|].
    split; [simpl; rewrite Hd; reflexivity|].
    split; [simpl; rewrite Hrx; reflexivity|].
    split; [simpl; rewrite Hrx; reflexivity|].
    split.
    { simpl. rewrite Hn.
      replace (IRQn_eqb (irq_vector (rx_dma_config p)) (irq_vector (rx_dma_config p)))
        with true; [reflexivity|].
      destruct (irq_vector (rx_dma_config p)); simpl; rewrite ?Z.eqb_refl; reflexivity. }
    split; [simpl; rewrite Hu; reflexivity|].
    split; [simpl; rewrite Hu; reflexivity|].
    erewrite trace_since_app.
    2:{ simpl. rewrite Ht. simpl. rewrite <- !app_assoc. reflexivity. }
    simpl. apply existsb_is_GetSemaphore_app; [exact Htr | reflexivity].
  - intros data size evs1 w1 Hp. apply receive_bytes_no_wait. exact Hp.
Qed.

Lemma init_primes_reception_witness :
  init_arguments_valid board_uart board_config = true /\
  rx_stream (hw (board_buffered 64))
  = mk_stream true true false 64 64 ring_store false 4 false /\
  CR_EN (rx_stream (hw board_direct)) = false.
Proof.
  split; [reflexivity|].
  destruct (init_primes_reception board_uart board_config [] world_at_reset eq_refl)
    as (Hb & Hd & _).
  destruct (Hb (empty_ring 64) eq_refl) as (w1 & H1 & _ & H2 & _).
  destruct Hd as (w2 & H3 & _ & H4 & _).
  unfold board_buffered, board_direct. rewrite H1, H3. simpl.
  split; [exact H2 | exact H4].
Defined.

(** platform_uart_deinit on an initialised driver. *)
Lemma deinit_world p evs w :
  peripheral (drv w) = Some p ->
  port p <> USART_other ->
  exists w',
    platform_uart_deinit driver_instance evs w = Ret kNoErr evs w' /\
    rx_size (drv w') = 0 /\ tx_size (drv w') = 0 /\
    last_transmit_result (drv w') = kNoErr /\
    last_receive_result (drv w') = kNoErr /\
    tx_complete (drv w') = None /\ rx_complete (drv w') = None /\
    tx_mutex (drv w') = None /\
    rx_buffer (drv w') = rx_buffer (drv w) /\
    usart (hw w') = USART_reset /\
    tx_stream (hw w') = DMA_Stream_reset /\
    rx_stream (hw w') = DMA_Stream_reset /\
    (forall x, nvic (hw w') x
               = negb (IRQn_eqb x (irq_vector (rx_dma_config p)))
                 && negb (IRQn_eqb x (irq_vector (tx_dma_config p)))
                 && nvic (hw w) x).
Proof.
  intros Hp Hport. unfold platform_uart_deinit, the_peripheral.
  rewrite bind_modify. cbv beta.
  rewrite (bind_deref _ _ _ _ p); [|exact Hp]. cbv zeta.
  run_modify.
  assert (Hidx : uart_table_index (platform_uart_get_port_number (port p))
                 = Some (platform_uart_get_port_number (port p))).
  { destruct (port p); try reflexivity. contradiction. }
  rewrite (bind_deref _ _ _ _ _ Hidx). run_modify.
  eexists. split; [reflexivity|].
  repeat (split; [reflexivity|]).
  intro x. simpl.
  destruct (IRQn_eqb x (irq_vector (rx_dma_config p))),
    (IRQn_eqb x (irq_vector (tx_dma_config p))); reflexivity.
Qed.

(** After init and deinit the counters and results are at their idle
    values and the DMA vectors are disabled, but the vector of the UART,
    which init enabled, is still enabled whenever it is not one of the two
    DMA vectors. *)
Lemma init_then_deinit p cfg ring evs w :
  init_arguments_valid p cfg = true ->
  ring_buffer_arg_ok ring = true ->
  exists w1 w2,
    platform_uart_init driver_instance (Some p) (Some cfg) ring evs w
    = Ret kNoErr evs w1 /\
    platform_uart_deinit driver_instance evs w1 = Ret kNoErr evs w2 /\
    rx_size (drv w2) = 0 /\ tx_size (drv w2) = 0 /\
    last_transmit_result (drv w2) = kNoErr /\
    last_receive_result (drv w2) = kNoErr /\
    CR1_RXNEIE (usart (hw w2)) = false /\
    CR_IE (tx_stream (hw w2)) = false /\
    CR_IE (rx_stream (hw w2)) = false /\
    nvic (hw w2) (irq_vector (tx_dma_config p)) = false /\
    nvic (hw w2) (irq_vector (rx_dma_config p)) = false /\
    (IRQn_eqb (uart_vector p) (irq_vector (tx_dma_config p)) = false ->
     IRQn_eqb (uart_vector p) (irq_vector (rx_dma_config p)) = false ->
     nvic (hw w2) (uart_vector p) = true).
Proof.
  intros Hv Hr.
  destruct (valid_port_vector _ _ Hv) as [Hvec _].
  assert (Hself : forall v, IRQn_eqb v v = true).
  { intro v. destruct v; simpl; rewrite ?Z.eqb_refl; reflexivity. }
  assert (Hport : port p <> USART_other).
  { unfold init_arguments_valid in Hv. destruct (port p); discriminate. }
  destruct (init_reaches_hardware p cfg ring evs w Hv Hr) as (tr & Htr & Hi).
  assert (Hw1 : exists w1,
            platform_uart_init driver_instance (Some p) (Some cfg) ring evs w
            = Ret kNoErr evs w1 /\
            peripheral (drv w1) = Some p /\
            nvic (hw w1) (uart_vector p) = true).
  { destruct ring as [rb|].
    - unfold ring_buffer_arg_ok in Hr.
      destruct (rb_buffer rb) as [cells|] eqn:Hc; [|discriminate].
      destruct (init_hardware_buffered p cfg (uart_init_structure_of cfg) rb cells
                  (uart_vector p) evs
                  (mk_world (init_driver_fields p (drv w)) (hw w)
                            (trace w ++ PowersaveDisable :: tr))
                  Hvec eq_refl Hc)
        as (w1 & H1 & Hd & _ & _ & _ & Hn & _).
      rewrite (bind_Ret_eq _ _ _ _ _ _ _ H1) in Hi.
      exists (log PowersaveEnable w1). split; [exact Hi|].
      split; [simpl; rewrite Hd; reflexivity|].
      simpl. rewrite Hn, Hself. reflexivity.
    - destruct (init_hardware_direct p cfg (uart_init_structure_of cfg)
                  (uart_vector p) evs
                  (mk_world (init_driver_fields p (drv w)) (hw w)
                            (trace w ++ PowersaveDisable :: tr))
                  Hvec)
        as (w1 & H1 & Hd & _ & _ & _ & Hn & _).
      rewrite (bind_Ret_eq _ _ _ _ _ _ _ H1) in Hi.
      exists (log PowersaveEnable w1). split; [exact Hi|].
      split; [simpl; rewrite Hd; reflexivity|].
      simpl. rewrite Hn, Hself, orb_true_r. reflexivity. }
  destruct Hw1 as (w1 & H1 & Hp1 & Hn1).
  destruct (deinit_world p evs w1 Hp1 Hport)
    as (w2 & H2 & A1 & A2 & A3 & A4 & _ & _ & _ & _ & Hu & Htx & Hrx & Hn).
  exists w1, w2. split; [exact H1|]. split; [exact H2|].
  repeat (split; [assumption|]).
  split; [rewrite Hu; reflexivity|].
  split; [rewrite Htx; reflexivity|].
  split; [rewrite Hrx; reflexivity|].
  split; [rewrite Hn, Hself, andb_false_r; reflexivity|].
  split; [rewrite Hn, Hself; reflexivity|].
  intros E1 E2. rewrite Hn, E1, E2, Hn1. reflexivity.
Qed.

(** C8, on the board: before init the vector of USART1 is disabled; init
    enables it; after deinit it is still enabled, while both DMA vectors
    and every interrupt enable at the devices are off and the counters and
    results of the driver are back at their idle values.  The call made
    under the comment that announces the UART vector disables the vector
    of the receive stream. *)
Theorem deinit_leaves_uart_vector_enabled :
  nvic (hw world_at_reset) USART1_IRQn = false /\
  nvic (hw board_direct) USART1_IRQn = true /\
  exists w2,
    platform_uart_deinit driver_instance [] board_direct = Ret kNoErr [] w2 /\
    nvic (hw w2) USART1_IRQn = true /\
    nvic (hw w2) (irq_vector (tx_dma_config board_uart)) = false /\
    nvic (hw w2) (irq_vector (rx_dma_config board_uart)) = false /\
    CR1_RXNEIE (usart (hw w2)) = false /\
    rx_size (drv w2) = 0 /\ tx_size (drv w2) = 0 /\
    last_transmit_result (drv w2) = kNoErr /\
    last_receive_result (drv w2) = kNoErr.
Proof.
  split; [reflexivity|]. split; [vm_compute; reflexivity|].
  eexists. split; [vm_compute; reflexivity|].
  repeat split; vm_compute; reflexivity.
Qed.

(** ** Receive: time-outs *)

(** Invariants of a wait on a semaphore: a property of the schedule and
    the world that survives every event taken while the token is absent,
    and the taking of the token, holds when the wait returns. *)
Lemma sem_wait_preserves (Q : list event -> world -> Prop) s :
  (forall e evs w w',
     Q (e :: evs) w -> get_sem s (drv w) = Some false ->
     env_step e w = Some w' -> Q evs w') ->
  (forall evs w, Q evs w -> Q evs (upd_drv (put_sem s (Some false)) w)) ->
  forall evs t w r evs' w',
    Q evs w -> sem_wait s t evs w = Ret r evs' w' -> Q evs' w'.
Proof.
  intros Hstep Htake. induction evs as [|e evs IH]; intros t w r evs' w' HQ; simpl.
  - destruct (get_sem s (drv w)) as [[|]|]; try discriminate.
    + intro H. inversion H. subst. apply Htake. exact HQ.
    + destruct (t =? 0); try discriminate.
      intro H. inversion H. subst. exact HQ.
  - destruct (get_sem s (drv w)) as [[|]|] eqn:Es; try discriminate.
    + intro H. inversion H. subst. apply Htake. exact HQ.
    + destruct (t =? 0).
      * intro H. inversion H. subst. exact HQ.
      * destruct (env_step e w) as [w1|] eqn:E; try discriminate.
        apply IH. apply (Hstep e evs w w1 HQ Es E).
Qed.

(** A wait returns success or a timeout error, nothing else. *)
Lemma sem_wait_status s evs : forall t w r evs' w',
  sem_wait s t evs w = Ret r evs' w' -> r = kNoErr \/ r = kTimeoutErr.
Proof.
  induction evs as [|e evs IH]; intros t w r evs' w'; simpl.
  - destruct (get_sem s (drv w)) as [[|]|]; try discriminate.
    + intro H. inversion H. left. reflexivity.
    + destruct (t =? 0); try discriminate.
      intro H. inversion H. right. reflexivity.
  - destruct (get_sem s (drv w)) as [[|]|]; try discriminate.
    + intro H. inversion H. left. reflexivity.
    + destruct (t =? 0).
      * intro H. inversion H. right. reflexivity.
      * destruct (env_step e w) as [w1|]; try discriminate. apply IH.
Qed.

(** *** What each interrupt handler changes *)

Lemma driver_eta d :
  d = mk_driver (peripheral d) (rx_buffer d) (rx_size d) (tx_size d)
        (last_transmit_result d) (last_receive_result d) (tx_complete d)
        (rx_complete d) (sem_wakeup d) (tx_mutex d).
Proof. destruct d. reflexivity. Qed.

Lemma platform_uart_irq_effect w w' :
  platform_uart_irq w = Some w' ->
  exists rb,
    rx_buffer (drv w) = Some rb /\
    hw w' = hw w /\
    drv w'
    = mk_driver (peripheral (drv w))
        (Some (set_rb_tail (wrap32 (rb_size rb - NDTR (rx_stream (hw w)))) rb))
        (if (0 <? rx_size (drv w))
            && (rx_size (drv w) <=?
                ring_buffer_used_space
                  (set_rb_tail (wrap32 (rb_size rb - NDTR (rx_stream (hw w)))) rb))
         then 0 else rx_size (drv w))
        (tx_size (drv w)) (last_transmit_result (drv w))
        (last_receive_result (drv w)) (tx_complete (drv w))
        (if (0 <? rx_size (drv w))
            && (rx_size (drv w) <=?
                ring_buffer_used_space
                  (set_rb_tail (wrap32 (rb_size rb - NDTR (rx_stream (hw w)))) rb))
         then Some true else rx_complete (drv w))
        (match sem_wakeup (drv w) with
         | Some _ => Some true
         | None => None
         end)
        (tx_mutex (drv w)).
Proof.
  unfold platform_uart_irq.
  destruct (peripheral (drv w)) as [p|] eqn:Ep; [|discriminate].
  destruct (rx_buffer (drv w)) as [rb|] eqn:Eb; [|discriminate].
  cbv zeta. cbn [rx_size drv upd_drv set_rx_buffer].
  intro H. exists rb. split; [reflexivity|]. revert H.
  destruct ((0 <? rx_size (drv w)) && _).
  - unfold mico_rtos_set_semaphore. simpl.
    destruct (rx_complete (drv w)) eqn:Er; [|discriminate]. simpl.
    destruct (sem_wakeup (drv w)) eqn:Ew; intro H; inversion H; subst; clear H;
      (split; [reflexivity|]); unfold set_sem_wakeup, set_rx_size, set_rx_complete, set_rx_buffer; simpl; rewrite ?Ep, ?Ew; reflexivity.
  - unfold mico_rtos_set_semaphore. simpl.
    destruct (sem_wakeup (drv w)) eqn:Ew; intro H; inversion H; subst; clear H;
      (split; [reflexivity|]); unfold set_sem_wakeup, set_rx_size, set_rx_complete, set_rx_buffer; simpl; rewrite ?Ep, ?Ew; reflexivity.
Qed.

Lemma clear_dma_interrupts_only_status stream flags h :
  exists f, clear_dma_interrupts stream flags h = set_dma_status f h.
Proof.
  unfold clear_dma_interrupts, clear_status.
  destruct (stream <=? DMA1_Stream3); [eexists; reflexivity|].
  destruct (stream <=? DMA1_Stream7); [eexists; reflexivity|].
  destruct (stream <=? DMA2_Stream3); eexists; reflexivity.
Qed.

Lemma raise_dma_status_only_status stream flags h :
  exists f, raise_dma_status stream flags h = set_dma_status f h.
Proof.
  unfold raise_dma_status, raise_status.
  destruct (stream <=? DMA1_Stream3); [eexists; reflexivity|].
  destruct (stream <=? DMA1_Stream7); [eexists; reflexivity|].
  destruct (stream <=? DMA2_Stream3); eexists; reflexivity.
Qed.


Lemma same_devices_refl h : same_devices h h.
Proof. repeat split. Qed.

Lemma same_devices_trans h1 h2 h3 :
  same_devices h1 h2 -> same_devices h2 h3 -> same_devices h1 h3.
Proof.
  intros (A1 & A2 & A3 & A4) (B1 & B2 & B3 & B4).
  repeat split; congruence.
Qed.

Lemma same_devices_clear stream flags h :
  same_devices h (clear_dma_interrupts stream flags h).
Proof.
  destruct (clear_dma_interrupts_only_status stream flags h) as [f ->].
  repeat split.
Qed.

Lemma same_devices_raise stream flags h :
  same_devices h (raise_dma_status stream flags h).
Proof.
  destruct (raise_dma_status_only_status stream flags h) as [f ->].
  repeat split.
Qed.

Lemma platform_uart_rx_dma_irq_effect w w' :
  platform_uart_rx_dma_irq w = Some w' ->
  exists r s,
    drv w' = set_rx_complete s (set_last_receive_result r (drv w)) /\
    (r = last_receive_result (drv w) \/ r = kNoErr \/ r = kGeneralErr) /\
    (s = rx_complete (drv w) \/ (s = Some true /\ 0 < rx_size (drv w))) /\
    same_devices (hw w) (hw w').
Proof.
  unfold platform_uart_rx_dma_irq.
  destruct (peripheral (drv w)) as [p|]; [|discriminate]. cbv zeta.
  set (c := rx_dma_config p).
  set (w1 := if negb _ then _ else w).
  assert (H1 : exists r,
            drv w1 = set_last_receive_result r (drv w) /\
            (r = last_receive_result (drv w) \/ r = kNoErr \/ r = kGeneralErr) /\
            same_devices (hw w) (hw w1)).
  { subst w1. destruct (negb _).
    - exists kNoErr. split; [reflexivity|]. split; [auto|]. apply same_devices_clear.
    - exists (last_receive_result (drv w)).
      split; [destruct (drv w); reflexivity|]. split; [auto|]. apply same_devices_refl. }
  clearbody w1. destruct H1 as (r1 & Hd1 & Hr1 & Hh1).
  set (w2 := if negb _ then _ else w1).
  assert (H2 : exists r,
            drv w2 = set_last_receive_result r (drv w) /\
            (r = last_receive_result (drv w) \/ r = kNoErr \/ r = kGeneralErr) /\
            same_devices (hw w) (hw w2)).
  { subst w2. destruct (negb _).
    - exists kGeneralErr. split; [simpl; rewrite Hd1; reflexivity|]. split; [auto|].
      apply (same_devices_trans _ _ _ Hh1). apply same_devices_clear.
    - exists r1. auto. }
  clearbody w2. destruct H2 as (r2 & Hd2 & Hr2 & Hh2).
  destruct (0 <? rx_size (drv w2)) eqn:Epos.
  - unfold mico_rtos_set_semaphore. simpl.
    destruct (rx_complete (drv w2)) eqn:Ec; [|discriminate].
    intro H. inversion H. subst. clear H. simpl.
    exists r2, (Some true). split; [rewrite Hd2; reflexivity|].
    split; [exact Hr2|]. split; [|exact Hh2].
    right. split; [reflexivity|].
    apply Z.ltb_lt in Epos. rewrite Hd2 in Epos. exact Epos.
  - intro H. inversion H. subst. clear H.
    exists r2, (rx_complete (drv w)). split.
    + rewrite Hd2. destruct (drv w). reflexivity.
    + split; [exact Hr2|]. split; [left; reflexivity | exact Hh2].
Qed.

Lemma platform_uart_tx_dma_irq_effect w w' :
  platform_uart_tx_dma_irq w = Some w' ->
  exists r s,
    drv w' = set_tx_complete s (set_last_transmit_result r (drv w)) /\
    same_devices (hw w) (hw w').
Proof.
  unfold platform_uart_tx_dma_irq.
  destruct (peripheral (drv w)) as [p|]; [|discriminate]. cbv zeta.
  set (c := tx_dma_config p).
  set (w1 := if negb _ then _ else w).
  assert (H1 : exists r,
            drv w1 = set_last_transmit_result r (drv w) /\
            same_devices (hw w) (hw w1)).
  { subst w1. destruct (negb _).
    - exists kNoErr. split; [reflexivity|]. apply same_devices_clear.
    - exists (last_transmit_result (drv w)).
      split; [destruct (drv w); reflexivity|]. apply same_devices_refl. }
  clearbody w1. destruct H1 as (r1 & Hd1 & Hh1).
  set (w2 := if negb _ then _ else w1).
  assert (H2 : exists r,
            drv w2 = set_last_transmit_result r (drv w) /\
            same_devices (hw w) (hw w2)).
  { subst w2. destruct (negb _).
    - exists kGeneralErr. split; [simpl; rewrite Hd1; reflexivity|].
      apply (same_devices_trans _ _ _ Hh1). apply same_devices_clear.
    - exists r1. auto. }
  clearbody w2. destruct H2 as (r2 & Hd2 & Hh2).
  destruct (0 <? tx_size (drv w2)).
  - unfold mico_rtos_set_semaphore. simpl.
    destruct (tx_complete (drv w2)) eqn:Ec; [|discriminate].
    intro H. inversion H. subst. clear H. simpl.
    exists r2, (Some true). split; [rewrite Hd2; reflexivity | exact Hh2].
  - intro H. inversion H. subst. clear H.
    exists r2, (tx_complete (drv w)). split; [|exact Hh2].
    rewrite Hd2. destruct (drv w). reflexivity.
Qed.

Lemma dma_rx_store_driver b w :
  exists r, drv (dma_rx_store b w) = set_rx_buffer r (drv w).
Proof.
  assert (Hid : drv w = set_rx_buffer (rx_buffer (drv w)) (drv w))
    by (destruct (drv w); reflexivity).
  unfold dma_rx_store.
  destruct (_ && _); [|eexists; exact Hid].
  destruct (M0AR _), (rx_buffer (drv w)) as [rb|] eqn:Eb;
    try destruct (rb_buffer rb);
    destruct (_ =? 0); try destruct (CR_CIRC _); simpl;
    try rewrite Eb; eexists; first [exact Hid | reflexivity].
Qed.

(** What an event leaves alone: the driver fields that only the task or
    the receive handlers write. *)
Lemma env_step_receive_fields e w w' :
  env_step e w = Some w' ->
  (last_receive_result (drv w') = last_receive_result (drv w)
   \/ last_receive_result (drv w') = kNoErr
   \/ last_receive_result (drv w') = kGeneralErr)
  /\ (rx_size (drv w) = 0 ->
      rx_size (drv w') = 0 /\ rx_complete (drv w') = rx_complete (drv w)).
Proof.
  destruct e; simpl; intro H.
  - inversion H. subst. auto.
  - destruct (_ && _); [|inversion H; subst; auto].
    destruct (dma_rx_store_driver b w) as [r Hr].
    set (w1 := dma_rx_store b w) in *. clearbody w1.
    assert (H1 : last_receive_result (drv w1) = last_receive_result (drv w)
                 /\ rx_size (drv w1) = rx_size (drv w)
                 /\ rx_complete (drv w1) = rx_complete (drv w)).
    { rewrite Hr. repeat split. }
    destruct H1 as (A1 & A2 & A3).
    assert (Hsame : Some w1 = Some w' ->
              (last_receive_result (drv w') = last_receive_result (drv w)
               \/ last_receive_result (drv w') = kNoErr
               \/ last_receive_result (drv w') = kGeneralErr)
              /\ (rx_size (drv w) = 0 ->
                  rx_size (drv w') = 0 /\ rx_complete (drv w') = rx_complete (drv w))).
    { intro E. inversion E. subst. split; [left; exact A1|].
      intro Hz. rewrite A2, A3. auto. }
    destruct (peripheral (drv w1)) as [p|]; [|exact (Hsame H)].
    destruct (uart_irq_vectors _); [|exact (Hsame H)].
    destruct (_ && _); [|exact (Hsame H)].
    apply platform_uart_irq_effect in H as (rb & _ & _ & Hd).
    rewrite Hd. simpl. split; [left; exact A1|].
    intro Hz. rewrite A2, Hz, A3. simpl. auto.
  - inversion H. subst. auto.
  - destruct (peripheral (drv w)) as [p|]; [|inversion H; subst; auto].
    destruct (_ && _); [|inversion H; subst; auto].
    apply platform_uart_tx_dma_irq_effect in H as (r & s & Hd & _).
    rewrite Hd. simpl. auto.
  - destruct (peripheral (drv w)) as [p|]; [|inversion H; subst; auto].
    destruct (_ && _); [|inversion H; subst; auto].
    apply platform_uart_rx_dma_irq_effect in H as (r & s & Hd & Hr & Hs & _).
    rewrite Hd. simpl. simpl in Hr. split; [exact Hr|].
    intro Hz. split; [exact Hz|].
    destruct Hs as [-> | [_ Hpos]]; [reflexivity | simpl in Hpos; lia].
  - destruct (tx_mutex (drv w)); inversion H; subst; auto.
Qed.

(** With rx_size at zero no run of events signals the RX Completion
    Signal, and rx_size stays at zero. *)
Lemma env_run_quiet evs : forall w w',
  rx_size (drv w) = 0 ->
  env_run evs w = Some w' ->
  rx_size (drv w') = 0 /\ rx_complete (drv w') = rx_complete (drv w).
Proof.
  induction evs as [|e evs IH]; intros w w' Hz; simpl.
  - intro H. inversion H. subst. auto.
  - destruct (env_step e w) as [w1|] eqn:E; [|discriminate].
    destruct (env_step_receive_fields _ _ _ E) as [_ Hq].
    destruct (Hq Hz) as [Hz1 Hc1].
    intro H. destruct (IH _ _ Hz1 H) as [Hz2 Hc2].
    split; [exact Hz2 | congruence].
Qed.

(** *** The loops of the buffered receive, one pass at a time *)

Lemma interrupts_inv k evs w evs' w' :
  interrupts k evs w = Ret tt evs' w' ->
  env_run (firstn k evs) w = Some w' /\ evs' = skipn k evs.
Proof.
  unfold interrupts. destruct (env_run (firstn k evs) w); [|discriminate].
  intro H. inversion H. auto.
Qed.

Lemma deref_inv {A} (f : world -> option A) evs w a evs' w' :
  deref f evs w = Ret a evs' w' -> f w = Some a /\ evs' = evs /\ w' = w.
Proof.
  unfold deref. destruct (f w); [|discriminate].
  intro H. inversion H. auto.
Qed.

Lemma grab_data_unfold fuel when k transfer_size out :
  grab_data (S fuel) when k transfer_size out
  = (interrupts (when (before_get_data k)) ;;
     rb <- deref (fun w => rx_buffer (drv w)) ;;
     let available_data := fst (ring_buffer_get_data rb) in
     let bytes_available := MIN (snd (ring_buffer_get_data rb)) transfer_size in
     interrupts (when (before_memcpy k)) ;;
     rb1 <- deref (fun w => rx_buffer (drv w)) ;;
     cells <- deref (fun _ => rb_buffer rb1) ;;
     let out' := out ++ read_cells cells available_data bytes_available in
     let transfer_size' := wrap32 (transfer_size - bytes_available) in
     interrupts (when (before_consume k)) ;;
     rb2 <- deref (fun w => rx_buffer (drv w)) ;;
     modify (upd_drv (set_rx_buffer (Some (ring_buffer_consume rb2 bytes_available)))) ;;
     if transfer_size' =? 0 then ret out'
     else
       (if (bytes_available =? 0)
           && (when (before_memcpy k) + when (before_consume k) =? 0)%nat
        then await_event else ret tt) ;;
       grab_data fuel when (S k) transfer_size' out').
Proof. reflexivity. Qed.

Lemma receive_buffered_unfold fuel when pass expected_data_size
  timeout_ms err out :
  receive_buffered (S fuel) when pass expected_data_size timeout_ms
                               err out
  = if expected_data_size =? 0 then ret (err, out)
    else
      interrupts (when pass before_chunk_size) ;;
      rb <- deref (fun w => rx_buffer (drv w)) ;;
      let transfer_size := MIN (rb_size rb / 2) expected_data_size in
      interrupts (when pass before_used_space_test) ;;
      rb0 <- deref (fun w => rx_buffer (drv w)) ;;
      waited <-
        (if ring_buffer_used_space rb0 <? transfer_size then
           interrupts (when pass before_result_store) ;;
           modify (upd_drv (set_last_receive_result kNoErr)) ;;
           interrupts (when pass before_rx_size_store) ;;
           modify (upd_drv (set_rx_size transfer_size)) ;;
           interrupts (when pass before_wait) ;;
           e <- mico_rtos_get_semaphore sem_rx_complete timeout_ms ;;
           interrupts (when pass before_rx_size_reset) ;;
           modify (upd_drv (set_rx_size 0)) ;;
           ret e
         else ret kNoErr) ;;
      if OSStatus_eqb waited kNoErr then
        interrupts (when pass before_result_read) ;;
        err' <- read (fun w => last_receive_result (drv w)) ;;
        let expected_data_size' := wrap32 (expected_data_size - transfer_size) in
        out' <- (fun evs w =>
                   grab_data
                     (S (Z.to_nat transfer_size + length evs))
                     (when pass) 0 transfer_size out evs w) ;;
        receive_buffered fuel when (S pass) expected_data_size'
                                     timeout_ms err' out'
      else ret (waited, out).
Proof. reflexivity. Qed.

Lemma receive_buffered_out_of_fuel when pass expected_data_size
  timeout_ms err out :
  receive_buffered 0 when pass expected_data_size timeout_ms err out
  = if expected_data_size =? 0 then ret (err, out) else fun _ _ => NoReturn.
Proof. reflexivity. Qed.

Lemma await_event_inv evs w evs' w' :
  await_event evs w = Ret tt evs' w' ->
  exists e, evs = e :: evs' /\ env_step e w = Some w'.
Proof.
  unfold await_event. destruct evs as [|e evs1]; [discriminate|].
  destruct (env_step e w) as [w1|] eqn:E; [|discriminate].
  intro H. inversion H. subst. exists e. auto.
Qed.

Lemma env_run_preserves (Q : world -> Prop) :
  (forall e w w', Q w -> env_step e w = Some w' -> Q w') ->
  forall evs w w', Q w -> env_run evs w = Some w' -> Q w'.
Proof.
  intro Hstep. induction evs as [|e evs IH]; intros w w' HQ; simpl.
  - intro H. inversion H. subst. exact HQ.
  - destruct (env_step e w) as [w1|] eqn:E; [|discriminate].
    apply IH. exact (Hstep _ _ _ HQ E).
Qed.

Lemma interrupts_preserves (Q : world -> Prop) :
  (forall e w w', Q w -> env_step e w = Some w' -> Q w') ->
  forall k evs w evs' w', Q w -> interrupts k evs w = Ret tt evs' w' -> Q w'.
Proof.
  intros Hstep k evs w evs' w' HQ H.
  apply interrupts_inv in H as [H _].
  exact (env_run_preserves Q Hstep _ _ _ HQ H).
Qed.

(** What every handler and the consumption of bytes preserve, the copy
    loop preserves, wherever it is interrupted. *)
Lemma grab_data_preserves (Q : world -> Prop) :
  (forall e w w', Q w -> env_step e w = Some w' -> Q w') ->
  (forall w r, Q w -> Q (upd_drv (set_rx_buffer r) w)) ->
  forall fuel when k transfer_size out evs w out' evs' w',
    Q w -> grab_data fuel when k transfer_size out evs w = Ret out' evs' w' ->
    Q w'.
Proof.
  intros Hstep Hset. induction fuel as [|fuel IH];
    intros when k ts out evs w out' evs' w' HQ; [discriminate|].
  rewrite grab_data_unfold. intro H.
  apply bind_Ret_inv in H as ([] & e1 & w1 & H1 & H).
  apply (interrupts_preserves Q Hstep) in H1; [|exact HQ].
  apply bind_Ret_inv in H as (rb & ? & ? & D & H).
  apply deref_inv in D as (_ & -> & ->). cbv zeta in H.
  apply bind_Ret_inv in H as ([] & e2 & w2 & H2 & H).
  apply (interrupts_preserves Q Hstep) in H2; [|exact H1].
  apply bind_Ret_inv in H as (rb1 & ? & ? & D & H).
  apply deref_inv in D as (_ & -> & ->).
  apply bind_Ret_inv in H as (cells & ? & ? & D & H).
  apply deref_inv in D as (_ & -> & ->).
  apply bind_Ret_inv in H as ([] & e3 & w3 & H3 & H).
  apply (interrupts_preserves Q Hstep) in H3; [|exact H2].
  apply bind_Ret_inv in H as (rb2 & ? & ? & D & H).
  apply deref_inv in D as (_ & -> & ->).
  rewrite bind_modify in H.
  destruct (_ =? 0) in H.
  - inversion H. subst. apply Hset. exact H3.
  - apply bind_Ret_inv in H as ([] & e4 & w4 & H4 & H).
    apply IH in H; [exact H|].
    destruct (_ && _) in H4.
    + apply await_event_inv in H4 as (e & _ & E).
      apply (Hstep _ _ _ (Hset _ _ H3) E).
    + inversion H4. subst. apply Hset. exact H3.
Qed.

Lemma OSStatus_eqb_eq a b : OSStatus_eqb a b = true <-> a = b.
Proof. destruct a, b; simpl; split; intro H; try reflexivity; discriminate. Qed.

Lemma receive_result_sound_step e w w' :
  receive_result_sound w -> env_step e w = Some w' -> receive_result_sound w'.
Proof.
  unfold receive_result_sound. intros HQ E.
  destruct (env_step_receive_fields _ _ _ E) as [[-> | [-> | ->]] _];
    [exact HQ | discriminate | discriminate].
Qed.

(** A buffered receive that returns a timeout error has just cleared
    rx_size, wherever it was interrupted. *)
Lemma receive_buffered_timeout fuel :
  forall when pass expected t err out evs w out' evs' w',
    err <> kTimeoutErr ->
    receive_result_sound w ->
    receive_buffered fuel when pass expected t err out evs w
    = Ret (kTimeoutErr, out') evs' w' ->
    rx_size (drv w') = 0.
Proof.
  pose proof (interrupts_preserves receive_result_sound
                (fun e w w' => receive_result_sound_step e w w')) as Hi.
  induction fuel as [|fuel IH];
    intros when pass expected t err out evs w out' evs' w' He HQ.
  - rewrite receive_buffered_out_of_fuel.
    destruct (expected =? 0); [|discriminate].
    intro H. inversion H. subst. contradiction.
  - rewrite receive_buffered_unfold.
    destruct (expected =? 0).
    { intro H. inversion H. subst. contradiction. }
    intro H.
    apply bind_Ret_inv in H as ([] & e1 & w1 & H1 & H).
    apply Hi in H1; [|exact HQ].
    apply bind_Ret_inv in H as (rb & ? & ? & D & H).
    apply deref_inv in D as (_ & -> & ->). cbv zeta in H.
    apply bind_Ret_inv in H as ([] & e2 & w2 & H2 & H).
    apply Hi in H2; [|exact H1].
    apply bind_Ret_inv in H as (rb0 & ? & ? & D & H).
    apply deref_inv in D as (_ & -> & ->).
    apply bind_Ret_inv in H as (waited & e3 & w3 & H3 & H).
    assert (Hw3 : receive_result_sound w3 /\
                  (waited = kNoErr \/ (waited = kTimeoutErr /\ rx_size (drv w3) = 0))).
    { destruct (_ <? _) in H3.
      - apply bind_Ret_inv in H3 as ([] & a1 & v1 & I1 & H3).
        apply Hi in I1; [|exact H2].
        rewrite bind_modify in H3.
        apply bind_Ret_inv in H3 as ([] & a2 & v2 & I2 & H3).
        apply Hi in I2; [|unfold receive_result_sound; simpl; discriminate].
        rewrite bind_modify in H3.
        apply bind_Ret_inv in H3 as ([] & a3 & v3 & I3 & H3).
        apply Hi in I3; [|exact I2].
        apply bind_Ret_inv in H3 as (e & a4 & v4 & I4 & H3).
        apply bind_Ret_inv in H3 as ([] & a5 & v5 & I5 & H3).
        rewrite bind_modify in H3. inversion H3. subst. clear H3.
        unfold mico_rtos_get_semaphore in I4.
        assert (Q4 : receive_result_sound v4).
        { refine (sem_wait_preserves (fun _ v => receive_result_sound v) _ _ _
                    _ _ _ _ _ _ _ I4).
          - intros ev evs0 v v' Qv _ E. exact (receive_result_sound_step _ _ _ Qv E).
          - intros evs0 v Qv. exact Qv.
          - exact I3. }
        split.
        + exact (Hi _ _ _ _ _ Q4 I5).
        + destruct (sem_wait_status _ _ _ _ _ _ _ I4) as [-> | ->];
            [left; reflexivity | right; split; reflexivity].
      - inversion H3. subst. split; [exact H2 | left; reflexivity]. }
    destruct Hw3 as [Q3 [-> | [-> Hz]]].
    + cbn [OSStatus_eqb] in H.
      apply bind_Ret_inv in H as ([] & e4 & w4 & H4 & H).
      apply Hi in H4; [|exact Q3].
      rewrite bind_read in H.
      apply bind_Ret_inv in H as (o & e5 & w5 & H5 & H).
      apply IH in H; [exact H | exact H4 |].
      refine (grab_data_preserves receive_result_sound _ _ _ _ _ _ _ _ _ _ _ _ H4 H5).
      * intros ev v v'. apply receive_result_sound_step.
      * intros v r Qv. exact Qv.
    + cbn [OSStatus_eqb] in H. inversion H. subst. exact Hz.
Qed.

Lemma bind_assoc {A B C} (m : task A) (k1 : A -> task B) (k2 : B -> task C) evs w :
  bind (bind m k1) k2 evs w = bind m (fun a => bind (k1 a) k2) evs w.
Proof. unfold bind. destruct (m evs w); reflexivity. Qed.

(** C2: time-outs of the buffered receive, wherever interrupts fall
    inside the call.  At any pass of the loop, if the used space is below
    the chunk and the wait on the RX Completion Signal that follows the two
    stores times out, the call returns the timeout error at once: the
    bytes copied so far are unchanged, and the last action is the store
    that clears rx_size.  Whenever a buffered receive returns a timeout
    error, rx_size is zero, and no later run of interrupts signals the RX
    Completion Signal or raises rx_size.  With a 64-byte ring buffer, a
    request for 40 bytes, a timeout of 100 ms and no data arriving, the
    call returns a timeout error after the 100 ms with rx_size at zero and
    an empty ring buffer. *)
Theorem receive_timeout_clears_rx_size :
  (forall fuel when pass expected t err out evs w rb evs1 w1 rb0 evs2 w2
          evs3 w3 evs4 w4,
     expected <> 0 ->
     interrupts (when pass before_chunk_size) evs w = Ret tt evs1 w1 ->
     rx_buffer (drv w1) = Some rb ->
     interrupts (when pass before_used_space_test) evs1 w1 = Ret tt evs2 w2 ->
     rx_buffer (drv w2) = Some rb0 ->
     ring_buffer_used_space rb0 < MIN (rb_size rb / 2) expected ->
     (interrupts (when pass before_result_store) ;;
      modify (upd_drv (set_last_receive_result kNoErr)) ;;
      interrupts (when pass before_rx_size_store) ;;
      modify (upd_drv (set_rx_size (MIN (rb_size rb / 2) expected))) ;;
      interrupts (when pass before_wait) ;;
      mico_rtos_get_semaphore sem_rx_complete t) evs2 w2
     = Ret kTimeoutErr evs3 w3 ->
     interrupts (when pass before_rx_size_reset) evs3 w3 = Ret tt evs4 w4 ->
     receive_buffered (S fuel) when pass expected t err out evs w
     = Ret (kTimeoutErr, out) evs4 (upd_drv (set_rx_size 0) w4))
  /\ (forall when data_in n t evs w out evs' w',
        rx_buffer (drv w) <> None ->
        last_receive_result (drv w) <> kTimeoutErr ->
        platform_uart_receive_bytes when driver_instance data_in n t evs w
        = Ret (kTimeoutErr, out) evs' w' ->
        rx_size (drv w') = 0 /\
        forall es w'',
          env_run es w' = Some w'' ->
          rx_size (drv w'') = 0 /\ rx_complete (drv w'') = rx_complete (drv w'))
  /\ (exists w',
        platform_uart_receive_bytes uninterrupted driver_instance
          caller_buffer 40 100 (repeat Tick 100) (board_buffered 64)
        = Ret (kTimeoutErr, []) [] w' /\
        rx_size (drv w') = 0 /\
        platform_uart_get_length_in_buffer driver_instance [] w' = Ret 0 [] w').
Proof.
  split; [|split].
  - intros fuel when pass expected t err out evs w rb evs1 w1 rb0 evs2 w2
           evs3 w3 evs4 w4 Hn H1 Hrb H2 Hrb0 Hlt Hwait H4.
    apply bind_Ret_inv in Hwait as ([] & a1 & v1 & I1 & Hwait).
    rewrite bind_modify in Hwait.
    apply bind_Ret_inv in Hwait as ([] & a2 & v2 & I2 & Hwait).
    rewrite bind_modify in Hwait.
    apply bind_Ret_inv in Hwait as ([] & a3 & v3 & I3 & Hwait).
    rewrite receive_buffered_unfold.
    apply Z.eqb_neq in Hn. rewrite Hn.
    rewrite (bind_Ret_eq _ _ _ _ _ _ _ H1).
    rewrite (bind_deref _ _ _ _ _ Hrb). cbv zeta.
    rewrite (bind_Ret_eq _ _ _ _ _ _ _ H2).
    rewrite (bind_deref _ _ _ _ _ Hrb0).
    apply Z.ltb_lt in Hlt. rewrite Hlt.
    rewrite bind_assoc, (bind_Ret_eq _ _ _ _ _ _ _ I1).
    rewrite bind_assoc, bind_modify. cbv beta.
    rewrite bind_assoc, (bind_Ret_eq _ _ _ _ _ _ _ I2).
    rewrite bind_assoc, bind_modify. cbv beta.
    rewrite bind_assoc, (bind_Ret_eq _ _ _ _ _ _ _ I3).
    rewrite bind_assoc, (bind_Ret_eq _ _ _ _ _ _ _ Hwait).
    rewrite bind_assoc, (bind_Ret_eq _ _ _ _ _ _ _ H4).
    rewrite bind_assoc, bind_modify. cbv beta.
    rewrite bind_ret. reflexivity.
  - intros when data_in n t evs w out evs' w' Hrb HQ H.
    assert (Hz : rx_size (drv w') = 0).
    { unfold platform_uart_receive_bytes in H.
      destruct (is_NULL data_in || (n =? 0)); [discriminate|].
      rewrite bind_read in H.
      destruct (rx_buffer (drv w)); [|contradiction].
      apply (receive_buffered_timeout _ _ _ _ _ _ _ _ _ _ _ _) in H;
        [exact H | discriminate | exact HQ]. }
    split; [exact Hz|]. intros es w''. apply env_run_quiet. exact Hz.
  - eexists. split; [vm_compute; reflexivity|]. split; vm_compute; reflexivity.
Qed.

Lemma receive_timeout_clears_rx_size_witness :
  exists w',
    platform_uart_receive_bytes outside_the_window driver_instance
      caller_buffer 40 100 (repeat Tick 104) (board_buffered 64)
    = Ret (kTimeoutErr, []) [] w' /\
    rx_size (drv w') = 0.
Proof.
  eexists. split; [vm_compute; reflexivity|].
  refine (proj1 (proj1 (proj2 receive_timeout_clears_rx_size)
            outside_the_window caller_buffer 40 100 (repeat Tick 104)
            (board_buffered 64) [] [] _ _ _ _)).
  - vm_compute. discriminate.
  - vm_compute. discriminate.
  - vm_compute. reflexivity.
Defined.

(** ** The TX DMA interrupt handler *)

Lemma dma_status_register_get s h :
  get_dma_irq_status s h = dma_status h (dma_status_register s).
Proof.
  unfold get_dma_irq_status, dma_status_register.
  destruct (s <=? DMA1_Stream3); [reflexivity|].
  destruct (s <=? DMA1_Stream7); [reflexivity|].
  destruct (s <=? DMA2_Stream3); reflexivity.
Qed.

Lemma dma_status_register_clear s f h r :
  dma_status (clear_dma_interrupts s f h) r
  = if dma_status_reg_eqb r (dma_status_register s)
    then Z.ldiff (dma_status h r) f
    else dma_status h r.
Proof.
  unfold clear_dma_interrupts, dma_status_register.
  destruct (s <=? DMA1_Stream3); [destruct r; reflexivity|].
  destruct (s <=? DMA1_Stream7); [destruct r; reflexivity|].
  destruct (s <=? DMA2_Stream3); destruct r; reflexivity.
Qed.

Lemma dma_status_reg_eqb_eq a b : dma_status_reg_eqb a b = true <-> a = b.
Proof. destruct a, b; simpl; split; intro H; try reflexivity; discriminate. Qed.

(** C4: the TX DMA interrupt handler, on the pending-flag register as the
    hardware holds it.  With [status] the content of the register in which
    the transmit stream reports, [complete] the test of the
    transfer-complete flags on it, and [failed] the test of the error
    flags on what the clear of the transfer-complete flags has left: the
    recorded result is a general error when [failed], success when only
    [complete], and is left alone otherwise; the flags of each test that
    fired are cleared in that register, and no other status register and
    no other device register changes; the TX Completion Signal is
    signalled exactly when tx_size > 0, whatever the result.  When the two
    masks of the stream share no bit, [failed] is the test of the error
    flags on the register as the handler found it. *)
Theorem tx_dma_irq_records_result_and_signals :
  forall w p,
    peripheral (drv w) = Some p ->
    tx_complete (drv w) <> None ->
    let c := tx_dma_config p in
    let reg := dma_status_register (stream c) in
    let status := dma_status (hw w) reg in
    let complete := negb (Z.land status (complete_flags c) =? 0) in
    let status1 := if complete then Z.ldiff status (complete_flags c) else status in
    let failed := negb (Z.land status1 (error_flags c) =? 0) in
    exists w',
      platform_uart_tx_dma_irq w = Some w' /\
      last_transmit_result (drv w')
        = (if failed then kGeneralErr
           else if complete then kNoErr
           else last_transmit_result (drv w)) /\
      dma_status (hw w') reg
        = (if failed then Z.ldiff status1 (error_flags c) else status1) /\
      (forall r, r <> reg -> dma_status (hw w') r = dma_status (hw w) r) /\
      same_devices (hw w) (hw w') /\
      tx_size (drv w') = tx_size (drv w) /\
      (if 0 <? tx_size (drv w)
       then tx_complete (drv w') = Some true /\
            trace w' = trace w ++ [SetSemaphore sem_tx_complete]
       else tx_complete (drv w') = tx_complete (drv w) /\
            trace w' = trace w) /\
      (Z.land (complete_flags c) (error_flags c) = 0 ->
       failed = negb (Z.land status (error_flags c) =? 0)).
Proof.
  intros w p Hp Hsem c reg status complete status1 failed.
  unfold platform_uart_tx_dma_irq. rewrite Hp. cbv zeta.
  fold c. rewrite (dma_status_register_get (stream c) (hw w)).
  fold reg. fold status. fold complete.
  set (w1 := if complete then _ else w).
  assert (Hs1 : dma_status (hw w1) reg = status1).
  { subst w1 status1. destruct complete; [|reflexivity].
    cbn [hw upd_drv upd_hw]. rewrite dma_status_register_clear. fold reg.
    rewrite (proj2 (dma_status_reg_eqb_eq reg reg) eq_refl). reflexivity. }
  assert (Ho1 : forall r, r <> reg -> dma_status (hw w1) r = dma_status (hw w) r).
  { intros r Hr. subst w1. destruct complete; [|reflexivity].
    cbn [hw upd_drv upd_hw]. rewrite dma_status_register_clear. fold reg.
    destruct (dma_status_reg_eqb r reg) eqn:E; [|reflexivity].
    apply dma_status_reg_eqb_eq in E. contradiction. }
  assert (Hd1 : same_devices (hw w) (hw w1)).
  { subst w1. destruct complete; [apply same_devices_clear | apply same_devices_refl]. }
  rewrite (dma_status_register_get (stream c) (hw w1)). fold reg.
  rewrite Hs1. fold failed.
  set (w2 := if failed then _ else w1).
  assert (Hsz : tx_size (drv w2) = tx_size (drv w)).
  { subst w2 w1. destruct failed, complete; reflexivity. }
  assert (Htc : tx_complete (drv w2) = tx_complete (drv w)).
  { subst w2 w1. destruct failed, complete; reflexivity. }
  assert (Htr : trace w2 = trace w).
  { subst w2 w1. destruct failed, complete; reflexivity. }
  assert (Hres : last_transmit_result (drv w2)
                 = (if failed then kGeneralErr
                    else if complete then kNoErr
                    else last_transmit_result (drv w))).
  { subst w2 w1. destruct failed, complete; reflexivity. }
  assert (Hst : dma_status (hw w2) reg
                = (if failed then Z.ldiff status1 (error_flags c) else status1)).
  { subst w2. destruct failed; [|exact Hs1].
    cbn [hw upd_drv upd_hw]. rewrite dma_status_register_clear. fold reg.
    rewrite (proj2 (dma_status_reg_eqb_eq reg reg) eq_refl), Hs1. reflexivity. }
  assert (Ho2 : forall r, r <> reg -> dma_status (hw w2) r = dma_status (hw w) r).
  { intros r Hr. rewrite <- (Ho1 r Hr). subst w2. destruct failed; [|reflexivity].
    cbn [hw upd_drv upd_hw]. rewrite dma_status_register_clear. fold reg.
    destruct (dma_status_reg_eqb r reg) eqn:E; [|reflexivity].
    apply dma_status_reg_eqb_eq in E. contradiction. }
  assert (Hd2 : same_devices (hw w) (hw w2)).
  { subst w2. destruct failed; [|exact Hd1].
    apply (same_devices_trans _ _ _ Hd1). apply same_devices_clear. }
  assert (Hdis : Z.land (complete_flags c) (error_flags c) = 0 ->
                 failed = negb (Z.land status (error_flags c) =? 0)).
  { intro Hd. subst failed status1. destruct complete; [|reflexivity].
    rewrite (land_ldiff_disjoint _ _ _ Hd). reflexivity. }
  rewrite Hsz. destruct (0 <? tx_size (drv w)) eqn:Epos.
  - unfold mico_rtos_set_semaphore. simpl. rewrite Htc.
    destruct (tx_complete (drv w)) as [tok|]; [|contradiction].
    eexists. split; [reflexivity|]. simpl.
    rewrite Hres, Hst, Hsz, Htr. repeat split; try assumption; apply Hd2.
  - exists w2. rewrite Hres, Hst, Hsz, Htr, Htc.
    repeat split; try assumption; apply Hd2.
Qed.

Lemma tx_dma_irq_records_result_and_signals_witness :
  last_transmit_result (drv world_tx_complete_pending) = kGeneralErr /\
  dma_status (hw world_tx_complete_pending) DMA2_HISR = 134217728 /\
  exists w',
    platform_uart_tx_dma_irq world_tx_complete_pending = Some w' /\
    last_transmit_result (drv w') = kNoErr /\
    dma_status (hw w') DMA2_HISR = 0 /\
    tx_complete (drv w') = Some true.
Proof.
  split; [reflexivity|]. split; [reflexivity|].
  assert (Hp : peripheral (drv world_tx_complete_pending) = Some board_uart)
    by (vm_compute; reflexivity).
  assert (Hs : tx_complete (drv world_tx_complete_pending) <> None)
    by (vm_compute; discriminate).
  destruct (tx_dma_irq_records_result_and_signals
              world_tx_complete_pending board_uart Hp Hs)
    as (w' & H1 & H2 & H3 & _ & _ & _ & H4 & _).
  vm_compute in H2. vm_compute in H4.
  change (dma_status_register (stream (tx_dma_config board_uart)))
    with DMA2_HISR in H3.
  exists w'. split; [exact H1|]. split; [exact H2|].
  split; [rewrite H3; vm_compute; reflexivity | exact (proj1 H4)].
Defined.


(** ** Receive: the ring buffer as a queue *)

(** *** Lists *)

Lemma skipn_cons_nth {A} (d : A) : forall (l : list A) off,
  (off < length l)%nat -> skipn off l = nth off l d :: skipn (S off) l.
Proof.
  induction l as [|x l IH]; intros off H; simpl in H; [lia|].
  destruct off as [|off]; [reflexivity|].
  simpl. apply IH. lia.
Qed.

Lemma firstn_skipn_nth {A} (d : A) (l : list A) : forall n off,
  (off + n <= length l)%nat ->
  firstn n (skipn off l) = map (fun k => nth (off + k) l d) (seq 0 n).
Proof.
  induction n as [|n IH]; intros off H; [reflexivity|].
  rewrite (skipn_cons_nth d) by lia.
  rewrite firstn_cons. cbn [seq map]. rewrite Nat.add_0_r. f_equal.
  rewrite IH by lia. rewrite <- seq_shift, map_map.
  apply map_ext. intro k. f_equal. lia.
Qed.

Lemma length_write_cell cells : forall i b,
  length (write_cell cells i b) = length cells.
Proof.
  induction cells as [|c cells IH]; intros i b; [reflexivity|].
  destruct i; simpl; [reflexivity | rewrite IH; reflexivity].
Qed.

Lemma nth_write_cell_same cells : forall i b d,
  (i < length cells)%nat -> nth i (write_cell cells i b) d = b.
Proof.
  induction cells as [|c cells IH]; intros i b d H; simpl in H; [lia|].
  destruct i; simpl; [reflexivity | apply IH; lia].
Qed.

Lemma nth_write_cell_other cells : forall i j b d,
  i <> j -> nth j (write_cell cells i b) d = nth j cells d.
Proof.
  induction cells as [|c cells IH]; intros i j b d H; [destruct i; reflexivity|].
  destruct i, j; simpl; try reflexivity; [contradiction | apply IH; lia].
Qed.

(** *** Cursor arithmetic *)

Lemma wrap32_small x : 0 <= x < 4294967296 -> wrap32 x = x.
Proof. intro H. unfold wrap32. apply Z.mod_small. exact H. Qed.

Lemma mod_cases s x :
  0 < s -> - s <= x < 2 * s ->
  (x < 0 /\ x mod s = x + s) \/ (0 <= x < s /\ x mod s = x)
  \/ (s <= x /\ x mod s = x - s).
Proof.
  intros Hs Hx.
  destruct (Z_lt_dec x 0) as [Hn|Hn].
  - left. split; [exact Hn|].
    replace x with (x + s + (-1) * s) at 1 by ring.
    rewrite Z.mod_add by lia. apply Z.mod_small. lia.
  - destruct (Z_lt_dec x s) as [Hl|Hl].
    + right. left. split; [lia|]. apply Z.mod_small. lia.
    + right. right. split; [lia|].
      replace x with (x - s + 1 * s) at 1 by ring.
      rewrite Z.mod_add by lia. apply Z.mod_small. lia.
Qed.

Lemma used_space_cases rb :
  ring_well_formed rb ->
  (rb_head rb <= rb_tail rb /\
   ring_buffer_used_space rb = rb_tail rb - rb_head rb)
  \/ (rb_tail rb < rb_head rb /\
      ring_buffer_used_space rb = rb_size rb - rb_head rb + rb_tail rb).
Proof.
  intros (_ & Hs & Hh & Ht). unfold ring_buffer_used_space.
  rewrite (wrap32_small (rb_size rb - rb_head rb)) by lia.
  rewrite wrap32_small by lia.
  destruct (mod_cases (rb_size rb) (rb_size rb - rb_head rb + rb_tail rb)
              ltac:(lia) ltac:(lia))
    as [[H1 E] | [[H1 E] | [H1 E]]]; rewrite E; lia.
Qed.

Lemma used_space_bounds rb :
  ring_well_formed rb -> 0 <= ring_buffer_used_space rb < rb_size rb.
Proof.
  intro H. pose proof H as (_ & Hs & Hh & Ht).
  destruct (used_space_cases rb H) as [[? ->] | [? ->]]; lia.
Qed.

Lemma seq_from a : forall len, seq a len = map (fun k => (a + k)%nat) (seq 0 len).
Proof.
  intro len. revert a. induction len as [|len IH]; intro a; [reflexivity|].
  cbn [seq map]. rewrite Nat.add_0_r. f_equal.
  rewrite (IH (S a)), (IH 1%nat), map_map.
  apply map_ext. intro k. lia.
Qed.

Lemma firstn_seq_min : forall n a len,
  firstn n (seq a len) = seq a (Nat.min n len).
Proof.
  induction n as [|n IH]; intros a len; [reflexivity|].
  destruct len as [|len]; [reflexivity|].
  cbn [seq firstn Nat.min]. f_equal. apply IH.
Qed.

(** *** Taking bytes out *)

(** Copying the first [n] bytes of the contiguous run at the head cursor
    and consuming them takes the [n] oldest bytes of the contents. *)
Lemma ring_take rb cells n :
  ring_well_formed rb ->
  rb_buffer rb = Some cells ->
  0 <= n -> n <= rb_size rb - rb_head rb -> n <= ring_buffer_used_space rb ->
  read_cells cells (rb_head rb) n = firstn (Z.to_nat n) (ring_contents rb)
  /\ ring_contents (ring_buffer_consume rb n)
     = skipn (Z.to_nat n) (ring_contents rb)
  /\ ring_well_formed (ring_buffer_consume rb n)
  /\ ring_buffer_used_space (ring_buffer_consume rb n)
     = ring_buffer_used_space rb - n
  /\ rb_tail (ring_buffer_consume rb n) = rb_tail rb
  /\ rb_size (ring_buffer_consume rb n) = rb_size rb.
Proof.
  intros Hwf Hc Hn0 Hn1 Hn2.
  pose proof Hwf as ((cells0 & Hc0 & Hlen) & Hs & Hh & Ht).
  rewrite Hc in Hc0. inversion Hc0. subst cells0. clear Hc0.
  pose proof (used_space_bounds rb Hwf) as Hu.
  assert (Hhead : rb_head (ring_buffer_consume rb n)
                  = (rb_head rb + n) mod rb_size rb).
  { unfold ring_buffer_consume. simpl. rewrite wrap32_small by lia. reflexivity. }
  assert (Hwf' : ring_well_formed (ring_buffer_consume rb n)).
  { split; [exists cells; split; [exact Hc | exact Hlen]|].
    split; [exact Hs|]. split; [|exact Ht].
    rewrite Hhead. change (rb_size (ring_buffer_consume rb n)) with (rb_size rb).
    apply Z.mod_pos_bound. lia. }
  assert (Hused : ring_buffer_used_space (ring_buffer_consume rb n)
                  = ring_buffer_used_space rb - n).
  { destruct (used_space_cases _ Hwf') as [[C1 ->] | [C1 ->]];
      destruct (used_space_cases _ Hwf) as [[C2 E2] | [C2 E2]];
      rewrite E2 in *; rewrite Hhead in *;
      change (rb_tail (ring_buffer_consume rb n)) with (rb_tail rb) in *;
      change (rb_size (ring_buffer_consume rb n)) with (rb_size rb) in *;
      destruct (mod_cases (rb_size rb) (rb_head rb + n) ltac:(lia) ltac:(lia))
        as [[D1 E] | [[D1 E] | [D1 E]]]; rewrite E in *; lia. }
  split; [|split; [|split; [exact Hwf' | split; [exact Hused | split; reflexivity]]]].
  - unfold read_cells, ring_contents. rewrite Hc.
    rewrite (firstn_skipn_nth Byte.x00) by lia.
    rewrite firstn_map, firstn_seq_min.
    replace (Nat.min (Z.to_nat n) (Z.to_nat (ring_buffer_used_space rb)))
      with (Z.to_nat n) by lia.
    apply map_ext_in. intros k Hk. apply in_seq in Hk.
    unfold cell. f_equal.
    rewrite Z.mod_small by lia. lia.
  - unfold ring_contents at 1.
    change (rb_buffer (ring_buffer_consume rb n)) with (rb_buffer rb).
    rewrite Hc, Hused, Hhead.
    change (rb_size (ring_buffer_consume rb n)) with (rb_size rb).
    unfold ring_contents. rewrite Hc.
    rewrite skipn_map, skipn_seq.
    rewrite (seq_from (0 + Z.to_nat n)), map_map.
    replace (Z.to_nat (ring_buffer_used_space rb) - Z.to_nat n)%nat
      with (Z.to_nat (ring_buffer_used_space rb - n)) by lia.
    apply map_ext. intro k. f_equal.
    rewrite Zplus_mod_idemp_l. f_equal. lia.
Qed.

(** *** Putting a byte in *)

(** The receive stream storing a byte at the tail cursor and the
    interrupt handler advancing the cursor append the byte to the
    contents, as long as one cell stays free. *)
Lemma ring_put rb cells b t' :
  ring_well_formed rb ->
  rb_buffer rb = Some cells ->
  ring_buffer_used_space rb < rb_size rb - 1 ->
  (rb_tail rb + 1 < rb_size rb /\ t' = rb_tail rb + 1)
  \/ (rb_tail rb + 1 = rb_size rb /\ t' = 0) ->
  let rb' := set_rb_tail t'
               (set_rb_buffer
                  (Some (write_cell cells (Z.to_nat (rb_tail rb)) b)) rb) in
  ring_well_formed rb'
  /\ ring_buffer_used_space rb' = ring_buffer_used_space rb + 1
  /\ ring_contents rb' = ring_contents rb ++ [b].
Proof.
  intros Hwf Hc Hfree Ht' rb'.
  pose proof Hwf as ((cells0 & Hc0 & Hlen) & Hs & Hh & Ht).
  rewrite Hc in Hc0. inversion Hc0. subst cells0. clear Hc0.
  pose proof (used_space_bounds rb Hwf) as Hu.
  assert (Hwf' : ring_well_formed rb').
  { split; [eexists; split; [reflexivity | rewrite length_write_cell; exact Hlen]|].
    split; [exact Hs|]. split; [exact Hh|]. simpl. lia. }
  assert (Hused : ring_buffer_used_space rb' = ring_buffer_used_space rb + 1).
  { destruct (used_space_cases _ Hwf') as [[C1 ->] | [C1 ->]];
      destruct (used_space_cases _ Hwf) as [[C2 E2] | [C2 E2]];
      rewrite E2 in *; simpl in *; lia. }
  split; [exact Hwf'|]. split; [exact Hused|].
  unfold ring_contents at 1.
  change (rb_buffer rb') with (Some (write_cell cells (Z.to_nat (rb_tail rb)) b)).
  change (rb_head rb') with (rb_head rb).
  change (rb_size rb') with (rb_size rb).
  rewrite Hused.
  replace (Z.to_nat (ring_buffer_used_space rb + 1))
    with (S (Z.to_nat (ring_buffer_used_space rb))) by lia.
  rewrite seq_S, map_app. cbn [map]. f_equal.
  - unfold ring_contents. rewrite Hc.
    apply map_ext_in. intros k Hk. apply in_seq in Hk.
    unfold cell. apply nth_write_cell_other.
    destruct (used_space_cases _ Hwf) as [[C2 E2] | [C2 E2]]; rewrite E2 in *;
      destruct (mod_cases (rb_size rb) (rb_head rb + Z.of_nat k)
                  ltac:(lia) ltac:(lia))
        as [[D1 E] | [[D1 E] | [D1 E]]]; rewrite E; lia.
  - f_equal. unfold cell.
    replace ((rb_head rb + Z.of_nat (0 + Z.to_nat (ring_buffer_used_space rb)))
             mod rb_size rb) with (rb_tail rb).
    + apply nth_write_cell_same. lia.
    + destruct (used_space_cases _ Hwf) as [[C2 E2] | [C2 E2]]; rewrite E2 in *;
        match goal with
        | |- _ = ?x mod _ =>
            destruct (mod_cases (rb_size rb) x ltac:(lia) ltac:(lia))
              as [[D1 E] | [[D1 E] | [D1 E]]]; rewrite E; lia
        end.
Qed.

(** *** Events on the receive path *)

Lemma rx_path_same_streaming w w' :
  rx_path_same w w' -> rx_streaming w -> rx_streaming w'.
Proof.
  intros (A1 & A2 & A3 & A4 & A5 & A6 & A7 & A8 & A9)
         (p & rb & v & B1 & B2 & B3 & B4 & B5 & B6 & B7 & B8 & B9 & B10 & B11
            & B12 & B13 & B14).
  exists p, rb, v.
  rewrite A1, A2, A4, A5, A6, A7, A8, A9.
  repeat (split; [assumption|]). assumption.
Qed.

Lemma rx_path_same_of_devices w w' :
  peripheral (drv w') = peripheral (drv w) ->
  rx_buffer (drv w') = rx_buffer (drv w) ->
  rx_size (drv w') = rx_size (drv w) ->
  same_devices (hw w) (hw w') ->
  rx_path_same w w'.
Proof.
  intros A1 A2 A3 (D1 & D2 & D3 & D4).
  unfold rx_path_same. rewrite D1, D3, D4. repeat split; assumption.
Qed.

(** An event other than a byte arriving leaves the receive path alone. *)
Lemma env_step_other e w w' :
  is_UartRx e = false ->
  env_step e w = Some w' ->
  rx_path_same w w'.
Proof.
  destruct e; simpl; intros He H; try discriminate.
  - inversion H. subst. repeat split.
  - inversion H. subst. repeat split.
  - destruct (peripheral (drv w)) as [p|] eqn:Ep.
    + destruct (_ && _).
      * apply platform_uart_tx_dma_irq_effect in H as (r & s & Hd & Hh).
        apply rx_path_same_of_devices; try (rewrite Hd; reflexivity).
        refine (same_devices_trans _ _ _ _ Hh). apply same_devices_raise.
      * inversion H. subst.
        apply rx_path_same_of_devices; try reflexivity. apply same_devices_raise.
    + inversion H. subst. repeat split.
  - destruct (peripheral (drv w)) as [p|] eqn:Ep.
    + destruct (_ && _).
      * apply platform_uart_rx_dma_irq_effect in H as (r & s & Hd & _ & _ & Hh).
        apply rx_path_same_of_devices; try (rewrite Hd; reflexivity).
        refine (same_devices_trans _ _ _ _ Hh). apply same_devices_raise.
      * inversion H. subst.
        apply rx_path_same_of_devices; try reflexivity. apply same_devices_raise.
    + inversion H. subst. repeat split.
  - destruct (tx_mutex (drv w)); inversion H; subst; repeat split.
Qed.

(** A byte arriving while reception runs and one cell at least stays free:
    the byte joins the contents of the ring buffer, and the handler
    signals the waiter exactly when its threshold is reached. *)
Lemma env_step_byte b w w' rb :
  rx_streaming w ->
  rx_buffer (drv w) = Some rb ->
  ring_buffer_used_space rb < rb_size rb - 1 ->
  env_step (UartRx b) w = Some w' ->
  rx_streaming w' /\
  exists rb',
    rx_buffer (drv w') = Some rb' /\
    rb_size rb' = rb_size rb /\
    ring_contents rb' = ring_contents rb ++ [b] /\
    ring_buffer_used_space rb' = ring_buffer_used_space rb + 1 /\
    rx_size (drv w')
    = (if (0 <? rx_size (drv w))
          && (rx_size (drv w) <=? ring_buffer_used_space rb + 1)
       then 0 else rx_size (drv w)) /\
    rx_complete (drv w')
    = (if (0 <? rx_size (drv w))
          && (rx_size (drv w) <=? ring_buffer_used_space rb + 1)
       then Some true else rx_complete (drv w)).
Proof.
  intros (p & rb0 & v & B1 & B2 & B3 & B4 & B5 & B6 & B7 & B8 & B9 & B10 & B11
            & B12 & B13 & B14) Hrb Hfree.
  rewrite Hrb in B2. inversion B2. subst rb0. clear B2.
  pose proof B3 as ((cells & Hc & Hlen) & Hs & Hh & Ht).
  simpl. rewrite B6, B7. simpl.
  assert (Hstore :
    dma_rx_store b w
    = upd_rx_stream
        (count_NDTR (if rb_tail rb + 1 =? rb_size rb
                     then rb_size rb else rb_size rb - (rb_tail rb + 1)))
        (upd_drv (set_rx_buffer
                    (Some (set_rb_buffer
                             (Some (write_cell cells (Z.to_nat (rb_tail rb)) b))
                             rb))) w)).
  { unfold dma_rx_store. rewrite B10, B9, B14, B12, Hrb, Hc, B11, B13. simpl.
    replace (0 <? rb_size rb - rb_tail rb) with true
      by (symmetry; apply Z.ltb_lt; lia).
    replace (rb_size rb - (rb_size rb - rb_tail rb)) with (rb_tail rb) by lia.
    destruct (rb_tail rb + 1 =? rb_size rb) eqn:E.
    - apply Z.eqb_eq in E.
      replace (rb_size rb - rb_tail rb - 1 =? 0) with true
        by (symmetry; apply Z.eqb_eq; lia).
      reflexivity.
    - apply Z.eqb_neq in E.
      replace (rb_size rb - rb_tail rb - 1 =? 0) with false
        by (symmetry; apply Z.eqb_neq; lia).
      replace (rb_size rb - rb_tail rb - 1) with (rb_size rb - (rb_tail rb + 1))
        by lia.
      reflexivity. }
  rewrite Hstore. clear Hstore.
  set (n' := if rb_tail rb + 1 =? rb_size rb
             then rb_size rb else rb_size rb - (rb_tail rb + 1)).
  set (rb1 := set_rb_buffer (Some (write_cell cells (Z.to_nat (rb_tail rb)) b)) rb).
  set (w1 := upd_rx_stream (count_NDTR n') (upd_drv (set_rx_buffer (Some rb1)) w)).
  change (peripheral (drv w1)) with (peripheral (drv w)). rewrite B1, B4.
  change (nvic (hw w1) v) with (nvic (hw w) v).
  change (CR1_RXNEIE (usart (hw w1))) with (CR1_RXNEIE (usart (hw w))).
  rewrite B5, B8. simpl andb. cbv iota.
  intro H. apply platform_uart_irq_effect in H as (rb2 & E2 & Hhw & Hd).
  change (rx_buffer (drv w1)) with (Some rb1) in E2. inversion E2. subst rb2.
  clear E2.
  change (NDTR (rx_stream (hw w1))) with n' in Hd.
  change (rb_size rb1) with (rb_size rb) in Hd.
  set (t' := wrap32 (rb_size rb - n')) in *.
  assert (Ht' : (rb_tail rb + 1 < rb_size rb /\ t' = rb_tail rb + 1)
                \/ (rb_tail rb + 1 = rb_size rb /\ t' = 0)).
  { subst t' n'. destruct (rb_tail rb + 1 =? rb_size rb) eqn:E.
    - apply Z.eqb_eq in E. right. split; [exact E|].
      rewrite Z.sub_diag. reflexivity.
    - apply Z.eqb_neq in E. left. split; [lia|].
      rewrite wrap32_small by lia. lia. }
  destruct (ring_put rb cells b t' B3 Hc Hfree Ht') as (Hwf' & Hused' & Hcont').
  fold rb1 in Hwf', Hused', Hcont'.
  change (rx_size (drv w1)) with (rx_size (drv w)) in Hd.
  change (rx_complete (drv w1)) with (rx_complete (drv w)) in Hd.
  rewrite Hused' in Hd.
  split.
  - exists p, (set_rb_tail t' rb1), v.
    rewrite Hhw, Hd. simpl.
    split; [exact B1|]. split; [reflexivity|]. split; [exact Hwf'|].
    split; [exact B4|]. split; [exact B5|]. split; [exact B6|].
    split; [exact B7|]. split; [exact B8|]. split; [exact B9|].
    split; [exact B10|]. split; [exact B11|]. split; [exact B12|].
    split; [exact B13|].
    subst n'. destruct Ht' as [[C ->] | [C ->]].
    + replace (rb_tail rb + 1 =? rb_size rb) with false
        by (symmetry; apply Z.eqb_neq; lia). reflexivity.
    + replace (rb_tail rb + 1 =? rb_size rb) with true
        by (symmetry; apply Z.eqb_eq; lia). lia.
  - exists (set_rb_tail t' rb1). rewrite Hd. simpl.
    split; [reflexivity|]. split; [reflexivity|]. split; [exact Hcont'|].
    split; [exact Hused'|]. split; reflexivity.
Qed.

Lemma bytes_arriving_cons e evs :
  bytes_arriving (e :: evs) = bytes_arriving [e] ++ bytes_arriving evs.
Proof. destruct e; reflexivity. Qed.

(** *** The ring buffer under the loops *)

Lemma MIN_min x y : MIN x y = Z.min x y.
Proof.
  unfold MIN. destruct (x <? y) eqn:E.
  - apply Z.ltb_lt in E. lia.
  - apply Z.ltb_ge in E. lia.
Qed.

Lemma length_ring_contents rb :
  ring_well_formed rb ->
  length (ring_contents rb) = Z.to_nat (ring_buffer_used_space rb).
Proof.
  intros ((cells & Hc & _) & _). unfold ring_contents. rewrite Hc.
  rewrite length_map, length_seq. reflexivity.
Qed.

Lemma rx_streaming_consume w rb rb' :
  rx_streaming w ->
  rx_buffer (drv w) = Some rb ->
  ring_well_formed rb' ->
  rb_tail rb' = rb_tail rb ->
  rb_size rb' = rb_size rb ->
  rx_streaming (upd_drv (set_rx_buffer (Some rb')) w).
Proof.
  intros (p & rb0 & v & B1 & B2 & B3 & B4 & B5 & B6 & B7 & B8 & B9 & B10 & B11
            & B12 & B13 & B14) Hrb Hwf Ht Hs.
  rewrite Hrb in B2. inversion B2. subst rb0.
  exists p, rb', v. simpl. rewrite Ht, Hs.
  repeat (split; [first [assumption | reflexivity]|]). assumption.
Qed.

Lemma rx_streaming_frame w w' :
  peripheral (drv w') = peripheral (drv w) ->
  rx_buffer (drv w') = rx_buffer (drv w) ->
  hw w' = hw w ->
  rx_streaming w -> rx_streaming w'.
Proof.
  intros A1 A2 A3
         (p & rb & v & B1 & B2 & B3 & B4 & B5 & B6 & B7 & B8 & B9 & B10 & B11
            & B12 & B13 & B14).
  exists p, rb, v. rewrite A1, A2, A3.
  repeat (split; [assumption|]). assumption.
Qed.

(** *** From init to reception *)

Lemma firstn_then_skipn {A} : forall (a b : nat) (l : list A),
  firstn a l ++ firstn b (skipn a l) = firstn (a + b) l.
Proof.
  induction a as [|a IH]; intros b l; [reflexivity|].
  destruct l as [|x l]; [destruct b; reflexivity|].
  simpl. f_equal. apply IH.
Qed.

(** init with a ring buffer whose tail cursor is at the start of the store
    leaves reception running. *)
Lemma init_starts_streaming p cfg rb evs w :
  init_arguments_valid p cfg = true ->
  ring_well_formed rb ->
  rb_tail rb = 0 ->
  exists w',
    platform_uart_init driver_instance (Some p) (Some cfg) (Some rb) evs w
    = Ret kNoErr evs w' /\
    rx_streaming w'.
Proof.
  intros Hv Hwf Ht.
  pose proof Hwf as ((cells & Hc & Hlen) & Hsz & _).
  assert (Hok : ring_buffer_arg_ok (Some rb) = true).
  { unfold ring_buffer_arg_ok. rewrite Hc.
    apply negb_true_iff. apply Z.eqb_neq. lia. }
  destruct (valid_port_vector _ _ Hv) as [Hvec _].
  destruct (init_reaches_hardware p cfg (Some rb) evs w Hv Hok) as (tr & _ & Hi).
  destruct (init_hardware_buffered p cfg (uart_init_structure_of cfg) rb cells
              (uart_vector p) evs
              (mk_world (init_driver_fields p (drv w)) (hw w)
                        (trace w ++ PowersaveDisable :: tr))
              Hvec eq_refl Hc)
    as (w1 & H1 & Hd & Hu & _ & Hrx & Hn & _).
  rewrite (bind_Ret_eq _ _ _ _ _ _ _ H1) in Hi.
  exists (log PowersaveEnable w1). split; [exact Hi|].
  exists p, rb, (uart_vector p). simpl. rewrite Hd, Hu, Hrx, Hn. simpl.
  split; [reflexivity|]. split; [reflexivity|]. split; [exact Hwf|].
  split; [exact Hvec|].
  split.
  { replace (IRQn_eqb (uart_vector p) (uart_vector p)) with true; [reflexivity|].
    destruct (uart_vector p); simpl; rewrite ?Z.eqb_refl; reflexivity. }
  repeat (split; [reflexivity|]). lia.
Qed.

Lemma board_buffered_streaming : rx_streaming (board_buffered 8).
Proof.
  assert (Hwf : ring_well_formed (empty_ring 8)).
  { split; [eexists; split; reflexivity|]. cbn. lia. }
  destruct (init_starts_streaming board_uart board_config (empty_ring 8) []
              world_at_reset eq_refl Hwf eq_refl) as (w' & Hi & Hs).
  unfold board_buffered. rewrite Hi. exact Hs.
Qed.
(** * Further properties of the driver *)

(** ** Argument checks of init and deinit *)

(** X1: init rejects a NULL driver, peripheral or configuration, and a ring
    buffer with a NULL store or a zero size, with a parameter error; the
    driver and the hardware are as before, and the only calls made are the
    power-save bracket. *)
Theorem init_rejects_missing_arguments :
  forall driver per cfg ring evs w,
    driver = driver_NULL \/ per = None \/ cfg = None \/
    (exists rb, ring = Some rb /\ (rb_buffer rb = None \/ rb_size rb = 0)) ->
    platform_uart_init driver per cfg ring evs w
    = Ret kParamErr evs
        (mk_world (drv w) (hw w)
           (trace w ++ [PowersaveDisable; PowersaveEnable])).
Proof.
  intros driver per cfg ring evs w H.
  assert (Hexit : init_exit kParamErr evs (log PowersaveDisable w)
                  = Ret kParamErr evs
                      (mk_world (drv w) (hw w)
                         (trace w ++ [PowersaveDisable; PowersaveEnable]))).
  { unfold init_exit. rewrite bind_modify. unfold ret, log. simpl.
    rewrite <- app_assoc. reflexivity. }
  unfold platform_uart_init. rewrite bind_modify.
  destruct driver; [exact Hexit|].
  destruct per as [p|]; [|exact Hexit].
  destruct cfg as [c|]; [|exact Hexit].
  destruct H as [H | [H | [H | (rb & Hr & Hbad)]]]; try discriminate.
  subst ring. unfold ring_buffer_arg_ok.
  destruct Hbad as [Hb | Hz].
  - rewrite Hb. exact Hexit.
  - rewrite Hz. destruct (rb_buffer rb); exact Hexit.
Qed.

Lemma init_rejects_missing_arguments_witness :
  platform_uart_init driver_instance (Some board_uart) (Some board_config)
    (Some (mk_ring (Some [Byte.x00]) 0 0 0)) [Tick] world_at_reset
  = Ret kParamErr [Tick]
      (mk_world driver_unused hardware_at_reset
         [PowersaveDisable; PowersaveEnable]).
Proof.
  apply (init_rejects_missing_arguments driver_instance (Some board_uart)
           (Some board_config) (Some (mk_ring (Some [Byte.x00]) 0 0 0))
           [Tick] world_at_reset).
  right. right. right. eexists. split; [reflexivity|]. right. reflexivity.
Defined.

(** The pin mapping block: the calls it makes, in order. *)
Lemma init_pin_mapping_calls p cfg af evs w :
  exists tr,
    init_pin_mapping p cfg af evs w
    = Ret tt evs
        (mk_world (drv w) (hw w)
           (trace w ++ GpioSetAlternateFunction (pin_tx p) true af
                    :: GpioSetAlternateFunction (pin_rx p) true af
                    :: tr ++ [UartClockCmd af true])).
Proof.
  unfold init_pin_mapping.
  destruct (pin_cts p), (pin_rts p), (UART_WAKEUP_ENABLE cfg),
    (flow_control cfg);
    cbv [bind modify ret log]; simpl; rewrite <- ?app_assoc; simpl;
    match goal with
    | |- exists tr, Ret tt evs (mk_world _ _ (_ ++ _ :: _ :: ?l)) = _ =>
        let n := eval cbv in (length l - 1)%nat in
        exists (firstn n l); reflexivity
    end.
Qed.

(** X2: a parity or a flow control outside its enumeration is found only
    at the switch statements.  init then returns a parameter error with
    the driver already bound to the peripheral, its semaphores and mutex
    created, the pins remapped and the peripheral clock enabled; no
    register of the UART, of the DMA streams or of the interrupt
    controller has been written. *)
Theorem init_late_rejection_is_not_atomic :
  forall p cfg ring evs w,
    port p <> USART_other ->
    ring_buffer_arg_ok ring = true ->
    (exists v, parity cfg = parity_out_of_range v) \/
    (exists v, flow_control cfg = flow_control_out_of_range v) ->
    exists w' tr,
      platform_uart_init driver_instance (Some p) (Some cfg) ring evs w
      = Ret kParamErr evs w' /\
      hw w' = hw w /\
      peripheral (drv w') = Some p /\
      tx_complete (drv w') = Some false /\
      rx_complete (drv w') = Some false /\
      sem_wakeup (drv w') = Some false /\
      tx_mutex (drv w') = Some false /\
      rx_buffer (drv w') = rx_buffer (drv w) /\
      trace w'
      = trace w ++
        PowersaveDisable
        :: GpioSetAlternateFunction (pin_tx p) true
             (platform_uart_get_port_number (port p))
        :: GpioSetAlternateFunction (pin_rx p) true
             (platform_uart_get_port_number (port p))
        :: tr ++ [UartClockCmd (platform_uart_get_port_number (port p)) true;
                  PowersaveEnable].
Proof.
  intros p cfg ring evs w Hport Hr Hbad.
  assert (Hidx : uart_table_index (platform_uart_get_port_number (port p))
                 = Some (platform_uart_get_port_number (port p))).
  { destruct (port p); try reflexivity. contradiction. }
  unfold platform_uart_init. rewrite Hr.
  run_modify. cbv zeta. run_modify.
  rewrite (bind_deref _ _ _ _ _ Hidx).
  match goal with
  | |- context [bind (init_pin_mapping p cfg ?af) ?k ?e ?v] =>
      destruct (init_pin_mapping_calls p cfg af e v) as (tr & Hq);
      rewrite (bind_Ret_eq _ k _ _ _ _ _ Hq)
  end.
  assert (Hexit : forall W, init_exit kParamErr evs W
                            = Ret kParamErr evs (log PowersaveEnable W))
    by reflexivity.
  eexists. exists tr.
  split.
  { destruct Hbad as [[v Hv] | [v Hv]].
    - rewrite Hv. apply Hexit.
    - rewrite Hv. destruct (parity cfg); apply Hexit. }
  repeat (split; [reflexivity|]).
  simpl. rewrite <- !app_assoc. simpl. rewrite <- !app_assoc. reflexivity.
Qed.

Lemma init_late_rejection_is_not_atomic_witness :
  exists w',
    platform_uart_init driver_instance (Some board_uart)
      (Some (mk_config 115200 DATA_WIDTH_8BIT (parity_out_of_range 7)
               STOP_BITS_1 FLOW_CONTROL_DISABLED false))
      None [] world_at_reset
    = Ret kParamErr [] w' /\
    tx_mutex (drv w') = Some false /\
    hw w' = hardware_at_reset.
Proof.
  destruct (init_late_rejection_is_not_atomic board_uart
              (mk_config 115200 DATA_WIDTH_8BIT (parity_out_of_range 7)
                 STOP_BITS_1 FLOW_CONTROL_DISABLED false)
              None [] world_at_reset)
    as (w' & tr & H & Hh & _ & _ & _ & _ & Hm & _).
  - discriminate.
  - reflexivity.
  - left. exists 7. reflexivity.
  - exists w'. split; [exact H|]. split; [exact Hm | exact Hh].
Defined.

(** X3: a port that is none of the six known ones gets the port number
    0xff, which platform_uart_init and platform_uart_deinit use as an index
    into their six-entry tables without a range check: neither call has a
    defined result. *)
Theorem unknown_port_indexes_outside_the_tables :
  forall p,
    port p = USART_other ->
    platform_uart_get_port_number (port p) = 255 /\
    uart_irq_vectors (platform_uart_get_port_number (port p)) = None /\
    (forall cfg ring evs w,
       ring_buffer_arg_ok ring = true ->
       platform_uart_init driver_instance (Some p) (Some cfg) ring evs w
       = Undefined) /\
    (forall evs w,
       peripheral (drv w) = Some p ->
       platform_uart_deinit driver_instance evs w = Undefined).
Proof.
  intros p Hport.
  split; [rewrite Hport; reflexivity|].
  split; [rewrite Hport; reflexivity|].
  split.
  - intros cfg ring evs w Hr.
    unfold platform_uart_init. rewrite Hr.
    run_modify. cbv zeta. run_modify.
    rewrite Hport. reflexivity.
  - intros evs w Hp.
    unfold platform_uart_deinit, the_peripheral.
    rewrite bind_modify. cbv beta.
    rewrite (bind_deref _ _ _ _ p); [|exact Hp]. cbv zeta.
    run_modify. rewrite Hport. reflexivity.
Qed.

Lemma unknown_port_indexes_outside_the_tables_witness :
  platform_uart_init driver_instance
    (Some (mk_uart USART_other 9 10 None None
             (tx_dma_config board_uart) (rx_dma_config board_uart)))
    (Some board_config) None [] world_at_reset
  = Undefined.
Proof.
  apply (unknown_port_indexes_outside_the_tables
           (mk_uart USART_other 9 10 None None
              (tx_dma_config board_uart) (rx_dma_config board_uart))
           eq_refl).
  reflexivity.
Defined.

(** ** The state init builds and the state deinit leaves *)

(** Where a successful init leaves the driver and the devices, in both
    modes. *)
Lemma init_world p cfg ring evs w :
  init_arguments_valid p cfg = true ->
  ring_buffer_arg_ok ring = true ->
  exists w',
    platform_uart_init driver_instance (Some p) (Some cfg) ring evs w
    = Ret kNoErr evs w' /\
    drv w'
    = mk_driver (Some p)
        (match ring with Some rb => Some rb | None => rx_buffer (drv w) end)
        0 0 kNoErr kNoErr (Some false) (Some false) (Some false) (Some false) /\
    usart (hw w')
    = mk_usart true true true
        (match ring with Some _ => true | None => false end) false
        (match ring with Some _ => true | None => false end) true
        (Some (uart_init_structure_of cfg)) /\
    tx_stream (hw w')
    = mk_stream false false true 65535 65535 NULL true
        (channel (tx_dma_config p)) (dma_halfword_of cfg) /\
    rx_stream (hw w')
    = match ring with
      | Some rb => mk_stream true true false (rb_size rb) (rb_size rb) ring_store
                     false (channel (rx_dma_config p)) (dma_halfword_of cfg)
      | None => mk_stream false false true 65535 65535 NULL false
                  (channel (rx_dma_config p)) (dma_halfword_of cfg)
      end.
Proof.
  intros Hv Hr.
  destruct (valid_port_vector _ _ Hv) as [Hvec _].
  destruct (init_reaches_hardware p cfg ring evs w Hv Hr) as (tr & _ & Hi).
  destruct ring as [rb|].
  - unfold ring_buffer_arg_ok in Hr.
    destruct (rb_buffer rb) as [cells|] eqn:Hc; [|discriminate].
    destruct (init_hardware_buffered p cfg (uart_init_structure_of cfg) rb cells
                (uart_vector p) evs
                (mk_world (init_driver_fields p (drv w)) (hw w)
                          (trace w ++ PowersaveDisable :: tr))
                Hvec eq_refl Hc)
      as (w1 & H1 & Hd & Hu & Htx & Hrx & _ & _).
    rewrite (bind_Ret_eq _ _ _ _ _ _ _ H1) in Hi.
    exists (log PowersaveEnable w1). split; [exact Hi|].
    split; [simpl; rewrite Hd; reflexivity|].
    split; [simpl; exact Hu|]. split; [simpl; exact Htx | simpl; exact Hrx].
  - destruct (init_hardware_direct p cfg (uart_init_structure_of cfg)
                (uart_vector p) evs
                (mk_world (init_driver_fields p (drv w)) (hw w)
                          (trace w ++ PowersaveDisable :: tr))
                Hvec)
      as (w1 & H1 & Hd & Hu & Htx & Hrx & _ & _).
    rewrite (bind_Ret_eq _ _ _ _ _ _ _ H1) in Hi.
    exists (log PowersaveEnable w1). split; [exact Hi|].
    split; [simpl; rewrite Hd; reflexivity|].
    split; [simpl; exact Hu|]. split; [simpl; exact Htx | simpl; exact Hrx].
Qed.

(** X4: the line format init programs.  The UART gets the baud rate,
    parity and flow control of the configuration; the frame is nine bits
    long exactly for nine data bits, or eight data bits with a parity bit;
    one stop bit is used exactly for STOP_BITS_1; both DMA streams move
    half-words exactly for nine data bits, transmit from memory to the
    peripheral and receive the other way, each on its own channel.  No
    data width is rejected. *)
Theorem init_programs_line_format :
  forall p cfg ring evs w,
    init_arguments_valid p cfg = true ->
    ring_buffer_arg_ok ring = true ->
    exists w' s,
      platform_uart_init driver_instance (Some p) (Some cfg) ring evs w
      = Ret kNoErr evs w' /\
      usart_init (usart (hw w')) = Some s /\
      USART_BaudRate s = baud_rate cfg /\
      (USART_WordLength_9b s = true <->
       data_width cfg = DATA_WIDTH_9BIT \/
       (data_width cfg = DATA_WIDTH_8BIT /\ parity cfg <> NO_PARITY)) /\
      (USART_StopBits_2 s = false <-> stop_bits cfg = STOP_BITS_1) /\
      USART_Parity s = parity cfg /\
      USART_HardwareFlowControl s = flow_control cfg /\
      (dma_halfword (tx_stream (hw w')) = true <->
       data_width cfg = DATA_WIDTH_9BIT) /\
      dma_halfword (rx_stream (hw w')) = dma_halfword (tx_stream (hw w')) /\
      dma_dir_mem_to_periph (tx_stream (hw w')) = true /\
      dma_dir_mem_to_periph (rx_stream (hw w')) = false /\
      dma_channel (tx_stream (hw w')) = channel (tx_dma_config p) /\
      dma_channel (rx_stream (hw w')) = channel (rx_dma_config p) /\
      CR1_UE (usart (hw w')) = true /\
      CR1_TE (usart (hw w')) = true /\
      CR1_RE (usart (hw w')) = true.
Proof.
  intros p cfg ring evs w Hv Hr.
  destruct (init_world p cfg ring evs w Hv Hr) as (w' & Hi & _ & Hu & Htx & Hrx).
  exists w', (uart_init_structure_of cfg).
  split; [exact Hi|].
  split; [rewrite Hu; reflexivity|].
  split; [reflexivity|].
  split.
  { unfold uart_init_structure_of, word_length_9b. simpl.
    destruct (data_width cfg), (parity cfg); split; intro H;
      try discriminate; try reflexivity;
      try (left; reflexivity);
      try (right; split; [reflexivity | discriminate]);
      destruct H as [H | [H1 H2]]; try discriminate; try contradiction;
      try (exfalso; apply H2; reflexivity). }
  split.
  { unfold uart_init_structure_of. simpl.
    destruct (stop_bits cfg); split; intro H; try discriminate; reflexivity. }
  split; [reflexivity|]. split; [reflexivity|].
  assert (Hhalf : dma_halfword_of cfg = true <-> data_width cfg = DATA_WIDTH_9BIT).
  { unfold dma_halfword_of.
    destruct (data_width cfg); split; intro H; try discriminate; reflexivity. }
  rewrite Htx, Hrx, Hu. simpl.
  split; [exact Hhalf|].
  destruct ring; simpl; repeat split; reflexivity.
Qed.

Lemma init_programs_line_format_witness :
  exists w' s,
    platform_uart_init driver_instance (Some board_uart)
      (Some (mk_config 9600 DATA_WIDTH_8BIT EVEN_PARITY STOP_BITS_2
               FLOW_CONTROL_DISABLED false))
      None [] world_at_reset
    = Ret kNoErr [] w' /\
    usart_init (usart (hw w')) = Some s /\
    USART_WordLength_9b s = true.
Proof.
  destruct (init_programs_line_format board_uart
              (mk_config 9600 DATA_WIDTH_8BIT EVEN_PARITY STOP_BITS_2
                 FLOW_CONTROL_DISABLED false)
              None [] world_at_reset eq_refl eq_refl)
    as (w' & s & H & Hs & _ & Hw & _).
  exists w', s. split; [exact H|]. split; [exact Hs|].
  apply Hw. right. split; [reflexivity | discriminate].
Defined.

(** X5: what deinit leaves behind.  It deletes the two completion
    semaphores and the transmit mutex, but not the wake-up semaphore that
    init created, and the driver stays bound to its peripheral and to its
    ring buffer.  Between its two power-save calls it gates the peripheral
    clock off; it takes no event and waits for nothing. *)
Theorem deinit_leaves_wakeup_semaphore_and_bindings :
  forall p evs w,
    peripheral (drv w) = Some p ->
    port p <> USART_other ->
    exists w',
      platform_uart_deinit driver_instance evs w = Ret kNoErr evs w' /\
      tx_complete (drv w') = None /\
      rx_complete (drv w') = None /\
      tx_mutex (drv w') = None /\
      sem_wakeup (drv w') = sem_wakeup (drv w) /\
      peripheral (drv w') = Some p /\
      rx_buffer (drv w') = rx_buffer (drv w) /\
      trace w'
      = trace w ++ [PowersaveDisable;
                    UartClockCmd (platform_uart_get_port_number (port p)) false;
                    PowersaveEnable].
Proof.
  intros p evs w Hp Hport. unfold platform_uart_deinit, the_peripheral.
  rewrite bind_modify. cbv beta.
  rewrite (bind_deref _ _ _ _ p); [|exact Hp]. cbv zeta.
  run_modify.
  assert (Hidx : uart_table_index (platform_uart_get_port_number (port p))
                 = Some (platform_uart_get_port_number (port p))).
  { destruct (port p); try reflexivity. contradiction. }
  rewrite (bind_deref _ _ _ _ _ Hidx). run_modify.
  unfold init_exit. rewrite bind_modify.
  eexists. split; [reflexivity|].
  repeat (split; [reflexivity|]).
  split; [simpl; exact Hp|]. split; [reflexivity|].
  simpl. rewrite <- !app_assoc. reflexivity.
Qed.

Lemma deinit_leaves_wakeup_semaphore_and_bindings_witness :
  exists w',
    platform_uart_deinit driver_instance [] (board_buffered 8)
    = Ret kNoErr [] w' /\
    sem_wakeup (drv w') = Some false /\
    rx_buffer (drv w') = Some (empty_ring 8).
Proof.
  assert (Hp : peripheral (drv (board_buffered 8)) = Some board_uart)
    by (vm_compute; reflexivity).
  assert (Hport : port board_uart <> USART_other) by discriminate.
  destruct (deinit_leaves_wakeup_semaphore_and_bindings board_uart []
              (board_buffered 8) Hp Hport)
    as (w' & H & _ & _ & _ & Hs & _ & Hb & _).
  exists w'. split; [exact H|].
  split.
  - rewrite Hs. vm_compute. reflexivity.
  - rewrite Hb. vm_compute. reflexivity.
Defined.

(** X6: deinit followed by an init without a ring buffer does not return
    the driver to direct mode.  Neither call resets driver->rx_buffer, so
    the ring buffer of the first init is still bound, the length query
    answers from it, and receive calls take the buffered path, while the
    receive stream is left disabled and the per-byte interrupt off. *)
Theorem reinit_without_ring_buffer_keeps_the_old_one :
  forall p cfg cfg' rb evs w,
    init_arguments_valid p cfg = true ->
    init_arguments_valid p cfg' = true ->
    ring_buffer_arg_ok (Some rb) = true ->
    exists w1 w2 w3,
      platform_uart_init driver_instance (Some p) (Some cfg) (Some rb) evs w
      = Ret kNoErr evs w1 /\
      platform_uart_deinit driver_instance evs w1 = Ret kNoErr evs w2 /\
      platform_uart_init driver_instance (Some p) (Some cfg') None evs w2
      = Ret kNoErr evs w3 /\
      rx_buffer (drv w3) = Some rb /\
      CR_EN (rx_stream (hw w3)) = false /\
      CR_CIRC (rx_stream (hw w3)) = false /\
      CR1_RXNEIE (usart (hw w3)) = false /\
      CR3_DMAR (usart (hw w3)) = false /\
      platform_uart_get_length_in_buffer driver_instance evs w3
      = Ret (ring_buffer_used_space rb) evs w3 /\
      (forall when data_in n t,
         data_in <> NULL -> n <> 0 ->
         platform_uart_receive_bytes when driver_instance data_in n t evs w3
         = receive_buffered (Z.to_nat n) when 0 n t kNoErr [] evs w3).
Proof.
  intros p cfg cfg' rb evs w Hv Hv' Hr.
  assert (Hport : port p <> USART_other).
  { unfold init_arguments_valid in Hv. destruct (port p); discriminate. }
  destruct (init_world p cfg (Some rb) evs w Hv Hr) as (w1 & H1 & Hd1 & _).
  assert (Hp1 : peripheral (drv w1) = Some p) by (rewrite Hd1; reflexivity).
  destruct (deinit_world p evs w1 Hp1 Hport)
    as (w2 & H2 & _ & _ & _ & _ & _ & _ & _ & Hb2 & _).
  destruct (init_world p cfg' None evs w2 Hv' eq_refl)
    as (w3 & H3 & Hd3 & Hu3 & _ & Hrx3).
  assert (Hb3 : rx_buffer (drv w3) = Some rb).
  { rewrite Hd3. simpl. rewrite Hb2, Hd1. reflexivity. }
  exists w1, w2, w3.
  split; [exact H1|]. split; [exact H2|]. split; [exact H3|].
  split; [exact Hb3|].
  split; [rewrite Hrx3; reflexivity|]. split; [rewrite Hrx3; reflexivity|].
  split; [rewrite Hu3; reflexivity|]. split; [rewrite Hu3; reflexivity|].
  split.
  - unfold platform_uart_get_length_in_buffer.
    rewrite (bind_deref _ _ _ _ rb); [reflexivity | exact Hb3].
  - intros when data_in n t Hd Hn.
    unfold platform_uart_receive_bytes.
    rewrite (valid_transmit_arguments _ _ Hd Hn).
    rewrite bind_read. rewrite Hb3. reflexivity.
Qed.

Lemma reinit_without_ring_buffer_keeps_the_old_one_witness :
  exists w1 w2 w3,
    platform_uart_init driver_instance (Some board_uart) (Some board_config)
      (Some (empty_ring 8)) [] world_at_reset
    = Ret kNoErr [] w1 /\
    platform_uart_deinit driver_instance [] w1 = Ret kNoErr [] w2 /\
    platform_uart_init driver_instance (Some board_uart) (Some board_config)
      None [] w2
    = Ret kNoErr [] w3 /\
    rx_buffer (drv w3) = Some (empty_ring 8) /\
    CR_EN (rx_stream (hw w3)) = false.
Proof.
  destruct (reinit_without_ring_buffer_keeps_the_old_one board_uart
              board_config board_config (empty_ring 8) [] world_at_reset
              eq_refl eq_refl eq_refl)
    as (w1 & w2 & w3 & H1 & H2 & H3 & Hb & He & _).
  exists w1, w2, w3. repeat (split; [assumption|]). exact He.
Defined.

(** ** The DMA flag helpers and the RX DMA handler *)



(** One run of platform_uart_rx_dma_irq, test by test. *)
Lemma rx_dma_irq_run w p :
  peripheral (drv w) = Some p ->
  rx_complete (drv w) <> None ->
  let c := rx_dma_config p in
  let status := get_dma_irq_status (stream c) (hw w) in
  let complete := negb (Z.land status (complete_flags c) =? 0) in
  let status1 := if complete then Z.ldiff status (complete_flags c) else status in
  let failed := negb (Z.land status1 (error_flags c) =? 0) in
  exists w',
    platform_uart_rx_dma_irq w = Some w' /\
    last_receive_result (drv w')
    = (if failed then kGeneralErr
       else if complete then kNoErr
       else last_receive_result (drv w)) /\
    get_dma_irq_status (stream c) (hw w')
    = (if failed then Z.ldiff status1 (error_flags c) else status1) /\
    rx_size (drv w') = rx_size (drv w) /\
    peripheral (drv w') = Some p /\
    rx_buffer (drv w') = rx_buffer (drv w) /\
    rx_complete (drv w')
    = (if 0 <? rx_size (drv w) then Some true else rx_complete (drv w)) /\
    trace w'
    = trace w ++ (if 0 <? rx_size (drv w)
                  then [SetSemaphore sem_rx_complete] else []).
Proof.
  intros Hp Hsem c status complete status1 failed.
  unfold platform_uart_rx_dma_irq. rewrite Hp. cbv zeta.
  fold c. fold status. fold complete.
  set (w1 := if complete then _ else w).
  assert (Hs1 : get_dma_irq_status (stream c) (hw w1) = status1).
  { subst w1 status1. destruct complete; [|reflexivity].
    simpl. apply status_after_clear. }
  rewrite Hs1. fold failed.
  set (w2 := if failed then _ else w1).
  assert (Hd : drv w2
               = set_last_receive_result
                   (if failed then kGeneralErr
                    else if complete then kNoErr
                    else last_receive_result (drv w)) (drv w)).
  { subst w2 w1. destruct failed, complete; simpl;
      try reflexivity; destruct (drv w); reflexivity. }
  assert (Htr : trace w2 = trace w).
  { subst w2 w1. destruct failed, complete; reflexivity. }
  assert (Hst : get_dma_irq_status (stream c) (hw w2)
                = (if failed then Z.ldiff status1 (error_flags c) else status1)).
  { subst w2. destruct failed; [|exact Hs1].
    simpl. rewrite status_after_clear, Hs1. reflexivity. }
  rewrite Hd. cbn [rx_size set_last_receive_result].
  destruct (0 <? rx_size (drv w)) eqn:Epos.
  - unfold mico_rtos_set_semaphore. rewrite Hd.
    cbn [get_sem rx_complete set_last_receive_result].
    destruct (rx_complete (drv w)) as [tok|]; [|contradiction].
    eexists. split; [reflexivity|].
    cbn [drv hw trace log upd_drv put_sem]. rewrite Hd, Hst, Htr.
    repeat split; try reflexivity. simpl. exact Hp.
  - exists w2. rewrite Hd, Hst, Htr, app_nil_r.
    repeat split; try reflexivity. simpl. exact Hp.
Qed.

(** X8: the RX DMA interrupt handler.  With [complete] and [failed] its
    two tests of the pending-flag register, the second read after the
    first clear: the recorded result is a general error when an error flag
    is pending, success when only a transfer-complete flag is, and is left
    alone otherwise, and the flags of each test that fired are cleared.
    The RX Completion Signal is signalled exactly when rx_size > 0.  The
    handler leaves rx_size as it is, so while rx_size > 0 every further
    delivery signals again. *)
Theorem rx_dma_irq_records_result_and_signals :
  forall w p,
    peripheral (drv w) = Some p ->
    rx_complete (drv w) <> None ->
    let c := rx_dma_config p in
    let status := get_dma_irq_status (stream c) (hw w) in
    let complete := negb (Z.land status (complete_flags c) =? 0) in
    let status1 := if complete then Z.ldiff status (complete_flags c) else status in
    let failed := negb (Z.land status1 (error_flags c) =? 0) in
    exists w',
      platform_uart_rx_dma_irq w = Some w' /\
      last_receive_result (drv w')
      = (if failed then kGeneralErr
         else if complete then kNoErr
         else last_receive_result (drv w)) /\
      get_dma_irq_status (stream c) (hw w')
      = (if failed then Z.ldiff status1 (error_flags c) else status1) /\
      rx_size (drv w') = rx_size (drv w) /\
      (if 0 <? rx_size (drv w)
       then rx_complete (drv w') = Some true /\
            trace w' = trace w ++ [SetSemaphore sem_rx_complete]
       else rx_complete (drv w') = rx_complete (drv w) /\
            trace w' = trace w) /\
      (0 < rx_size (drv w) ->
       exists w'',
         platform_uart_rx_dma_irq w' = Some w'' /\
         rx_size (drv w'') = rx_size (drv w) /\
         trace w'' = trace w' ++ [SetSemaphore sem_rx_complete]).
Proof.
  intros w p Hp Hsem c status complete status1 failed.
  destruct (rx_dma_irq_run w p Hp Hsem)
    as (w' & H & Hres & Hst & Hsz & Hp' & _ & Hc & Htr).
  exists w'. split; [exact H|]. split; [exact Hres|]. split; [exact Hst|].
  split; [exact Hsz|]. split.
  - destruct (0 <? rx_size (drv w)).
    + split; [exact Hc | exact Htr].
    + split; [exact Hc | rewrite Htr; apply app_nil_r].
  - intro Hpos.
    assert (Hsem' : rx_complete (drv w') <> None).
    { rewrite Hc. destruct (0 <? rx_size (drv w)); [discriminate | exact Hsem]. }
    destruct (rx_dma_irq_run w' p Hp' Hsem')
      as (w'' & H2 & _ & _ & Hsz2 & _ & _ & _ & Htr2).
    exists w''. split; [exact H2|]. split; [rewrite Hsz2; exact Hsz|].
    rewrite Htr2, Hsz. apply Z.ltb_lt in Hpos. rewrite Hpos. reflexivity.
Qed.

Lemma rx_dma_irq_records_result_and_signals_witness :
  exists w',
    platform_uart_rx_dma_irq
      (upd_drv (set_rx_size 4)
         (upd_hw (raise_dma_status 10 851968) board_direct))
    = Some w' /\
    last_receive_result (drv w') = kGeneralErr /\
    rx_size (drv w') = 4.
Proof.
  assert (Hp : peripheral
                 (drv (upd_drv (set_rx_size 4)
                         (upd_hw (raise_dma_status 10 851968) board_direct)))
               = Some board_uart)
    by (vm_compute; reflexivity).
  assert (Hs : rx_complete
                 (drv (upd_drv (set_rx_size 4)
                         (upd_hw (raise_dma_status 10 851968) board_direct)))
               <> None)
    by (vm_compute; discriminate).
  destruct (rx_dma_irq_records_result_and_signals _ board_uart Hp Hs)
    as (w' & H1 & H2 & _ & H3 & _).
  vm_compute in H2. vm_compute in H3.
  exists w'. split; [exact H1|]. split; [exact H2 | exact H3].
Defined.

(** ** Receive without a ring buffer *)

(** Without a ring buffer an event leaves rx_buffer NULL and rx_size as
    it is: the only handler that writes rx_size reads the ring buffer. *)
Lemma env_step_direct e w w' :
  rx_buffer (drv w) = None ->
  env_step e w = Some w' ->
  rx_buffer (drv w') = None /\ rx_size (drv w') = rx_size (drv w).
Proof.
  intros Hb. destruct e; simpl; intro H.
  - inversion H. subst. auto.
  - destruct (_ && _); [|inversion H; subst; auto].
    assert (Hd : drv (dma_rx_store b w) = drv w).
    { unfold dma_rx_store. rewrite Hb.
      destruct (_ && _); [|reflexivity].
      destruct (M0AR _); destruct (_ =? 0); try destruct (CR_CIRC _); reflexivity. }
    set (w1 := dma_rx_store b w) in *. clearbody w1.
    assert (Hsame : Some w1 = Some w' ->
              rx_buffer (drv w') = None /\ rx_size (drv w') = rx_size (drv w)).
    { intro E. inversion E. subst. rewrite Hd. auto. }
    destruct (peripheral (drv w1)) as [p|]; [|exact (Hsame H)].
    destruct (uart_irq_vectors _); [|exact (Hsame H)].
    destruct (_ && _); [|exact (Hsame H)].
    apply platform_uart_irq_effect in H as (rb & Hrb & _).
    rewrite Hd, Hb in Hrb. discriminate.
  - inversion H. subst. auto.
  - destruct (peripheral (drv w)) as [p|]; [|inversion H; subst; auto].
    destruct (_ && _); [|inversion H; subst; auto].
    apply platform_uart_tx_dma_irq_effect in H as (r & s & Hd & _).
    rewrite Hd. simpl. auto.
  - destruct (peripheral (drv w)) as [p|]; [|inversion H; subst; auto].
    destruct (_ && _); [|inversion H; subst; auto].
    apply platform_uart_rx_dma_irq_effect in H as (r & s & Hd & _).
    rewrite Hd. simpl. auto.
  - destruct (tx_mutex (drv w)); inversion H; subst; auto.
Qed.

(** A receive call without a ring buffer, from its return backwards. *)
Lemma direct_receive_run when data_in n t evs w r out evs' w' :
  rx_buffer (drv w) = None ->
  data_in <> NULL -> n <> 0 ->
  platform_uart_receive_bytes when driver_instance data_in n t evs w
  = Ret (r, out) evs' w' ->
  out = [] /\
  (r = kNoErr \/ r = kTimeoutErr) /\
  (t <= 0 -> r = kNoErr /\ evs' = evs) /\
  rx_buffer (drv w') = None /\
  rx_size (drv w') = n.
Proof.
  intros Hb Hd Hn. unfold platform_uart_receive_bytes.
  rewrite (valid_transmit_arguments _ _ Hd Hn).
  rewrite bind_read, Hb.
  intro H. apply bind_Ret_inv in H as (err & evs1 & w1 & Hrun & Hret).
  unfold ret in Hret. inversion Hret. subst. clear Hret.
  split; [reflexivity|].
  revert Hrun. unfold receive_bytes, the_peripheral.
  destruct (peripheral (drv w)) as [p|] eqn:Hp.
  2:{ unfold bind, deref. rewrite Hp. discriminate. }
  rewrite (bind_deref _ _ _ _ _ Hp), bind_read, Hb. cbv beta iota.
  rewrite bind_assoc. run_modify.
  destruct (0 <? t) eqn:Et.
  - unfold mico_rtos_get_semaphore. intro H.
    split; [exact (sem_wait_status _ _ _ _ _ _ _ H)|].
    split; [intro Ht; apply Z.ltb_lt in Et; lia|].
    refine (sem_wait_preserves
              (fun _ v => rx_buffer (drv v) = None /\ rx_size (drv v) = n)
              sem_rx_complete _ _ _ _ _ _ _ _ _ H).
    + intros e es v v' [Q1 Q2] _ E.
      destruct (env_step_direct _ _ _ Q1 E) as [R1 R2].
      split; [exact R1 | rewrite R2; exact Q2].
    + intros es v [Q1 Q2]. split; [exact Q1 | exact Q2].
    + split; [exact Hb | reflexivity].
  - unfold ret. intro H. inversion H. subst.
    split; [left; reflexivity|].
    split; [intros _; split; reflexivity|].
    split; [exact Hb | reflexivity].
Qed.

(** X9: without a ring buffer, what a receive call returns is the
    outcome of its wait: success or a timeout error.  The result the RX
    DMA handler recorded in last_receive_result is not read, so a transfer
    that ended on a DMA error is reported as a success.  With a zero
    timeout the call only starts the transfer: it returns success at
    once. *)
Theorem direct_receive_reports_the_wait :
  forall when data_in n t evs w r out evs' w',
    rx_buffer (drv w) = None ->
    data_in <> NULL -> n <> 0 ->
    platform_uart_receive_bytes when driver_instance data_in n t evs w
    = Ret (r, out) evs' w' ->
    (r = kNoErr \/ r = kTimeoutErr) /\
    out = [] /\
    (t = 0 -> r = kNoErr /\ evs' = evs).
Proof.
  intros when data_in n t evs w r out evs' w' Hb Hd Hn H.
  destruct (direct_receive_run _ _ _ _ _ _ _ _ _ _ Hb Hd Hn H)
    as (Ho & Hr & Ht & _).
  split; [exact Hr|]. split; [exact Ho|].
  intro Hz. apply Ht. lia.
Qed.

Lemma direct_receive_reports_the_wait_witness :
  (kNoErr = kNoErr \/ kNoErr = kTimeoutErr) /\
  last_receive_result
    (drv (final_world
            (platform_uart_receive_bytes uninterrupted driver_instance
               caller_buffer 16 100 [DmaRxStatus 851968] board_direct)))
  = kGeneralErr.
Proof.
  split.
  - refine (proj1 (direct_receive_reports_the_wait uninterrupted caller_buffer 16 100
                     [DmaRxStatus 851968] board_direct kNoErr [] []
                     (final_world
                        (platform_uart_receive_bytes uninterrupted driver_instance
                           caller_buffer 16 100 [DmaRxStatus 851968]
                           board_direct))
                     _ _ _ _)).
    + vm_compute. reflexivity.
    + discriminate.
    + lia.
    + vm_compute. reflexivity.
  - vm_compute. reflexivity.
Defined.

(** A delivery of the RX DMA interrupt while rx_size > 0 signals the RX
    Completion Signal. *)
Lemma rx_dma_irq_signals w w' :
  platform_uart_rx_dma_irq w = Some w' ->
  0 < rx_size (drv w) ->
  rx_complete (drv w') = Some true /\
  trace w' = trace w ++ [SetSemaphore sem_rx_complete] /\
  rx_buffer (drv w') = rx_buffer (drv w) /\
  peripheral (drv w') = peripheral (drv w) /\
  peripheral (drv w) <> None.
Proof.
  intros H Hpos.
  destruct (peripheral (drv w)) as [p|] eqn:Hp.
  2:{ unfold platform_uart_rx_dma_irq in H. rewrite Hp in H. discriminate. }
  assert (Hsem : rx_complete (drv w) <> None).
  { intro Hnone. apply platform_uart_rx_dma_irq_effect in H as Heff.
    revert H. unfold platform_uart_rx_dma_irq. rewrite Hp. cbv zeta.
    set (w1 := if negb _ then _ else w).
    assert (H1 : rx_size (drv w1) = rx_size (drv w)
                 /\ rx_complete (drv w1) = None).
    { subst w1. destruct (negb _); simpl; auto. }
    clearbody w1. destruct H1 as [A1 A2].
    set (w2 := if negb _ then _ else w1).
    assert (H2 : rx_size (drv w2) = rx_size (drv w)
                 /\ rx_complete (drv w2) = None).
    { subst w2. destruct (negb _); simpl; auto. }
    clearbody w2. destruct H2 as [B1 B2].
    rewrite B1. apply Z.ltb_lt in Hpos. rewrite Hpos.
    unfold mico_rtos_set_semaphore. simpl. rewrite B2. discriminate. }
  destruct (rx_dma_irq_run w p Hp Hsem)
    as (v & Hv & _ & _ & _ & Hp' & Hb & Hc & Htr).
  rewrite H in Hv. inversion Hv. subst v.
  apply Z.ltb_lt in Hpos. rewrite Hpos in Hc, Htr.
  split; [exact Hc|]. split; [exact Htr|]. split; [exact Hb|].
  split; [exact Hp' | discriminate].
Qed.

(** X10: without a ring buffer a receive call leaves rx_size at the
    requested size on every return, the time-out included: nothing on this
    path resets it.  A completion interrupt that comes after a time-out
    therefore still signals the RX Completion Signal, and the next receive
    call finds the token and returns success at once, before its own
    transfer has moved a byte. *)
Theorem direct_receive_leaves_rx_size_set :
  forall when data_in n t evs w r out evs' w',
    rx_buffer (drv w) = None ->
    data_in <> NULL -> 0 < n ->
    platform_uart_receive_bytes when driver_instance data_in n t evs w
    = Ret (r, out) evs' w' ->
    rx_size (drv w') = n /\
    forall w'',
      platform_uart_rx_dma_irq w' = Some w'' ->
      rx_complete (drv w'') = Some true /\
      trace w'' = trace w' ++ [SetSemaphore sem_rx_complete] /\
      forall when2 data2 n2 t2 evs2,
        data2 <> NULL -> n2 <> 0 -> 0 < t2 ->
        exists w3,
          platform_uart_receive_bytes when2 driver_instance data2 n2 t2 evs2 w''
          = Ret (kNoErr, []) evs2 w3 /\
          NDTR (rx_stream (hw w3)) = n2 /\
          rx_complete (drv w3) = Some false.
Proof.
  intros when data_in n t evs w r out evs' w' Hb Hd Hn H.
  assert (Hn0 : n <> 0) by lia.
  destruct (direct_receive_run _ _ _ _ _ _ _ _ _ _ Hb Hd Hn0 H)
    as (_ & _ & _ & Hb' & Hsz).
  split; [exact Hsz|].
  intros w'' Hirq.
  assert (Hpos : 0 < rx_size (drv w')) by (rewrite Hsz; exact Hn).
  destruct (rx_dma_irq_signals _ _ Hirq Hpos) as (Hc & Htr & Hb2 & Hp2 & Hp).
  split; [exact Hc|]. split; [exact Htr|].
  intros when2 data2 n2 t2 evs2 Hd2 Hn2 Ht2.
  rewrite Hb' in Hb2.
  destruct (peripheral (drv w')) as [p|] eqn:Ep; [|contradiction].
  unfold platform_uart_receive_bytes.
  rewrite (valid_transmit_arguments _ _ Hd2 Hn2).
  rewrite bind_read, Hb2.
  unfold receive_bytes, the_peripheral.
  rewrite bind_assoc.
  rewrite (bind_deref _ _ _ _ _ Hp2), bind_assoc, bind_read, Hb2.
  apply Z.ltb_lt in Ht2. rewrite Ht2.
  unfold bind, modify, mico_rtos_get_semaphore. cbv beta iota.
  match goal with
  | |- context [sem_wait _ _ _ ?W] =>
      assert (Htok : get_sem sem_rx_complete (drv W) = Some true)
        by (simpl; exact Hc);
      assert (Hwait : sem_wait sem_rx_complete t2 evs2 W
                      = Ret kNoErr evs2
                          (upd_drv (put_sem sem_rx_complete (Some false)) W))
        by (destruct evs2; simpl; simpl in Htok; rewrite Htok; reflexivity);
      rewrite Hwait
  end.
  eexists. split; [reflexivity|].
  split; [|reflexivity].
  through_clear. reflexivity.
Qed.

Lemma direct_receive_leaves_rx_size_set_witness :
  rx_size
    (drv (final_world
            (platform_uart_receive_bytes uninterrupted driver_instance
               caller_buffer 16 3
               [Tick; Tick; Tick; DmaRxStatus 2097152] board_direct)))
  = 16.
Proof.
  refine (proj1 (direct_receive_leaves_rx_size_set uninterrupted caller_buffer 16 3
                   [Tick; Tick; Tick; DmaRxStatus 2097152] board_direct
                   kTimeoutErr [] [DmaRxStatus 2097152]
                   (final_world
                      (platform_uart_receive_bytes uninterrupted driver_instance
                         caller_buffer 16 3
                         [Tick; Tick; Tick; DmaRxStatus 2097152] board_direct))
                   _ _ _ _)).
  - vm_compute. reflexivity.
  - discriminate.
  - lia.
  - vm_compute. reflexivity.
Defined.

(** ** Transmit: what the waits can and cannot deliver *)

Section WaitInvariants.

(** A property of the schedule and the world that every event
    preserves. *)
Variable Q : list event -> world -> Prop.
Hypothesis Q_step :
  forall e evs w w', Q (e :: evs) w -> env_step e w = Some w' -> Q evs w'.

Lemma lock_wait_preserves :
  (forall evs w, Q evs w ->
                 Q evs (log LockMutex (upd_drv (set_tx_mutex (Some true)) w))) ->
  forall evs w evs' w',
    Q evs w -> lock_wait evs w = Ret tt evs' w' -> Q evs' w'.
Proof.
  intro Htake. induction evs as [|e evs IH]; intros w evs' w' HQ; simpl.
  - destruct (tx_mutex (drv w)) as [[|]|]; try discriminate.
    intro H. inversion H. subst. apply Htake. exact HQ.
  - destruct (tx_mutex (drv w)) as [[|]|]; try discriminate.
    + destruct (env_step e w) as [w1|] eqn:E; try discriminate.
      apply IH. apply (Q_step _ _ _ _ HQ E).
    + intro H. inversion H. subst. apply Htake. exact HQ.
Qed.

Lemma wait_transmission_complete_preserves :
  forall evs w evs' w',
    Q evs w -> wait_transmission_complete evs w = Ret tt evs' w' -> Q evs' w'.
Proof.
  induction evs as [|e evs IH]; intros w evs' w' HQ; simpl.
  - destruct (SR_TC (usart (hw w))); try discriminate.
    intro H. inversion H. subst. exact HQ.
  - destruct (SR_TC (usart (hw w))).
    + intro H. inversion H. subst. exact HQ.
    + destruct (env_step e w) as [w1|] eqn:E; try discriminate.
      apply IH. apply (Q_step _ _ _ _ HQ E).
Qed.

End WaitInvariants.

(** The TX DMA handler records success or a general error, or leaves the
    recorded result alone. *)
Lemma tx_dma_irq_result w w' :
  platform_uart_tx_dma_irq w = Some w' ->
  last_transmit_result (drv w') = last_transmit_result (drv w)
  \/ last_transmit_result (drv w') = kNoErr
  \/ last_transmit_result (drv w') = kGeneralErr.
Proof.
  unfold platform_uart_tx_dma_irq.
  destruct (peripheral (drv w)) as [p|]; [|discriminate]. cbv zeta.
  set (w1 := if negb _ then _ else w).
  assert (H1 : last_transmit_result (drv w1) = last_transmit_result (drv w)
               \/ last_transmit_result (drv w1) = kNoErr
               \/ last_transmit_result (drv w1) = kGeneralErr).
  { subst w1. destruct (negb _); simpl; auto. }
  clearbody w1.
  set (w2 := if negb _ then _ else w1).
  assert (H2 : last_transmit_result (drv w2) = last_transmit_result (drv w)
               \/ last_transmit_result (drv w2) = kNoErr
               \/ last_transmit_result (drv w2) = kGeneralErr).
  { subst w2. destruct (negb _); simpl; auto. }
  clearbody w2.
  destruct (0 <? tx_size (drv w2)).
  - unfold mico_rtos_set_semaphore.
    destruct (get_sem sem_tx_complete (drv w2)); [|discriminate].
    intro H. inversion H. subst. exact H2.
  - intro H. inversion H. subst. exact H2.
Qed.

Lemma env_step_transmit_result e w w' :
  env_step e w = Some w' ->
  last_transmit_result (drv w') = last_transmit_result (drv w)
  \/ last_transmit_result (drv w') = kNoErr
  \/ last_transmit_result (drv w') = kGeneralErr.
Proof.
  destruct e; simpl; intro H.
  - inversion H. subst. auto.
  - destruct (_ && _); [|inversion H; subst; auto].
    destruct (dma_rx_store_driver b w) as [r Hr].
    set (w1 := dma_rx_store b w) in *. clearbody w1.
    assert (A : last_transmit_result (drv w1) = last_transmit_result (drv w))
      by (rewrite Hr; reflexivity).
    assert (Hsame : Some w1 = Some w' ->
              last_transmit_result (drv w') = last_transmit_result (drv w)
              \/ last_transmit_result (drv w') = kNoErr
              \/ last_transmit_result (drv w') = kGeneralErr).
    { intro E. inversion E. subst. left. exact A. }
    destruct (peripheral (drv w1)) as [p|]; [|exact (Hsame H)].
    destruct (uart_irq_vectors _); [|exact (Hsame H)].
    destruct (_ && _); [|exact (Hsame H)].
    apply platform_uart_irq_effect in H as (rb & _ & _ & Hd).
    rewrite Hd. simpl. left. exact A.
  - inversion H. subst. auto.
  - destruct (peripheral (drv w)) as [p|]; [|inversion H; subst; auto].
    destruct (_ && _); [|inversion H; subst; auto].
    apply tx_dma_irq_result in H. exact H.
  - destruct (peripheral (drv w)) as [p|]; [|inversion H; subst; auto].
    destruct (_ && _); [|inversion H; subst; auto].
    apply platform_uart_rx_dma_irq_effect in H as (r & s & Hd & _).
    rewrite Hd. simpl. auto.
  - destruct (tx_mutex (drv w)); inversion H; subst; auto.
Qed.

(** X11: a transmit call with valid arguments reports what the TX DMA
    handler recorded: success or a general error.  It never returns a
    timeout or a parameter error. *)
Theorem transmit_reports_the_dma_result :
  forall data_out size evs w r evs' w',
    data_out <> NULL -> size <> 0 ->
    platform_uart_transmit_bytes driver_instance data_out size evs w
    = Ret r evs' w' ->
    r = kNoErr \/ r = kGeneralErr.
Proof.
  intros data_out size evs w r evs' w' Hd Hn H.
  apply (transmit_stages _ _ _ _ _ _ _ (valid_transmit_arguments _ _ Hd Hn)) in H
    as (evs0 & w0 & p & st & evs1 & w1 & w2 & _ & _ & ES & EW & _ & _ & ->).
  set (Q := fun (_ : list event) (v : world) =>
              last_transmit_result (drv v) = kNoErr
              \/ last_transmit_result (drv v) = kGeneralErr).
  assert (Q_step : forall e es v v', Q (e :: es) v -> env_step e v = Some v' -> Q es v').
  { intros e es v v' HQ E. unfold Q in *.
    destruct (env_step_transmit_result _ _ _ E) as [A | [A | A]];
      rewrite A; auto. }
  assert (Q1 : Q evs1 w1).
  { refine (sem_wait_preserves Q sem_tx_complete _ _ _ _ _ _ _ _ _ ES).
    - intros e es v v' HQ _ E. exact (Q_step _ _ _ _ HQ E).
    - intros es v HQ. exact HQ.
    - right. unfold transmit_armed. through_clear. reflexivity. }
  exact (wait_transmission_complete_preserves Q Q_step _ _ _ _ Q1 EW).
Qed.

Lemma transmit_reports_the_dma_result_witness :
  platform_uart_transmit_bytes driver_instance caller_buffer 3
    [DmaTxStatus 46137344; UartTxDone] board_direct
  = Ret kGeneralErr []
      (final_world
         (platform_uart_transmit_bytes driver_instance caller_buffer 3
            [DmaTxStatus 46137344; UartTxDone] board_direct)) /\
  (kGeneralErr = kNoErr \/ kGeneralErr = kGeneralErr).
Proof.
  assert (H : platform_uart_transmit_bytes driver_instance caller_buffer 3
                [DmaTxStatus 46137344; UartTxDone] board_direct
              = Ret kGeneralErr []
                  (final_world
                     (platform_uart_transmit_bytes driver_instance
                        caller_buffer 3 [DmaTxStatus 46137344; UartTxDone]
                        board_direct)))
    by (vm_compute; reflexivity).
  split; [exact H|].
  refine (transmit_reports_the_dma_result caller_buffer 3
            [DmaTxStatus 46137344; UartTxDone] board_direct kGeneralErr [] _
            _ _ H).
  - discriminate.
  - lia.
Defined.

(** Only the TX DMA interrupt touches the TX Completion Signal. *)
Lemma env_step_tx_complete e w w' :
  is_DmaTxStatus e = false ->
  env_step e w = Some w' ->
  tx_complete (drv w') = tx_complete (drv w).
Proof.
  destruct e; simpl; intros He H; try discriminate.
  - inversion H. reflexivity.
  - destruct (_ && _); [|inversion H; reflexivity].
    destruct (dma_rx_store_driver b w) as [r Hr].
    set (w1 := dma_rx_store b w) in *. clearbody w1.
    assert (A : tx_complete (drv w1) = tx_complete (drv w))
      by (rewrite Hr; reflexivity).
    assert (Hsame : Some w1 = Some w' ->
                    tx_complete (drv w') = tx_complete (drv w)).
    { intro E. inversion E. subst. exact A. }
    destruct (peripheral (drv w1)) as [p|]; [|exact (Hsame H)].
    destruct (uart_irq_vectors _); [|exact (Hsame H)].
    destruct (_ && _); [|exact (Hsame H)].
    apply platform_uart_irq_effect in H as (rb & _ & _ & Hd).
    rewrite Hd. simpl. exact A.
  - inversion H. reflexivity.
  - destruct (peripheral (drv w)) as [p|]; [|inversion H; reflexivity].
    destruct (_ && _); [|inversion H; reflexivity].
    apply platform_uart_rx_dma_irq_effect in H as (r & s & Hd & _).
    rewrite Hd. reflexivity.
  - destruct (tx_mutex (drv w)); inversion H; reflexivity.
Qed.

(** A wait without deadline on a signal that nothing in the schedule
    signals does not return. *)
Lemma sem_wait_starves evs : forall w,
  forallb (fun e => negb (is_DmaTxStatus e)) evs = true ->
  tx_complete (drv w) = Some false ->
  sem_wait sem_tx_complete MICO_NEVER_TIMEOUT evs w = NoReturn
  \/ sem_wait sem_tx_complete MICO_NEVER_TIMEOUT evs w = Undefined.
Proof.
  induction evs as [|e evs IH]; intros w Hq Hc; simpl.
  - simpl in Hc. rewrite Hc. left. reflexivity.
  - simpl in Hc. rewrite Hc. simpl.
    simpl in Hq. apply andb_prop in Hq as [He Hq].
    apply negb_true_iff in He.
    destruct (env_step e w) as [w1|] eqn:E; [|right; reflexivity].
    replace (tick_down e MICO_NEVER_TIMEOUT) with MICO_NEVER_TIMEOUT
      by (destruct e; reflexivity).
    apply IH; [exact Hq|].
    rewrite (env_step_tx_complete _ _ _ He E). exact Hc.
Qed.

(** X12: transmit has no deadline.  It waits on the TX Completion Signal
    with MICO_NEVER_TIMEOUT, so as long as no TX DMA interrupt is
    requested the call does not return, however much time passes and
    whatever else happens. *)
Theorem transmit_never_times_out :
  forall data_out size evs w,
    data_out <> NULL -> size <> 0 ->
    tx_complete (drv w) = Some false ->
    forallb (fun e => negb (is_DmaTxStatus e)) evs = true ->
    platform_uart_transmit_bytes driver_instance data_out size evs w = NoReturn
    \/ platform_uart_transmit_bytes driver_instance data_out size evs w
       = Undefined.
Proof.
  intros data_out size evs w Hd Hn Hc Hq.
  remember (platform_uart_transmit_bytes driver_instance data_out size evs w)
    as o eqn:Ho.
  unfold platform_uart_transmit_bytes in Ho.
  unfold bind at 1, modify at 1 in Ho. unfold bind at 1, mico_rtos_lock_mutex in Ho.
  rewrite (valid_transmit_arguments _ _ Hd Hn) in Ho.
  destruct (lock_wait evs (log PowersaveDisable w)) as [[] evs0 w0| |] eqn:EL;
    [|right; exact Ho | left; exact Ho].
  assert (Q0 : forallb (fun e => negb (is_DmaTxStatus e)) evs0 = true
               /\ tx_complete (drv w0) = Some false).
  { refine (lock_wait_preserves
              (fun es v => forallb (fun e => negb (is_DmaTxStatus e)) es = true
                           /\ tx_complete (drv v) = Some false)
              _ _ _ _ _ _ _ EL).
    - intros e es v v' [Q1 Q2] E. simpl in Q1.
      apply andb_prop in Q1 as [He Q1]. apply negb_true_iff in He.
      split; [exact Q1|].
      rewrite (env_step_tx_complete _ _ _ He E). exact Q2.
    - intros es v [Q1 Q2]. split; [exact Q1 | exact Q2].
    - split; [exact Hq | exact Hc]. }
  destruct Q0 as [Hq0 Hc0].
  unfold bind at 1, the_peripheral, deref in Ho.
  destruct (peripheral (drv w0)) as [p|]; [|right; exact Ho].
  unfold bind, modify, mico_rtos_get_semaphore in Ho.
  fold (transmit_armed p data_out size w0) in Ho.
  destruct (sem_wait_starves evs0
              (log (GetSemaphore sem_tx_complete MICO_NEVER_TIMEOUT)
                   (transmit_armed p data_out size w0)) Hq0) as [E | E].
  - unfold transmit_armed. through_clear. exact Hc0.
  - rewrite E in Ho. left. exact Ho.
  - rewrite E in Ho. right. exact Ho.
Qed.

Lemma transmit_never_times_out_witness :
  platform_uart_transmit_bytes driver_instance caller_buffer 3
    (repeat Tick 1000 ++ [UartTxDone; UartRx Byte.x41]) board_direct
  = NoReturn
  \/ platform_uart_transmit_bytes driver_instance caller_buffer 3
       (repeat Tick 1000 ++ [UartTxDone; UartRx Byte.x41]) board_direct
     = Undefined.
Proof.
  apply (transmit_never_times_out caller_buffer 3
           (repeat Tick 1000 ++ [UartTxDone; UartRx Byte.x41]) board_direct).
  - discriminate.
  - lia.
  - vm_compute. reflexivity.
  - vm_compute. reflexivity.
Defined.

(** While nobody reads, the ring buffer collects what arrives. *)
Lemma env_run_collects evs : forall w w' rb,
  rx_streaming w ->
  rx_buffer (drv w) = Some rb ->
  ring_buffer_used_space rb + Z.of_nat (length (bytes_arriving evs))
  <= rb_size rb - 1 ->
  env_run evs w = Some w' ->
  rx_streaming w' /\
  exists rb',
    rx_buffer (drv w') = Some rb' /\
    rb_size rb' = rb_size rb /\
    ring_contents rb' = ring_contents rb ++ bytes_arriving evs /\
    ring_buffer_used_space rb'
    = ring_buffer_used_space rb + Z.of_nat (length (bytes_arriving evs)).
Proof.
  induction evs as [|e evs IH]; intros w w' rb Hs Hrb Hfit; cbn [env_run].
  - intro H. inversion H. subst. split; [exact Hs|].
    exists rb. simpl. rewrite app_nil_r. repeat split; try assumption; lia.
  - destruct (env_step e w) as [w1|] eqn:E; [|discriminate].
    intro H. destruct (is_UartRx e) eqn:Ek.
    + destruct e; try discriminate. cbn [bytes_arriving length] in *.
      destruct (env_step_byte b w w1 rb Hs Hrb) as (Hs1 & rb1 & Hrb1 & Hsz1 & Hc1 & Hu1 & _);
        [lia | exact E |].
      destruct (IH w1 w' rb1 Hs1 Hrb1) as (Hs' & rb' & Hrb' & Hsz' & Hc' & Hu');
        [rewrite Hu1, Hsz1; lia | exact H |].
      split; [exact Hs'|]. exists rb'.
      split; [exact Hrb'|]. split; [congruence|].
      split; [rewrite Hc', Hc1, <- app_assoc; reflexivity|].
      rewrite Hu', Hu1. lia.
    + pose proof (env_step_other _ _ _ Ek E) as Hsame.
      pose proof (rx_path_same_streaming _ _ Hsame Hs) as Hs1.
      assert (Hrb1 : rx_buffer (drv w1) = Some rb).
      { destruct Hsame as (_ & Hb & _). rewrite Hb. exact Hrb. }
      assert (Hba : bytes_arriving (e :: evs) = bytes_arriving evs)
        by (destruct e; try reflexivity; discriminate).
      rewrite Hba in *.
      exact (IH w1 w' rb Hs1 Hrb1 Hfit H).
Qed.

(** X14: bytes that arrive while nobody reads accumulate in the ring
    buffer.  As long as they fit in the capacity less one, after any run
    of events the length query returns the earlier length plus the number
    of bytes that arrived, and the ring buffer holds the earlier bytes
    followed by the new ones in their order of arrival. *)
Theorem length_in_buffer_counts_arrivals :
  forall evs w w' rb,
    rx_streaming w ->
    rx_buffer (drv w) = Some rb ->
    ring_buffer_used_space rb + Z.of_nat (length (bytes_arriving evs))
    <= rb_size rb - 1 ->
    env_run evs w = Some w' ->
    platform_uart_get_length_in_buffer driver_instance [] w'
    = Ret (ring_buffer_used_space rb + Z.of_nat (length (bytes_arriving evs)))
          [] w' /\
    bytes_ahead [] w' = bytes_ahead evs w /\
    rx_streaming w'.
Proof.
  intros evs w w' rb Hs Hrb Hfit H.
  destruct (env_run_collects evs w w' rb Hs Hrb Hfit H)
    as (Hs' & rb' & Hrb' & _ & Hc & Hu).
  split.
  - unfold platform_uart_get_length_in_buffer.
    rewrite (bind_deref _ _ _ _ rb'); [|exact Hrb'].
    unfold ret. rewrite Hu. reflexivity.
  - split; [|exact Hs'].
    unfold bytes_ahead. rewrite Hrb', Hrb, Hc. simpl. apply app_nil_r.
Qed.

Lemma length_in_buffer_counts_arrivals_witness :
  platform_uart_get_length_in_buffer driver_instance []
    (world_after six_bytes (board_buffered 8))
  = Ret 6 [] (world_after six_bytes (board_buffered 8)).
Proof.
  refine (proj1 (length_in_buffer_counts_arrivals six_bytes (board_buffered 8)
                   (world_after six_bytes (board_buffered 8)) (empty_ring 8)
                   board_buffered_streaming _ _ _)).
  - vm_compute. reflexivity.
  - vm_compute. discriminate.
  - vm_compute. reflexivity.
Defined.

(** A byte stored into a ring buffer that already holds its capacity less
    one: the tail cursor catches up with the head cursor. *)
Lemma ring_overrun rb cells b t' :
  ring_well_formed rb ->
  rb_buffer rb = Some cells ->
  ring_buffer_used_space rb = rb_size rb - 1 ->
  (rb_tail rb + 1 < rb_size rb /\ t' = rb_tail rb + 1)
  \/ (rb_tail rb + 1 = rb_size rb /\ t' = 0) ->
  let rb' := set_rb_tail t'
               (set_rb_buffer
                  (Some (write_cell cells (Z.to_nat (rb_tail rb)) b)) rb) in
  ring_well_formed rb'
  /\ ring_buffer_used_space rb' = 0
  /\ ring_contents rb' = [].
Proof.
  intros Hwf Hc Hfull Ht rb'.
  pose proof Hwf as ((cells0 & Hc0 & Hlen) & Hs & Hh & Htl).
  rewrite Hc in Hc0. inversion Hc0. subst cells0. clear Hc0.
  assert (Hhead : t' = rb_head rb).
  { destruct (used_space_cases rb Hwf) as [[A B] | [A B]]; lia. }
  assert (Hu : ring_buffer_used_space rb' = 0).
  { unfold ring_buffer_used_space. subst rb'. simpl. rewrite Hhead.
    rewrite (wrap32_small (rb_size rb - rb_head rb)) by lia.
    replace (rb_size rb - rb_head rb + rb_head rb) with (rb_size rb) by lia.
    rewrite wrap32_small by lia. apply Z_mod_same_full. }
  split.
  - subst rb'. split.
    + eexists. split; [reflexivity|]. simpl. rewrite length_write_cell. exact Hlen.
    + simpl. split; [exact Hs|]. split; [exact Hh | lia].
  - split; [exact Hu|].
    unfold ring_contents. rewrite Hu. subst rb'. reflexivity.
Qed.

(** X15: an overrun is silent.  When the ring buffer already holds its
    capacity less one, the next byte makes the tail cursor meet the head
    cursor: the length query returns zero and the ring buffer reads as
    empty, so the unread bytes and the new one are lost to the reader; no
    error is recorded, and reception goes on. *)
Theorem overrun_empties_the_ring_buffer :
  forall b w w' rb,
    rx_streaming w ->
    rx_buffer (drv w) = Some rb ->
    ring_buffer_used_space rb = rb_size rb - 1 ->
    env_step (UartRx b) w = Some w' ->
    rx_streaming w' /\
    last_receive_result (drv w') = last_receive_result (drv w) /\
    platform_uart_get_length_in_buffer driver_instance [] w' = Ret 0 [] w' /\
    (forall evs, bytes_ahead evs w' = bytes_arriving evs).
Proof.
  intros b w w' rb
    (p & rb0 & v & B1 & B2 & B3 & B4 & B5 & B6 & B7 & B8 & B9 & B10 & B11
       & B12 & B13 & B14) Hrb Hfull.
  rewrite Hrb in B2. inversion B2. subst rb0. clear B2.
  pose proof B3 as ((cells & Hc & Hlen) & Hs & Hh & Ht).
  simpl. rewrite B6, B7. simpl.
  assert (Hstore :
    dma_rx_store b w
    = upd_rx_stream
        (count_NDTR (if rb_tail rb + 1 =? rb_size rb
                     then rb_size rb else rb_size rb - (rb_tail rb + 1)))
        (upd_drv (set_rx_buffer
                    (Some (set_rb_buffer
                             (Some (write_cell cells (Z.to_nat (rb_tail rb)) b))
                             rb))) w)).
  { unfold dma_rx_store. rewrite B10, B9, B14, B12, Hrb, Hc, B11, B13. simpl.
    replace (0 <? rb_size rb - rb_tail rb) with true
      by (symmetry; apply Z.ltb_lt; lia).
    replace (rb_size rb - (rb_size rb - rb_tail rb)) with (rb_tail rb) by lia.
    destruct (rb_tail rb + 1 =? rb_size rb) eqn:E.
    - apply Z.eqb_eq in E.
      replace (rb_size rb - rb_tail rb - 1 =? 0) with true
        by (symmetry; apply Z.eqb_eq; lia).
      reflexivity.
    - apply Z.eqb_neq in E.
      replace (rb_size rb - rb_tail rb - 1 =? 0) with false
        by (symmetry; apply Z.eqb_neq; lia).
      replace (rb_size rb - rb_tail rb - 1) with (rb_size rb - (rb_tail rb + 1))
        by lia.
      reflexivity. }
  rewrite Hstore. clear Hstore.
  set (n' := if rb_tail rb + 1 =? rb_size rb
             then rb_size rb else rb_size rb - (rb_tail rb + 1)).
  set (rb1 := set_rb_buffer (Some (write_cell cells (Z.to_nat (rb_tail rb)) b)) rb).
  set (w1 := upd_rx_stream (count_NDTR n') (upd_drv (set_rx_buffer (Some rb1)) w)).
  change (peripheral (drv w1)) with (peripheral (drv w)). rewrite B1, B4.
  change (nvic (hw w1) v) with (nvic (hw w) v).
  change (CR1_RXNEIE (usart (hw w1))) with (CR1_RXNEIE (usart (hw w))).
  rewrite B5, B8. simpl andb. cbv iota.
  intro H. apply platform_uart_irq_effect in H as (rb2 & E2 & Hhw & Hd).
  change (rx_buffer (drv w1)) with (Some rb1) in E2. inversion E2. subst rb2.
  clear E2.
  change (NDTR (rx_stream (hw w1))) with n' in Hd.
  change (rb_size rb1) with (rb_size rb) in Hd.
  set (t' := wrap32 (rb_size rb - n')) in *.
  assert (Ht' : (rb_tail rb + 1 < rb_size rb /\ t' = rb_tail rb + 1)
                \/ (rb_tail rb + 1 = rb_size rb /\ t' = 0)).
  { subst t' n'. destruct (rb_tail rb + 1 =? rb_size rb) eqn:E.
    - apply Z.eqb_eq in E. right. split; [exact E|].
      rewrite Z.sub_diag. reflexivity.
    - apply Z.eqb_neq in E. left. split; [lia|].
      rewrite wrap32_small by lia. lia. }
  destruct (ring_overrun rb cells b t' B3 Hc Hfull Ht') as (Hwf' & Hused' & Hcont').
  fold rb1 in Hwf', Hused', Hcont'.
  assert (Hbuf : rx_buffer (drv w') = Some (set_rb_tail t' rb1))
    by (rewrite Hd; reflexivity).
  split.
  - exists p, (set_rb_tail t' rb1), v.
    rewrite Hhw, Hd. simpl.
    split; [exact B1|]. split; [reflexivity|]. split; [exact Hwf'|].
    split; [exact B4|]. split; [exact B5|]. split; [exact B6|].
    split; [exact B7|]. split; [exact B8|]. split; [exact B9|].
    split; [exact B10|]. split; [exact B11|]. split; [exact B12|].
    split; [exact B13|].
    subst n'. destruct Ht' as [[C ->] | [C ->]].
    + replace (rb_tail rb + 1 =? rb_size rb) with false
        by (symmetry; apply Z.eqb_neq; lia). reflexivity.
    + replace (rb_tail rb + 1 =? rb_size rb) with true
        by (symmetry; apply Z.eqb_eq; lia). lia.
  - split; [rewrite Hd; reflexivity|].
    split.
    + unfold platform_uart_get_length_in_buffer.
      rewrite (bind_deref _ _ _ _ _ Hbuf). unfold ret. rewrite Hused'. reflexivity.
    + intro evs. unfold bytes_ahead. rewrite Hbuf, Hcont'. reflexivity.
Qed.

Lemma overrun_empties_the_ring_buffer_witness :
  platform_uart_get_length_in_buffer driver_instance []
    (world_after (six_bytes ++ [UartRx Byte.x47; UartRx Byte.x48])
       (board_buffered 8))
  = Ret 0 []
      (world_after (six_bytes ++ [UartRx Byte.x47; UartRx Byte.x48])
         (board_buffered 8)).
Proof.
  assert (Hs : rx_streaming
                 (world_after (six_bytes ++ [UartRx Byte.x47]) (board_buffered 8))).
  { refine (proj1 (env_run_collects
                     (six_bytes ++ [UartRx Byte.x47]) (board_buffered 8)
                     _ (empty_ring 8) board_buffered_streaming _ _ _)).
    - vm_compute. reflexivity.
    - vm_compute. discriminate.
    - vm_compute. reflexivity. }
  refine (proj1 (proj2 (proj2 (overrun_empties_the_ring_buffer Byte.x48
            (world_after (six_bytes ++ [UartRx Byte.x47]) (board_buffered 8))
            (world_after (six_bytes ++ [UartRx Byte.x47; UartRx Byte.x48])
               (board_buffered 8))
            (mk_ring (Some [Byte.x41; Byte.x42; Byte.x43; Byte.x44; Byte.x45;
                            Byte.x46; Byte.x47; Byte.x00]) 8 0 7)
            Hs _ _ _)))).
  - vm_compute. reflexivity.
  - vm_compute. reflexivity.
  - vm_compute. reflexivity.
Defined.

(** *** The loops when no interrupt falls between their statements *)

Lemma bind_interrupts_none {B} (k : unit -> task B) evs w :
  bind (interrupts 0) k evs w = k tt evs w.
Proof. reflexivity. Qed.

(** With no interrupt between its statements, a pass of the copy loop
    reads the ring buffer once. *)
Lemma grab_data_unfold_uninterrupted fuel pass k transfer_size out evs w :
  grab_data (S fuel) (uninterrupted pass) k transfer_size out evs w
  = (rb <- deref (fun w => rx_buffer (drv w)) ;;
     cells <- deref (fun _ => rb_buffer rb) ;;
     let available_data := fst (ring_buffer_get_data rb) in
     let bytes_available := MIN (snd (ring_buffer_get_data rb)) transfer_size in
     let out' := out ++ read_cells cells available_data bytes_available in
     let transfer_size' := wrap32 (transfer_size - bytes_available) in
     modify (upd_drv (set_rx_buffer (Some (ring_buffer_consume rb bytes_available)))) ;;
     if transfer_size' =? 0 then ret out'
     else
       (if bytes_available =? 0 then await_event else ret tt) ;;
       grab_data fuel (uninterrupted pass) (S k) transfer_size' out') evs w.
Proof.
  rewrite grab_data_unfold. unfold uninterrupted.
  rewrite bind_interrupts_none.
  destruct (rx_buffer (drv w)) as [rb|] eqn:Hrb.
  2:{ unfold bind, deref. rewrite Hrb. reflexivity. }
  rewrite !(bind_deref _ _ _ _ _ Hrb). cbv zeta.
  rewrite bind_interrupts_none, (bind_deref _ _ _ _ _ Hrb).
  destruct (rb_buffer rb) as [cells|]; [|reflexivity].
  rewrite !(bind_deref (fun _ => Some cells) _ _ _ cells eq_refl).
  rewrite bind_interrupts_none, (bind_deref _ _ _ _ _ Hrb).
  cbn [Nat.add Nat.eqb]. rewrite andb_true_r. reflexivity.
Qed.

(** With no interrupt between its statements, a pass of the chunk loop
    tests the used space of the ring buffer it took the capacity from. *)
Lemma receive_buffered_unfold_uninterrupted fuel pass expected_data_size
  timeout_ms err out evs w :
  receive_buffered (S fuel) uninterrupted pass expected_data_size timeout_ms
                   err out evs w
  = (if expected_data_size =? 0 then ret (err, out)
     else
       rb <- deref (fun w => rx_buffer (drv w)) ;;
       let transfer_size := MIN (rb_size rb / 2) expected_data_size in
       waited <-
         (if ring_buffer_used_space rb <? transfer_size then
            modify (upd_drv (set_last_receive_result kNoErr)) ;;
            modify (upd_drv (set_rx_size transfer_size)) ;;
            e <- mico_rtos_get_semaphore sem_rx_complete timeout_ms ;;
            modify (upd_drv (set_rx_size 0)) ;;
            ret e
          else ret kNoErr) ;;
       if OSStatus_eqb waited kNoErr then
         err' <- read (fun w => last_receive_result (drv w)) ;;
         let expected_data_size' := wrap32 (expected_data_size - transfer_size) in
         out' <- (fun evs w =>
                    grab_data (S (Z.to_nat transfer_size + length evs))
                              (uninterrupted pass) 0 transfer_size out evs w) ;;
         receive_buffered fuel uninterrupted (S pass) expected_data_size'
                          timeout_ms err' out'
       else ret (waited, out)) evs w.
Proof.
  rewrite receive_buffered_unfold.
  destruct (expected_data_size =? 0); [reflexivity|].
  unfold uninterrupted at 1. rewrite bind_interrupts_none.
  destruct (rx_buffer (drv w)) as [rb|] eqn:Hrb.
  2:{ unfold bind, deref. rewrite Hrb. reflexivity. }
  rewrite !(bind_deref _ _ _ _ _ Hrb). cbv zeta.
  unfold uninterrupted at 1. rewrite bind_interrupts_none.
  rewrite (bind_deref _ _ _ _ _ Hrb).
  reflexivity.
Qed.
(** With the chunk already in the ring buffer the copy loop is done after
    one copy, or two across the end of the store, whatever fuel is left;
    it changes the ring buffer of the driver and nothing else. *)
Lemma grab_data_available fuel pass k transfer_size out evs w rb :
  rx_streaming w ->
  rx_buffer (drv w) = Some rb ->
  0 < transfer_size <= ring_buffer_used_space rb ->
  exists w' rb',
    grab_data (S (S fuel)) (uninterrupted pass) k transfer_size out evs w
    = Ret (out ++ firstn (Z.to_nat transfer_size) (ring_contents rb)) evs w' /\
    drv w' = set_rx_buffer (Some rb') (drv w) /\
    hw w' = hw w /\ trace w' = trace w /\
    ring_contents rb' = skipn (Z.to_nat transfer_size) (ring_contents rb) /\
    ring_well_formed rb' /\
    ring_buffer_used_space rb' = ring_buffer_used_space rb - transfer_size /\
    rb_tail rb' = rb_tail rb /\
    rb_size rb' = rb_size rb.
Proof.
  intros Hs Hrb Hts.
  assert (Hwf : ring_well_formed rb).
  { destruct Hs as (p & rb0 & v & _ & B2 & B3 & _).
    rewrite Hrb in B2. inversion B2. subst rb0. exact B3. }
  pose proof Hwf as ((cells & Hc & Hlen) & Hsz & Hh & Ht).
  pose proof (used_space_bounds rb Hwf) as Hu.
  rewrite grab_data_unfold_uninterrupted.
  rewrite (bind_deref _ _ _ _ _ Hrb). rewrite (bind_deref _ _ _ _ cells); [|exact Hc].
  cbv zeta. rewrite bind_modify.
  unfold ring_buffer_get_data. cbn [fst snd].
  rewrite (wrap32_small (rb_size rb - rb_head rb)) by lia.
  rewrite !MIN_min.
  set (n := Z.min (Z.min (rb_size rb - rb_head rb) (ring_buffer_used_space rb))
                  transfer_size).
  assert (Hn : n = Z.min (rb_size rb - rb_head rb) transfer_size) by lia.
  destruct (ring_take rb cells n Hwf Hc ltac:(lia) ltac:(lia) ltac:(lia))
    as (Hread & Hcont & Hwf' & Hused' & Htail' & Hsize').
  rewrite wrap32_small by lia.
  destruct (transfer_size - n =? 0) eqn:Ez.
  - apply Z.eqb_eq in Ez. replace n with transfer_size in * by lia.
    eexists. exists (ring_buffer_consume rb transfer_size).
    split; [unfold ret; rewrite Hread; reflexivity|].
    repeat (split; [first [reflexivity | assumption]|]). exact Hsize'.
  - apply Z.eqb_neq in Ez.
    replace (n =? 0) with false by (symmetry; apply Z.eqb_neq; lia).
    rewrite bind_ret.
    set (rb1 := ring_buffer_consume rb n) in *.
    set (w1 := upd_drv (set_rx_buffer (Some rb1)) w).
    assert (Hhead1 : rb_head rb1 = 0).
    { subst rb1. unfold ring_buffer_consume. simpl.
      rewrite wrap32_small by lia.
      replace (rb_head rb + n) with (rb_size rb) by lia.
      apply Z.mod_same. lia. }
    rewrite grab_data_unfold_uninterrupted.
    rewrite (bind_deref _ _ _ _ rb1); [|reflexivity].
    rewrite (bind_deref _ _ _ _ cells); [|exact Hc].
    cbv zeta. rewrite bind_modify.
    unfold ring_buffer_get_data. cbn [fst snd].
    rewrite Hsize', Hhead1, Z.sub_0_r, (wrap32_small (rb_size rb)) by lia.
    rewrite !MIN_min, Hused'.
    replace (Z.min (Z.min (rb_size rb) (ring_buffer_used_space rb - n))
                   (transfer_size - n))
      with (transfer_size - n) by lia.
    destruct (ring_take rb1 cells (transfer_size - n) Hwf' Hc
                ltac:(lia) ltac:(lia) ltac:(lia))
      as (Hread1 & Hcont1 & Hwf1 & Hused1 & Htail1 & Hsize1).
    rewrite Z.sub_diag. change (wrap32 0 =? 0) with true. cbv iota.
    eexists. exists (ring_buffer_consume rb1 (transfer_size - n)).
    split.
    { unfold ret. f_equal. rewrite <- app_assoc. f_equal.
      rewrite <- Hhead1 at 1. rewrite Hread, Hread1, Hcont.
      rewrite firstn_then_skipn. f_equal. lia. }
    split; [reflexivity|]. split; [reflexivity|]. split; [reflexivity|].
    split; [rewrite Hcont1, Hcont, skipn_skipn; f_equal; lia|].
    split; [exact Hwf1|].
    split; [lia|]. split; congruence.
Qed.

Lemma receive_buffered_available fuel :
  forall pass expected t err out evs w rb,
    rx_streaming w ->
    rx_buffer (drv w) = Some rb ->
    0 <= expected <= ring_buffer_used_space rb ->
    (Z.to_nat expected <= fuel)%nat ->
    exists w' rb',
      receive_buffered fuel uninterrupted pass expected t err out evs w
      = Ret (if expected =? 0 then err else last_receive_result (drv w),
             out ++ firstn (Z.to_nat expected) (ring_contents rb)) evs w' /\
      drv w' = set_rx_buffer (Some rb') (drv w) /\
      hw w' = hw w /\ trace w' = trace w /\
      ring_contents rb' = skipn (Z.to_nat expected) (ring_contents rb) /\
      ring_well_formed rb' /\
      ring_buffer_used_space rb' = ring_buffer_used_space rb - expected /\
      rb_tail rb' = rb_tail rb /\
      rb_size rb' = rb_size rb.
Proof.
  assert (Hnone : forall pass expected t err out evs w rb f,
            rx_streaming w -> rx_buffer (drv w) = Some rb -> expected = 0 ->
            exists w' rb',
              receive_buffered f uninterrupted pass expected t err out evs w
              = Ret (if expected =? 0 then err else last_receive_result (drv w),
                     out ++ firstn (Z.to_nat expected) (ring_contents rb)) evs w' /\
              drv w' = set_rx_buffer (Some rb') (drv w) /\
              hw w' = hw w /\ trace w' = trace w /\
              ring_contents rb' = skipn (Z.to_nat expected) (ring_contents rb) /\
              ring_well_formed rb' /\
              ring_buffer_used_space rb' = ring_buffer_used_space rb - expected /\
              rb_tail rb' = rb_tail rb /\
              rb_size rb' = rb_size rb).
  { intros pass expected t err out evs w rb f Hs Hrb ->.
    assert (Hwf : ring_well_formed rb).
    { destruct Hs as (p & rb0 & v & _ & B2 & B3 & _).
      rewrite Hrb in B2. inversion B2. subst rb0. exact B3. }
    exists w, rb. split.
    - destruct f; [rewrite receive_buffered_out_of_fuel
                     | rewrite receive_buffered_unfold];
        simpl; rewrite app_nil_r; reflexivity.
    - split.
      + rewrite (driver_eta (drv w)) at 1. unfold set_rx_buffer. rewrite Hrb.
        reflexivity.
      + repeat (split; [reflexivity|]). split; [exact Hwf|].
        split; [lia|]. split; reflexivity. }
  induction fuel as [|fuel IH];
    intros pass expected t err out evs w rb Hs Hrb He Hf.
  - apply Hnone; [exact Hs | exact Hrb | lia].
  - destruct (Z.eq_dec expected 0) as [Hz | Hz];
      [apply Hnone; [exact Hs | exact Hrb | exact Hz]|].
    rewrite receive_buffered_unfold_uninterrupted.
    replace (expected =? 0) with false by (symmetry; apply Z.eqb_neq; exact Hz).
    rewrite (bind_deref _ _ _ _ _ Hrb). cbv zeta.
    assert (Hwf : ring_well_formed rb).
    { destruct Hs as (p & rb0 & v & _ & B2 & B3 & _).
      rewrite Hrb in B2. inversion B2. subst rb0. exact B3. }
    pose proof Hwf as (_ & Hsz & _).
    pose proof (used_space_bounds rb Hwf) as Hu.
    assert (Hhalf : 1 <= rb_size rb / 2) by (apply Z.div_le_lower_bound; lia).
    rewrite !MIN_min.
    set (chunk := Z.min (rb_size rb / 2) expected) in *.
    assert (Hchunk : 0 < chunk <= expected) by lia.
    replace (ring_buffer_used_space rb <? chunk) with false
      by (symmetry; apply Z.ltb_ge; lia).
    rewrite bind_ret. cbn [OSStatus_eqb]. rewrite bind_read.
    destruct (grab_data_available (Z.to_nat chunk - 1 + length evs) pass 0%nat
                chunk out
                evs w rb Hs Hrb ltac:(lia))
      as (w1 & rb1 & Hg & Hd1 & Hh1 & Ht1 & Hc1 & Hwf1 & Hu1 & Htl1 & Hsz1).
    replace (S (S (Z.to_nat chunk - 1 + length evs)))
      with (S (Z.to_nat chunk + length evs)) in Hg by lia.
    rewrite (bind_Ret_eq
               (fun e v => grab_data (S (Z.to_nat chunk + length e))
                                     (uninterrupted pass) 0 chunk out e v)
               _ evs w _ _ _ Hg).
    rewrite wrap32_small by lia.
    assert (Hrb1 : rx_buffer (drv w1) = Some rb1) by (rewrite Hd1; reflexivity).
    assert (Hs1 : rx_streaming w1).
    { apply (rx_streaming_frame (upd_drv (set_rx_buffer (Some rb1)) w) w1).
      - rewrite Hd1. reflexivity.
      - rewrite Hd1. reflexivity.
      - exact Hh1.
      - apply (rx_streaming_consume w rb rb1 Hs Hrb Hwf1 Htl1 Hsz1). }
    destruct (IH (S pass) (expected - chunk) t (last_receive_result (drv w))
                (out ++ firstn (Z.to_nat chunk) (ring_contents rb)) evs w1 rb1
                Hs1 Hrb1 ltac:(lia) ltac:(lia))
      as (w' & rb' & Hr & Hd' & Hh' & Ht' & Hc' & Hwf' & Hu' & Htl' & Hsz').
    exists w', rb'. split.
    { rewrite Hr. f_equal. f_equal.
      - rewrite Hd1. simpl. destruct (expected - chunk =? 0); reflexivity.
      - rewrite <- app_assoc. f_equal. rewrite Hc1, firstn_then_skipn.
        f_equal. lia. }
    split; [rewrite Hd', Hd1; reflexivity|].
    split; [congruence|]. split; [congruence|].
    split; [rewrite Hc', Hc1, skipn_skipn; f_equal; lia|].
    split; [exact Hwf'|]. split; [lia|]. split; congruence.
Qed.

(** X16: a buffered receive call for bytes that are already in the ring
    buffer does not wait.  Whatever the timeout, zero included, it takes no
    event and makes no RTOS call; it returns the oldest bytes of the ring
    buffer and leaves the rest, and the length query goes down by the
    size of the call.  Its status is the last result recorded in the
    driver, which this path does not reset. *)
Theorem buffered_receive_of_available_data :
  forall data_in n t evs w rb,
    rx_streaming w ->
    rx_buffer (drv w) = Some rb ->
    data_in <> NULL ->
    0 < n <= ring_buffer_used_space rb ->
    exists w',
      platform_uart_receive_bytes uninterrupted driver_instance data_in n t
        evs w
      = Ret (last_receive_result (drv w),
             firstn (Z.to_nat n) (ring_contents rb)) evs w' /\
      trace w' = trace w /\
      hw w' = hw w /\
      bytes_ahead evs w' = skipn (Z.to_nat n) (ring_contents rb) ++ bytes_arriving evs /\
      platform_uart_get_length_in_buffer driver_instance evs w'
      = Ret (ring_buffer_used_space rb - n) evs w' /\
      rx_streaming w'.
Proof.
  intros data_in n t evs w rb Hs Hrb Hd Hn.
  destruct (receive_buffered_available (Z.to_nat n) 0%nat n t kNoErr [] evs w rb
              Hs Hrb ltac:(lia) ltac:(lia))
    as (w' & rb' & Hr & Hd' & Hh' & Ht' & Hc' & Hwf' & Hu' & Htl' & Hsz').
  assert (Hrb' : rx_buffer (drv w') = Some rb') by (rewrite Hd'; reflexivity).
  exists w'. split.
  { unfold platform_uart_receive_bytes.
    rewrite (valid_transmit_arguments data_in n Hd) by lia.
    rewrite bind_read, Hrb, Hr.
    replace (n =? 0) with false by (symmetry; apply Z.eqb_neq; lia).
    reflexivity. }
  split; [exact Ht'|]. split; [exact Hh'|].
  split; [unfold bytes_ahead; rewrite Hrb', Hc'; reflexivity|].
  split.
  { unfold platform_uart_get_length_in_buffer.
    rewrite (bind_deref _ _ _ _ _ Hrb'). unfold ret. rewrite Hu'. reflexivity. }
  apply (rx_streaming_frame (upd_drv (set_rx_buffer (Some rb')) w) w').
  - rewrite Hd'. reflexivity.
  - rewrite Hd'. reflexivity.
  - exact Hh'.
  - apply (rx_streaming_consume w rb rb' Hs Hrb Hwf' Htl' Hsz').
Qed.

Lemma buffered_receive_of_available_data_witness :
  exists w',
    platform_uart_receive_bytes uninterrupted driver_instance caller_buffer
      5 0 []
      (world_after six_bytes (board_buffered 8))
    = Ret (kNoErr, [Byte.x41; Byte.x42; Byte.x43; Byte.x44; Byte.x45]) [] w' /\
    platform_uart_get_length_in_buffer driver_instance [] w' = Ret 1 [] w'.
Proof.
  assert (Hs : rx_streaming (world_after six_bytes (board_buffered 8))).
  { refine (proj1 (env_run_collects six_bytes (board_buffered 8)
                     _ (empty_ring 8) board_buffered_streaming _ _ _)).
    - vm_compute. reflexivity.
    - vm_compute. discriminate.
    - vm_compute. reflexivity. }
  destruct (buffered_receive_of_available_data caller_buffer 5 0 []
              (world_after six_bytes (board_buffered 8))
              (mk_ring (Some [Byte.x41; Byte.x42; Byte.x43; Byte.x44; Byte.x45;
                              Byte.x46; Byte.x00; Byte.x00]) 8 0 6)
              Hs)
    as (w' & H & _ & _ & _ & Hlen & _).
  - vm_compute. reflexivity.
  - discriminate.
  - split; [lia | vm_compute; discriminate].
  - exists w'. split; [|exact Hlen].
    rewrite H. f_equal.
Defined.

(** ** The power-save bracket *)

Lemma no_powersave_added_refl w : no_powersave_added w w.
Proof. exists []. split; [symmetry; apply app_nil_r | reflexivity]. Qed.

Lemma no_powersave_added_same w w' :
  trace w' = trace w -> no_powersave_added w w'.
Proof.
  intro H. exists []. split; [rewrite H; symmetry; apply app_nil_r | reflexivity].
Qed.

Lemma no_powersave_added_trans w1 w2 w3 :
  no_powersave_added w1 w2 -> no_powersave_added w2 w3 ->
  no_powersave_added w1 w3.
Proof.
  intros (t1 & H1 & P1) (t2 & H2 & P2). exists (t1 ++ t2). split.
  - rewrite H2, H1. symmetry. apply app_assoc.
  - rewrite forallb_app, P1, P2. reflexivity.
Qed.

Lemma no_powersave_added_call c w w' :
  is_powersave c = false ->
  trace w' = trace w ++ [c] -> no_powersave_added w w'.
Proof.
  intros Hc H. exists [c]. split; [exact H|]. simpl. rewrite Hc. reflexivity.
Qed.

Lemma set_semaphore_no_powersave s w w' :
  mico_rtos_set_semaphore s w = Some w' -> no_powersave_added w w'.
Proof.
  intro H. apply (no_powersave_added_call (SetSemaphore s)); [reflexivity|].
  exact (set_semaphore_trace _ _ _ H).
Qed.

Ltac isr_no_powersave :=
  cbv zeta;
  repeat match goal with
         | |- context [if ?c then _ else _] => destruct c
         end;
  let H := fresh "H" in
  intro H;
  first [ apply set_semaphore_no_powersave in H;
          refine (no_powersave_added_trans _ _ _ _ H);
          apply no_powersave_added_same; reflexivity
        | inversion H; apply no_powersave_added_same; reflexivity ].

Lemma env_step_no_powersave e w w' :
  env_step e w = Some w' -> no_powersave_added w w'.
Proof.
  destruct e; simpl.
  - intro H. inversion H. apply no_powersave_added_refl.
  - destruct (_ && _); [|intro H; inversion H; apply no_powersave_added_refl].
    pose proof (dma_rx_store_trace b w) as Ht.
    set (w1 := dma_rx_store b w) in *. clearbody w1.
    assert (H1 : no_powersave_added w w1)
      by (apply no_powersave_added_same; exact Ht).
    assert (Hsame : Some w1 = Some w' -> no_powersave_added w w').
    { intro E. inversion E. subst. exact H1. }
    destruct (peripheral (drv w1)) as [p|]; [|exact Hsame].
    destruct (uart_irq_vectors _); [|exact Hsame].
    destruct (_ && _); [|exact Hsame].
    intro H. refine (no_powersave_added_trans _ _ _ H1 _).
    revert H. unfold platform_uart_irq.
    destruct (peripheral (drv w1)); [|discriminate].
    destruct (rx_buffer (drv w1)) as [rb|]; [|discriminate].
    cbv zeta.
    set (w2 := upd_drv _ w1).
    assert (H2 : no_powersave_added w1 w2)
      by (apply no_powersave_added_same; reflexivity).
    clearbody w2.
    destruct (_ && _).
    + destruct (mico_rtos_set_semaphore sem_rx_complete w2) as [w3|] eqn:E3;
        [|discriminate].
      apply set_semaphore_no_powersave in E3. cbn [option_map].
      assert (H3 : no_powersave_added w1 (upd_drv (set_rx_size 0) w3)).
      { refine (no_powersave_added_trans _ _ _ H2 _).
        refine (no_powersave_added_trans _ _ _ E3 _).
        apply no_powersave_added_same. reflexivity. }
      destruct (sem_wakeup _).
      * intro H. apply set_semaphore_no_powersave in H.
        exact (no_powersave_added_trans _ _ _ H3 H).
      * intro H. inversion H. subst. exact H3.
    + destruct (sem_wakeup _).
      * intro H. apply set_semaphore_no_powersave in H.
        exact (no_powersave_added_trans _ _ _ H2 H).
      * intro H. inversion H. subst. exact H2.
  - intro H. inversion H. apply no_powersave_added_same. reflexivity.
  - destruct (peripheral (drv w)) as [p|];
      [|intro H; inversion H; apply no_powersave_added_refl].
    destruct (_ && _);
      [|intro H; inversion H; apply no_powersave_added_same; reflexivity].
    unfold platform_uart_tx_dma_irq. simpl peripheral.
    destruct (peripheral (drv w)); [|discriminate].
    isr_no_powersave.
  - destruct (peripheral (drv w)) as [p|];
      [|intro H; inversion H; apply no_powersave_added_refl].
    destruct (_ && _);
      [|intro H; inversion H; apply no_powersave_added_same; reflexivity].
    unfold platform_uart_rx_dma_irq. simpl peripheral.
    destruct (peripheral (drv w)); [|discriminate].
    isr_no_powersave.
  - destruct (tx_mutex (drv w)); intro H; inversion H;
      apply no_powersave_added_same; reflexivity.
Qed.

Lemma init_pin_mapping_no_powersave p cfg af evs w :
  exists tr,
    init_pin_mapping p cfg af evs w
    = Ret tt evs (mk_world (drv w) (hw w) (trace w ++ tr)) /\
    forallb (fun c => negb (is_powersave c)) tr = true.
Proof.
  unfold init_pin_mapping.
  destruct (pin_cts p), (pin_rts p), (UART_WAKEUP_ENABLE cfg),
    (flow_control cfg);
    cbv [bind modify ret log]; simpl; rewrite <- ?app_assoc; simpl;
    eexists; split; reflexivity.
Qed.

Lemma bracket_closed w w0 w' :
  trace w0 = trace w ++ [PowersaveDisable] ->
  no_powersave_added w0 w' ->
  powersave_bracketed w (log PowersaveEnable w').
Proof.
  intros H0 (tr & Ht & Hp). exists tr. split; [|exact Hp].
  simpl. rewrite Ht, H0, <- !app_assoc. reflexivity.
Qed.

(** Every return of init is bracketed, and init takes no event. *)
Lemma init_bracketed driver per cfg ring evs w r evs' w' :
  platform_uart_init driver per cfg ring evs w = Ret r evs' w' ->
  evs' = evs /\ powersave_bracketed w w'.
Proof.
  unfold platform_uart_init. rewrite bind_modify.
  assert (Hexit : forall err W,
            no_powersave_added (log PowersaveDisable w) W ->
            init_exit err evs W = Ret r evs' w' ->
            evs' = evs /\ powersave_bracketed w w').
  { intros err W HW H. unfold init_exit in H. rewrite bind_modify in H.
    inversion H. subst. split; [reflexivity|].
    apply (bracket_closed w (log PowersaveDisable w)); [reflexivity | exact HW]. }
  destruct driver; [apply Hexit, no_powersave_added_refl|].
  destruct per as [p|]; [|apply Hexit, no_powersave_added_refl].
  destruct cfg as [c|]; [|apply Hexit, no_powersave_added_refl].
  destruct (ring_buffer_arg_ok ring) eqn:Hr;
    [|apply Hexit, no_powersave_added_refl].
  run_modify. cbv zeta. run_modify.
  assert (Hport : (exists v,
                     uart_irq_vectors (platform_uart_get_port_number (port p))
                     = Some v /\
                     uart_table_index (platform_uart_get_port_number (port p))
                     = Some (platform_uart_get_port_number (port p)))
                  \/ uart_table_index (platform_uart_get_port_number (port p))
                     = None).
  { destruct (port p); try (left; eexists; split; reflexivity).
    right. reflexivity. }
  destruct Hport as [(v & Hvec & Hidx) | Hidx].
  2:{ unfold bind at 1, deref. rewrite Hidx. discriminate. }
  rewrite (bind_deref _ _ _ _ _ Hidx).
  match goal with
  | |- context [bind (init_pin_mapping p c ?a) ?k ?e ?v] =>
      destruct (init_pin_mapping_no_powersave p c a e v) as (tr & Hq & Htr);
      rewrite (bind_Ret_eq _ k _ _ _ _ _ Hq)
  end.
  match goal with
  | |- _ _ ?V = _ -> _ => set (W := V)
  end.
  assert (HW : no_powersave_added (log PowersaveDisable w) W)
    by (exists tr; split; [reflexivity | exact Htr]).
  assert (Hhw : forall s,
            (init_hardware p c s ring ;; init_exit kNoErr) evs W = Ret r evs' w' ->
            evs' = evs /\ powersave_bracketed w w').
  { intros s H.
    assert (Hw1 : exists w1,
              init_hardware p c s ring evs W = Ret tt evs w1 /\
              trace w1
              = trace W ++ [DmaClockEnable (controller (tx_dma_config p))]).
    { destruct ring as [rb|].
      - unfold ring_buffer_arg_ok in Hr.
        destruct (rb_buffer rb) as [cells|] eqn:Hc; [|discriminate].
        destruct (init_hardware_buffered p c s rb cells v evs W Hvec eq_refl Hc)
          as (w1 & H1 & _ & _ & _ & _ & _ & Ht).
        exists w1. split; [exact H1 | exact Ht].
      - destruct (init_hardware_direct p c s v evs W Hvec)
          as (w1 & H1 & _ & _ & _ & _ & _ & Ht).
        exists w1. split; [exact H1 | exact Ht]. }
    destruct Hw1 as (w1 & H1 & Ht).
    rewrite (bind_Ret_eq _ _ _ _ _ _ _ H1) in H.
    apply (Hexit kNoErr w1); [|exact H].
    apply (no_powersave_added_trans _ _ _ HW).
    apply (no_powersave_added_call (DmaClockEnable (controller (tx_dma_config p))));
      [reflexivity | exact Ht]. }
  destruct (parity c), (flow_control c);
    first [apply Hhw | apply (Hexit kParamErr W HW)].
Qed.

(** Every return of deinit is bracketed, and deinit takes no event. *)
Lemma deinit_bracketed driver evs w r evs' w' :
  platform_uart_deinit driver evs w = Ret r evs' w' ->
  evs' = evs /\ powersave_bracketed w w'.
Proof.
  unfold platform_uart_deinit. rewrite bind_modify.
  assert (Hexit : forall err W,
            no_powersave_added (log PowersaveDisable w) W ->
            init_exit err evs W = Ret r evs' w' ->
            evs' = evs /\ powersave_bracketed w w').
  { intros err W HW H. unfold init_exit in H. rewrite bind_modify in H.
    inversion H. subst. split; [reflexivity|].
    apply (bracket_closed w (log PowersaveDisable w)); [reflexivity | exact HW]. }
  destruct driver; [apply Hexit, no_powersave_added_refl|].
  unfold the_peripheral.
  destruct (peripheral (drv w)) as [p|] eqn:Hp.
  2:{ unfold bind at 1, deref. simpl. rewrite Hp. discriminate. }
  rewrite (bind_deref _ _ _ _ p); [|exact Hp]. cbv zeta. run_modify.
  destruct (uart_table_index (platform_uart_get_port_number (port p)))
    as [idx|] eqn:Hidx.
  2:{ unfold bind at 1, deref. discriminate. }
  rewrite (bind_deref (fun _ => Some idx) _ _ _ idx eq_refl). run_modify.
  apply Hexit.
  apply (no_powersave_added_call (UartClockCmd idx false)); reflexivity.
Qed.

Lemma no_powersave_step w0 :
  forall e (evs : list event) v v',
    no_powersave_added w0 v -> env_step e v = Some v' ->
    no_powersave_added w0 v'.
Proof.
  intros e evs v v' HQ E.
  exact (no_powersave_added_trans _ _ _ HQ (env_step_no_powersave _ _ _ E)).
Qed.

Lemma sem_wait_no_powersave s t evs w r evs' w' :
  sem_wait s t evs w = Ret r evs' w' -> no_powersave_added w w'.
Proof.
  intro H.
  refine (sem_wait_preserves (fun _ v => no_powersave_added w v) s
            _ _ _ _ _ _ _ _ (no_powersave_added_refl w) H).
  - intros e es v v' HQ _ E. exact (no_powersave_step w e es v v' HQ E).
  - intros es v HQ. refine (no_powersave_added_trans _ _ _ HQ _).
    apply no_powersave_added_same. reflexivity.
Qed.

Lemma get_semaphore_no_powersave s t evs w r evs' w' :
  mico_rtos_get_semaphore s t evs w = Ret r evs' w' -> no_powersave_added w w'.
Proof.
  unfold mico_rtos_get_semaphore. intro H.
  apply sem_wait_no_powersave in H.
  refine (no_powersave_added_trans _ _ _ _ H).
  apply (no_powersave_added_call (GetSemaphore s t)); reflexivity.
Qed.

(** Every return of transmit is bracketed. *)
Lemma transmit_bracketed data_out size evs w r evs' w' :
  platform_uart_transmit_bytes driver_instance data_out size evs w
  = Ret r evs' w' ->
  powersave_bracketed w w'.
Proof.
  assert (Hlock : forall es v es' v',
            no_powersave_added (log PowersaveDisable w) v ->
            lock_wait es v = Ret tt es' v' ->
            no_powersave_added (log PowersaveDisable w) v').
  { intros es v es' v' HQ H.
    refine (lock_wait_preserves
              (fun _ x => no_powersave_added (log PowersaveDisable w) x)
              _ _ _ _ _ _ HQ H).
    - intros e es0 x x' HQ0 E. exact (no_powersave_step _ e es0 x x' HQ0 E).
    - intros es0 x HQ0. refine (no_powersave_added_trans _ _ _ HQ0 _).
      apply (no_powersave_added_call LockMutex); reflexivity. }
  destruct (is_NULL data_out || (size =? 0)) eqn:Hok.
  - unfold platform_uart_transmit_bytes.
    unfold bind at 1, modify at 1. unfold bind at 1, mico_rtos_lock_mutex.
    rewrite Hok.
    destruct (lock_wait evs (log PowersaveDisable w)) as [[] evs0 w0| |] eqn:EL;
      try discriminate.
    intro H. apply transmit_exit_Ret_inv in H as (_ & _ & _ & ->).
    apply (bracket_closed w (log PowersaveDisable w)); [reflexivity|].
    refine (no_powersave_added_trans _ _ _
              (Hlock _ _ _ _ (no_powersave_added_refl _) EL) _).
    apply (no_powersave_added_call UnlockMutex); reflexivity.
  - intro H.
    apply (transmit_stages _ _ _ _ _ _ _ Hok) in H
      as (evs0 & w0 & p & st & evs1 & w1 & w2 & EL & _ & ES & EW & _ & -> & _).
    pose proof (Hlock _ _ _ _ (no_powersave_added_refl _) EL) as Q0.
    assert (Qa : no_powersave_added (log PowersaveDisable w)
                   (log (GetSemaphore sem_tx_complete MICO_NEVER_TIMEOUT)
                        (transmit_armed p data_out size w0))).
    { refine (no_powersave_added_trans _ _ _ Q0 _).
      apply (no_powersave_added_call
               (GetSemaphore sem_tx_complete MICO_NEVER_TIMEOUT));
        [reflexivity|].
      unfold transmit_armed. reflexivity. }
    pose proof (no_powersave_added_trans _ _ _ Qa
                  (sem_wait_no_powersave _ _ _ _ _ _ _ ES)) as Q1.
    assert (Q2 : no_powersave_added (log PowersaveDisable w) w2).
    { refine (wait_transmission_complete_preserves
                (fun _ x => no_powersave_added (log PowersaveDisable w) x)
                _ _ _ _ _ Q1 EW).
      intros e es0 x x' HQ0 E. exact (no_powersave_step _ e es0 x x' HQ0 E). }
    unfold transmit_cleaned_up.
    apply (bracket_closed w (log PowersaveDisable w)); [reflexivity|].
    refine (no_powersave_added_trans _ _ _ Q2 _).
    apply (no_powersave_added_call UnlockMutex); reflexivity.
Qed.

Lemma interrupts_no_powersave k evs w evs' w' :
  interrupts k evs w = Ret tt evs' w' -> no_powersave_added w w'.
Proof.
  intro H.
  refine (interrupts_preserves (fun v => no_powersave_added w v) _
            _ _ _ _ _ (no_powersave_added_refl w) H).
  intros e v v' HQ E. exact (no_powersave_step w e [] v v' HQ E).
Qed.

Lemma grab_data_no_powersave fuel when k transfer_size out evs w out' evs' w' :
  grab_data fuel when k transfer_size out evs w = Ret out' evs' w' ->
  no_powersave_added w w'.
Proof.
  intro H.
  refine (grab_data_preserves (fun v => no_powersave_added w v) _ _
            _ _ _ _ _ _ _ _ _ _ (no_powersave_added_refl w) H).
  - intros e v v' HQ E. exact (no_powersave_step w e [] v v' HQ E).
  - intros v rb HQ. refine (no_powersave_added_trans _ _ _ HQ _).
    apply no_powersave_added_same. reflexivity.
Qed.

Lemma receive_buffered_no_powersave fuel :
  forall when pass expected t err out evs w r evs' w',
    receive_buffered fuel when pass expected t err out evs w = Ret r evs' w' ->
    no_powersave_added w w'.
Proof.
  induction fuel as [|fuel IH];
    intros when pass expected t err out evs w r evs' w'.
  - rewrite receive_buffered_out_of_fuel.
    destruct (expected =? 0); [|discriminate].
    intro H. inversion H. apply no_powersave_added_refl.
  - rewrite receive_buffered_unfold.
    destruct (expected =? 0).
    { intro H. inversion H. apply no_powersave_added_refl. }
    intro H.
    apply bind_Ret_inv in H as ([] & e1 & w1 & H1 & H).
    apply interrupts_no_powersave in H1.
    apply bind_Ret_inv in H as (rb & ? & ? & D & H).
    apply deref_inv in D as (_ & -> & ->). cbv zeta in H.
    apply bind_Ret_inv in H as ([] & e2 & w2 & H2 & H).
    apply interrupts_no_powersave in H2.
    apply bind_Ret_inv in H as (rb0 & ? & ? & D & H).
    apply deref_inv in D as (_ & -> & ->).
    apply bind_Ret_inv in H as (waited & e3 & w3 & H3 & H).
    assert (Hw3 : no_powersave_added w2 w3).
    { destruct (ring_buffer_used_space rb0 <? _).
      - apply bind_Ret_inv in H3 as ([] & a1 & v1 & I1 & H3).
        apply interrupts_no_powersave in I1.
        rewrite bind_modify in H3.
        apply bind_Ret_inv in H3 as ([] & a2 & v2 & I2 & H3).
        apply interrupts_no_powersave in I2.
        rewrite bind_modify in H3.
        apply bind_Ret_inv in H3 as ([] & a3 & v3 & I3 & H3).
        apply interrupts_no_powersave in I3.
        apply bind_Ret_inv in H3 as (e & a4 & v4 & I4 & H3).
        apply get_semaphore_no_powersave in I4.
        apply bind_Ret_inv in H3 as ([] & a5 & v5 & I5 & H3).
        apply interrupts_no_powersave in I5.
        rewrite bind_modify in H3. inversion H3. subst.
        refine (no_powersave_added_trans _ _ _ I1 _).
        refine (no_powersave_added_trans _ _ _ _
                  (no_powersave_added_trans _ _ _ I2 _));
          [apply no_powersave_added_same; reflexivity|].
        refine (no_powersave_added_trans _ _ _ _
                  (no_powersave_added_trans _ _ _ I3 _));
          [apply no_powersave_added_same; reflexivity|].
        refine (no_powersave_added_trans _ _ _ I4
                  (no_powersave_added_trans _ _ _ I5 _)).
        apply no_powersave_added_same. reflexivity.
      - inversion H3. apply no_powersave_added_refl. }
    pose proof (no_powersave_added_trans _ _ _ H1
                  (no_powersave_added_trans _ _ _ H2 Hw3)) as Q3.
    destruct (OSStatus_eqb waited kNoErr).
    + apply bind_Ret_inv in H as ([] & e4 & w4 & H4 & H).
      apply interrupts_no_powersave in H4.
      rewrite bind_read in H.
      apply bind_Ret_inv in H as (o & e5 & w5 & H5 & H).
      apply grab_data_no_powersave in H5.
      apply IH in H.
      exact (no_powersave_added_trans _ _ _ Q3
               (no_powersave_added_trans _ _ _ H4
                  (no_powersave_added_trans _ _ _ H5 H))).
    + inversion H. subst. exact Q3.
Qed.

(** No return of receive has made a power-save call. *)
Lemma receive_no_powersave when driver data_in n t evs w r evs' w' :
  platform_uart_receive_bytes when driver data_in n t evs w = Ret r evs' w' ->
  no_powersave_added w w'.
Proof.
  unfold platform_uart_receive_bytes.
  destruct driver; [intro H; inversion H; apply no_powersave_added_refl|].
  destruct (is_NULL data_in || (n =? 0));
    [intro H; inversion H; apply no_powersave_added_refl|].
  rewrite bind_read.
  destruct (rx_buffer (drv w)) as [rb|] eqn:Hb.
  - apply receive_buffered_no_powersave.
  - intro H. apply bind_Ret_inv in H as (err & e1 & w1 & H1 & H).
    inversion H. subst. clear H.
    revert H1. unfold receive_bytes, the_peripheral.
    destruct (peripheral (drv w)) as [p|] eqn:Hp.
    2:{ unfold bind, deref. rewrite Hp. discriminate. }
    rewrite (bind_deref _ _ _ _ _ Hp), bind_read, Hb. cbv beta iota.
    rewrite bind_assoc. run_modify.
    destruct (0 <? t).
    + intro H. apply get_semaphore_no_powersave in H.
      refine (no_powersave_added_trans _ _ _ _ H).
      apply no_powersave_added_same. through_clear. reflexivity.
    + intro H. inversion H. apply no_powersave_added_same.
      through_clear. reflexivity.
Qed.

(** X17: the power-save bracket.  Every return of init, of deinit and of
    transmit, error returns included, has made exactly one power-save
    disable call, first, and exactly one power-save enable call, last;
    init and deinit take no event.  receive and the length query make no
    power-save call at all. *)
Theorem powersave_calls_are_bracketed :
  (forall driver per cfg ring evs w r evs' w',
     platform_uart_init driver per cfg ring evs w = Ret r evs' w' ->
     evs' = evs /\ powersave_bracketed w w') /\
  (forall driver evs w r evs' w',
     platform_uart_deinit driver evs w = Ret r evs' w' ->
     evs' = evs /\ powersave_bracketed w w') /\
  (forall data_out size evs w r evs' w',
     platform_uart_transmit_bytes driver_instance data_out size evs w
     = Ret r evs' w' ->
     powersave_bracketed w w') /\
  (forall when driver data_in n t evs w r evs' w',
     platform_uart_receive_bytes when driver data_in n t evs w
     = Ret r evs' w' ->
     no_powersave_added w w') /\
  (forall driver evs w r evs' w',
     platform_uart_get_length_in_buffer driver evs w = Ret r evs' w' ->
     w' = w).
Proof.
  split; [exact init_bracketed|].
  split; [exact deinit_bracketed|].
  split; [exact transmit_bracketed|].
  split; [exact receive_no_powersave|].
  intros driver evs w r evs' w'. unfold platform_uart_get_length_in_buffer.
  destruct driver; [discriminate|].
  unfold bind, deref, ret. destruct (rx_buffer (drv w)); [|discriminate].
  intro H. inversion H. reflexivity.
Qed.

Lemma powersave_calls_are_bracketed_witness :
  powersave_bracketed board_direct
    (final_world
       (platform_uart_transmit_bytes driver_instance caller_buffer 3
          [DmaTxStatus 134217728; UartTxDone] board_direct)).
Proof.
  refine (proj1 (proj2 (proj2 powersave_calls_are_bracketed))
            caller_buffer 3 [DmaTxStatus 134217728; UartTxDone] board_direct
            kNoErr [] _ _).
  vm_compute. reflexivity.
Defined.

(** ** Receive through the ring buffer: delivery *)

Lemma platform_uart_irq_defined w :
  peripheral (drv w) <> None ->
  rx_buffer (drv w) <> None ->
  rx_complete (drv w) <> None ->
  exists w', platform_uart_irq w = Some w'.
Proof.
  intros Hp Hb Hc. unfold platform_uart_irq.
  destruct (peripheral (drv w)); [|contradiction].
  destruct (rx_buffer (drv w)) as [rb|]; [|contradiction].
  cbv zeta. unfold mico_rtos_set_semaphore. simpl.
  destruct (rx_complete (drv w)); [|contradiction].
  destruct (_ && _); simpl; destruct (sem_wakeup (drv w));
    eexists; reflexivity.
Qed.

Lemma uart_rx_defined b w :
  rx_streaming w ->
  rx_complete (drv w) <> None ->
  exists w', env_step (UartRx b) w = Some w'.
Proof.
  intros (p & rb & v & B1 & B2 & B3 & _) Hc. simpl.
  destruct (_ && _); [|eexists; reflexivity].
  destruct (dma_rx_store_driver b w) as [r Hr].
  assert (Hbuf : rx_buffer (drv (dma_rx_store b w)) <> None).
  { unfold dma_rx_store. rewrite B2.
    destruct (_ && _); [|rewrite B2; discriminate].
    destruct (M0AR _); try destruct (rb_buffer rb);
      destruct (_ =? 0); try destruct (CR_CIRC _); simpl;
      rewrite ?B2; discriminate. }
  set (w1 := dma_rx_store b w) in *. clearbody w1.
  destruct (peripheral (drv w1)) eqn:Hp1; [|eexists; reflexivity].
  destruct (uart_irq_vectors _); [|eexists; reflexivity].
  destruct (_ && _); [|eexists; reflexivity].
  apply platform_uart_irq_defined.
  - rewrite Hp1. discriminate.
  - exact Hbuf.
  - rewrite Hr. exact Hc.
Qed.

(** Bytes and time change neither recorded result. *)
Lemma line_event_keeps_result e w w' :
  is_UartRx e || is_Tick e = true ->
  env_step e w = Some w' ->
  last_receive_result (drv w') = last_receive_result (drv w).
Proof.
  destruct e; simpl; intros He H; try discriminate.
  - inversion H. reflexivity.
  - destruct (_ && _); [|inversion H; reflexivity].
    destruct (dma_rx_store_driver b w) as [r Hr].
    set (w1 := dma_rx_store b w) in *. clearbody w1.
    assert (A : last_receive_result (drv w1) = last_receive_result (drv w))
      by (rewrite Hr; reflexivity).
    assert (Hsame : Some w1 = Some w' ->
                    last_receive_result (drv w') = last_receive_result (drv w)).
    { intro E. inversion E. subst. exact A. }
    destruct (peripheral (drv w1)) as [p|]; [|exact (Hsame H)].
    destruct (uart_irq_vectors _); [|exact (Hsame H)].
    destruct (_ && _); [|exact (Hsame H)].
    apply platform_uart_irq_effect in H as (rb & _ & _ & Hd).
    rewrite Hd. simpl. exact A.
Qed.

Lemma sem_wait_token s t evs w :
  get_sem s (drv w) = Some true ->
  sem_wait s t evs w = Ret kNoErr evs (upd_drv (put_sem s (Some false)) w).
Proof. intro H. destruct evs; simpl; rewrite H; reflexivity. Qed.

Lemma length_bytes_ahead evs w rb :
  rx_buffer (drv w) = Some rb ->
  ring_well_formed rb ->
  Z.of_nat (length (bytes_ahead evs w))
  = ring_buffer_used_space rb + Z.of_nat (length (bytes_arriving evs)).
Proof.
  intros Hrb Hwf. unfold bytes_ahead. rewrite Hrb, length_app.
  rewrite (length_ring_contents rb Hwf).
  pose proof (used_space_bounds rb Hwf). lia.
Qed.

Lemma streaming_ring w rb :
  rx_streaming w -> rx_buffer (drv w) = Some rb -> ring_well_formed rb.
Proof.
  intros (p & rb0 & v & _ & B2 & B3 & _) Hrb.
  rewrite Hrb in B2. inversion B2. subst rb0. exact B3.
Qed.

Lemma firstn_within {A} (n : nat) (l1 l2 : list A) :
  (n <= length l1)%nat -> firstn n (l1 ++ l2) = firstn n l1.
Proof.
  intro H. rewrite firstn_app.
  replace (n - length l1)%nat with O by lia. simpl. apply app_nil_r.
Qed.

Lemma skipn_within {A} (n : nat) (l1 l2 : list A) :
  (n <= length l1)%nat -> skipn n (l1 ++ l2) = skipn n l1 ++ l2.
Proof.
  intro H. rewrite skipn_app.
  replace (n - length l1)%nat with O by lia. reflexivity.
Qed.

(** ** Transmit: delivery *)

Lemma status_after_raise s f h :
  get_dma_irq_status s (raise_dma_status s f h)
  = Z.lor (get_dma_irq_status s h) f.
Proof.
  unfold get_dma_irq_status, raise_dma_status.
  destruct (s <=? DMA1_Stream3); [reflexivity|].
  destruct (s <=? DMA1_Stream7); [reflexivity|].
  destruct (s <=? DMA2_Stream3); reflexivity.
Qed.

(** The flags of a stream that the controller raises after the driver has
    cleared them: the test of the transfer-complete mask sees the raised
    flags only, and so does the test of the error mask, which runs on
    what the clear of the transfer-complete flags has left. *)
Lemma flags_raised_after_clear old c e f :
  Z.land (Z.lor (Z.ldiff old (Z.lor c e)) f) c = Z.land f c /\
  Z.land
    (if negb (Z.land f c =? 0)
     then Z.ldiff (Z.lor (Z.ldiff old (Z.lor c e)) f) c
     else Z.lor (Z.ldiff old (Z.lor c e)) f) e
  = Z.land (Z.ldiff f c) e.
Proof.
  split.
  - apply Z.bits_inj'; intros n Hn.
    rewrite !Z.land_spec, Z.lor_spec, Z.ldiff_spec, Z.lor_spec.
    destruct (Z.testbit old n), (Z.testbit c n), (Z.testbit e n),
      (Z.testbit f n); reflexivity.
  - destruct (Z.land f c =? 0) eqn:E; cbn [negb].
    + apply Z.eqb_eq in E. apply Z.bits_inj'; intros n Hn.
      assert (Hb : Z.testbit (Z.land f c) n = false)
        by (rewrite E; apply Z.bits_0).
      rewrite Z.land_spec in Hb.
      rewrite !Z.land_spec, Z.lor_spec, !Z.ldiff_spec, Z.lor_spec.
      destruct (Z.testbit old n), (Z.testbit c n), (Z.testbit e n),
        (Z.testbit f n); simpl in *; congruence.
    + apply Z.bits_inj'; intros n Hn.
      rewrite !Z.land_spec, !Z.ldiff_spec, Z.lor_spec, Z.ldiff_spec, Z.lor_spec.
      destruct (Z.testbit old n), (Z.testbit c n), (Z.testbit e n),
        (Z.testbit f n); reflexivity.
Qed.

(** One run of platform_uart_tx_dma_irq, test by test. *)
Lemma tx_dma_irq_run w p :
  peripheral (drv w) = Some p ->
  tx_complete (drv w) <> None ->
  let c := tx_dma_config p in
  let status := get_dma_irq_status (stream c) (hw w) in
  let complete := negb (Z.land status (complete_flags c) =? 0) in
  let status1 := if complete then Z.ldiff status (complete_flags c) else status in
  let failed := negb (Z.land status1 (error_flags c) =? 0) in
  exists w',
    platform_uart_tx_dma_irq w = Some w' /\
    drv w'
    = set_tx_complete
        (if 0 <? tx_size (drv w) then Some true else tx_complete (drv w))
        (set_last_transmit_result
           (if failed then kGeneralErr
            else if complete then kNoErr
            else last_transmit_result (drv w)) (drv w)) /\
    same_devices (hw w) (hw w') /\
    trace w'
    = trace w ++ (if 0 <? tx_size (drv w)
                  then [SetSemaphore sem_tx_complete] else []).
Proof.
  intros Hp Hsem c status complete status1 failed.
  unfold platform_uart_tx_dma_irq. rewrite Hp. cbv zeta.
  fold c. fold status. fold complete.
  set (w1 := if complete then _ else w).
  assert (Hs1 : get_dma_irq_status (stream c) (hw w1) = status1).
  { subst w1 status1. destruct complete; [|reflexivity].
    simpl. apply status_after_clear. }
  rewrite Hs1. fold failed.
  set (w2 := if failed then _ else w1).
  assert (Hd : drv w2
               = set_last_transmit_result
                   (if failed then kGeneralErr
                    else if complete then kNoErr
                    else last_transmit_result (drv w)) (drv w)).
  { subst w2 w1. destruct failed, complete; simpl;
      try reflexivity; destruct (drv w); reflexivity. }
  assert (Hh : same_devices (hw w) (hw w2)).
  { subst w2 w1. destruct failed, complete; simpl.
    - eapply same_devices_trans; apply same_devices_clear.
    - apply same_devices_clear.
    - apply same_devices_clear.
    - apply same_devices_refl. }
  assert (Htr : trace w2 = trace w).
  { subst w2 w1. destruct failed, complete; reflexivity. }
  rewrite Hd. cbn [tx_size set_last_transmit_result].
  destruct (0 <? tx_size (drv w)) eqn:Epos.
  - unfold mico_rtos_set_semaphore. rewrite Hd.
    cbn [get_sem tx_complete set_last_transmit_result].
    destruct (tx_complete (drv w)) as [tok|]; [|contradiction].
    eexists. split; [reflexivity|].
    cbn [drv hw trace log upd_drv put_sem]. rewrite Hd, Htr.
    split; [reflexivity|]. split; [exact Hh | reflexivity].
  - exists w2. rewrite Hd, Htr, app_nil_r.
    split; [reflexivity|]. split; [|split; [exact Hh | reflexivity]].
    destruct (drv w). reflexivity.
Qed.

Lemma sem_wait_step s t e evs w w' :
  get_sem s (drv w) = Some false ->
  (t =? 0) = false ->
  env_step e w = Some w' ->
  sem_wait s t (e :: evs) w = sem_wait s (tick_down e t) evs w'.
Proof. intros Hs Ht E. cbn [sem_wait]. rewrite Hs, Ht, E. reflexivity. Qed.

(** The TX DMA interrupt delivered to a transmit call that waits on its
    armed transfer. *)
Lemma armed_tx_interrupt w0 p data_out size f :
  peripheral (drv w0) = Some p ->
  tx_complete (drv w0) = Some false ->
  nvic (hw w0) (irq_vector (tx_dma_config p)) = true ->
  CR_IE (tx_stream (hw w0)) = true ->
  0 < size ->
  exists wi,
    env_step (DmaTxStatus f)
      (log (GetSemaphore sem_tx_complete MICO_NEVER_TIMEOUT)
           (transmit_armed p data_out size w0))
    = Some wi /\
    drv wi
    = set_tx_complete (Some true)
        (set_last_transmit_result (transmit_result_of (tx_dma_config p) f)
           (set_tx_size size (drv w0))) /\
    usart (hw wi) = set_SR_TC false (set_CR3_DMAT true (usart (hw w0))).
Proof.
  intros Hp Hc Hn Hie Hsize.
  set (c := tx_dma_config p) in *.
  set (wa := log (GetSemaphore sem_tx_complete MICO_NEVER_TIMEOUT)
               (transmit_armed p data_out size w0)).
  assert (Hpa : peripheral (drv wa) = Some p) by exact Hp.
  assert (Hda : drv wa
                = set_tx_size size
                    (set_last_transmit_result kGeneralErr (drv w0)))
    by reflexivity.
  assert (Hua : usart (hw wa)
                = set_SR_TC false (set_CR3_DMAT true (usart (hw w0)))).
  { subst wa. unfold transmit_armed. through_clear. reflexivity. }
  assert (Hna : nvic (hw wa) (irq_vector c) = true).
  { subst wa. unfold transmit_armed. through_clear. exact Hn. }
  assert (Hia : CR_IE (tx_stream (hw wa)) = true).
  { subst wa. unfold transmit_armed. through_clear. exact Hie. }
  assert (Hsa : exists old,
            get_dma_irq_status (stream c) (hw wa)
            = Z.ldiff old (Z.lor (complete_flags c) (error_flags c))).
  { exists (get_dma_irq_status (stream c) (hw w0)).
    subst wa. unfold transmit_armed.
    rewrite <- status_after_clear.
    rewrite !dma_status_register_get. reflexivity. }
  destruct Hsa as [old Hsa].
  clearbody wa.
  cbn [env_step]. rewrite Hpa. fold c.
  set (wr := upd_hw (raise_dma_status (stream c) f) wa).
  pose proof (same_devices_raise (stream c) f (hw wa)) as (R1 & R2 & R3 & R4).
  assert (Hnr : nvic (hw wr) (irq_vector c) = true)
    by (subst wr; simpl; rewrite R4; exact Hna).
  assert (Hir : CR_IE (tx_stream (hw wr)) = true)
    by (subst wr; simpl; rewrite R2; exact Hia).
  rewrite Hnr, Hir. cbn [andb].
  assert (Hpr : peripheral (drv wr) = Some p) by exact Hpa.
  assert (Hcr : tx_complete (drv wr) <> None).
  { subst wr. simpl. rewrite Hda. simpl. rewrite Hc. discriminate. }
  destruct (tx_dma_irq_run wr p Hpr Hcr) as (wi & Hi & Hdi & Hhi & _).
  exists wi. split; [exact Hi|].
  assert (Hstat : get_dma_irq_status (stream c) (hw wr)
                  = Z.lor (Z.ldiff old (Z.lor (complete_flags c) (error_flags c))) f).
  { subst wr. simpl. rewrite status_after_raise, Hsa. reflexivity. }
  fold c in Hdi. rewrite Hstat in Hdi.
  destruct (flags_raised_after_clear old (complete_flags c) (error_flags c) f)
    as [Fc Fe].
  rewrite Fc in Hdi. rewrite Fe in Hdi.
  split.
  - rewrite Hdi. subst wr. cbn [drv upd_hw]. rewrite Hda.
    cbn [tx_size set_tx_size set_last_transmit_result last_transmit_result].
    replace (0 <? size) with true by (symmetry; apply Z.ltb_lt; exact Hsize).
    unfold transmit_result_of. fold c.
    destruct (negb (Z.land (Z.ldiff f (complete_flags c)) (error_flags c) =? 0)),
      (negb (Z.land f (complete_flags c) =? 0)); reflexivity.
  - destruct Hhi as (U & _). rewrite U. subst wr. simpl. rewrite R1. exact Hua.
Qed.

(** A transmit call on a schedule that starts with the TX DMA interrupt
    and the end of transmission, stage by stage. *)
Lemma transmit_run data_out size f evs w p :
  peripheral (drv w) = Some p ->
  tx_mutex (drv w) = Some false ->
  tx_complete (drv w) = Some false ->
  nvic (hw w) (irq_vector (tx_dma_config p)) = true ->
  CR_IE (tx_stream (hw w)) = true ->
  data_out <> NULL -> 0 < size ->
  exists wi,
    drv wi
    = set_tx_complete (Some true)
        (set_last_transmit_result (transmit_result_of (tx_dma_config p) f)
           (set_tx_size size
              (set_tx_mutex (Some true) (drv w)))) /\
    usart (hw wi) = set_SR_TC false (set_CR3_DMAT true (usart (hw w))) /\
    platform_uart_transmit_bytes driver_instance data_out size
      (DmaTxStatus f :: UartTxDone :: evs) w
    = Ret (transmit_result_of (tx_dma_config p) f) evs
        (transmit_cleaned_up
           (upd_usart (set_SR_TC true)
              (upd_drv (put_sem sem_tx_complete (Some false)) wi))).
Proof.
  intros Hp Hm Hc Hn Hie Hd Hsize.
  set (w0 := log LockMutex
               (upd_drv (set_tx_mutex (Some true)) (log PowersaveDisable w))).
  assert (EL : lock_wait (DmaTxStatus f :: UartTxDone :: evs)
                 (log PowersaveDisable w)
               = Ret tt (DmaTxStatus f :: UartTxDone :: evs) w0).
  { cbn [lock_wait]. cbn [tx_mutex drv log]. rewrite Hm. reflexivity. }
  destruct (armed_tx_interrupt w0 p data_out size f Hp Hc Hn Hie Hsize)
    as (wi & Hi & Hdi & Hui).
  set (w1 := upd_drv (put_sem sem_tx_complete (Some false)) wi).
  assert (ES : sem_wait sem_tx_complete MICO_NEVER_TIMEOUT
                 (DmaTxStatus f :: UartTxDone :: evs)
                 (log (GetSemaphore sem_tx_complete MICO_NEVER_TIMEOUT)
                      (transmit_armed p data_out size w0))
               = Ret kNoErr (UartTxDone :: evs) w1).
  { rewrite (sem_wait_step _ _ _ _ _ wi); [|exact Hc | reflexivity | exact Hi].
    apply sem_wait_token. rewrite Hdi. reflexivity. }
  set (w2 := upd_usart (set_SR_TC true) w1).
  assert (EW : wait_transmission_complete (UartTxDone :: evs) w1
               = Ret tt evs w2).
  { cbn [wait_transmission_complete].
    replace (SR_TC (usart (hw w1))) with false
      by (subst w1; simpl; rewrite Hui; reflexivity).
    cbn [env_step]. destruct evs; reflexivity. }
  exists wi. split; [exact Hdi|]. split; [exact Hui|].
  replace (transmit_result_of (tx_dma_config p) f)
    with (last_transmit_result (drv w2))
    by (subst w2 w1; cbn [drv hw upd_usart upd_hw upd_drv put_sem];
        rewrite Hdi; reflexivity).
  assert (Hn0 : size <> 0) by lia.
  apply (transmit_stages _ _ _ _ _ _ _ (valid_transmit_arguments _ _ Hd Hn0)).
  exists (DmaTxStatus f :: UartTxDone :: evs), w0, p, kNoErr,
    (UartTxDone :: evs), w1, w2.
  split; [exact EL|]. split; [exact Hp|]. split; [exact ES|].
  split; [exact EW|].
  split; [exists true; subst w2 w1; simpl; rewrite Hdi; reflexivity|].
  split; reflexivity.
Qed.

(** X19: a transmit call delivers.  With the driver initialised, the
    mutex free and no stale completion token, when the TX DMA interrupt is
    requested and then the UART reports the end of transmission, the call
    returns right after these two events.  Its result follows the flags
    the interrupt found, whatever the two masks of the stream are: the
    handler clears the transfer-complete flags before it tests the error
    flags, so the result is a general error when an error flag outside
    the transfer-complete mask is among them, success when none is and a
    transfer-complete flag is, and the general error stored at arming
    when neither is.  On return tx_size is zero, the mutex is free, the
    token has been taken and the DMA request of the UART is off. *)
Theorem transmit_completes_on_dma_interrupt :
  forall data_out size f evs w p,
    peripheral (drv w) = Some p ->
    tx_mutex (drv w) = Some false ->
    tx_complete (drv w) = Some false ->
    nvic (hw w) (irq_vector (tx_dma_config p)) = true ->
    CR_IE (tx_stream (hw w)) = true ->
    data_out <> NULL -> 0 < size ->
    exists w',
      platform_uart_transmit_bytes driver_instance data_out size
        (DmaTxStatus f :: UartTxDone :: evs) w
      = Ret (transmit_result_of (tx_dma_config p) f) evs w' /\
      tx_size (drv w') = 0 /\
      tx_mutex (drv w') = Some false /\
      tx_complete (drv w') = Some false /\
      CR3_DMAT (usart (hw w')) = false /\
      SR_TC (usart (hw w')) = true.
Proof.
  intros data_out size f evs w p Hp Hm Hc Hn Hie Hd Hsize.
  destruct (transmit_run data_out size f evs w p Hp Hm Hc Hn Hie Hd Hsize)
    as (wi & Hdi & Hui & Hrun).
  eexists. split; [exact Hrun|].
  unfold transmit_cleaned_up.
  cbn [drv hw usart log upd_usart upd_hw upd_drv put_sem set_usart].
  rewrite Hdi, Hui. repeat split; reflexivity.
Qed.

Lemma transmit_completes_on_dma_interrupt_witness :
  exists w',
    platform_uart_transmit_bytes driver_instance caller_buffer 3
      [DmaTxStatus 134217728; UartTxDone; Tick] board_direct
    = Ret kNoErr [Tick] w'.
Proof.
  destruct (transmit_completes_on_dma_interrupt caller_buffer 3 134217728
              [Tick] board_direct board_uart)
    as (w' & H & _).
  - vm_compute. reflexivity.
  - vm_compute. reflexivity.
  - vm_compute. reflexivity.
  - vm_compute. reflexivity.
  - vm_compute. reflexivity.
  - discriminate.
  - lia.
  - exists w'. exact H.
Defined.

(** ** Receive without a ring buffer: delivery *)

(** X20: a receive call without a ring buffer completes on the RX DMA
    interrupt.  The call arms a one-shot transfer of [n] bytes into the
    caller's buffer and waits; when the interrupt is requested it returns
    success, whatever flags the interrupt found and whatever the two
    masks of the stream are.  The flags only reach last_receive_result:
    the handler clears the transfer-complete flags before it tests the
    error flags, so last_receive_result reads a general error when an
    error flag outside the transfer-complete mask was among them, success
    when none was and a transfer-complete flag was, and is left alone
    otherwise, while the call itself has returned success. *)
Theorem direct_receive_completes_on_dma_interrupt :
  forall when data_in n t f evs w p,
    peripheral (drv w) = Some p ->
    rx_buffer (drv w) = None ->
    rx_complete (drv w) = Some false ->
    nvic (hw w) (irq_vector (rx_dma_config p)) = true ->
    CR_IE (rx_stream (hw w)) = true ->
    data_in <> NULL -> 0 < n -> 0 < t ->
    exists w',
      platform_uart_receive_bytes when driver_instance data_in n t
        (DmaRxStatus f :: evs) w
      = Ret (kNoErr, []) evs w' /\
      last_receive_result (drv w')
      = (if negb (Z.land (Z.ldiff f (complete_flags (rx_dma_config p)))
                         (error_flags (rx_dma_config p)) =? 0)
         then kGeneralErr
         else if negb (Z.land f (complete_flags (rx_dma_config p)) =? 0)
              then kNoErr
              else last_receive_result (drv w)) /\
      rx_stream (hw w')
      = set_CR_EN true
          (set_M0AR data_in
             (set_NDTR n (set_CR_CIRC false (rx_stream (hw w))))) /\
      CR3_DMAR (usart (hw w')) = true /\
      rx_complete (drv w') = Some false /\
      rx_size (drv w') = n.
Proof.
  intros when data_in n t f evs w p Hp Hb Hc Hn Hie Hd Hsize Ht.
  set (c := rx_dma_config p) in *.
  set (wa := log (GetSemaphore sem_rx_complete t) (receive_armed p data_in n w)).
  assert (Hpa : peripheral (drv wa) = Some p).
  { subst wa. unfold receive_armed. rewrite Hb. exact Hp. }
  assert (Hda : drv wa = set_rx_size n (drv w)).
  { subst wa. unfold receive_armed. rewrite Hb. reflexivity. }
  assert (Hra : rx_stream (hw wa)
                = set_CR_EN true
                    (set_M0AR data_in
                       (set_NDTR n (set_CR_CIRC false (rx_stream (hw w)))))).
  { subst wa. unfold receive_armed. rewrite Hb. through_clear. reflexivity. }
  assert (Hua : CR3_DMAR (usart (hw wa)) = true).
  { subst wa. unfold receive_armed. rewrite Hb. through_clear. reflexivity. }
  assert (Hna : nvic (hw wa) (irq_vector c) = true).
  { subst wa. unfold receive_armed. rewrite Hb. through_clear. exact Hn. }
  assert (Hsa : exists old,
            get_dma_irq_status (stream c) (hw wa)
            = Z.ldiff old (Z.lor (complete_flags c) (error_flags c))).
  { exists (dma_status (hw w) (dma_status_register (stream c))).
    subst wa. unfold receive_armed. rewrite Hb.
    rewrite dma_status_register_get. simpl.
    rewrite dma_status_register_clear. unfold c.
    destruct (dma_status_register (stream (rx_dma_config p))); reflexivity. }
  destruct Hsa as [old Hsa].
  assert (Hrun : platform_uart_receive_bytes when driver_instance data_in n t
                   (DmaRxStatus f :: evs) w
                 = (e <- (fun es v => sem_wait sem_rx_complete t es v) ;;
                    ret (e, [])) (DmaRxStatus f :: evs) wa).
  { unfold platform_uart_receive_bytes.
    assert (Hn0 : n <> 0) by lia.
    rewrite (valid_transmit_arguments _ _ Hd Hn0).
    rewrite bind_read, Hb.
    unfold receive_bytes, the_peripheral.
    rewrite bind_assoc.
    rewrite (bind_deref _ _ _ _ _ Hp), bind_assoc, bind_read, Hb.
    apply Z.ltb_lt in Ht. rewrite Ht.
    unfold bind, modify, mico_rtos_get_semaphore. cbv beta iota.
    subst wa. unfold receive_armed. rewrite Hb. reflexivity. }
  rewrite Hrun. clear Hrun. clearbody wa.
  set (wr := upd_hw (raise_dma_status (stream c) f) wa).
  pose proof (same_devices_raise (stream c) f (hw wa)) as (R1 & R2 & R3 & R4).
  assert (Hpr : peripheral (drv wr) = Some p) by exact Hpa.
  assert (Hcr : rx_complete (drv wr) <> None).
  { subst wr. simpl. rewrite Hda. simpl. rewrite Hc. discriminate. }
  destruct (rx_dma_irq_run wr p Hpr Hcr)
    as (wi & Hi & Hres & _ & Hsz & _ & Hbi & Hci & _).
  assert (Hstep : env_step (DmaRxStatus f) wa = Some wi).
  { cbn [env_step]. rewrite Hpa. fold c. fold wr.
    replace (nvic (hw wr) (irq_vector c)) with true
      by (subst wr; simpl; rewrite R4; symmetry; exact Hna).
    replace (CR_IE (rx_stream (hw wr))) with true
      by (subst wr; simpl; rewrite R3, Hra; symmetry; exact Hie).
    exact Hi. }
  assert (Hszr : rx_size (drv wr) = n) by (subst wr; simpl; rewrite Hda; reflexivity).
  rewrite Hszr in Hci, Hsz.
  replace (0 <? n) with true in Hci by (symmetry; apply Z.ltb_lt; exact Hsize).
  assert (Hwait : sem_wait sem_rx_complete t (DmaRxStatus f :: evs) wa
                  = Ret kNoErr evs
                      (upd_drv (put_sem sem_rx_complete (Some false)) wi)).
  { rewrite (sem_wait_step _ _ _ _ _ wi).
    - apply sem_wait_token. exact Hci.
    - simpl. rewrite Hda. exact Hc.
    - apply Z.eqb_neq. lia.
    - exact Hstep. }
  unfold bind. rewrite Hwait. unfold ret.
  eexists. split; [reflexivity|].
  cbn [drv hw upd_drv put_sem].
  assert (Hstat : get_dma_irq_status (stream c) (hw wr)
                  = Z.lor (Z.ldiff old (Z.lor (complete_flags c) (error_flags c))) f).
  { subst wr. simpl. rewrite status_after_raise, Hsa. reflexivity. }
  fold c in Hres. rewrite Hstat in Hres.
  destruct (flags_raised_after_clear old (complete_flags c) (error_flags c) f)
    as [Fc Fe].
  rewrite Fc in Hres. rewrite Fe in Hres.
  split.
  { cbn [last_receive_result set_rx_complete]. rewrite Hres.
    subst wr. cbn [drv upd_hw]. rewrite Hda. reflexivity. }
  split.
  { destruct (platform_uart_rx_dma_irq_effect _ _ Hi) as (r0 & s0 & _ & _ & _ & Hh).
    destruct Hh as (_ & _ & Hrx & _). rewrite Hrx. subst wr. simpl.
    rewrite R3. exact Hra. }
  split.
  { destruct (platform_uart_rx_dma_irq_effect _ _ Hi) as (r0 & s0 & _ & _ & _ & Hh).
    destruct Hh as (Hus & _). rewrite Hus. subst wr. simpl.
    rewrite R1. exact Hua. }
  split; [reflexivity|].
  cbn [rx_size set_rx_complete]. exact Hsz.
Qed.

Lemma direct_receive_completes_on_dma_interrupt_witness :
  exists w',
    platform_uart_receive_bytes uninterrupted driver_instance caller_buffer
      16 100 [DmaRxStatus 851968] board_direct
    = Ret (kNoErr, []) [] w' /\
    last_receive_result (drv w') = kGeneralErr.
Proof.
  destruct (direct_receive_completes_on_dma_interrupt uninterrupted
              caller_buffer 16 100 851968 [] board_direct board_uart)
    as (w' & H & Hres & _).
  - vm_compute. reflexivity.
  - vm_compute. reflexivity.
  - vm_compute. reflexivity.
  - vm_compute. reflexivity.
  - vm_compute. reflexivity.
  - discriminate.
  - lia.
  - lia.
  - exists w'. split; [exact H|]. rewrite Hres. vm_compute. reflexivity.
Defined.

(** ** From init to the first transfer *)

Lemma IRQn_eqb_refl v : IRQn_eqb v v = true.
Proof. destruct v; simpl; rewrite ?Z.eqb_refl; reflexivity. Qed.

(** The vectors a successful init leaves enabled. *)
Lemma init_world_nvic p cfg ring evs w :
  init_arguments_valid p cfg = true ->
  ring_buffer_arg_ok ring = true ->
  exists w',
    platform_uart_init driver_instance (Some p) (Some cfg) ring evs w
    = Ret kNoErr evs w' /\
    nvic (hw w') (irq_vector (tx_dma_config p)) = true /\
    nvic (hw w') (uart_vector p) = true /\
    (ring = None -> nvic (hw w') (irq_vector (rx_dma_config p)) = true).
Proof.
  intros Hv Hr.
  destruct (valid_port_vector _ _ Hv) as [Hvec _].
  destruct (init_reaches_hardware p cfg ring evs w Hv Hr) as (tr & _ & Hi).
  destruct ring as [rb|].
  - unfold ring_buffer_arg_ok in Hr.
    destruct (rb_buffer rb) as [cells|] eqn:Hc; [|discriminate].
    destruct (init_hardware_buffered p cfg (uart_init_structure_of cfg) rb cells
                (uart_vector p) evs
                (mk_world (init_driver_fields p (drv w)) (hw w)
                          (trace w ++ PowersaveDisable :: tr))
                Hvec eq_refl Hc)
      as (w1 & H1 & _ & _ & _ & _ & Hn & _).
    rewrite (bind_Ret_eq _ _ _ _ _ _ _ H1) in Hi.
    exists (log PowersaveEnable w1). split; [exact Hi|].
    cbn [hw log]. rewrite !Hn, !IRQn_eqb_refl.
    split; [rewrite orb_true_r; reflexivity|].
    split; [reflexivity | discriminate].
  - destruct (init_hardware_direct p cfg (uart_init_structure_of cfg)
                (uart_vector p) evs
                (mk_world (init_driver_fields p (drv w)) (hw w)
                          (trace w ++ PowersaveDisable :: tr))
                Hvec)
      as (w1 & H1 & _ & _ & _ & _ & Hn & _).
    rewrite (bind_Ret_eq _ _ _ _ _ _ _ H1) in Hi.
    exists (log PowersaveEnable w1). split; [exact Hi|].
    cbn [hw log]. rewrite !Hn, !IRQn_eqb_refl.
    split; [rewrite !orb_true_r; reflexivity|].
    split; [rewrite orb_true_r; reflexivity|].
    intros _. reflexivity.
Qed.

(** X21: init makes transmit work.  From any state of the driver and of
    the devices, after a successful init in either mode the first transmit
    call with valid arguments, on a schedule that starts with the TX DMA
    interrupt and the end of transmission, returns right after these two
    events and leaves tx_size at zero and the mutex free.  Whatever the
    two masks of the stream are, the result is a general error when an
    error flag outside the transfer-complete mask is raised, success when
    none is and a transfer-complete flag is raised, and a general error
    when neither is. *)
Theorem init_then_transmit_completes :
  forall p cfg ring data_out size f evs0 evs w,
    init_arguments_valid p cfg = true ->
    ring_buffer_arg_ok ring = true ->
    data_out <> NULL -> 0 < size ->
    exists w1 w2,
      platform_uart_init driver_instance (Some p) (Some cfg) ring evs0 w
      = Ret kNoErr evs0 w1 /\
      platform_uart_transmit_bytes driver_instance data_out size
        (DmaTxStatus f :: UartTxDone :: evs) w1
      = Ret (transmit_result_of (tx_dma_config p) f) evs w2 /\
      tx_size (drv w2) = 0 /\
      tx_mutex (drv w2) = Some false /\
      tx_complete (drv w2) = Some false.
Proof.
  intros p cfg ring data_out size f evs0 evs w Hv Hr Hd Hsize.
  destruct (init_world p cfg ring evs0 w Hv Hr) as (w1 & H1 & Hd1 & _ & Htx & _).
  destruct (init_world_nvic p cfg ring evs0 w Hv Hr) as (w1' & H1' & Hn & _).
  rewrite H1 in H1'. inversion H1'. subst w1'. clear H1'.
  destruct (transmit_run data_out size f evs w1 p) as (wi & Hdi & _ & Hrun);
    try assumption.
  - rewrite Hd1. reflexivity.
  - rewrite Hd1. reflexivity.
  - rewrite Hd1. reflexivity.
  - rewrite Htx. reflexivity.
  - exists w1. eexists. split; [exact H1|]. split; [exact Hrun|].
    unfold transmit_cleaned_up.
    cbn [drv hw log upd_usart upd_hw upd_drv put_sem].
    rewrite Hdi. repeat split; reflexivity.
Qed.

Lemma init_then_transmit_completes_witness :
  exists w1 w2,
    platform_uart_init driver_instance (Some board_uart) (Some board_config)
      (Some (empty_ring 8)) [] world_at_reset
    = Ret kNoErr [] w1 /\
    platform_uart_transmit_bytes driver_instance caller_buffer 3
      [DmaTxStatus 134217728; UartTxDone] w1
    = Ret kNoErr [] w2.
Proof.
  destruct (init_then_transmit_completes board_uart board_config
              (Some (empty_ring 8)) caller_buffer 3 134217728 [] []
              world_at_reset)
    as (w1 & w2 & H1 & H2 & _).
  - reflexivity.
  - reflexivity.
  - discriminate.
  - lia.
  - exists w1, w2. split; [exact H1 | exact H2].
Defined.

(** X23: the UART interrupt handler reads driver->rx_buffer without a
    test: run on a driver that has no ring buffer it has no defined
    result.  A direct-mode init keeps it from running: the per-byte
    interrupt is left disabled, so after such an init a byte that arrives
    changes nothing, the handler is not entered and the byte is dropped. *)
Theorem direct_mode_never_enters_uart_irq :
  (forall w, rx_buffer (drv w) = None -> platform_uart_irq w = None) /\
  (forall p cfg evs w,
     init_arguments_valid p cfg = true ->
     rx_buffer (drv w) = None ->
     exists w',
       platform_uart_init driver_instance (Some p) (Some cfg) None evs w
       = Ret kNoErr evs w' /\
       rx_buffer (drv w') = None /\
       nvic (hw w') (uart_vector p) = true /\
       CR1_RXNEIE (usart (hw w')) = false /\
       forall b, env_step (UartRx b) w' = Some w').
Proof.
  split.
  - intros w Hb. unfold platform_uart_irq. rewrite Hb.
    destruct (peripheral (drv w)); reflexivity.
  - intros p cfg evs w Hv Hb.
    destruct (valid_port_vector _ _ Hv) as [Hvec _].
    destruct (init_world p cfg None evs w Hv eq_refl)
      as (w' & H & Hd & Hu & _ & Hrx).
    destruct (init_world_nvic p cfg None evs w Hv eq_refl)
      as (w1 & H1 & _ & Hn & _).
    rewrite H in H1. inversion H1. subst w1. clear H1.
    exists w'. split; [exact H|].
    split; [rewrite Hd; exact Hb|].
    split; [exact Hn|].
    split; [rewrite Hu; reflexivity|].
    intro b. cbn [env_step].
    assert (Hstore : dma_rx_store b w' = w').
    { unfold dma_rx_store. rewrite Hrx. reflexivity. }
    rewrite Hstore, Hu, Hd. cbn [CR1_UE CR1_RE CR1_RXNEIE peripheral andb].
    rewrite Hvec, andb_false_r. reflexivity.
Qed.

Lemma direct_mode_never_enters_uart_irq_witness :
  env_step (UartRx Byte.x41) board_direct = Some board_direct.
Proof.
  destruct (proj2 direct_mode_never_enters_uart_irq board_uart board_config []
              world_at_reset eq_refl eq_refl)
    as (w' & H & _ & _ & _ & Hstep).
  assert (E : w' = board_direct).
  { unfold board_direct. rewrite H. reflexivity. }
  rewrite <- E. apply Hstep.
Defined.
(** ** The byte stream under the buffered receive *)

Lemma rx_capacity_of w rb : rx_buffer (drv w) = Some rb -> rx_capacity w = rb_size rb.
Proof. intro H. unfold rx_capacity. rewrite H. reflexivity. Qed.

Lemma rx_head_of w rb : rx_buffer (drv w) = Some rb -> rx_head w = rb_head rb.
Proof. intro H. unfold rx_head. rewrite H. reflexivity. Qed.

Lemma rx_used_of w rb :
  rx_buffer (drv w) = Some rb -> rx_used w = ring_buffer_used_space rb.
Proof. intro H. unfold rx_used. rewrite H. reflexivity. Qed.

(** No handler moves the head cursor or the capacity. *)
Lemma env_step_head e w w' :
  env_step e w = Some w' ->
  rx_head w' = rx_head w /\ rx_capacity w' = rx_capacity w.
Proof.
  assert (Hstore : forall b,
            rx_head (dma_rx_store b w) = rx_head w /\
            rx_capacity (dma_rx_store b w) = rx_capacity w).
  { intro b. unfold dma_rx_store, rx_head, rx_capacity.
    destruct (_ && _); [|auto].
    destruct (M0AR _), (rx_buffer (drv w)) as [rb|] eqn:Eb;
      try destruct (rb_buffer rb);
      destruct (_ =? 0); try destruct (CR_CIRC _); simpl;
      rewrite ?Eb; auto. }
  destruct e; simpl; intro H.
  - inversion H. auto.
  - destruct (_ && _); [|inversion H; auto].
    destruct (Hstore b) as [A1 A2].
    set (w1 := dma_rx_store b w) in *. clearbody w1.
    assert (Hsame : Some w1 = Some w' ->
              rx_head w' = rx_head w /\ rx_capacity w' = rx_capacity w).
    { intro E. inversion E. subst. auto. }
    destruct (peripheral (drv w1)) as [p|]; [|exact (Hsame H)].
    destruct (uart_irq_vectors _); [|exact (Hsame H)].
    destruct (_ && _); [|exact (Hsame H)].
    apply platform_uart_irq_effect in H as (rb & Hrb & _ & Hd).
    rewrite <- A1, <- A2. unfold rx_head, rx_capacity. rewrite Hd, Hrb.
    simpl. auto.
  - inversion H. auto.
  - destruct (peripheral (drv w)) as [p|]; [|inversion H; auto].
    destruct (_ && _); [|inversion H; auto].
    apply platform_uart_tx_dma_irq_effect in H as (r & s & Hd & _).
    unfold rx_head, rx_capacity. rewrite Hd. auto.
  - destruct (peripheral (drv w)) as [p|]; [|inversion H; auto].
    destruct (_ && _); [|inversion H; auto].
    apply platform_uart_rx_dma_irq_effect in H as (r & s & Hd & _).
    unfold rx_head, rx_capacity. rewrite Hd. auto.
  - destruct (tx_mutex (drv w)); inversion H; auto.
Qed.

Lemma stream_advances_refl evs w : rx_fits evs w -> stream_advances evs w evs w.
Proof. intro H. unfold stream_advances. repeat split; try apply H; lia. Qed.

Lemma stream_advances_trans evs1 w1 evs2 w2 evs3 w3 :
  stream_advances evs1 w1 evs2 w2 -> stream_advances evs2 w2 evs3 w3 ->
  stream_advances evs1 w1 evs3 w3.
Proof.
  intros (_ & A2 & A3 & A4 & A5) (B1 & B2 & B3 & B4 & B5).
  unfold stream_advances. split; [exact B1|].
  split; [congruence|]. split; [congruence|]. split; [congruence | lia].
Qed.

(** A store of the task outside the ring buffer. *)
Lemma stream_advances_frame evs w w' :
  peripheral (drv w') = peripheral (drv w) ->
  rx_buffer (drv w') = rx_buffer (drv w) ->
  hw w' = hw w ->
  rx_fits evs w -> stream_advances evs w evs w'.
Proof.
  intros A1 A2 A3 [Hs Hb].
  unfold stream_advances, rx_fits, rx_capacity, bytes_ahead, rx_head, rx_used.
  rewrite A2. split; [split|].
  - exact (rx_streaming_frame w w' A1 A2 A3 Hs).
  - exact Hb.
  - repeat split; lia.
Qed.

(** One event, whatever it is. *)
Lemma env_step_advances e evs w w' :
  rx_fits (e :: evs) w ->
  env_step e w = Some w' ->
  stream_advances (e :: evs) w evs w'.
Proof.
  intros [Hs Hb] E.
  pose proof Hs as (p & rb & v & _ & Hrb & Hwf & _).
  destruct (env_step_head e w w' E) as [Hh Hc].
  rewrite (rx_capacity_of w rb Hrb) in Hb.
  rewrite (length_bytes_ahead _ w rb Hrb Hwf) in Hb.
  destruct (is_UartRx e) eqn:He.
  - destruct e; try discriminate. cbn [bytes_arriving length] in Hb.
    destruct (env_step_byte b w w' rb Hs Hrb ltac:(lia) E)
      as (Hs' & rb' & E1 & E2 & E3 & E4 & _).
    assert (Hba : bytes_ahead evs w' = bytes_ahead (UartRx b :: evs) w).
    { unfold bytes_ahead. rewrite E1, Hrb, E3, <- app_assoc. reflexivity. }
    unfold stream_advances, rx_fits. rewrite Hba, Hc.
    split; [split; [exact Hs'|]|].
    + rewrite (rx_capacity_of w rb Hrb).
      rewrite (length_bytes_ahead _ w rb Hrb Hwf). cbn [bytes_arriving length]. lia.
    + split; [reflexivity|]. split; [reflexivity|]. split; [exact Hh|].
      rewrite (rx_used_of w rb Hrb), (rx_used_of w' rb' E1). lia.
  - pose proof (env_step_other e w w' He E) as Hsame.
    pose proof (rx_path_same_streaming _ _ Hsame Hs) as Hs'.
    destruct Hsame as (_ & A2 & _).
    assert (Hba : bytes_ahead evs w' = bytes_ahead (e :: evs) w).
    { unfold bytes_ahead. rewrite A2, (bytes_arriving_cons e evs).
      destruct e; try discriminate; reflexivity. }
    unfold stream_advances, rx_fits. rewrite Hba, Hc.
    split; [split; [exact Hs'|]|].
    + rewrite (rx_capacity_of w rb Hrb).
      rewrite (length_bytes_ahead _ w rb Hrb Hwf). lia.
    + split; [reflexivity|]. split; [reflexivity|]. split; [exact Hh|].
      unfold rx_used. rewrite A2. lia.
Qed.

Lemma env_run_advances pre : forall evs w w',
  rx_fits (pre ++ evs) w ->
  env_run pre w = Some w' ->
  stream_advances (pre ++ evs) w evs w'.
Proof.
  induction pre as [|e pre IH]; intros evs w w' Hf; cbn [env_run app].
  - intro H. inversion H. subst. apply stream_advances_refl. exact Hf.
  - destruct (env_step e w) as [w1|] eqn:E; [|discriminate].
    intro H.
    pose proof (env_step_advances e (pre ++ evs) w w1 Hf E) as H1.
    apply (stream_advances_trans _ _ _ _ _ _ H1).
    apply IH; [apply H1 | exact H].
Qed.

Lemma interrupts_advances k evs w evs' w' :
  rx_fits evs w ->
  interrupts k evs w = Ret tt evs' w' ->
  stream_advances evs w evs' w'.
Proof.
  intros Hf H. apply interrupts_inv in H as [H ->].
  rewrite <- (firstn_skipn k evs) in Hf |- * at 1.
  apply env_run_advances; assumption.
Qed.

Lemma await_event_advances evs w evs' w' :
  rx_fits evs w ->
  await_event evs w = Ret tt evs' w' ->
  stream_advances evs w evs' w'.
Proof.
  intros Hf H. apply await_event_inv in H as (e & -> & E).
  apply env_step_advances; assumption.
Qed.

(** A wait on the RX Completion Signal. *)
Lemma sem_wait_advances evs t w r evs' w' :
  rx_fits evs w ->
  sem_wait sem_rx_complete t evs w = Ret r evs' w' ->
  stream_advances evs w evs' w'.
Proof.
  intros Hf H.
  refine (sem_wait_preserves
            (fun e v => stream_advances evs w e v) sem_rx_complete
            _ _ evs t w r evs' w' (stream_advances_refl _ _ Hf) H).
  - intros e es v v' HQ _ E.
    apply (stream_advances_trans _ _ _ _ _ _ HQ).
    apply env_step_advances; [apply HQ | exact E].
  - intros es v HQ.
    apply (stream_advances_trans _ _ _ _ _ _ HQ).
    apply stream_advances_frame; try reflexivity. apply HQ.
Qed.

(** *** The copy loop *)

(** One pass of the copy loop, whatever arrives between its statements:
    the run found by ring_buffer_get_data is still the oldest data when
    memcpy reads it and when ring_buffer_consume drops it. *)
Lemma copy_pass evs1 w1 evs2 w2 evs3 w3 rb1 rb2 rb3 cells n :
  rx_fits evs1 w1 ->
  stream_advances evs1 w1 evs2 w2 ->
  stream_advances evs2 w2 evs3 w3 ->
  rx_buffer (drv w1) = Some rb1 ->
  rx_buffer (drv w2) = Some rb2 ->
  rx_buffer (drv w3) = Some rb3 ->
  rb_buffer rb2 = Some cells ->
  0 <= n <= snd (ring_buffer_get_data rb1) ->
  let w4 := upd_drv (set_rx_buffer (Some (ring_buffer_consume rb3 n))) w3 in
  rx_fits evs3 w4 /\
  rx_capacity w4 = rx_capacity w1 /\
  read_cells cells (rb_head rb1) n
  = firstn (Z.to_nat n) (bytes_ahead evs1 w1) /\
  bytes_ahead evs3 w4 = skipn (Z.to_nat n) (bytes_ahead evs1 w1) /\
  (Z.to_nat n <= length (bytes_ahead evs1 w1))%nat.
Proof.
  intros [Hs1 Hb1] (Hf2 & C2 & A2 & H2 & U2) (Hf3 & C3 & A3 & H3 & U3)
         Hrb1 Hrb2 Hrb3 Hc Hn w4.
  destruct Hf2 as [Hs2 Hb2]. destruct Hf3 as [Hs3 Hb3].
  pose proof (streaming_ring w1 rb1 Hs1 Hrb1) as Hwf1.
  pose proof (streaming_ring w2 rb2 Hs2 Hrb2) as Hwf2.
  pose proof (streaming_ring w3 rb3 Hs3 Hrb3) as Hwf3.
  pose proof Hwf1 as (_ & Hsz1 & Hh1 & _).
  pose proof (used_space_bounds rb1 Hwf1) as Hu1.
  rewrite (rx_head_of w1 rb1 Hrb1), (rx_head_of w2 rb2 Hrb2) in H2.
  rewrite (rx_head_of w2 rb2 Hrb2), (rx_head_of w3 rb3 Hrb3) in H3.
  rewrite (rx_used_of w1 rb1 Hrb1), (rx_used_of w2 rb2 Hrb2) in U2.
  rewrite (rx_used_of w2 rb2 Hrb2), (rx_used_of w3 rb3 Hrb3) in U3.
  rewrite (rx_capacity_of w1 rb1 Hrb1), (rx_capacity_of w2 rb2 Hrb2) in C2.
  rewrite (rx_capacity_of w2 rb2 Hrb2), (rx_capacity_of w3 rb3 Hrb3) in C3.
  unfold ring_buffer_get_data in Hn. cbn [snd] in Hn.
  rewrite wrap32_small, MIN_min in Hn by lia.
  destruct (ring_take rb2 cells n Hwf2 Hc ltac:(lia) ltac:(lia) ltac:(lia))
    as (Hread & _).
  pose proof Hwf3 as ((cells3 & Hc3 & _) & _).
  destruct (ring_take rb3 cells3 n Hwf3 Hc3 ltac:(lia) ltac:(lia) ltac:(lia))
    as (_ & Hcont & Hwf' & Hused' & Htail' & Hsize').
  assert (L2 : (Z.to_nat n <= length (ring_contents rb2))%nat)
    by (rewrite (length_ring_contents rb2 Hwf2); lia).
  assert (L3 : (Z.to_nat n <= length (ring_contents rb3))%nat)
    by (rewrite (length_ring_contents rb3 Hwf3); lia).
  assert (E12 : bytes_ahead evs1 w1 = ring_contents rb2 ++ bytes_arriving evs2)
    by (rewrite <- A2; unfold bytes_ahead; rewrite Hrb2; reflexivity).
  assert (E13 : bytes_ahead evs1 w1 = ring_contents rb3 ++ bytes_arriving evs3)
    by (rewrite <- A2, <- A3; unfold bytes_ahead; rewrite Hrb3; reflexivity).
  split; [split|].
  - subst w4. apply (rx_streaming_consume w3 rb3 _ Hs3 Hrb3 Hwf' Htail' Hsize').
  - subst w4. unfold rx_capacity, bytes_ahead.
    cbn [drv upd_drv rx_buffer set_rx_buffer]. rewrite Hsize', Hcont.
    rewrite (rx_capacity_of w3 rb3 Hrb3) in Hb3.
    unfold bytes_ahead in Hb3. rewrite Hrb3 in Hb3.
    rewrite length_app in *. rewrite length_skipn. lia.
  - split; [subst w4; unfold rx_capacity;
            cbn [drv upd_drv rx_buffer set_rx_buffer];
            rewrite Hsize', Hrb1; lia|].
    split; [|split].
    + rewrite <- H2, Hread, E12. symmetry. apply firstn_within. exact L2.
    + subst w4. unfold bytes_ahead at 1.
      cbn [drv upd_drv rx_buffer set_rx_buffer]. rewrite Hcont, E13.
      symmetry. apply skipn_within. exact L3.
    + rewrite E12, length_app. lia.
Qed.

(** The copy loop moves exactly [transfer_size] bytes from the front of
    the bytes ahead to the caller, whatever the schedule and wherever it
    is interrupted. *)
Lemma grab_data_stream fuel :
  forall when k transfer_size out evs w out' evs' w',
    rx_fits evs w ->
    0 <= transfer_size < 4294967296 ->
    grab_data fuel when k transfer_size out evs w = Ret out' evs' w' ->
    rx_fits evs' w' /\
    rx_capacity w' = rx_capacity w /\
    exists bytes,
      out' = out ++ bytes /\
      Z.of_nat (length bytes) = transfer_size /\
      bytes_ahead evs w = bytes ++ bytes_ahead evs' w'.
Proof.
  induction fuel as [|fuel IH]; intros when k ts out evs w out' evs' w' Hf Hts;
    [discriminate|].
  rewrite grab_data_unfold. intro H.
  apply bind_Ret_inv in H as ([] & e1 & w1 & H1 & H).
  pose proof (interrupts_advances _ _ _ _ _ Hf H1) as A1.
  apply bind_Ret_inv in H as (rb1 & ? & ? & D1 & H).
  apply deref_inv in D1 as (Hrb1 & -> & ->). cbv zeta in H.
  apply bind_Ret_inv in H as ([] & e2 & w2 & H2 & H).
  pose proof (interrupts_advances _ _ _ _ _ (proj1 A1) H2) as A2.
  apply bind_Ret_inv in H as (rb2 & ? & ? & D2 & H).
  apply deref_inv in D2 as (Hrb2 & -> & ->).
  apply bind_Ret_inv in H as (cells & ? & ? & D3 & H).
  apply deref_inv in D3 as (Hc & -> & ->).
  apply bind_Ret_inv in H as ([] & e3 & w3 & H3 & H).
  pose proof (interrupts_advances _ _ _ _ _ (proj1 A2) H3) as A3.
  apply bind_Ret_inv in H as (rb3 & ? & ? & D4 & H).
  apply deref_inv in D4 as (Hrb3 & -> & ->).
  rewrite bind_modify in H.
  set (n := MIN (snd (ring_buffer_get_data rb1)) ts) in *.
  assert (Hn : 0 <= n <= snd (ring_buffer_get_data rb1) /\ n <= ts).
  { subst n. rewrite MIN_min.
    pose proof (streaming_ring w1 rb1 (proj1 (proj1 A1)) Hrb1) as Hwf1.
    pose proof Hwf1 as (_ & Hsz1 & Hh1 & _).
    pose proof (used_space_bounds rb1 Hwf1) as Hu1.
    unfold ring_buffer_get_data. cbn [snd].
    rewrite wrap32_small, MIN_min by lia. lia. }
  destruct (copy_pass e1 w1 e2 w2 e3 w3 rb1 rb2 rb3 cells n
              (proj1 A1) A2 A3 Hrb1 Hrb2 Hrb3 Hc (proj1 Hn))
    as (Hf4 & Hc4 & Hread & Hrest & Hlen).
  set (w4 := upd_drv (set_rx_buffer (Some (ring_buffer_consume rb3 n))) w3) in *.
  destruct A1 as (_ & C1 & B1 & _).
  rewrite B1 in Hread, Hrest, Hlen.
  change (fst (ring_buffer_get_data rb1)) with (rb_head rb1) in H.
  rewrite Hread in H.
  rewrite wrap32_small in H by lia.
  assert (Hsplit : bytes_ahead evs w
                   = firstn (Z.to_nat n) (bytes_ahead evs w) ++ bytes_ahead e3 w4).
  { rewrite Hrest. symmetry. apply firstn_skipn. }
  assert (Hlenf : Z.of_nat (length (firstn (Z.to_nat n) (bytes_ahead evs w))) = n).
  { rewrite length_firstn. lia. }
  destruct (ts - n =? 0) eqn:Ez.
  - apply Z.eqb_eq in Ez. inversion H. subst out' evs' w'. clear H.
    split; [exact Hf4|]. split; [congruence|].
    eexists. split; [reflexivity|]. split; [lia | exact Hsplit].
  - apply Z.eqb_neq in Ez.
    apply bind_Ret_inv in H as ([] & e5 & w5 & H5 & H).
    assert (A5 : stream_advances e3 w4 e5 w5).
    { destruct (_ && _) in H5.
      - apply await_event_advances; assumption.
      - inversion H5. subst. apply stream_advances_refl. exact Hf4. }
    destruct A5 as (Hf5 & C5 & B5 & _).
    apply IH in H; [|exact Hf5 | lia].
    destruct H as (Hf' & C' & bytes & Ho & Hl & Hb).
    split; [exact Hf'|]. split; [congruence|].
    exists (firstn (Z.to_nat n) (bytes_ahead evs w) ++ bytes).
    split; [rewrite Ho, app_assoc; reflexivity|].
    split; [rewrite length_app; lia|].
    rewrite <- app_assoc, <- Hb, B5. exact Hsplit.
Qed.

(** *** The chunk loop *)

Lemma get_semaphore_advances t evs w r evs' w' :
  rx_fits evs w ->
  mico_rtos_get_semaphore sem_rx_complete t evs w = Ret r evs' w' ->
  stream_advances evs w evs' w' /\ (r = kNoErr \/ r = kTimeoutErr).
Proof.
  intros Hf H. unfold mico_rtos_get_semaphore in H. split.
  - refine (stream_advances_trans _ _ _ _ _ _ _
              (sem_wait_advances _ _ _ _ _ _ _ H)).
    + apply stream_advances_frame; try reflexivity. exact Hf.
    + apply (stream_advances_frame evs w); try reflexivity. exact Hf.
  - exact (sem_wait_status _ _ _ _ _ _ _ H).
Qed.

(** The steps of a pass up to the copy loop: the test of the used space
    and, when the chunk is not there, the stores and the wait, with the
    interrupts between them. *)
Lemma await_chunk_advances (when : nat -> point -> nat) (pass : nat)
  transfer_size t rb0 evs w waited evs' w' :
  rx_fits evs w ->
  (if ring_buffer_used_space rb0 <? transfer_size then
     interrupts (when pass before_result_store) ;;
     modify (upd_drv (set_last_receive_result kNoErr)) ;;
     interrupts (when pass before_rx_size_store) ;;
     modify (upd_drv (set_rx_size transfer_size)) ;;
     interrupts (when pass before_wait) ;;
     e <- mico_rtos_get_semaphore sem_rx_complete t ;;
     interrupts (when pass before_rx_size_reset) ;;
     modify (upd_drv (set_rx_size 0)) ;;
     ret e
   else ret kNoErr) evs w = Ret waited evs' w' ->
  stream_advances evs w evs' w' /\ (waited = kNoErr \/ waited = kTimeoutErr).
Proof.
  intros Hf H. destruct (_ <? _).
  - apply bind_Ret_inv in H as ([] & e1 & w1 & H1 & H).
    pose proof (interrupts_advances _ _ _ _ _ Hf H1) as A1.
    rewrite bind_modify in H.
    set (w2 := upd_drv (set_last_receive_result kNoErr) w1) in *.
    assert (A2 : stream_advances evs w e1 w2).
    { apply (stream_advances_trans _ _ _ _ _ _ A1).
      apply stream_advances_frame; try reflexivity. apply A1. }
    apply bind_Ret_inv in H as ([] & e3 & w3 & H3 & H).
    pose proof (stream_advances_trans _ _ _ _ _ _ A2
                  (interrupts_advances _ _ _ _ _ (proj1 A2) H3)) as A3.
    rewrite bind_modify in H.
    set (w4 := upd_drv (set_rx_size transfer_size) w3) in *.
    assert (A4 : stream_advances evs w e3 w4).
    { apply (stream_advances_trans _ _ _ _ _ _ A3).
      apply stream_advances_frame; try reflexivity. apply A3. }
    apply bind_Ret_inv in H as ([] & e5 & w5 & H5 & H).
    pose proof (stream_advances_trans _ _ _ _ _ _ A4
                  (interrupts_advances _ _ _ _ _ (proj1 A4) H5)) as A5.
    apply bind_Ret_inv in H as (e & e6 & w6 & H6 & H).
    destruct (get_semaphore_advances _ _ _ _ _ _ (proj1 A5) H6) as [S6 Hst].
    pose proof (stream_advances_trans _ _ _ _ _ _ A5 S6) as A6.
    apply bind_Ret_inv in H as ([] & e7 & w7 & H7 & H).
    pose proof (stream_advances_trans _ _ _ _ _ _ A6
                  (interrupts_advances _ _ _ _ _ (proj1 A6) H7)) as A7.
    rewrite bind_modify in H. inversion H. subst waited evs' w'. clear H.
    split; [|exact Hst].
    apply (stream_advances_trans _ _ _ _ _ _ A7).
    apply stream_advances_frame; try reflexivity. apply A7.
  - inversion H. subst. split; [apply stream_advances_refl; exact Hf | auto].
Qed.

(** One pass of the chunk loop.  The chunk is the smaller of half the
    capacity and the bytes still requested.  Either the wait for it ends
    on a timeout, and the call returns with nothing more copied; or
    exactly the chunk, the oldest bytes ahead of the reader, is copied to
    the caller and consumed, and the loop goes on for the rest. *)
Lemma receive_pass fuel when pass n t err out evs w r out' evs' w' :
  rx_fits evs w ->
  0 < n < 4294967296 ->
  receive_buffered (S fuel) when pass n t err out evs w
  = Ret (r, out') evs' w' ->
  let chunk := Z.min (rx_capacity w / 2) n in
  (r = kTimeoutErr /\ out' = out /\
   rx_fits evs' w' /\ rx_capacity w' = rx_capacity w /\
   bytes_ahead evs' w' = bytes_ahead evs w)
  \/ (exists evs2 w2 err2,
        0 < chunk <= Z.of_nat (length (bytes_ahead evs w)) /\
        rx_fits evs2 w2 /\ rx_capacity w2 = rx_capacity w /\
        bytes_ahead evs2 w2 = skipn (Z.to_nat chunk) (bytes_ahead evs w) /\
        receive_buffered fuel when (S pass) (n - chunk) t err2
          (out ++ firstn (Z.to_nat chunk) (bytes_ahead evs w)) evs2 w2
        = Ret (r, out') evs' w').
Proof.
  intros Hf Hn H chunk.
  rewrite receive_buffered_unfold in H.
  replace (n =? 0) with false in H by (symmetry; apply Z.eqb_neq; lia).
  apply bind_Ret_inv in H as ([] & e1 & w1 & H1 & H).
  pose proof (interrupts_advances _ _ _ _ _ Hf H1) as A1.
  apply bind_Ret_inv in H as (rb & ? & ? & D1 & H).
  apply deref_inv in D1 as (Hrb & -> & ->). cbv zeta in H.
  assert (Hcap : rb_size rb = rx_capacity w).
  { destruct A1 as (_ & C1 & _). rewrite <- C1.
    symmetry. apply rx_capacity_of. exact Hrb. }
  rewrite MIN_min, Hcap in H. fold chunk in H.
  assert (Hchunk : 0 < chunk <= rx_capacity w / 2 /\ chunk <= n).
  { pose proof (streaming_ring w1 rb (proj1 (proj1 A1)) Hrb) as (_ & Hsz & _).
    assert (1 <= rb_size rb / 2) by (apply Z.div_le_lower_bound; lia).
    rewrite Hcap in *. subst chunk. lia. }
  apply bind_Ret_inv in H as ([] & e2 & w2 & H2 & H).
  pose proof (stream_advances_trans _ _ _ _ _ _ A1
                (interrupts_advances _ _ _ _ _ (proj1 A1) H2)) as A2.
  apply bind_Ret_inv in H as (rb0 & ? & ? & D2 & H).
  apply deref_inv in D2 as (Hrb0 & -> & ->).
  apply bind_Ret_inv in H as (waited & e3 & w3 & H3 & H).
  destruct (await_chunk_advances _ _ _ _ _ _ _ _ _ _ (proj1 A2) H3) as [S3 Hst].
  pose proof (stream_advances_trans _ _ _ _ _ _ A2 S3) as A3.
  destruct Hst as [-> | ->]; cbn [OSStatus_eqb] in H.
  - right.
    apply bind_Ret_inv in H as ([] & e4 & w4 & H4 & H).
    pose proof (stream_advances_trans _ _ _ _ _ _ A3
                  (interrupts_advances _ _ _ _ _ (proj1 A3) H4)) as A4.
    rewrite bind_read in H.
    apply bind_Ret_inv in H as (o & e5 & w5 & H5 & H).
    apply grab_data_stream in H5; [|apply A4 | lia].
    destruct H5 as (Hf5 & C5 & bytes & Ho & Hl & Hb).
    destruct A4 as (_ & C4 & B4 & _).
    rewrite B4 in Hb.
    assert (Hbytes : bytes = firstn (Z.to_nat chunk) (bytes_ahead evs w)).
    { rewrite Hb. rewrite firstn_within by lia.
      rewrite firstn_all2 by lia. reflexivity. }
    assert (Hrest : bytes_ahead e5 w5
                    = skipn (Z.to_nat chunk) (bytes_ahead evs w)).
    { rewrite Hb. rewrite skipn_within by lia.
      rewrite skipn_all2 by lia. reflexivity. }
    rewrite wrap32_small in H by lia.
    exists e5, w5, (last_receive_result (drv w4)).
    split; [rewrite Hb, length_app; lia|].
    split; [exact Hf5|]. split; [congruence|]. split; [exact Hrest|].
    rewrite <- Hbytes, <- Ho. exact H.
  - left. inversion H. subst r out' evs' w'. clear H.
    split; [reflexivity|]. split; [reflexivity|].
    destruct A3 as (F3 & C3 & B3 & _). auto.
Qed.

(** The buffered loop accounts for every byte, wherever it is interrupted:
    what it has copied when it returns is what it has taken out of the
    stream, and it stops short of the requested size only on a time-out. *)
Lemma receive_buffered_accounts fuel :
  forall when pass expected t err out evs w r out' evs' w',
    rx_fits evs w ->
    0 <= expected < 4294967296 ->
    receive_buffered fuel when pass expected t err out evs w
    = Ret (r, out') evs' w' ->
    rx_fits evs' w' /\
    rx_capacity w' = rx_capacity w /\
    exists bytes,
      out' = out ++ bytes /\
      bytes_ahead evs w = bytes ++ bytes_ahead evs' w' /\
      Z.of_nat (length bytes) <= expected /\
      (Z.of_nat (length bytes) < expected -> r = kTimeoutErr).
Proof.
  induction fuel as [|fuel IH];
    intros when pass expected t err out evs w r out' evs' w' Hf He.
  - rewrite receive_buffered_out_of_fuel.
    destruct (expected =? 0) eqn:Ez; [|discriminate].
    apply Z.eqb_eq in Ez. intro H. inversion H. subst. clear H.
    split; [exact Hf|]. split; [reflexivity|].
    exists []. rewrite app_nil_r. simpl. repeat split; lia.
  - destruct (Z.eq_dec expected 0) as [-> | Hz].
    { rewrite receive_buffered_unfold. simpl.
      intro H. inversion H. subst. clear H.
      split; [exact Hf|]. split; [reflexivity|].
      exists []. rewrite app_nil_r. simpl. repeat split; lia. }
    intro H.
    assert (Hn : 0 < expected < 4294967296) by lia.
    destruct (receive_pass _ _ _ _ _ _ _ _ _ _ _ _ _ Hf Hn H)
      as [(-> & -> & Hf' & C' & B') |
          (evs2 & w2 & err2 & Hc & Hf2 & C2 & B2 & H2)].
    + split; [exact Hf'|]. split; [exact C'|].
      exists []. rewrite app_nil_r. simpl.
      split; [reflexivity|]. split; [symmetry; exact B'|].
      split; [lia | reflexivity].
    + set (chunk := Z.min (rx_capacity w / 2) expected) in *.
      apply IH in H2; [|exact Hf2 | lia].
      destruct H2 as (Hf' & C' & bytes & Ho & Hb & Hl & Hshort).
      split; [exact Hf'|]. split; [congruence|].
      exists (firstn (Z.to_nat chunk) (bytes_ahead evs w) ++ bytes).
      split; [rewrite Ho, app_assoc; reflexivity|].
      split.
      { rewrite <- app_assoc, <- Hb, B2. symmetry. apply firstn_skipn. }
      rewrite length_app, length_firstn.
      split; [lia|]. intro Hlt. apply Hshort. lia.
Qed.

(** *** Calls and sequences of calls *)

Lemma receive_accounts when data_in n t evs w r out evs' w' :
  rx_fits evs w ->
  data_in <> NULL -> 0 < n < 4294967296 ->
  platform_uart_receive_bytes when driver_instance data_in n t evs w
  = Ret (r, out) evs' w' ->
  rx_fits evs' w' /\
  bytes_ahead evs w = out ++ bytes_ahead evs' w' /\
  Z.of_nat (length out) <= n /\
  (Z.of_nat (length out) < n -> r = kTimeoutErr).
Proof.
  intros Hf Hd Hn. unfold platform_uart_receive_bytes.
  rewrite (valid_transmit_arguments data_in n Hd) by lia.
  rewrite bind_read.
  destruct (rx_buffer (drv w)) eqn:Hrb.
  - intro H. apply receive_buffered_accounts in H; [|exact Hf | lia].
    destruct H as (Hf' & _ & bytes & Ho & Hb & Hl & Hshort).
    simpl in Ho. subst bytes. auto.
  - destruct Hf as [(p & rb & v & _ & B2 & _) _]. rewrite Hrb in B2. discriminate.
Qed.


(** *** The receive path at rest *)

Lemma ticks_cons e evs : ticks evs <= ticks (e :: evs).
Proof. unfold ticks. cbn [filter]. destruct (is_Tick e); cbn [length]; lia. Qed.

Lemma line_only_app pre evs :
  line_only (pre ++ evs) = line_only pre && line_only evs.
Proof. apply forallb_app. Qed.

(** A byte or a millisecond taken with no waiter announced: the handler
    runs, signals nothing, and records nothing. *)
Lemma env_step_line e evs w :
  rx_fits (e :: evs) w ->
  is_UartRx e || is_Tick e = true ->
  rx_complete (drv w) <> None ->
  rx_size (drv w) = 0 ->
  exists w',
    env_step e w = Some w' /\
    stream_advances (e :: evs) w evs w' /\
    rx_complete (drv w') = rx_complete (drv w) /\
    rx_size (drv w') = 0 /\
    last_receive_result (drv w') = last_receive_result (drv w).
Proof.
  intros Hf He Hc Hz.
  assert (Hdef : exists w', env_step e w = Some w').
  { destruct e; try discriminate.
    - eexists. reflexivity.
    - apply uart_rx_defined; [apply Hf | exact Hc]. }
  destruct Hdef as [w' E]. exists w'. split; [exact E|].
  pose proof (env_step_advances e evs w w' Hf E) as A.
  destruct (env_step_receive_fields e w w' E) as [_ Hk].
  destruct (Hk Hz) as [Hz' Hc'].
  split; [exact A|]. split; [exact Hc'|].
  split; [exact Hz' | exact (line_event_keeps_result e w w' He E)].
Qed.

Lemma env_run_line pre : forall evs w,
  rx_fits (pre ++ evs) w ->
  line_only pre = true ->
  rx_complete (drv w) <> None ->
  rx_size (drv w) = 0 ->
  exists w',
    env_run pre w = Some w' /\
    stream_advances (pre ++ evs) w evs w' /\
    rx_complete (drv w') = rx_complete (drv w) /\
    rx_size (drv w') = 0 /\
    last_receive_result (drv w') = last_receive_result (drv w) /\
    ticks evs <= ticks (pre ++ evs).
Proof.
  induction pre as [|e pre IH]; intros evs w Hf Hq Hc Hz; cbn [env_run app] in *.
  - exists w. split; [reflexivity|].
    split; [apply stream_advances_refl; exact Hf|].
    repeat (split; [first [assumption | reflexivity]|]). lia.
  - cbn [line_only forallb] in Hq. apply andb_prop in Hq as [He Hq].
    destruct (env_step_line e (pre ++ evs) w Hf He Hc Hz)
      as (w1 & E & A1 & C1 & Z1 & R1).
    rewrite E.
    destruct (IH evs w1 (proj1 A1) Hq ltac:(congruence) Z1)
      as (w' & H & A' & C' & Z' & R' & T').
    exists w'. split; [exact H|].
    split; [exact (stream_advances_trans _ _ _ _ _ _ A1 A')|].
    split; [congruence|]. split; [exact Z'|].
    split; [congruence|].
    pose proof (ticks_cons e (pre ++ evs)). lia.
Qed.

Lemma env_run_rest pre evs w :
  rx_at_rest (pre ++ evs) w ->
  exists w',
    env_run pre w = Some w' /\
    rx_at_rest evs w' /\
    stream_advances (pre ++ evs) w evs w' /\
    last_receive_result (drv w') = last_receive_result (drv w) /\
    ticks evs <= ticks (pre ++ evs).
Proof.
  intros (Hf & Hq & Hc & Hz).
  rewrite line_only_app in Hq. apply andb_prop in Hq as [Hq1 Hq2].
  destruct (env_run_line pre evs w Hf Hq1 ltac:(congruence) Hz)
    as (w' & H & A & C & Z & R & T).
  exists w'. split; [exact H|]. split; [|auto].
  split; [apply A|]. split; [exact Hq2|]. split; [congruence | exact Z].
Qed.

Lemma interrupts_rest k evs w :
  rx_at_rest evs w ->
  exists evs' w',
    interrupts k evs w = Ret tt evs' w' /\
    rx_at_rest evs' w' /\
    stream_advances evs w evs' w' /\
    last_receive_result (drv w') = last_receive_result (drv w) /\
    ticks evs' <= ticks evs.
Proof.
  intro Hr. rewrite <- (firstn_skipn k evs) in Hr.
  destruct (env_run_rest _ _ _ Hr) as (w' & H & Hr' & A & R & T).
  rewrite (firstn_skipn k evs) in A, T.
  exists (skipn k evs), w'. unfold interrupts. rewrite H. auto.
Qed.

(** *** The copy loop on a chunk that is there *)

Lemma rx_at_rest_streaming evs w : rx_at_rest evs w -> rx_streaming w.
Proof. intros ((Hs & _) & _). exact Hs. Qed.

Lemma streaming_buffer w :
  rx_streaming w ->
  exists rb cells,
    rx_buffer (drv w) = Some rb /\ rb_buffer rb = Some cells /\
    ring_well_formed rb.
Proof.
  intros (p & rb & v & _ & Hrb & Hwf & _).
  pose proof Hwf as ((cells & Hc & _) & _).
  exists rb, cells. auto.
Qed.

(** One pass of the copy loop on a chunk that is in the ring buffer: it
    copies the run up to the end of the store or the whole chunk,
    whichever is shorter, and a second pass starts at the first cell. *)
Lemma grab_pass_present fuel when k ts out evs w :
  rx_at_rest evs w ->
  0 < ts <= rx_used w ->
  let n := Z.min (rx_capacity w - rx_head w) ts in
  exists evs' w',
    1 <= n /\
    grab_data (S fuel) when k ts out evs w
    = (if ts - n =? 0
       then Ret (out ++ firstn (Z.to_nat n) (bytes_ahead evs w)) evs' w'
       else grab_data fuel when (S k) (ts - n)
              (out ++ firstn (Z.to_nat n) (bytes_ahead evs w)) evs' w') /\
    rx_at_rest evs' w' /\
    rx_capacity w' = rx_capacity w /\
    bytes_ahead evs' w' = skipn (Z.to_nat n) (bytes_ahead evs w) /\
    last_receive_result (drv w') = last_receive_result (drv w) /\
    ticks evs' <= ticks evs /\
    ts - n <= rx_used w' /\
    (n < ts -> rx_head w' = 0).
Proof.
  intros Hr Hts n.
  rewrite grab_data_unfold.
  destruct (interrupts_rest (when (before_get_data k)) evs w Hr)
    as (e1 & w1 & H1 & Hr1 & A1 & R1 & T1).
  rewrite (bind_Ret_eq _ _ _ _ _ _ _ H1).
  destruct (streaming_buffer w1 (rx_at_rest_streaming _ _ Hr1))
    as (rb1 & cells1 & Hrb1 & Hc1 & Hwf1).
  rewrite (bind_deref _ _ _ _ _ Hrb1). cbv zeta.
  destruct (interrupts_rest (when (before_memcpy k)) e1 w1 Hr1)
    as (e2 & w2 & H2 & Hr2 & A2 & R2 & T2).
  rewrite (bind_Ret_eq _ _ _ _ _ _ _ H2).
  destruct (streaming_buffer w2 (rx_at_rest_streaming _ _ Hr2))
    as (rb2 & cells2 & Hrb2 & Hc2 & Hwf2).
  rewrite (bind_deref _ _ _ _ _ Hrb2).
  rewrite (bind_deref _ _ _ _ cells2); [|exact Hc2].
  destruct (interrupts_rest (when (before_consume k)) e2 w2 Hr2)
    as (e3 & w3 & H3 & Hr3 & A3 & R3 & T3).
  rewrite (bind_Ret_eq _ _ _ _ _ _ _ H3).
  destruct (streaming_buffer w3 (rx_at_rest_streaming _ _ Hr3))
    as (rb3 & cells3 & Hrb3 & Hc3 & Hwf3).
  rewrite (bind_deref _ _ _ _ _ Hrb3). rewrite bind_modify.
  (* the run found by ring_buffer_get_data *)
  pose proof Hwf1 as (_ & Hsz1 & Hh1 & _).
  pose proof (used_space_bounds rb1 Hwf1) as Hu1.
  destruct A1 as (F1 & C1 & B1 & HD1 & U1).
  rewrite (rx_capacity_of w1 rb1 Hrb1) in C1.
  rewrite (rx_head_of w1 rb1 Hrb1) in HD1.
  rewrite (rx_used_of w1 rb1 Hrb1) in U1.
  assert (En : MIN (snd (ring_buffer_get_data rb1)) ts = n).
  { unfold ring_buffer_get_data. cbn [snd].
    rewrite wrap32_small, !MIN_min by lia. subst n. lia. }
  rewrite En.
  assert (Hn : 1 <= n <= ts) by (subst n; lia).
  assert (Hn1 : 0 <= n <= snd (ring_buffer_get_data rb1)).
  { unfold ring_buffer_get_data. cbn [snd].
    rewrite wrap32_small, MIN_min by lia. subst n. lia. }
  destruct (copy_pass e1 w1 e2 w2 e3 w3 rb1 rb2 rb3 cells2 n
              F1 A2 A3 Hrb1 Hrb2 Hrb3 Hc2 Hn1)
    as (Hf4 & Hc4 & Hread & Hrest & Hlen).
  set (w4 := upd_drv (set_rx_buffer (Some (ring_buffer_consume rb3 n))) w3) in *.
  rewrite B1 in Hread, Hrest.
  change (fst (ring_buffer_get_data rb1)) with (rb_head rb1).
  rewrite Hread.
  rewrite wrap32_small by lia.
  replace (n =? 0) with false by (symmetry; apply Z.eqb_neq; lia).
  cbn [andb]. cbv iota.
  (* the ring buffer after the pass *)
  destruct A2 as (_ & C2 & _ & HD2 & U2).
  destruct A3 as (_ & C3 & _ & HD3 & U3).
  rewrite (rx_head_of w1 rb1 Hrb1), (rx_head_of w2 rb2 Hrb2) in HD2.
  rewrite (rx_head_of w2 rb2 Hrb2), (rx_head_of w3 rb3 Hrb3) in HD3.
  rewrite (rx_used_of w1 rb1 Hrb1), (rx_used_of w2 rb2 Hrb2) in U2.
  rewrite (rx_used_of w2 rb2 Hrb2), (rx_used_of w3 rb3 Hrb3) in U3.
  rewrite (rx_capacity_of w1 rb1 Hrb1), (rx_capacity_of w2 rb2 Hrb2) in C2.
  rewrite (rx_capacity_of w2 rb2 Hrb2), (rx_capacity_of w3 rb3 Hrb3) in C3.
  destruct (ring_take rb3 cells3 n Hwf3 Hc3 ltac:(lia) ltac:(lia) ltac:(lia))
    as (_ & _ & _ & Hused' & _ & _).
  assert (Hhead' : rb_head (ring_buffer_consume rb3 n)
                   = (rb_head rb3 + n) mod rb_size rb3).
  { unfold ring_buffer_consume. cbn [rb_head set_rb_head].
    rewrite wrap32_small by lia. reflexivity. }
  exists e3, w4. split; [lia|].
  split; [destruct (ts - n =? 0); reflexivity|].
  destruct Hr3 as (_ & Q3 & K3 & Z3).
  split; [split; [exact Hf4 | split; [exact Q3 | split; [exact K3 | exact Z3]]]|].
  split; [rewrite Hc4, (rx_capacity_of w1 rb1 Hrb1); lia|].
  split; [exact Hrest|].
  split; [change (last_receive_result (drv w4))
            with (last_receive_result (drv w3)); congruence|].
  split; [lia|].
  unfold rx_used, rx_head. subst w4. cbn [drv upd_drv rx_buffer set_rx_buffer].
  rewrite Hused', Hhead'. split; [lia|].
  intro Hlt. replace (rb_head rb3 + n) with (rb_size rb3) by (subst n; lia).
  apply Z.mod_same. lia.
Qed.

(** The chunk is copied by one pass of the copy loop, or by two when it
    wraps around the end of the store. *)
Lemma grab_data_present fuel when k ts out evs w :
  rx_at_rest evs w ->
  0 < ts <= rx_used w ->
  exists evs' w',
    grab_data (S (S fuel)) when k ts out evs w
    = Ret (out ++ firstn (Z.to_nat ts) (bytes_ahead evs w)) evs' w' /\
    rx_at_rest evs' w' /\
    rx_capacity w' = rx_capacity w /\
    bytes_ahead evs' w' = skipn (Z.to_nat ts) (bytes_ahead evs w) /\
    last_receive_result (drv w') = last_receive_result (drv w) /\
    ticks evs' <= ticks evs.
Proof.
  intros Hr Hts.
  destruct (grab_pass_present (S fuel) when k ts out evs w Hr Hts)
    as (e1 & w1 & Hn & H & Hr1 & C1 & B1 & R1 & T1 & U1 & HD1).
  set (n := Z.min (rx_capacity w - rx_head w) ts) in *.
  destruct (ts - n =? 0) eqn:Ez.
  - apply Z.eqb_eq in Ez. replace n with ts in * by lia.
    exists e1, w1. split; [exact H|]. split; [exact Hr1|]. split; [exact C1|].
    split; [exact B1|]. split; [exact R1 | exact T1].
  - apply Z.eqb_neq in Ez.
    assert (Hts1 : 0 < ts - n <= rx_used w1) by lia.
    destruct (grab_pass_present fuel when (S k) (ts - n)
                (out ++ firstn (Z.to_nat n) (bytes_ahead evs w)) e1 w1 Hr1 Hts1)
      as (e2 & w2 & Hn2 & H2 & Hr2 & C2 & B2 & R2 & T2 & _).
    rewrite HD1 in H2, Hn2, B2 by lia.
    pose proof (streaming_buffer w1 (rx_at_rest_streaming _ _ Hr1))
      as (rb1 & cells1 & Hrb1 & _ & Hwf1).
    pose proof (used_space_bounds rb1 Hwf1) as Hu1.
    rewrite (rx_used_of w1 rb1 Hrb1) in Hts1.
    rewrite (rx_capacity_of w1 rb1 Hrb1) in H2, Hn2, B2.
    replace (Z.min (rb_size rb1 - 0) (ts - n)) with (ts - n) in H2, Hn2, B2 by lia.
    rewrite Z.sub_diag in H2. cbn [Z.eqb] in H2.
    exists e2, w2. split.
    + rewrite H, H2. f_equal. rewrite <- app_assoc. f_equal.
      rewrite B1, firstn_then_skipn. f_equal. lia.
    + split; [exact Hr2|]. split; [congruence|].
      split; [rewrite B2, B1, skipn_skipn; f_equal; lia|].
      split; [congruence | lia].
Qed.

(** *** The wait for a chunk *)

(** A run of bytes and milliseconds with a waiter announced for [chunk]
    bytes: either the chunk is not there yet and the waiter is still
    announced, or the handler has signalled it and withdrawn the
    announcement. *)
Lemma env_run_armed chunk pre : forall evs w,
  rx_fits (pre ++ evs) w ->
  line_only (pre ++ evs) = true ->
  rx_complete (drv w) = Some false ->
  rx_size (drv w) = chunk ->
  0 < chunk ->
  rx_used w < chunk ->
  exists w',
    env_run pre w = Some w' /\
    stream_advances (pre ++ evs) w evs w' /\
    line_only evs = true /\
    last_receive_result (drv w') = last_receive_result (drv w) /\
    ticks evs <= ticks (pre ++ evs) /\
    ((rx_complete (drv w') = Some false /\ rx_size (drv w') = chunk /\
      rx_used w' < chunk)
     \/ (rx_complete (drv w') = Some true /\ rx_size (drv w') = 0 /\
         chunk <= rx_used w')).
Proof.
  induction pre as [|e pre IH]; intros evs w Hf Hq Hc Hsz Hch Hlt;
    cbn [env_run app] in *.
  - exists w. split; [reflexivity|].
    split; [apply stream_advances_refl; exact Hf|].
    split; [exact Hq|]. split; [reflexivity|]. split; [lia|]. left. auto.
  - pose proof Hq as Hq0.
    cbn [line_only forallb] in Hq. apply andb_prop in Hq as [He Hq].
    pose proof (ticks_cons e (pre ++ evs)) as Ht.
    destruct e; try discriminate.
    + (* a millisecond passes *)
      cbn [env_step].
      assert (Hf1 : rx_fits (pre ++ evs) w).
      { destruct Hf as [Hs Hb]. split; [exact Hs|].
        unfold bytes_ahead in *. cbn [bytes_arriving] in Hb. exact Hb. }
      destruct (IH evs w Hf1 Hq Hc Hsz Hch Hlt)
        as (w' & H & A & Q & R & T & D).
      exists w'. split; [exact H|]. split; [|split; [exact Q|]].
      * destruct A as (A1 & A2 & A3 & A4 & A5). split; [exact A1|].
        split; [exact A2|]. split; [|auto].
        rewrite A3. unfold bytes_ahead. reflexivity.
      * split; [exact R|]. split; [lia | exact D].
    + (* a byte arrives *)
      pose proof Hf as [Hs Hb].
      destruct (uart_rx_defined b w Hs) as [w1 E]; [rewrite Hc; discriminate|].
      rewrite E.
      pose proof (env_step_advances _ _ _ _ Hf E) as A1.
      pose proof (line_event_keeps_result _ _ _ He E) as R1.
      destruct (streaming_buffer w Hs) as (rb & cells & Hrb & _ & Hwf).
      rewrite (rx_used_of w rb Hrb) in Hlt.
      assert (Hfree : ring_buffer_used_space rb < rb_size rb - 1).
      { rewrite (rx_capacity_of w rb Hrb) in Hb.
        rewrite (length_bytes_ahead _ w rb Hrb Hwf) in Hb.
        cbn [app bytes_arriving length] in Hb. lia. }
      destruct (env_step_byte b w w1 rb Hs Hrb Hfree E)
        as (Hs1 & rb1 & Hrb1 & Hsz1 & Hc1 & Hu1 & Hrs1 & Hrc1).
      rewrite Hsz in Hrs1, Hrc1.
      replace (0 <? chunk) with true in Hrs1, Hrc1
        by (symmetry; apply Z.ltb_lt; lia).
      cbn [andb] in Hrs1, Hrc1.
      destruct (chunk <=? ring_buffer_used_space rb + 1) eqn:En.
      * apply Z.leb_le in En.
        pose proof Hq as Hq'.
        rewrite line_only_app in Hq'. apply andb_prop in Hq' as [Hqa Hqb].
        destruct (env_run_line pre evs w1 (proj1 A1) Hqa
                    ltac:(rewrite Hrc1; discriminate) Hrs1)
          as (w' & H & A' & C' & Z' & R' & T').
        exists w'. split; [exact H|].
        split; [exact (stream_advances_trans _ _ _ _ _ _ A1 A')|].
        split; [exact Hqb|]. split; [congruence|]. split; [lia|].
        right. split; [congruence|]. split; [exact Z'|].
        destruct A' as (_ & _ & _ & _ & U').
        rewrite (rx_used_of w1 rb1 Hrb1) in U'. lia.
      * apply Z.leb_gt in En. rewrite Hc in Hrc1.
        destruct (IH evs w1 (proj1 A1) Hq Hrc1 Hrs1 Hch)
          as (w' & H & A' & Q' & R' & T' & D').
        { rewrite (rx_used_of w1 rb1 Hrb1). lia. }
        exists w'. split; [exact H|].
        split; [exact (stream_advances_trans _ _ _ _ _ _ A1 A')|].
        split; [exact Q'|]. split; [congruence|]. split; [lia | exact D'].
Qed.

(** A wait for a chunk that the schedule brings before any deadline: it
    returns success as soon as the chunk is in the ring buffer, and the
    handler has withdrawn the announcement of the waiter. *)
Lemma rx_wait_delivers chunk evs : forall t w,
  rx_fits evs w ->
  line_only evs = true ->
  rx_complete (drv w) = Some false ->
  rx_size (drv w) = chunk ->
  0 < chunk ->
  rx_used w < chunk ->
  chunk <= Z.of_nat (length (bytes_ahead evs w)) ->
  ticks evs < t ->
  exists evs' w',
    sem_wait sem_rx_complete t evs w = Ret kNoErr evs' w' /\
    rx_at_rest evs' w' /\
    stream_advances evs w evs' w' /\
    chunk <= rx_used w' /\
    last_receive_result (drv w') = last_receive_result (drv w) /\
    ticks evs' <= ticks evs.
Proof.
  induction evs as [|e evs IH]; intros t w Hf Hq Hc Hsz Hch Hlt Hfit Ht.
  - exfalso. destruct (streaming_buffer w (proj1 Hf)) as (rb & cells & Hrb & _ & Hwf).
    rewrite (length_bytes_ahead _ w rb Hrb Hwf) in Hfit.
    rewrite (rx_used_of w rb Hrb) in Hlt. simpl in Hfit. lia.
  - assert (Ht0 : (t =? 0) = false).
    { apply Z.eqb_neq. unfold ticks in Ht. lia. }
    assert (Hone : exists w1,
              env_run [e] w = Some w1 /\
              stream_advances (e :: evs) w evs w1 /\
              line_only evs = true /\
              last_receive_result (drv w1) = last_receive_result (drv w) /\
              ticks evs <= ticks (e :: evs) /\
              ((rx_complete (drv w1) = Some false /\ rx_size (drv w1) = chunk /\
                rx_used w1 < chunk)
               \/ (rx_complete (drv w1) = Some true /\ rx_size (drv w1) = 0 /\
                   chunk <= rx_used w1)))
      by exact (env_run_armed chunk [e] evs w Hf Hq Hc Hsz Hch Hlt).
    destruct Hone as (w1 & E & A1 & Q1 & R1 & T1 & D1).
    cbn [env_run] in E.
    destruct (env_step e w) as [w1'|] eqn:E1; [|discriminate].
    inversion E. subst w1'. clear E.
    rewrite (sem_wait_step _ _ _ _ _ w1); [|exact Hc | exact Ht0 | exact E1].
    destruct D1 as [(C1 & Z1 & U1) | (C1 & Z1 & U1)].
    + assert (Ht1 : ticks evs < tick_down e t).
      { unfold ticks in *. destruct e; cbn [tick_down filter is_Tick length] in *;
          try lia.
        destruct (t =? MICO_NEVER_TIMEOUT); lia. }
      destruct (IH (tick_down e t) w1 (proj1 A1) Q1 C1 Z1 Hch U1)
        as (evs' & w' & H & Hr' & A' & U' & R' & T'); [|exact Ht1|].
      { destruct A1 as (_ & _ & B1 & _). rewrite B1. exact Hfit. }
      exists evs', w'. split; [exact H|]. split; [exact Hr'|].
      split; [exact (stream_advances_trans _ _ _ _ _ _ A1 A')|].
      split; [exact U'|]. split; [congruence | lia].
    + rewrite (sem_wait_token sem_rx_complete _ evs w1) by exact C1.
      set (w2 := upd_drv (put_sem sem_rx_complete (Some false)) w1).
      assert (A2 : stream_advances evs w1 evs w2)
        by (apply stream_advances_frame; try reflexivity; apply A1).
      exists evs, w2. split; [reflexivity|].
      split; [split; [apply A2 | split; [exact Q1 | split; [reflexivity | exact Z1]]]|].
      split; [exact (stream_advances_trans _ _ _ _ _ _ A1 A2)|].
      split; [exact U1|]. split; [exact R1 | exact T1].
Qed.

(** The interrupts before the wait, and the wait. *)
Lemma armed_wait chunk k t evs w :
  rx_fits evs w ->
  line_only evs = true ->
  rx_complete (drv w) = Some false ->
  rx_size (drv w) = chunk ->
  0 < chunk ->
  rx_used w < chunk ->
  chunk <= Z.of_nat (length (bytes_ahead evs w)) ->
  ticks evs < t ->
  exists evs' w',
    (interrupts k ;; mico_rtos_get_semaphore sem_rx_complete t) evs w
    = Ret kNoErr evs' w' /\
    rx_at_rest evs' w' /\
    stream_advances evs w evs' w' /\
    chunk <= rx_used w' /\
    last_receive_result (drv w') = last_receive_result (drv w) /\
    ticks evs' <= ticks evs.
Proof.
  intros Hf Hq Hc Hsz Hch Hlt Hfit Ht.
  rewrite <- (firstn_skipn k evs) in Hf, Hq.
  destruct (env_run_armed chunk _ _ w Hf Hq Hc Hsz Hch Hlt)
    as (w1 & H & A1 & Q1 & R1 & T1 & D1).
  rewrite (firstn_skipn k evs) in A1, T1.
  assert (Hi : interrupts k evs w = Ret tt (skipn k evs) w1)
    by (unfold interrupts; rewrite H; reflexivity).
  rewrite (bind_Ret_eq _ _ _ _ _ _ _ Hi).
  unfold mico_rtos_get_semaphore.
  set (wa := log (GetSemaphore sem_rx_complete t) w1).
  assert (Aa : stream_advances (skipn k evs) w1 (skipn k evs) wa)
    by (apply stream_advances_frame; try reflexivity; apply A1).
  pose proof (stream_advances_trans _ _ _ _ _ _ A1 Aa) as A2.
  destruct D1 as [(C1 & Z1 & U1) | (C1 & Z1 & U1)].
  - destruct (rx_wait_delivers chunk (skipn k evs) t wa (proj1 Aa) Q1 C1 Z1 Hch)
      as (evs' & w' & Hw & Hr' & A' & U' & R' & T').
    + exact U1.
    + destruct A2 as (_ & _ & B2 & _). rewrite B2. exact Hfit.
    + lia.
    + exists evs', w'. split; [exact Hw|]. split; [exact Hr'|].
      split; [exact (stream_advances_trans _ _ _ _ _ _ A2 A')|].
      split; [exact U'|]. split; [|lia].
      rewrite R'. exact R1.
  - rewrite (sem_wait_token sem_rx_complete _ _ wa) by exact C1.
    set (w2 := upd_drv (put_sem sem_rx_complete (Some false)) wa).
    assert (A3 : stream_advances (skipn k evs) wa (skipn k evs) w2)
      by (apply stream_advances_frame; try reflexivity; apply Aa).
    exists (skipn k evs), w2. split; [reflexivity|].
    split; [split; [apply A3 | split; [exact Q1 | split; [reflexivity | exact Z1]]]|].
    split; [exact (stream_advances_trans _ _ _ _ _ _ A2 A3)|].
    split; [exact U1|]. split; [exact R1 | exact T1].
Qed.

(** *** Delivery *)

(** The buffered loop on a schedule that brings the requested bytes
    before any deadline, when no interrupt comes between the test of the
    used space and the store of rx_size. *)
Lemma receive_buffered_delivers fuel :
  forall when pass expected t out evs w,
    rx_at_rest evs w ->
    last_receive_result (drv w) = kNoErr ->
    (forall p, when p before_result_store = 0%nat) ->
    (forall p, when p before_rx_size_store = 0%nat) ->
    0 <= expected < 4294967296 ->
    expected <= Z.of_nat (length (bytes_ahead evs w)) ->
    ticks evs < t ->
    (Z.to_nat expected <= fuel)%nat ->
    exists evs' w',
      receive_buffered fuel when pass expected t kNoErr out evs w
      = Ret (kNoErr, out ++ firstn (Z.to_nat expected) (bytes_ahead evs w))
            evs' w' /\
      rx_at_rest evs' w' /\
      bytes_ahead evs' w' = skipn (Z.to_nat expected) (bytes_ahead evs w) /\
      last_receive_result (drv w') = kNoErr /\
      ticks evs' <= ticks evs.
Proof.
  induction fuel as [|fuel IH];
    intros when pass expected t out evs w Hr Hres Hw1 Hw2 He Hfit Ht Hf.
  - rewrite receive_buffered_out_of_fuel.
    replace expected with 0 by lia. simpl. rewrite app_nil_r.
    exists evs, w. split; [reflexivity|]. split; [exact Hr|].
    split; [reflexivity|]. split; [exact Hres | lia].
  - destruct (Z.eq_dec expected 0) as [-> | Hz].
    { rewrite receive_buffered_unfold. simpl. rewrite app_nil_r.
      exists evs, w. split; [reflexivity|]. split; [exact Hr|].
      split; [reflexivity|]. split; [exact Hres | lia]. }
    rewrite receive_buffered_unfold.
    replace (expected =? 0) with false by (symmetry; apply Z.eqb_neq; exact Hz).
    destruct (interrupts_rest (when pass before_chunk_size) evs w Hr)
      as (e1 & w1 & H1 & Hr1 & A1 & R1 & T1).
    rewrite (bind_Ret_eq _ _ _ _ _ _ _ H1).
    destruct (streaming_buffer w1 (rx_at_rest_streaming _ _ Hr1))
      as (rb & cells & Hrb & _ & Hwf).
    rewrite (bind_deref _ _ _ _ _ Hrb). cbv zeta.
    pose proof Hwf as (_ & Hsz & _).
    assert (Hhalf : 1 <= rb_size rb / 2) by (apply Z.div_le_lower_bound; lia).
    rewrite MIN_min.
    set (chunk := Z.min (rb_size rb / 2) expected) in *.
    assert (Hchunk : 0 < chunk <= rb_size rb / 2 /\ chunk <= expected) by lia.
    destruct (interrupts_rest (when pass before_used_space_test) e1 w1 Hr1)
      as (e2 & w2 & H2 & Hr2 & A2 & R2 & T2).
    rewrite (bind_Ret_eq _ _ _ _ _ _ _ H2).
    destruct (streaming_buffer w2 (rx_at_rest_streaming _ _ Hr2))
      as (rb0 & cells0 & Hrb0 & _ & Hwf0).
    rewrite (bind_deref _ _ _ _ _ Hrb0).
    pose proof (stream_advances_trans _ _ _ _ _ _ A1 A2) as A02.
    assert (Hwait : exists e3 w3,
              (if ring_buffer_used_space rb0 <? chunk
               then interrupts (when pass before_result_store) ;;
                    modify (upd_drv (set_last_receive_result kNoErr)) ;;
                    interrupts (when pass before_rx_size_store) ;;
                    modify (upd_drv (set_rx_size chunk)) ;;
                    interrupts (when pass before_wait) ;;
                    e <- mico_rtos_get_semaphore sem_rx_complete t ;;
                    interrupts (when pass before_rx_size_reset) ;;
                    modify (upd_drv (set_rx_size 0)) ;;
                    ret e
               else ret kNoErr) e2 w2 = Ret kNoErr e3 w3 /\
              rx_at_rest e3 w3 /\
              stream_advances evs w e3 w3 /\
              chunk <= rx_used w3 /\
              last_receive_result (drv w3) = kNoErr /\
              ticks e3 <= ticks evs).
    { destruct (ring_buffer_used_space rb0 <? chunk) eqn:Elt.
      - apply Z.ltb_lt in Elt.
        rewrite Hw1, Hw2.
        change (interrupts 0) with (fun evs w => Ret tt evs w).
        unfold bind at 1. unfold bind at 1, modify at 1.
        unfold bind at 1. unfold bind at 1, modify at 1.
        set (wa := upd_drv (set_rx_size chunk)
                     (upd_drv (set_last_receive_result kNoErr) w2)).
        assert (Aa : stream_advances e2 w2 e2 wa)
          by (apply stream_advances_frame; try reflexivity; apply Hr2).
        destruct Hr2 as (_ & Q2 & C2 & Z2).
        destruct (armed_wait chunk (when pass before_wait) t e2 wa
                    (proj1 Aa) Q2 C2 eq_refl (proj1 (proj1 Hchunk)))
          as (e3 & w3 & Hw & Hr3 & A3 & U3 & R3 & T3).
        + unfold rx_used. cbn [drv upd_drv rx_buffer set_rx_size
                               set_last_receive_result wa].
          rewrite Hrb0. exact Elt.
        + destruct (stream_advances_trans _ _ _ _ _ _ A02 Aa) as (_ & _ & Ba & _).
          rewrite Ba. lia.
        + lia.
        + rewrite <- bind_assoc.
          refine (let Hb := bind_Ret_eq _ _ _ _ _ _ _ Hw in _).
          rewrite Hb. clear Hb.
          destruct (interrupts_rest (when pass before_rx_size_reset) e3 w3 Hr3)
            as (e4 & w4 & H4 & Hr4 & A4 & R4 & T4).
          rewrite (bind_Ret_eq _ _ _ _ _ _ _ H4).
          rewrite bind_modify. unfold ret.
          set (w5 := upd_drv (set_rx_size 0) w4).
          assert (A5 : stream_advances e4 w4 e4 w5)
            by (apply stream_advances_frame; try reflexivity; apply Hr4).
          exists e4, w5. split; [reflexivity|].
          destruct Hr4 as (_ & Q4 & C4 & Z4).
          split; [split; [apply A5 | split; [exact Q4 | split; [exact C4 | reflexivity]]]|].
          split.
          { apply (stream_advances_trans _ _ _ _ _ _ A02).
            apply (stream_advances_trans _ _ _ _ _ _ Aa).
            apply (stream_advances_trans _ _ _ _ _ _ A3).
            exact (stream_advances_trans _ _ _ _ _ _ A4 A5). }
          split.
          { destruct A4 as (_ & _ & _ & _ & U4).
            destruct A5 as (_ & _ & _ & _ & U5). lia. }
          split; [|lia].
          change (last_receive_result (drv w5)) with (last_receive_result (drv w4)).
          rewrite R4, R3. reflexivity.
      - apply Z.ltb_ge in Elt. exists e2, w2. split; [reflexivity|].
        split; [exact Hr2|]. split; [exact A02|].
        split; [rewrite (rx_used_of w2 rb0 Hrb0); exact Elt|].
        split; [congruence | lia]. }
    destruct Hwait as (e3 & w3 & H3 & Hr3 & A3 & U3 & R3 & T3).
    rewrite (bind_Ret_eq _ _ _ _ _ _ _ H3).
    cbn [OSStatus_eqb].
    destruct (interrupts_rest (when pass before_result_read) e3 w3 Hr3)
      as (e4 & w4 & H4 & Hr4 & A4 & R4 & T4).
    rewrite (bind_Ret_eq _ _ _ _ _ _ _ H4).
    rewrite bind_read.
    pose proof (stream_advances_trans _ _ _ _ _ _ A3 A4) as A04.
    assert (U4 : 0 < chunk <= rx_used w4).
    { destruct A4 as (_ & _ & _ & _ & U4). lia. }
    destruct (grab_data_present (Z.to_nat chunk - 1 + length e4)
                (when pass) 0 chunk out e4 w4 Hr4 U4)
      as (e5 & w5 & Hg & Hr5 & C5 & B5 & R5 & T5).
    replace (S (S (Z.to_nat chunk - 1 + length e4)))
      with (S (Z.to_nat chunk + length e4)) in Hg by lia.
    rewrite (bind_Ret_eq
               (fun e v => grab_data
                             (S (Z.to_nat chunk + length e)) (when pass) 0
                             chunk out e v)
               _ e4 w4 _ _ _ Hg).
    rewrite wrap32_small by lia.
    destruct A04 as (_ & _ & B04 & _). rewrite B04 in Hg, B5 |- *.
    assert (Hres4 : last_receive_result (drv w4) = kNoErr) by congruence.
    rewrite Hres4.
    destruct (IH when (S pass) (expected - chunk) t
                (out ++ firstn (Z.to_nat chunk) (bytes_ahead evs w)) e5 w5 Hr5)
      as (evs' & w' & Hrun & Hr' & B' & R' & T'); try assumption.
    + congruence.
    + lia.
    + rewrite B5, length_skipn. lia.
    + lia.
    + lia.
    + exists evs', w'. split.
      { rewrite Hrun. f_equal. f_equal.
        rewrite <- app_assoc. f_equal.
        rewrite B5, firstn_then_skipn. f_equal. lia. }
      split; [exact Hr'|].
      split; [rewrite B', B5, skipn_skipn; f_equal; lia|].
      split; [exact R' | lia].
Qed.

(** *** The lost wake-up *)

Lemma sem_wait_times_out s : forall (m : nat) t rest w,
  get_sem s (drv w) = Some false ->
  t = Z.of_nat m ->
  t < MICO_NEVER_TIMEOUT ->
  sem_wait s t (repeat Tick m ++ rest) w = Ret kTimeoutErr rest w.
Proof.
  induction m as [|m IH]; intros t rest w Hs Ht Hlt.
  - subst t. cbn [repeat app]. destruct rest; simpl; rewrite Hs; reflexivity.
  - cbn [repeat app].
    rewrite (sem_wait_step s t Tick _ w w Hs); [|apply Z.eqb_neq; lia | reflexivity].
    apply IH; [exact Hs | |].
    + cbn [tick_down].
      replace (t =? MICO_NEVER_TIMEOUT) with false
        by (symmetry; apply Z.eqb_neq; lia).
      lia.
    + cbn [tick_down]. destruct (t =? MICO_NEVER_TIMEOUT); lia.
Qed.


(** ** Chunking *)





(** ** The buffered receive: what a caller can rely on *)

(** X13: a buffered receive call accounts for every byte, whatever it
    returns and wherever interrupts fall between its statements, as long
    as the ring buffer is large enough for the bytes it holds together
    with those that arrive in the schedule.  The bytes the call has
    copied to the caller are the first bytes that were in the ring buffer
    or then arrived, in their order, and they are exactly the bytes it
    has taken: what follows them is what the next call receives.  The
    call copies fewer bytes than requested only when it returns a timeout
    error; the chunks copied before the time-out are then gone from the
    ring buffer. *)
Theorem buffered_receive_accounts_for_every_byte :
  forall when data_in n t evs w r out evs' w',
    rx_streaming w ->
    Z.of_nat (length (bytes_ahead evs w)) < rx_capacity w ->
    data_in <> NULL -> 0 < n < 4294967296 ->
    platform_uart_receive_bytes when driver_instance data_in n t
      evs w
    = Ret (r, out) evs' w' ->
    rx_streaming w' /\
    bytes_ahead evs w = out ++ bytes_ahead evs' w' /\
    Z.of_nat (length out) <= n /\
    (Z.of_nat (length out) < n -> r = kTimeoutErr).
Proof.
  intros when data_in n t evs w r out evs' w' Hs Hb Hd Hn H.
  destruct (receive_accounts when data_in n t evs w r out evs' w'
              (conj Hs Hb) Hd Hn H) as ((Hs' & _) & R).
  split; [exact Hs' | exact R].
Qed.

Lemma buffered_receive_accounts_for_every_byte_witness :
  platform_uart_receive_bytes outside_the_window driver_instance
    caller_buffer 6 3 four_bytes_then_long_silence (board_buffered 8)
  = Ret (kTimeoutErr, [Byte.x41; Byte.x42; Byte.x43; Byte.x44])
        [UartRx Byte.x45; UartRx Byte.x46]
        (final_world
           (platform_uart_receive_bytes outside_the_window
              driver_instance caller_buffer 6 3 four_bytes_then_long_silence
              (board_buffered 8)))
  /\ bytes_ahead four_bytes_then_long_silence (board_buffered 8)
     = [Byte.x41; Byte.x42; Byte.x43; Byte.x44]
       ++ bytes_ahead [UartRx Byte.x45; UartRx Byte.x46]
            (final_world
               (platform_uart_receive_bytes outside_the_window
                  driver_instance caller_buffer 6 3
                  four_bytes_then_long_silence (board_buffered 8))).
Proof.
  assert (H : platform_uart_receive_bytes outside_the_window
                driver_instance caller_buffer 6 3 four_bytes_then_long_silence
                (board_buffered 8)
              = Ret (kTimeoutErr, [Byte.x41; Byte.x42; Byte.x43; Byte.x44])
                    [UartRx Byte.x45; UartRx Byte.x46]
                    (final_world
                       (platform_uart_receive_bytes
                          outside_the_window driver_instance caller_buffer 6 3
                          four_bytes_then_long_silence (board_buffered 8))))
    by (vm_compute; reflexivity).
  split; [exact H|].
  refine (proj1 (proj2 (buffered_receive_accounts_for_every_byte
                          outside_the_window caller_buffer 6 3
                          four_bytes_then_long_silence (board_buffered 8)
                          _ _ _ _
                          board_buffered_streaming _ _ _ H))).
  - vm_compute. reflexivity.
  - discriminate.
  - lia.
Defined.

(** X18: a buffered receive call delivers, provided no interrupt falls
    between its test of the used space and its store of rx_size.  With
    reception running, no waiter announced, no stale completion token and
    a clean last result, on a schedule in which only bytes arrive and
    time passes, that brings the missing bytes, holds fewer milliseconds
    than the timeout and does not overrun the ring buffer: wherever else
    the interrupts fall, the call returns success with exactly the first
    [n] bytes of those in the ring buffer followed by those arriving, in
    their order, and leaves the following bytes for the next call. *)
Theorem buffered_receive_delivers :
  forall when data_in n t evs w,
    rx_streaming w ->
    rx_complete (drv w) = Some false ->
    rx_size (drv w) = 0 ->
    last_receive_result (drv w) = kNoErr ->
    (forall pass, when pass before_result_store = 0%nat) ->
    (forall pass, when pass before_rx_size_store = 0%nat) ->
    data_in <> NULL ->
    0 < n < 4294967296 ->
    line_only evs = true ->
    n <= Z.of_nat (length (bytes_ahead evs w)) < rx_capacity w ->
    ticks evs < t ->
    exists evs' w',
      platform_uart_receive_bytes when driver_instance data_in n t
        evs w
      = Ret (kNoErr, firstn (Z.to_nat n) (bytes_ahead evs w)) evs' w' /\
      bytes_ahead evs' w' = skipn (Z.to_nat n) (bytes_ahead evs w) /\
      rx_streaming w' /\
      rx_complete (drv w') = Some false /\
      rx_size (drv w') = 0.
Proof.
  intros when data_in n t evs w Hs Hc Hz Hres Hw1 Hw2 Hd Hn Hq Hfit Ht.
  pose proof Hs as (p & rb & v & _ & Hrb & _).
  assert (Hr : rx_at_rest evs w).
  { split; [split; [exact Hs | lia]|]. auto. }
  destruct (receive_buffered_delivers (Z.to_nat n) when 0 n t []
              evs w Hr Hres Hw1 Hw2 ltac:(lia) ltac:(lia) Ht ltac:(lia))
    as (evs' & w' & Hrun & Hr' & Hb' & _).
  exists evs', w'. split.
  - unfold platform_uart_receive_bytes.
    rewrite (valid_transmit_arguments data_in n Hd) by lia.
    rewrite bind_read, Hrb. exact Hrun.
  - split; [exact Hb'|]. destruct Hr' as ((Hs' & _) & _ & Hc' & Hz'). auto.
Qed.

Lemma buffered_receive_delivers_witness :
  exists evs' w',
    platform_uart_receive_bytes outside_the_window driver_instance
      caller_buffer 6 5 six_bytes (board_buffered 8)
    = Ret (kNoErr, [Byte.x41; Byte.x42; Byte.x43; Byte.x44; Byte.x45; Byte.x46])
          evs' w'.
Proof.
  destruct (buffered_receive_delivers outside_the_window caller_buffer 6 5
              six_bytes (board_buffered 8) board_buffered_streaming)
    as (evs' & w' & H & _).
  - vm_compute. reflexivity.
  - vm_compute. reflexivity.
  - vm_compute. reflexivity.
  - intro pass. reflexivity.
  - intro pass. reflexivity.
  - discriminate.
  - lia.
  - vm_compute. reflexivity.
  - vm_compute. split; [discriminate | reflexivity].
  - vm_compute. reflexivity.
  - exists evs', w'. rewrite H. f_equal.
Defined.

(** X22: init makes buffered receive work.  From any state of the driver
    and of the devices, after a successful init with an empty ring buffer
    of at least two cells, the first receive call, on a schedule in which
    only bytes arrive and time passes, that brings at least [n] bytes but
    fewer than the capacity and holds fewer milliseconds than the
    timeout, returns success with the first [n] bytes that arrive, in
    their order of arrival, and leaves the others for the next call:
    wherever interrupts fall in the call, except between its test of the
    used space and its store of rx_size. *)
Theorem init_then_receive_delivers :
  forall when p cfg rb data_in n t evs0 evs w,
    init_arguments_valid p cfg = true ->
    ring_well_formed rb ->
    rb_head rb = 0 -> rb_tail rb = 0 ->
    (forall pass, when pass before_result_store = 0%nat) ->
    (forall pass, when pass before_rx_size_store = 0%nat) ->
    data_in <> NULL -> 0 < n < 4294967296 ->
    line_only evs = true ->
    n <= Z.of_nat (length (bytes_arriving evs)) < rb_size rb ->
    ticks evs < t ->
    exists w1 evs' w2,
      platform_uart_init driver_instance (Some p) (Some cfg) (Some rb) evs0 w
      = Ret kNoErr evs0 w1 /\
      platform_uart_receive_bytes when driver_instance data_in n t
        evs w1
      = Ret (kNoErr, firstn (Z.to_nat n) (bytes_arriving evs)) evs' w2 /\
      bytes_ahead evs' w2 = skipn (Z.to_nat n) (bytes_arriving evs) /\
      rx_streaming w2.
Proof.
  intros when p cfg rb data_in n t evs0 evs w Hv Hwf Hh Ht Hw1 Hw2 Hd Hn Hq
         Hfit Htk.
  assert (Hr : ring_buffer_arg_ok (Some rb) = true).
  { destruct Hwf as ((cells & Hc & _) & Hsz & _).
    unfold ring_buffer_arg_ok. rewrite Hc.
    apply negb_true_iff, Z.eqb_neq. lia. }
  destruct (init_starts_streaming p cfg rb evs0 w Hv Hwf Ht) as (w1 & H1 & Hs1).
  destruct (init_world p cfg (Some rb) evs0 w Hv Hr) as (w1' & H1' & Hd1 & _).
  rewrite H1 in H1'. inversion H1'. subst w1'. clear H1'.
  assert (Hrb1 : rx_buffer (drv w1) = Some rb) by (rewrite Hd1; reflexivity).
  assert (Hempty : ring_contents rb = []).
  { pose proof (length_ring_contents rb Hwf) as Hl.
    destruct (used_space_cases rb Hwf) as [[_ Hu] | [Hlt _]]; [|lia].
    rewrite Hu, Hh, Ht in Hl. simpl in Hl.
    destruct (ring_contents rb); [reflexivity | discriminate]. }
  assert (Hahead : bytes_ahead evs w1 = bytes_arriving evs).
  { unfold bytes_ahead. rewrite Hrb1, Hempty. reflexivity. }
  destruct (receive_buffered_delivers (Z.to_nat n) when 0 n t []
              evs w1)
    as (evs' & w2 & Hrun & Hr2 & Hb2 & _); try assumption.
  - split; [split; [exact Hs1|]|].
    + rewrite Hahead, (rx_capacity_of w1 rb Hrb1). lia.
    + split; [exact Hq|]. rewrite Hd1. split; reflexivity.
  - rewrite Hd1. reflexivity.
  - lia.
  - rewrite Hahead. lia.
  - lia.
  - exists w1, evs', w2. split; [exact H1|].
    rewrite Hahead in Hrun, Hb2.
    split.
    + unfold platform_uart_receive_bytes.
      rewrite (valid_transmit_arguments data_in n Hd) by lia.
      rewrite bind_read, Hrb1. exact Hrun.
    + split; [exact Hb2 | apply Hr2].
Qed.

Lemma init_then_receive_delivers_witness :
  exists w1 evs' w2,
    platform_uart_init driver_instance (Some board_uart) (Some board_config)
      (Some (empty_ring 8)) [] world_at_reset
    = Ret kNoErr [] w1 /\
    platform_uart_receive_bytes outside_the_window driver_instance
      caller_buffer 5 100 six_bytes w1
    = Ret (kNoErr, [Byte.x41; Byte.x42; Byte.x43; Byte.x44; Byte.x45]) evs' w2.
Proof.
  destruct (init_then_receive_delivers outside_the_window board_uart
              board_config (empty_ring 8) caller_buffer 5 100 [] six_bytes
              world_at_reset)
    as (w1 & evs' & w2 & H1 & H2 & _).
  - reflexivity.
  - split; [eexists; split; reflexivity|]. simpl. lia.
  - reflexivity.
  - reflexivity.
  - intro pass. reflexivity.
  - intro pass. reflexivity.
  - discriminate.
  - lia.
  - reflexivity.
  - vm_compute. split; [discriminate | reflexivity].
  - vm_compute. reflexivity.
  - exists w1, evs', w2. split; [exact H1 | exact H2].
Defined.

(** X24: a receive call can miss its wake-up.  The call tests the used
    space (line 461) before it stores rx_size (line 465), and the handler
    signals only a waiter it finds announced.  When the bytes that
    complete the request arrive between these two statements and nothing
    arrives during the wait, the call blocks for the whole timeout and
    returns a timeout error with nothing copied, although the ring buffer
    holds the [n] bytes it was asked for. *)
Theorem buffered_receive_can_miss_its_wake_up :
  forall data_in n t pre rest w,
    rx_streaming w ->
    rx_complete (drv w) = Some false ->
    rx_size (drv w) = 0 ->
    data_in <> NULL ->
    0 < n <= rx_capacity w / 2 ->
    rx_used w < n <= rx_used w + Z.of_nat (length (bytes_arriving pre)) ->
    line_only pre = true ->
    rx_used w + Z.of_nat (length (bytes_arriving pre)) < rx_capacity w ->
    0 < t < MICO_NEVER_TIMEOUT ->
    exists w',
      platform_uart_receive_bytes
        (between_test_and_store (length pre)) driver_instance data_in n t
        (pre ++ repeat Tick (Z.to_nat t) ++ rest) w
      = Ret (kTimeoutErr, []) rest w' /\
      platform_uart_get_length_in_buffer driver_instance rest w'
      = Ret (rx_used w + Z.of_nat (length (bytes_arriving pre))) rest w' /\
      rx_size (drv w') = 0 /\
      rx_complete (drv w') = Some false.
Proof.
  intros data_in n t pre rest w Hs Hc Hz Hd Hn Hu Hq Hb Ht.
  destruct (streaming_buffer w Hs) as (rb & cells & Hrb & _ & Hwf).
  pose proof Hwf as (_ & Hsz & _).
  rewrite (rx_capacity_of w rb Hrb) in Hn, Hb.
  rewrite (rx_used_of w rb Hrb) in Hu, Hb |- *.
  unfold platform_uart_receive_bytes.
  rewrite (valid_transmit_arguments data_in n Hd) by lia.
  rewrite bind_read, Hrb.
  replace (Z.to_nat n) with (S (Z.to_nat n - 1)) by lia.
  rewrite receive_buffered_unfold.
  replace (n =? 0) with false by (symmetry; apply Z.eqb_neq; lia).
  cbn [between_test_and_store].
  rewrite bind_interrupts_none, (bind_deref _ _ _ _ _ Hrb). cbv zeta.
  rewrite bind_interrupts_none, (bind_deref _ _ _ _ _ Hrb).
  rewrite MIN_min. replace (Z.min (rb_size rb / 2) n) with n by lia.
  replace (ring_buffer_used_space rb <? n) with true
    by (symmetry; apply Z.ltb_lt; lia).
  set (wa := upd_drv (set_last_receive_result kNoErr) w).
  set (X := repeat Tick (Z.to_nat t) ++ rest).
  assert (Hfa : rx_fits (pre ++ []) wa).
  { split; [apply (rx_streaming_frame w wa); auto; reflexivity|].
    rewrite (rx_capacity_of wa rb Hrb).
    rewrite (length_bytes_ahead _ wa rb Hrb Hwf), app_nil_r. exact Hb. }
  assert (Hca : rx_complete (drv wa) <> None).
  { change (rx_complete (drv w) <> None). rewrite Hc. discriminate. }
  destruct (env_run_line pre [] wa Hfa Hq Hca Hz)
    as (w1 & H1 & A1 & C1 & Z1 & _).
  assert (Hi : interrupts (length pre) (pre ++ X) wa = Ret tt X w1).
  { unfold interrupts.
    rewrite firstn_app, firstn_all, Nat.sub_diag, app_nil_r.
    rewrite H1. f_equal.
    rewrite skipn_app, skipn_all, Nat.sub_diag. reflexivity. }
  set (wb := upd_drv (set_rx_size n) w1).
  assert (Hw : mico_rtos_get_semaphore sem_rx_complete t X wb
               = Ret kTimeoutErr rest
                   (log (GetSemaphore sem_rx_complete t) wb)).
  { unfold mico_rtos_get_semaphore. subst X.
    apply sem_wait_times_out; [|lia|lia].
    cbn [get_sem drv log upd_drv rx_complete set_rx_size wb].
    rewrite C1. exact Hc. }
  set (w' := upd_drv (set_rx_size 0) (log (GetSemaphore sem_rx_complete t) wb)).
  assert (Hblock :
    (interrupts 0 ;;
     modify (upd_drv (set_last_receive_result kNoErr)) ;;
     interrupts (length pre) ;;
     modify (upd_drv (set_rx_size n)) ;;
     interrupts 0 ;;
     e <- mico_rtos_get_semaphore sem_rx_complete t ;;
     interrupts 0 ;;
     modify (upd_drv (set_rx_size 0)) ;;
     ret e) (pre ++ X) w = Ret kTimeoutErr rest w').
  { rewrite bind_interrupts_none, bind_modify.
    rewrite (bind_Ret_eq _ _ _ _ _ _ _ Hi), bind_modify.
    rewrite bind_interrupts_none.
    rewrite (bind_Ret_eq _ _ _ _ _ _ _ Hw).
    rewrite bind_interrupts_none, bind_modify. reflexivity. }
  rewrite (bind_Ret_eq _ _ _ _ _ _ _ Hblock).
  cbn [OSStatus_eqb]. unfold ret.
  exists w'. split; [reflexivity|].
  destruct (streaming_buffer w1 (proj1 (proj1 A1))) as (rb1 & cells1 & Hrb1 & _ & Hwf1).
  destruct A1 as (_ & _ & B1 & _).
  assert (Hused : ring_buffer_used_space rb1
                  = ring_buffer_used_space rb
                    + Z.of_nat (length (bytes_arriving pre))).
  { pose proof (length_bytes_ahead [] w1 rb1 Hrb1 Hwf1) as L1.
    pose proof (length_bytes_ahead (pre ++ []) wa rb Hrb Hwf) as La.
    rewrite B1, La, app_nil_r in L1. simpl in L1. lia. }
  split.
  - unfold platform_uart_get_length_in_buffer.
    rewrite (bind_deref _ _ _ _ rb1); [|exact Hrb1].
    unfold ret. rewrite Hused. reflexivity.
  - split; [reflexivity|].
    change (rx_complete (drv w1) = Some false). rewrite C1. exact Hc.
Qed.

Lemma buffered_receive_can_miss_its_wake_up_witness :
  exists w',
    platform_uart_receive_bytes (between_test_and_store 3)
      driver_instance caller_buffer 3 2
      ([UartRx Byte.x41; UartRx Byte.x42; UartRx Byte.x43]
       ++ repeat Tick 2 ++ [UartRx Byte.x44]) (board_buffered 8)
    = Ret (kTimeoutErr, []) [UartRx Byte.x44] w' /\
    platform_uart_get_length_in_buffer driver_instance [UartRx Byte.x44] w'
    = Ret 3 [UartRx Byte.x44] w'.
Proof.
  destruct (buffered_receive_can_miss_its_wake_up caller_buffer 3 2
              [UartRx Byte.x41; UartRx Byte.x42; UartRx Byte.x43]
              [UartRx Byte.x44] (board_buffered 8) board_buffered_streaming)
    as (w' & H1 & H2 & _).
  - vm_compute. reflexivity.
  - vm_compute. reflexivity.
  - discriminate.
  - vm_compute. split; [reflexivity | discriminate].
  - vm_compute. split; [reflexivity | discriminate].
  - vm_compute. reflexivity.
  - vm_compute. reflexivity.
  - vm_compute. split; reflexivity.
  - exists w'. split; [exact H1 | exact H2].
Defined.
